(* ===== verification/_CoqProject ===== *)
-Q . S2P
Prelude.v
Util.v
Bits.v
Bitmap.v
Spinlock.v
Atomic.v
AtomicLoop.v
MemString.v
ListHead.v
HList.v
Emul.v
ObjPool.v
PagePool.v
PageTable.v
Mmu.v
MmuMap.v
Cpu.v
Printk.v
Uart.v
Ipi.v
Vcpu.v
Gic.v
Vgic.v
VgicLr.v
VgicInject.v
VgicEmul.v
Layout.v
Gicv3.v
Vgic3.v
Vgic3Emul.v
Chain.v
Sched.v
RunQueue.v
MultiQueue.v
SchedSystem.v
SchedEvents.v
Machine.v
Interrupts.v
Rq.v
Lcm.v
Vmm.v
Boot.v
Aborts.v
Smmuv2.v
Smmuv3.v
Smmuv3Queue.v
Smmuv3Streams.v
Smmuv3Init.v
