(* ===== verification/Prelude.v ===== *)
(** * AVISOR: a verification of the hypervisor under src/src

    AVISOR is a type-1 hypervisor for AArch64 derived from Bao.  It boots on every physical CPU,
    creates the virtual machines of its static configuration and then time-shares the physical
    CPUs between them: a two-level scheduler picks a VM by virtual deadline (BFS) and, inside the
    VM, a virtual CPU by priority (BMQ).  This library models its parts as executable Rocq
    functions and proves them correct.

    ** How the program is put together

    - lib/ holds bit operations, bitmaps, ticket spinlocks, atomics, strings and linked lists;
      everything else uses them.
    - core/cpu.c and core/inc/cpu.h keep one record per physical CPU, synchronise the CPUs with a
      counting barrier and pass messages between them by an inter-processor interrupt.
    - core/mem.c hands out physical pages, core/objpool.c objects, core/mmu.c builds the page tables
      of the address spaces over arch/aarch64/arch_page_table.c.
    - arch/aarch64/gic.c and gicv2.c drive the interrupt controller; vgic.c and vgicv2.c give every
      VM a virtual one, by list registers of the hardware and by emulation of the distributor.
    - core/vmm.c brings the machine up: core/vm.c creates each VM, its address space, memory and
      devices, its virtual CPUs and, through core/sched.c, its node of the run queue.
    - core/interrupts.c receives interrupts from [gic_handle]: those of the running VM are injected,
      the timer's calls [update_task_times] of core/sched.c, and on the way back to the guest
      exception.S calls [try_reschedule].
    - arch/aarch64/aborts.c receives the exceptions of guests: accesses to emulated devices go to
      their handler, hypercalls to snapshots (core/lcm.c), shared queues (core/rq.c) and the
      scheduler.

    ** Files

    - [Prelude]: machine words ([wrap]), faults and the state monad [prog], record update, the
      tactics of the library and generic lemmas.
    - [Util]: the arithmetic macros of core/inc/util.h.
    - [Bits] (lib/inc/bit.h), [Bitmap] (lib/bitmap.c, lib/inc/bitmap.h): bit fields and bitmaps over
      32-bit granules; a bitmap is the function from word index to word.
    - [Spinlock] (lib/inc/spinlock.h): the ticket lock, run by one CPU ([spin_lock], [acquire]) and
      as the interleaving of the atomic steps of several CPUs ([lock_step]).  [Atomic]
      (lib/inc/atomic.h): the loops of exclusive instructions those steps are made of, each instruction
      a step of a CPU, refined to a machine on which an operation is one step;
      [AtomicLoop]: the operations made of others.
    - [MemString] (lib/string.c): memory by bytes, copying, filling and strings.
    - [ListHead] (lib/inc/list.h): the circular lists, on a memory of nodes, refined to sequences;
      [HList]: the lists whose nodes point at the pointer to them, refined likewise.
    - [Emul] (core/inc/emul.h, core/vm.c): the emulated devices of a VM.
    - [ObjPool] (core/objpool.c), [PagePool] (core/mem.c): allocation of objects and of pages.
    - [PageTable] (page_table.h, arch_page_table.c), [Mmu] (core/mmu.c), [MmuMap]: entries and
      descriptors; every function of mmu.c; what mapping does to the translations of an address
      space and of the others, proved over an invariant [space_ok] of the tables.
    - [Cpu] (core/inc/cpu.h, lib/inc/atomic.h): the CPU record, [cpu_sync_barrier] and
      [cpu_sync_and_clear_msgs], each as an interleaving.
    - [Ipi] (core/cpu.c): the messages between CPUs.  What a handler may change is the parameter
      [client] of its state.
    - [Vcpu] (core/inc/vm.h, core/vm.c, arch/aarch64/arch_vm.c): virtual CPUs, their registers,
      identities and the translation between virtual and physical CPUs.
    - [Gic] (gic.c, gicv2.c, gic.h): the hardware is the class [GicDevice], the state of a device and
      what reading and writing a register does; [GicLaws] says which registers keep what is written;
      [RegisterFile] is an instance of both.
    - [Vgic] (vgic.c: list registers, routing), [VgicLr], [VgicInject]: the operations on virtual
      interrupts, then that a list register keeps an interrupt's state, that spilled interrupts are
      refilled, and that an injected one is never lost.  [VgicEmul] (vgic.c, vgicv2.c): the
      emulation of the distributor, initialisation and messages.
    - [Layout] (gic.h, smmuv2.h, uart.h): the offsets of the packed register structs.
    - [Gicv3] (gicv3.c, gicv3.h): the driver of the other interrupt controller, over [Gic3Device];
      [Vgic3] (vgic.c in that build, vgicv3.h): routes, list registers and spilled interrupts;
      [Vgic3Emul] (vgicv3.c): the distributor, the redistributors and the trapped system registers.
    - [Sched] (core/sched.c, core/inc/sched.h): every global of the scheduler as a field of
      [sched], every function as a program over it.  Pointers into the node pools are indices;
      NULL is [None].
    - [Chain], [RunQueue], [MultiQueue]: linked chains; the doubly linked run queue and the
      earliest-deadline lookup; the ten FIFO queues of a VM with their bitmap.
    - [SchedSystem]: the invariant [sys_inv] of the whole scheduler over a ghost state that says
      where every node is, and one lemma per scheduling step that preserves it.
    - [SchedEvents]: the events that drive the scheduler on several CPUs (a VM is created, the
      clock advances, a CPU takes its timer interrupt, a guest starts a virtual CPU) as a step
      relation, with safety, isolation and consistency of the queues in every reachable state.
    - [Printk] (lib/printk.c, core/console.c, uart.c): formatted printing to the UART; [Uart]: its
      registers, the setup of its input and the handler of its interrupt.
    - [Smmuv2] (smmuv2.c, smmuv2.h, iommu.c): stream match entries and context banks of the SMMU,
      behind the class [SmmuDevice], with the invariant [streams_ok].
    - [Smmuv3] (smmuv3.c, the second branch of iommu.c): the driver of the SMMUv3, over a device that
      shares memory with it (class [Smmu3Device], laws [Smmu3Laws]); [Smmuv3Queue]: the ring of
      commands, their encoding and execution; [Smmuv3Streams]: what the hardware's walk of the tables
      finds, the invariant [streams_inv] and the devices of a VM; [Smmuv3Init]: bringing it up.
    - [Machine] (core/inc/config.h, arch_mem.c): the state the components share.  Each component
      above is verified over a state of its own; a view ([on_sched], [on_vgic_of], [on_as], ...)
      reads the shared objects into it and writes them back, so that its theorems apply.
    - [Interrupts] (core/interrupts.c, timer.c, [gic_handle]), [Rq] (core/rq.c), [Lcm] (core/lcm.c),
      [Vmm] (core/vmm.c, arch_vmm.c, [vm_init]), [Aborts] (aborts.c, hypercall.c): the handlers that
      join the components, as programs over the machine.  [Boot] (config.c, platform.c, main.c): the
      configuration and the whole start, run from [main] to the first guest.

    ** What the theorems show

    - Isolation and scheduling: in every reachable state of the scheduler a CPU runs a vcpu of the VM
      whose tables are loaded and no vcpu is lost or run twice; mapping in one address space changes
      no other and takes only free pages.
    - Functional behaviour: the queues, lookups, allocators, bitmaps, lists and copies do what they
      are for on every branch; an injected interrupt is pending where the guest sees it; a snapshot
      restores what it took; a queue is mapped where it was asked for.
    - The start: every interrupt of a device goes to one VM or the start stops; from [main] on, the
      configured VMs are created, with their images in pages of their own, and the last one entered.
    - Concurrency: mutual exclusion, order and liveness of the ticket lock, safety of the barrier.
    - Errors: theorems on where the code does something else than it should (a mapping that misses
      its table, a refill that spins, an access at the guest's address in physical memory, ...).

    ** Conventions

    A w-bit unsigned integer is a Z with its wrap-around written out ([u32], [u64]); an int is a Z
    brought back into range by [s32].  Effects are explicit: [prog S A] is a function from the
    state to [Done (a, s')] or [Halt f], where the fault [f] says whether a NULL pointer was
    dereferenced, an object's bounds were exceeded, an assertion failed, ERROR was reached or a loop
    can never end.  The locks of a
    component are fields of its state, so a component's program does take and release them; that
    two CPUs are never inside at once is the theorem on [lock_step].

    Loops whose bound is in the code are structural recursions on that bound.  A walk along a
    linked list takes as fuel the number of nodes of its pool or of the list, which no acyclic list
    exceeds; with the fuel used up the walk halts with [FSpin], as the code would not come back, and
    the theorems show that this does not happen.  [while (p == NULL) p = lookup();] takes a fuel
    argument and the theorems show that one round is enough.  The search for pages takes two rounds,
    that for addresses as many as there are entries, a refill one more than there are spilled
    interrupts; the theorems say so in their hypotheses.  How long the SMMUv3 takes to fetch a command
    is not known: [settles] says that there is a number of rounds from which on the result is always
    the same.

    Parameters stand for what is not code of the repository: [at_s12e1w] for the result of the
    address translation instruction, [glb_barrier] for what the other CPUs do while one waits for
    them, [layout] and [build] for the addresses and sizes the compiler and the linker choose, the
    interrupt controller ([GicDevice]), the SMMUs, and the static configuration, which [Boot] gives
    but for the addresses of the images.  The start in [Boot] is run with fuel 64, more than any of its
    searches takes.

    ** What is not modelled

    Assembly (exception.S, the entry code) and the contents of system registers that no modelled code
    reads are left out.  The Makefile builds with [iommu := none] and [gic_version := 2] by default; of the
    alternatives the SMMUv2, the SMMUv3 and the GICv3 with its virtual controller are modelled, each on
    its own: the machine is composed of the default ones.
    Caches and the order in which other CPUs see writes
    are not modelled: barriers and cache maintenance have no effect.  Printing has no effect in the
    models of the other parts, except that the pointers it dereferences are dereferenced. *)

From Stdlib Require Export ZArith Lia.
From stdpp Require Export base tactics option list functions relations.
#[export] Set Default Proof Using "Type".
Open Scope Z_scope.

(** ** Machine words

    A C unsigned integer of [w] bits is a [Z] in [0, 2^w); every C operation that can leave
    the range is followed by [wrap w]. *)

Definition wrap (w z : Z) : Z := z mod 2 ^ w.

Definition in_word (w z : Z) : Prop := 0 ≤ z < 2 ^ w.

Declare Scope word_scope.
Delimit Scope word_scope with word.
Abbreviation u8 := (wrap 8).
Abbreviation u16 := (wrap 16).
Abbreviation u32 := (wrap 32).
Abbreviation u64 := (wrap 64).
Notation "x +64 y" := (wrap 64 (x + y)) (at level 50, left associativity) : word_scope.
Notation "x -64 y" := (wrap 64 (x - y)) (at level 50, left associativity) : word_scope.
Notation "x *64 y" := (wrap 64 (x * y)) (at level 40, left associativity) : word_scope.
Open Scope word_scope.

(** [(size_t)-1], also [INVALID_CPUID], [MAX_VA] and the "not found" result of the bitmap
    searches. *)
Definition SIZE_MAX : Z := 2 ^ 64 - 1.

(** A C [int] or [ssize_t] read of a word: two's complement. *)
Definition signed (w z : Z) : Z := if z <? 2 ^ (w - 1) then z else z - 2 ^ w.

(** ** Outcomes of a run *)

(** Why a run does not produce a result: the [ERROR] macro (prints, then loops for ever), a
    failed [ASSERT] (the same), a NULL dereference, a spin on a lock nobody releases, a loop
    still spinning when the fuel of the model ends, an access outside the object it is made to, an
    operation C leaves undefined. *)
Inductive fault := FError | FAssert | FNull | FDeadlock | FSpin | FBounds | FUndefined.

#[export] Instance fault_eq_dec : EqDecision fault.
Proof. solve_decision. Defined.

Inductive outcome (A : Type) :=
| Done (a : A)
| Halt (f : fault).
Arguments Done {A} a.
Arguments Halt {A} f.

#[export] Instance outcome_ret : MRet outcome := λ A a, Done a.
#[export] Instance outcome_bind : MBind outcome := λ A B f m,
  match m with Done a => f a | Halt e => Halt e end.

(** State passing with faults: [prog S A] threads the state [S] the C code mutates. *)
Definition prog (S A : Type) : Type := S → outcome (A * S).

#[export] Instance prog_ret {S} : MRet (prog S) := λ A a s, Done (a, s).
#[export] Instance prog_bind {S} : MBind (prog S) := λ A B f m s,
  match m s with Done (a, s') => f a s' | Halt e => Halt e end.

Definition gets {S A} (f : S → A) : prog S A := λ s, Done (f s, s).
Definition modify {S} (f : S → S) : prog S unit := λ s, Done (tt, f s).
Definition halt {S A} (e : fault) : prog S A := λ _, Halt e.

(** Dereference of a pointer that may be NULL. *)
Definition deref {S A} (p : option A) : prog S A :=
  match p with Some a => mret a | None => halt FNull end.

(** [ASSERT(b)]. *)
Definition ASSERT {S} (b : bool) : prog S unit :=
  if b then mret tt else halt FAssert.

(** Run a program on a component of a larger state. *)
Definition lift_prog {S T A} (get : T → S) (put : S → T → T) (m : prog S A) : prog T A :=
  λ t, match m (get t) with Done (a, s) => Done (a, put s t) | Halt e => Halt e end.

Lemma prog_bind_done {S A B} (m : prog S A) (f : A → prog S B) s a s' :
  m s = Done (a, s') → (m ≫= f) s = f a s'.
Proof. intros H. unfold mbind, prog_bind. by rewrite H. Qed.

Lemma prog_bind_inv {S A B} (m : prog S A) (f : A → prog S B) s r :
  (m ≫= f) s = Done r → ∃ a s', m s = Done (a, s') ∧ f a s' = Done r.
Proof.
  unfold mbind, prog_bind. destruct (m s) as [[a s']|e]; [|done]. eauto.
Qed.

(** Repeat [m] until it returns a non-NULL pointer: the loops [while (x == NULL) x = m();].
    Out of fuel is a CPU that still spins. *)
Fixpoint spin_while_null {S A} (fuel : nat) (m : prog S (option A)) : prog S A :=
  match fuel with
  | O => halt FSpin
  | Datatypes.S fuel => p ← m; match p with Some a => mret a | None => spin_while_null fuel m end
  end.

(** ** Record update

    [Eta R] rebuilds a record from its projections; from it [Setter] derives the update of one
    field, written [r <| field := v |>] and [r <| field ::= f |>]. *)
Class Eta (R : Type) := eta : R → R.
Class Setter {R T} (get : R → T) := setter : (T → T) → R → R.
Arguments setter {R T} get {_} f r : simpl never.

Ltac solve_setter :=
  lazymatch goal with
  | |- @Setter ?R ?T ?get =>
    let e := constr:(ltac:(typeclasses eauto) : Eta R) in
    let e := eval hnf in e in
    let e := eval pattern get in e in
    lazymatch e with
    | (fun _ => ?unused) _ => fail "no field" get
    | ?body _ => exact (fun (f : T -> T) (r : R) => body (fun r0 : R => f (get r0)) r)
    end
  end.
#[export] Hint Mode Setter + + + : typeclass_instances.
#[export] Hint Extern 1 (Setter _) => solve_setter : typeclass_instances.
#[warnings="-postfix-notation-not-level-1"]
Notation "r <| f := v |>" := (setter f (λ _, v) r)
  (at level 12, left associativity, f at next level, v at level 200).
#[warnings="-postfix-notation-not-level-1"]
Notation "r <| f ::= g |>" := (setter f g r)
  (at level 12, left associativity, f at next level, g at level 200).

(** Read a field through updates, one step and exhaustively.  The equation is proved on
    variables and then used as a hypothesis, so that the kernel never compares the updated
    values. *)
Ltac rsimpl_assert H R T p q i :=
  lazymatch p with @setter _ _ _ _ _ => fail | _ => idtac end;
  first [ constr_eq p q;
          assert (∀ (f : T → T) (r : R), p (@setter R T q i f r) = f (p r)) as H by (intros; reflexivity)
        | assert (∀ (f : T → T) (r : R), p (@setter R T q i f r) = p r) as H by (intros; reflexivity) ].
Ltac rsimpl1 :=
  match goal with
  | |- context [?p (@setter ?R ?T ?q ?i ?f ?r)] =>
    let H := fresh "E" in rsimpl_assert H R T p q i; rewrite (H f r); clear H
  end.
Ltac rsimpl := repeat (rsimpl1; cbv beta).

Ltac rsimpl1_in H0 :=
  match type of H0 with
  | context [?p (@setter ?R ?T ?q ?i ?f ?r)] =>
    let H := fresh "E" in rsimpl_assert H R T p q i; rewrite (H f r) in H0; clear H
  end.
Ltac rsimpl_in H := repeat (rsimpl1_in H; cbv beta in H).

(** Execution of a program one operation at a time. *)
Lemma bind_gets {S A B} (f : S → A) (k : A → prog S B) s : (gets f ≫= k) s = k (f s) s.
Proof. done. Qed.
Lemma bind_modify {S B} (f : S → S) (k : unit → prog S B) s : (modify f ≫= k) s = k tt (f s).
Proof. done. Qed.
Lemma bind_ret {S A B} (a : A) (k : A → prog S B) s : ((mret a : prog S A) ≫= k) s = k a s.
Proof. done. Qed.
Lemma bind_deref {S A B} (a : A) (k : A → prog S B) s : (deref (Some a) ≫= k) s = k a s.
Proof. done. Qed.
Lemma bind_ASSERT {S B} (k : unit → prog S B) s : (ASSERT true ≫= k) s = k tt s.
Proof. done. Qed.
Lemma bind_bind {S A B C} (m : prog S A) (f : A → prog S B) (k : B → prog S C) s :
  ((m ≫= f) ≫= k) s = (m ≫= λ a, f a ≫= k) s.
Proof. unfold mbind, prog_bind. by destruct (m s) as [[a s']|]. Qed.
Lemma run_modify {S} (f : S → S) s : modify f s = Done (tt, f s).
Proof. done. Qed.
Lemma run_ret {S A} (a : A) (s : S) : (mret a : prog S A) s = Done (a, s).
Proof. done. Qed.

Ltac pstep :=
  first [ rewrite bind_bind | rewrite bind_gets | rewrite bind_modify | rewrite bind_ret
        | rewrite bind_deref | rewrite bind_ASSERT ]; cbv beta; rsimpl.
Ltac psteps := repeat pstep; rewrite ?run_modify, ?run_ret.

(** ** Booleans and [Z] comparisons *)

(** Case analysis on every comparison of the goal, discarding the impossible cases. *)
Ltac zcase :=
  repeat match goal with
  | |- context [?a <? ?b] => destruct (Z.ltb_spec a b); try lia
  | |- context [?a <=? ?b] => destruct (Z.leb_spec a b); try lia
  | |- context [?a =? ?b] => destruct (Z.eqb_spec a b); try lia
  end.

(** Case analysis on the comparisons of the hypotheses as well. *)
Ltac zcase_all :=
  repeat match goal with
  | |- context [?a <? ?b] => destruct (Z.ltb_spec a b); try lia
  | |- context [?a <=? ?b] => destruct (Z.leb_spec a b); try lia
  | |- context [?a =? ?b] => destruct (Z.eqb_spec a b); try lia
  | _ : context [?a <? ?b] |- _ => destruct (Z.ltb_spec a b); try lia
  | _ : context [?a <=? ?b] |- _ => destruct (Z.leb_spec a b); try lia
  | _ : context [?a =? ?b] |- _ => destruct (Z.eqb_spec a b); try lia
  end; try discriminate.

(** Linear arithmetic with divisions and remainders by constants. *)
Ltac dlia := Z.to_euclidean_division_equations; lia.

(** ** Word lemmas *)

Lemma wrap_small w z : 0 ≤ z < 2 ^ w → wrap w z = z.
Proof. intros. unfold wrap. by apply Z.mod_small. Qed.

Lemma wrap_in_word w z : 0 ≤ w → in_word w (wrap w z).
Proof. intros. unfold in_word, wrap. apply Z.mod_pos_bound. lia. Qed.

Lemma wrap_idem w z : 0 ≤ w → wrap w (wrap w z) = wrap w z.
Proof. intros. apply wrap_small. by apply wrap_in_word. Qed.

Lemma testbit_wrap w z i :
  0 ≤ w → Z.testbit (wrap w z) i = (i <? w) && Z.testbit z i.
Proof. intros. unfold wrap. by apply Z.testbit_mod_pow2. Qed.

Lemma testbit_small w z i : 0 ≤ w → in_word w z → w ≤ i → Z.testbit z i = false.
Proof.
  intros Hw Hz Hi. rewrite <-(wrap_small w z Hz). rewrite testbit_wrap by done. by zcase.
Qed.

Lemma testbit_1 i : Z.testbit 1 i = (i =? 0).
Proof. change 1 with (Z.ones 1). rewrite Z.testbit_ones by lia. by zcase. Qed.

Lemma testbit_shiftl z n i :
  0 ≤ i → Z.testbit (Z.shiftl z n) i = Z.testbit z (i - n).
Proof. intros. by apply Z.shiftl_spec. Qed.

Lemma testbit_shiftr z n i :
  0 ≤ i → Z.testbit (Z.shiftr z n) i = Z.testbit z (i + n).
Proof. intros. by apply Z.shiftr_spec. Qed.

Lemma in_word_land w a b : 0 ≤ w → in_word w a → in_word w (Z.land a b).
Proof.
  intros Hw Ha. rewrite <-(wrap_small w a Ha) at 1. unfold wrap.
  rewrite <-Z.land_ones, <-Z.land_assoc, (Z.land_comm _ b), Z.land_assoc, Z.land_ones by done.
  apply Z.mod_pos_bound. lia.
Qed.

Lemma in_word_lor w a b : 0 ≤ w → in_word w a → in_word w b → in_word w (Z.lor a b).
Proof.
  intros Hw Ha Hb.
  assert (Z.lor a b = wrap w (Z.lor a b)) as ->; [|by apply wrap_in_word].
  apply Z.bits_inj'. intros i Hi. rewrite testbit_wrap by done.
  destruct (Z.ltb_spec i w); [done|]. rewrite Z.lor_spec, !(testbit_small w) by done. done.
Qed.

Create HintDb words.
Create Rewrite HintDb words.
Create Rewrite HintDb bits.
Create Rewrite HintDb upd.
#[export] Hint Resolve wrap_in_word in_word_land in_word_lor : words.
#[export] Hint Rewrite wrap_small using (unfold in_word in *; lia) : words.

(** Word equality bit by bit: what remains is a boolean identity over the bits. *)
#[export] Hint Rewrite Z.land_spec Z.lor_spec Z.lxor_spec Z.lnot_spec Z.ldiff_spec
  Z.testbit_0_l testbit_1 testbit_wrap testbit_shiftl testbit_shiftr Z.testbit_ones
  using lia : bits.

Ltac word_bits := apply Z.bits_inj'; intros ?i ?Hi; autorewrite with bits.

(** ** Point updates of C arrays and of memory *)

Lemma upd_eq {A} (f : Z → A) i x : <[i:=x]> f i = x.
Proof. apply fn_lookup_insert. Qed.

Lemma upd_ne {A} (f : Z → A) i j x : i ≠ j → <[i:=x]> f j = f j.
Proof. apply fn_lookup_insert_ne. Qed.

Lemma upd_case {A} (f : Z → A) i j x : <[i:=x]> f j = if decide (i = j) then x else f j.
Proof. done. Qed.

Lemma alter_eq {A} (f : Z → A) i g : alter g i f i = g (f i).
Proof. apply fn_lookup_alter. Qed.

Lemma alter_ne {A} (f : Z → A) i j g : i ≠ j → alter g i f j = f j.
Proof. apply fn_lookup_alter_ne. Qed.

#[export] Hint Rewrite @upd_eq @alter_eq : upd.
#[export] Hint Rewrite @upd_ne @alter_ne using (done || lia || congruence) : upd.

Ltac upd_simp := autorewrite with upd in *.

(** ** Counting in lists *)

Lemma length_filter_insert {A} (P : A → Prop) `{∀ x, Decision (P x)} l i x y :
  l !! i = Some x →
  (length (filter P (<[i:=y]> l)) + (if decide (P x) then 1 else 0) =
   length (filter P l) + (if decide (P y) then 1 else 0))%nat.
Proof.
  revert i. induction l as [|z l IH]; [done|]. intros [|i] Hi; simpl in *.
  - injection Hi as ->. rewrite !filter_cons. repeat case_decide; simpl; lia.
  - specialize (IH i Hi). rewrite !filter_cons. repeat case_decide; simpl; lia.
Qed.

Lemma filter_full {A} (P : A → Prop) `{∀ x, Decision (P x)} l :
  length (filter P l) = length l → Forall P l.
Proof.
  induction l as [|x l IH]; [done|]. rewrite filter_cons. case_decide; simpl; intros Hl.
  - constructor; [done|]. apply IH. lia.
  - pose proof (length_filter P l). lia.
Qed.

Lemma NoDup_range_length (l : list Z) n :
  NoDup l → Forall (λ x, 0 ≤ x < n) l → Z.of_nat (length l) ≤ Z.max 0 n.
Proof.
  intros Hnd Hr. assert (l ⊆+ seqZ 0 n) as Hs.
  { apply NoDup_submseteq; [done|]. intros x Hx. rewrite Forall_forall in Hr.
    apply elem_of_seqZ. specialize (Hr x Hx). lia. }
  apply submseteq_length in Hs. rewrite length_seqZ in Hs. lia.
Qed.
