(* ===== verification/Util.v ===== *)
(** * Arithmetic helpers: src/core/inc/util.h, src/core/inc/mem_cfg.h

    Alignment, page counts and range inclusion on unsigned words. *)
From S2P Require Import Prelude.

Definition PAGE_SIZE : Z := 0x1000.
Definition MAX_VM_NUM : Z := 4.
Definition MAX_VCPU_PER_VM : Z := 4.
Definition MAX_VCPU_NUM : Z := MAX_VM_NUM * MAX_VCPU_PER_VM.

(** [ALIGN(VAL, TO)] at [w] bits. *)
Definition ALIGN (w val to : Z) : Z := wrap w (wrap w (wrap w (val + to) - 1) / to * to).

Definition IS_ALIGNED (val to : Z) : bool := val mod to =? 0.

Definition NUM_PAGES (sz : Z) : Z := ALIGN 64 sz PAGE_SIZE / PAGE_SIZE.

Definition ULONG_MAX : Z := 2 ^ 64 - 1.

(** Is [base1, base1+size1) inside [base2, base2+size2), with saturated ends? *)
Definition range_in_range (base1 size1 base2 size2 : Z) : bool :=
  let limit1 := base1 +64 size1 in
  let limit2 := base2 +64 size2 in
  let limit1 := if limit1 <? base1 then ULONG_MAX else limit1 in
  let limit2 := if limit2 <? base2 then ULONG_MAX else limit2 in
  (base2 <=? base1) && (limit1 <=? limit2).

Definition in_range (addr base size : Z) : bool := range_in_range addr 0 base size.

(** ** What they compute when nothing overflows *)

Lemma ALIGN_ceil w val to :
  0 < w → 0 ≤ val → 0 < to → val + to ≤ 2 ^ w → ALIGN w val to = (val + to - 1) / to * to.
Proof.
  intros Hw Hv Ht Hb. unfold ALIGN.
  assert (0 ≤ val + to - 1 < 2 ^ w) as Hr by lia.
  assert (wrap w (wrap w (val + to) - 1) = val + to - 1) as ->.
  { unfold wrap. rewrite Zminus_mod_idemp_l. by rewrite Z.mod_small. }
  apply wrap_small.
  assert (0 ≤ (val + to - 1) / to) by (apply Z.div_pos; lia).
  pose proof (Z.mul_div_le (val + to - 1) to ltac:(lia)). nia.
Qed.

Lemma ALIGN_bounds w val to :
  0 < w → 0 ≤ val → 0 < to → val + to ≤ 2 ^ w →
  val ≤ ALIGN w val to < val + to ∧ ALIGN w val to mod to = 0.
Proof.
  intros Hw Hv Ht Hb. rewrite ALIGN_ceil by done. rewrite Z.mod_mul by lia.
  pose proof (Z.div_mod (val + to - 1) to ltac:(lia)).
  pose proof (Z.mod_pos_bound (val + to - 1) to ltac:(lia)). nia.
Qed.

Lemma NUM_PAGES_ceil sz :
  0 ≤ sz → sz + PAGE_SIZE ≤ 2 ^ 64 → NUM_PAGES sz = (sz + PAGE_SIZE - 1) / PAGE_SIZE.
Proof.
  intros. unfold NUM_PAGES. rewrite ALIGN_ceil by (unfold PAGE_SIZE in *; lia).
  by rewrite Z.div_mul.
Qed.

Lemma range_in_range_spec base1 size1 base2 size2 :
  in_word 64 base1 → in_word 64 base2 → 0 ≤ size1 → 0 ≤ size2 →
  base1 + size1 < 2 ^ 64 → base2 + size2 < 2 ^ 64 →
  range_in_range base1 size1 base2 size2 = true ↔ base2 ≤ base1 ∧ base1 + size1 ≤ base2 + size2.
Proof.
  intros H1 H2 Hs1 Hs2 Hb1 Hb2. unfold in_word in *. unfold range_in_range.
  rewrite !wrap_small by lia. rewrite andb_true_iff, !Z.leb_le. zcase; lia.
Qed.
