(* ===== verification/Bits.v ===== *)
(** * Bit operations: src/lib/inc/bit.h

    The header generates the same seven functions for [uint32_t] ([bit32_*]), [uint64_t]
    ([bit64_*]) and [unsigned long] ([bit_*]) with the macro [BIT_OPS_GEN]; here they are one
    set of definitions over the width [w].  The theorems give the bit-level meaning of each
    operation, the insert/extract round trip, and the search and count loops. *)
From S2P Require Import Prelude.

(** [(((1 << (LEN-1)) << 1) - 1) << OFF], each step at width [w]. *)
Definition BIT_MASK (w off len : Z) : Z :=
  wrap w (Z.shiftl (wrap w (wrap w (Z.shiftl (wrap w (Z.shiftl 1 (len - 1))) 1) - 1)) off).

Abbreviation BIT32_MASK := (BIT_MASK 32).
Abbreviation BIT64_MASK := (BIT_MASK 64).

Definition bit_get (w word off : Z) : Z := Z.land word (wrap w (Z.shiftl 1 off)).

Definition bit_set (w word off : Z) : Z := Z.lor word (wrap w (Z.shiftl 1 off)).

Definition bit_clear (w word off : Z) : Z :=
  Z.land word (wrap w (Z.lnot (wrap w (Z.shiftl 1 off)))).

Definition bit_extract (w word off len : Z) : Z :=
  Z.land (Z.shiftr word off) (BIT_MASK w 0 len).

Definition bit_insert (w word val off len : Z) : Z :=
  Z.lor (Z.land (wrap w (Z.lnot (BIT_MASK w off len))) word)
        (wrap w (Z.shiftl (Z.land (BIT_MASK w 0 len) val) off)).

(** The loop of [_ffs]: the mask walks up one bit at a time until it meets a set bit of the
    word or falls off the top ([mask = 0]).  [w + 1] rounds are enough. *)
Fixpoint ffs_loop (w word : Z) (fuel : nat) (mask pos : Z) : Z * Z :=
  match fuel with
  | O => (mask, pos)
  | S fuel =>
      if mask =? 0 then (mask, pos)
      else if Z.land mask word =? 0
           then ffs_loop w word fuel (wrap w (Z.shiftl mask 1)) (pos +64 1)
           else (mask, pos)
  end.

Definition bit_ffs (w word : Z) : Z :=
  let '(mask, pos) := ffs_loop w word (Z.to_nat w + 1) 1 0 in
  if mask =? 0 then SIZE_MAX else pos.

Fixpoint count_loop (w word : Z) (fuel : nat) (mask count : Z) : Z :=
  match fuel with
  | O => count
  | S fuel =>
      if mask =? 0 then count
      else count_loop w word fuel (wrap w (Z.shiftl mask 1))
             (if Z.land mask word =? 0 then count else count +64 1)
  end.

Definition bit_count (w word : Z) : Z := count_loop w word (Z.to_nat w + 1) 1 0.

(** ** Masks *)

Lemma BIT_MASK_ones w len : 1 ≤ len ≤ w → BIT_MASK w 0 len = Z.ones len.
Proof.
  intros H. unfold BIT_MASK. rewrite Z.shiftl_0_r, Z.ones_equiv.
  rewrite (Z.shiftl_mul_pow2 1), Z.mul_1_l by lia.
  rewrite (wrap_small w (2 ^ (len - 1))).
  2:{ split; [lia|]. apply Z.pow_lt_mono_r; lia. }
  rewrite Z.shiftl_mul_pow2 by lia.
  replace (2 ^ (len - 1) * 2 ^ 1) with (2 ^ len) by (rewrite <-Z.pow_add_r by lia; f_equal; lia).
  destruct (decide (len = w)) as [->|].
  - assert (0 < 2 ^ w) by lia. unfold wrap. rewrite Z.mod_same by lia.
    rewrite Zmod_mod. symmetry. apply Z.mod_unique with (-1); lia.
  - assert (2 ^ len < 2 ^ w) by (apply Z.pow_lt_mono_r; lia).
    assert (0 < 2 ^ len) by (apply Z.pow_pos_nonneg; lia).
    rewrite (wrap_small w (2 ^ len)) by lia. rewrite wrap_idem, wrap_small by lia. lia.
Qed.

Lemma testbit_BIT_MASK w off len i :
  0 ≤ off → 1 ≤ len ≤ w → 0 ≤ i →
  Z.testbit (BIT_MASK w off len) i = (i <? w) && (off <=? i) && (i <? off + len).
Proof.
  intros. assert (BIT_MASK w off len = wrap w (Z.shiftl (BIT_MASK w 0 len) off)) as ->.
  { unfold BIT_MASK. f_equal. rewrite Z.shiftl_0_r. by rewrite wrap_idem by lia. }
  rewrite BIT_MASK_ones by done. autorewrite with bits. by zcase.
Qed.

Lemma in_word_BIT_MASK w off len : 0 ≤ w → in_word w (BIT_MASK w off len).
Proof. intros. by apply wrap_in_word. Qed.

#[export] Hint Resolve in_word_BIT_MASK : words.
#[export] Hint Rewrite testbit_BIT_MASK using lia : bits.

(** ** Single bits *)

Lemma testbit_bit_set w word off i :
  0 ≤ off < w → 0 ≤ i → Z.testbit (bit_set w word off) i = Z.testbit word i || (i =? off).
Proof.
  intros. unfold bit_set. autorewrite with bits. f_equal. by zcase.
Qed.

Lemma testbit_bit_clear w word off i :
  0 ≤ off < w → 0 ≤ i < w →
  Z.testbit (bit_clear w word off) i = Z.testbit word i && negb (i =? off).
Proof.
  intros. unfold bit_clear. autorewrite with bits.
  by zcase; simpl; rewrite ?andb_true_r, ?andb_false_r.
Qed.

Lemma land_single_zero word m :
  0 ≤ m → (Z.land (2 ^ m) word =? 0) = negb (Z.testbit word m).
Proof.
  intros. destruct (Z.testbit word m) eqn:Hb; simpl.
  - apply Z.eqb_neq. intros H0.
    assert (Z.testbit (Z.land (2 ^ m) word) m = false) as Hf by (by rewrite H0, Z.testbit_0_l).
    by rewrite Z.land_spec, Z.pow2_bits_true, Hb in Hf.
  - apply Z.eqb_eq. apply Z.bits_inj'. intros i Hi. rewrite Z.land_spec, Z.testbit_0_l.
    destruct (decide (i = m)) as [->|].
    + by rewrite Hb, andb_false_r.
    + by rewrite Z.pow2_bits_false.
Qed.

Lemma bit_get_spec w word off :
  0 ≤ off < w → (bit_get w word off =? 0) = negb (Z.testbit word off).
Proof.
  intros. unfold bit_get. rewrite Z.shiftl_mul_pow2, Z.mul_1_l by lia.
  rewrite wrap_small. 2:{ split; [lia|]. apply Z.pow_lt_mono_r; lia. }
  rewrite Z.land_comm. apply land_single_zero. lia.
Qed.

(** ** Fields *)

Lemma testbit_bit_extract w word off len i :
  0 ≤ off → 1 ≤ len ≤ w → 0 ≤ i →
  Z.testbit (bit_extract w word off len) i = (i <? len) && Z.testbit word (i + off).
Proof.
  intros. unfold bit_extract. autorewrite with bits.
  zcase; simpl; by rewrite ?andb_true_r, ?andb_false_r.
Qed.

Lemma bit_extract_mod w word off len :
  0 ≤ off → 1 ≤ len ≤ w → bit_extract w word off len = Z.shiftr word off mod 2 ^ len.
Proof.
  intros. apply Z.bits_inj'. intros i Hi. rewrite testbit_bit_extract by done.
  fold (wrap len (Z.shiftr word off)). by autorewrite with bits.
Qed.

Lemma bit_extract_bound w word off len :
  0 ≤ off → 1 ≤ len ≤ w → 0 ≤ bit_extract w word off len < 2 ^ len.
Proof. intros. rewrite bit_extract_mod by done. apply Z.mod_pos_bound. lia. Qed.

Lemma testbit_bit_insert w word val off len i :
  in_word w word → 0 ≤ off → 1 ≤ len → off + len ≤ w → 0 ≤ i →
  Z.testbit (bit_insert w word val off len) i =
    if (off <=? i) && (i <? off + len) then Z.testbit val (i - off) else Z.testbit word i.
Proof.
  intros Hw Hoff Hlen Hle Hi. unfold bit_insert.
  destruct (Z.ltb_spec i w) as [Hiw|Hiw].
  - autorewrite with bits.
    destruct (decide (off ≤ i)).
    + autorewrite with bits. zcase; simpl; by rewrite ?andb_false_r, ?orb_false_r.
    + rewrite (Z.testbit_neg_r _ (i - off)) by lia.
      zcase; simpl; by rewrite ?andb_false_r, ?orb_false_r.
  - autorewrite with bits. rewrite (testbit_small w word) by (done || lia). by zcase.
Qed.

(** Inserting a field and extracting it again gives the inserted value truncated to the
    field, and leaves every other bit of the word alone. *)
Theorem bit_insert_extract w word val off len :
  in_word w word → 0 ≤ off → 1 ≤ len → off + len ≤ w →
  bit_extract w (bit_insert w word val off len) off len = wrap len val ∧
  in_word w (bit_insert w word val off len) ∧
  (∀ i, 0 ≤ i → ¬ (off ≤ i < off + len) →
     Z.testbit (bit_insert w word val off len) i = Z.testbit word i).
Proof.
  intros Hw Hoff Hlen Hle. split_and!.
  - apply Z.bits_inj'. intros i Hi.
    rewrite testbit_bit_extract, testbit_wrap by lia.
    destruct (Z.ltb_spec i len); [|done]. simpl.
    rewrite testbit_bit_insert by (done || lia). zcase. simpl. f_equal. lia.
  - unfold bit_insert. auto 6 with words lia.
  - intros i Hi Hout. rewrite testbit_bit_insert by done. by zcase.
Qed.

Lemma bit_insert_extract_witness :
  in_word 32 0xffffffff ∧ bit_extract 32 (bit_insert 32 0xffffffff 0x1a5 8 8) 8 8 = 0xa5.
Proof.
  split; [unfold in_word; lia|].
  destruct (bit_insert_extract 32 0xffffffff 0x1a5 8 8) as (H & _ & _);
    [unfold in_word; lia..|]. rewrite H. reflexivity.
Defined.

(** ** Searching and counting *)

Lemma mask_step w k :
  0 ≤ k → 0 < w →
  wrap w (Z.shiftl (wrap w (2 ^ k)) 1) = wrap w (2 ^ (k + 1)).
Proof.
  intros. unfold wrap. rewrite Z.shiftl_mul_pow2 by lia.
  rewrite Zmult_mod_idemp_l. f_equal. rewrite Z.pow_add_r by lia. done.
Qed.

Lemma mask_one w : 0 < w → wrap w (2 ^ 0) = 1.
Proof. intros. apply wrap_small. pose proof (Z.pow_gt_1 2 w). lia. Qed.

Lemma mask_zero w k : 0 ≤ k → 0 < w → (wrap w (2 ^ k) =? 0) = (w <=? k).
Proof.
  intros. destruct (Z.leb_spec w k).
  - apply Z.eqb_eq. unfold wrap. replace k with ((k - w) + w) by lia.
    rewrite Z.pow_add_r by lia. apply Z_mod_mult.
  - apply Z.eqb_neq. rewrite wrap_small; [lia|].
    split; [lia|]. apply Z.pow_lt_mono_r; lia.
Qed.

Lemma mask_land w k word :
  0 ≤ k < w → (Z.land (wrap w (2 ^ k)) word =? 0) = negb (Z.testbit word k).
Proof.
  intros. rewrite wrap_small; [apply land_single_zero; lia|].
  split; [lia|]. apply Z.pow_lt_mono_r; lia.
Qed.

Lemma ffs_loop_spec w word fuel k :
  0 < w ≤ 64 → 0 ≤ k ≤ w → (Z.to_nat (w - k) < fuel)%nat →
  (∃ p, k ≤ p < w ∧ ffs_loop w word fuel (wrap w (2 ^ k)) k = (wrap w (2 ^ p), p) ∧
        Z.testbit word p = true ∧ ∀ j, k ≤ j < p → Z.testbit word j = false) ∨
  (ffs_loop w word fuel (wrap w (2 ^ k)) k = (0, w) ∧
   ∀ j, k ≤ j < w → Z.testbit word j = false).
Proof.
  intros Hw. revert k. induction fuel as [|fuel IH]; intros k Hk Hf; [lia|].
  cbn [ffs_loop]. rewrite mask_zero by lia.
  destruct (Z.leb_spec w k).
  { right. assert (k = w) as -> by lia. split; [|lia].
    unfold wrap. by rewrite Z.mod_same by lia. }
  rewrite mask_land by lia. destruct (Z.testbit word k) eqn:Hb; simpl.
  { left. exists k. split_and!; [lia..|done|done|lia]. }
  rewrite mask_step by lia. rewrite (wrap_small 64 (k + 1)) by lia.
  destruct (IH (k + 1) ltac:(lia) ltac:(lia)) as [(p & Hp & -> & Hbp & Hlow)|[-> Hlow]].
  - left. exists p. split_and!; [lia..|done|done|].
    intros j Hj. destruct (decide (j = k)) as [->|]; [done|]. apply Hlow. lia.
  - right. split; [done|]. intros j Hj.
    destruct (decide (j = k)) as [->|]; [done|]. apply Hlow. lia.
Qed.

(** [_ffs] returns the index of the lowest set bit, or [(size_t)-1] when there is none. *)
Lemma bit_ffs_spec w word :
  0 < w ≤ 64 →
  (0 ≤ bit_ffs w word < w ∧ Z.testbit word (bit_ffs w word) = true ∧
     ∀ j, 0 ≤ j < bit_ffs w word → Z.testbit word j = false) ∨
  (bit_ffs w word = SIZE_MAX ∧ ∀ j, 0 ≤ j < w → Z.testbit word j = false).
Proof.
  intros Hw. unfold bit_ffs.
  pose proof (mask_one w ltac:(lia)) as H1.
  destruct (ffs_loop_spec w word (Z.to_nat w + 1) 0) as [(p & Hp & Hl & Hb & Hlow)|[Hl Hlow]];
    [lia..| |].
  - left. rewrite H1 in Hl. rewrite Hl, mask_zero by lia. zcase. split_and!; try lia; done.
  - right. rewrite H1 in Hl. by rewrite Hl.
Qed.

(** The set bits of a word, lowest first. *)
Definition set_bits (w word : Z) : list Z := filter (λ i, Z.testbit word i = true) (seqZ 0 w).

Lemma count_loop_spec w word fuel k count :
  0 < w ≤ 64 → 0 ≤ k ≤ w → (Z.to_nat (w - k) < fuel)%nat → 0 ≤ count ≤ k →
  count_loop w word fuel (wrap w (2 ^ k)) count =
    count + Z.of_nat (length (filter (λ i, Z.testbit word i = true) (seqZ k (w - k)))).
Proof.
  intros Hw. revert k count. induction fuel as [|fuel IH]; intros k count Hk Hf Hc; [lia|].
  cbn [count_loop]. rewrite mask_zero by lia.
  destruct (Z.leb_spec w k).
  { rewrite seqZ_nil by lia. simpl. lia. }
  rewrite mask_land, mask_step by lia.
  rewrite (seqZ_cons k) by lia. rewrite filter_cons.
  replace (Z.pred (w - k)) with (w - (k + 1)) by lia. rewrite <-Z.add_1_r.
  case_decide as Hd.
  - rewrite Hd. simpl. rewrite (wrap_small 64 (count + 1)) by lia. rewrite IH by lia. simpl. lia.
  - apply not_true_is_false in Hd. rewrite Hd. simpl. rewrite IH by lia. done.
Qed.

Lemma bit_count_spec w word :
  0 < w ≤ 64 → bit_count w word = Z.of_nat (length (set_bits w word)).
Proof.
  intros Hw. unfold bit_count.
  rewrite <-(mask_one w) at 1 by lia.
  rewrite count_loop_spec by lia. unfold set_bits. by rewrite Z.sub_0_r.
Qed.
