(* ===== verification/Bitmap.v ===== *)
(** * Bitmaps: src/lib/inc/bitmap.h and src/lib/bitmap.c

    A [bitmap_t*] is a pointer to 32-bit granules: a function from the granule's index to its
    value.  Nothing bounds the accesses of the C code, so neither does the model: a bit past
    the bitmap is a bit of the memory that follows it.  [bit_at] is the abstract view the
    theorems use.  The loops run on fuel computed from their bounds ([size] and [n]); the
    lemmas show that this is enough for every bitmap shorter than 2^63 bits. *)
From S2P Require Import Prelude Bits.

Abbreviation bitmap_t := (Z → Z).

Definition BITMAP_GRANULE_LEN : Z := 32.

(** [BITMAP_SIZE(SIZE)]: how many granules hold [SIZE] bits. *)
Definition BITMAP_SIZE (size : Z) : Z :=
  size / BITMAP_GRANULE_LEN + (if size mod BITMAP_GRANULE_LEN =? 0 then 0 else 1).

Definition bitmap_set (map : bitmap_t) (bit : Z) : bitmap_t :=
  let k := bit / BITMAP_GRANULE_LEN in
  <[k := Z.lor (map k) (u32 (Z.shiftl 1 (bit mod BITMAP_GRANULE_LEN)))]> map.

Definition bitmap_clear (map : bitmap_t) (bit : Z) : bitmap_t :=
  let k := bit / BITMAP_GRANULE_LEN in
  <[k := Z.land (map k) (u32 (Z.lnot (u32 (Z.shiftl 1 (bit mod BITMAP_GRANULE_LEN)))))]> map.

Definition bitmap_get (map : bitmap_t) (bit : Z) : Z :=
  if Z.land (map (bit / BITMAP_GRANULE_LEN)) (u32 (Z.shiftl 1 (bit mod BITMAP_GRANULE_LEN))) =? 0
  then 0 else 1.

(** [for (i = 0; i < n; i++) bitmap_clear(map, start + i)], the first index kept in [at_]. *)
Fixpoint clear_loop (map : bitmap_t) (at_ : Z) (n : nat) : bitmap_t :=
  match n with
  | O => map
  | S n => clear_loop (bitmap_clear map at_) (at_ +64 1) n
  end.

Definition bitmap_clear_consecutive (map : bitmap_t) (start n : Z) : bitmap_t :=
  clear_loop map start (Z.to_nat n).

(** [bitmap_count] counts from [start] up to the index [n] (not over [n] bits). *)
Fixpoint bitmap_count_loop (map : bitmap_t) (set : bool) (i count : Z) (fuel : nat) : Z :=
  match fuel with
  | O => count
  | S fuel =>
      bitmap_count_loop map set (i +64 1)
        (if bitmap_get map i =? Z.b2z set then count +64 1 else count) fuel
  end.

Definition bitmap_count (map : bitmap_t) (start n : Z) (set : bool) : Z :=
  bitmap_count_loop map set start 0 (Z.to_nat (n - start)).

(** ** bitmap.c *)

(** [for (i = start; i < size; i++) if (bitmap_get(map, i) == bit) if (++count == nth) return i]. *)
Fixpoint find_nth_loop (map : bitmap_t) (bit nth i count : Z) (fuel : nat) : Z :=
  match fuel with
  | O => SIZE_MAX
  | S fuel =>
      if bitmap_get map i =? bit
      then if count +64 1 =? nth then i
           else find_nth_loop map bit nth (i +64 1) (count +64 1) fuel
      else find_nth_loop map bit nth (i +64 1) count fuel
  end.

Definition bitmap_find_nth (map : bitmap_t) (size nth start : Z) (set : bool) : Z :=
  if (size <=? 0) || (nth <=? 0) || (start <? 0) then SIZE_MAX
  else find_nth_loop map (if set then 1 else 0) nth start 0 (Z.to_nat (size - start)).

(** The second phase of [bitmap_count_consecutive]: whole granules. *)
Fixpoint count_words (map : bitmap_t) (size n mask pos count : Z) (fuel : nat) : Z * Z :=
  match fuel with
  | O => (pos, count)
  | S fuel =>
      if (pos <? size) && (Z.lxor (map (pos / BITMAP_GRANULE_LEN)) mask =? 0) && (count <? n)
      then count_words map size n mask (pos +64 BITMAP_GRANULE_LEN)
             (count +64 BITMAP_GRANULE_LEN) fuel
      else (pos, count)
  end.

(** The third phase: bit by bit. *)
Fixpoint count_bits (map : bitmap_t) (size n : Z) (set : bool) (pos count : Z) (fuel : nat) : Z :=
  match fuel with
  | O => count
  | S fuel =>
      if (pos <? size) && Bool.eqb (negb (bitmap_get map pos =? 0)) set && (count <? n)
      then count_bits map size n set (pos +64 1) (count +64 1) fuel
      else count
  end.

Definition bitmap_count_consecutive (map : bitmap_t) (size start n : Z) : Z :=
  let start_offset := start mod BITMAP_GRANULE_LEN in
  let first_word_bits := Z.min (BITMAP_GRANULE_LEN - start_offset) n in
  let set := negb (bitmap_get map start =? 0) in
  let init_mask := BIT32_MASK start_offset first_word_bits in
  if n <=? 1 then n
  else
    let mask := if set then init_mask else u32 (Z.lnot init_mask) in
    let '(pos, count) :=
      if Z.land (Z.lxor (map (start / BITMAP_GRANULE_LEN)) mask) init_mask =? 0
      then (start +64 first_word_bits, 0 +64 first_word_bits)
      else (start, 0) in
    let mask := if set then u32 (Z.lnot 0) else 0 in
    let '(pos, count) := count_words map size n mask pos count (Z.to_nat (size - pos)) in
    count_bits map size n set pos count (Z.to_nat (size - pos)).

(** The search loop of [bitmap_find_consec]: skip a run that is too short, then the run of
    opposite bits after it.  [break] leaves [i] as it is. *)
Fixpoint find_consec_loop (map : bitmap_t) (size n i : Z) (fuel : nat) : Z :=
  match fuel with
  | O => i
  | S fuel =>
      if i <? size
      then
        let count := bitmap_count_consecutive map size i n in
        if count <? n
        then
          let i := i +64 count in
          let i := i +64 bitmap_count_consecutive map size i SIZE_MAX in
          find_consec_loop map size n i fuel
        else i
      else i
  end.

(** [(i = bitmap_find_nth(...)) < 0] compares a [size_t] with 0: the branch is dead, and a
    failed first search leaves [i = SIZE_MAX], which the last test turns into the result. *)
Definition bitmap_find_consec (map : bitmap_t) (size start n : Z) (set : bool) : Z :=
  let i := bitmap_find_nth map size 1 start set in
  let i := find_consec_loop map size n i (Z.to_nat (size - i)) in
  if size <=? i then SIZE_MAX else i.

(** [while (count >= 32)]: whole granules set to ones. *)
Fixpoint set_words (map : bitmap_t) (pos count : Z) (fuel : nat) : bitmap_t * Z * Z :=
  match fuel with
  | O => (map, pos, count)
  | S fuel =>
      if BITMAP_GRANULE_LEN <=? count
      then
        let k := pos / BITMAP_GRANULE_LEN in
        set_words (<[k := Z.lor (map k) (u32 (Z.lnot 0))]> map) (pos +64 BITMAP_GRANULE_LEN)
          (count -64 BITMAP_GRANULE_LEN) fuel
      else (map, pos, count)
  end.

Definition bitmap_set_consecutive (map : bitmap_t) (start n : Z) : bitmap_t :=
  let start_offset := start mod BITMAP_GRANULE_LEN in
  let first_word_bits := Z.min (BITMAP_GRANULE_LEN - start_offset) n in
  let k := start / BITMAP_GRANULE_LEN in
  let map := <[k := Z.lor (map k) (BIT32_MASK start_offset first_word_bits)]> map in
  let '(map, pos, count) :=
    set_words map (start +64 first_word_bits) (n -64 first_word_bits) (Z.to_nat (n / 32)) in
  if 0 <? count
  then
    let k := pos / BITMAP_GRANULE_LEN in
    <[k := Z.lor (map k) (BIT32_MASK 0 count)]> map
  else map.

(** ** The abstract view *)

Definition bit_at (map : bitmap_t) (i : Z) : bool := Z.testbit (map (i / 32)) (i mod 32).

(** Every granule is a [uint32_t]. *)
Definition words_ok (map : bitmap_t) : Prop := ∀ k, in_word 32 (map k).

(** Bits [i, i + k) all have value [b]. *)
Definition run (map : bitmap_t) (b : bool) (i k : Z) : Prop :=
  ∀ j, i ≤ j < i + k → bit_at map j = b.

Lemma granule_eq i j : 0 ≤ i → 0 ≤ j → i / 32 = j / 32 → i mod 32 = j mod 32 → i = j.
Proof. intros. rewrite (Z.div_mod i 32), (Z.div_mod j 32) by lia. lia. Qed.

Lemma bitmap_get_spec map i : 0 ≤ i → bitmap_get map i = Z.b2z (bit_at map i).
Proof.
  intros. unfold bitmap_get, bit_at, BITMAP_GRANULE_LEN.
  pose proof (Z.mod_pos_bound i 32 ltac:(lia)).
  pose proof (bit_get_spec 32 (map (i / 32)) (i mod 32) ltac:(lia)) as Hg.
  unfold bit_get in Hg. rewrite Hg. by destruct (Z.testbit _ _).
Qed.

Lemma bitmap_get_eqb map i b : 0 ≤ i → (bitmap_get map i =? Z.b2z b) = Bool.eqb (bit_at map i) b.
Proof. intros. rewrite bitmap_get_spec by done. by destruct (bit_at map i), b. Qed.

Lemma bitmap_get_negb map i : 0 ≤ i → negb (bitmap_get map i =? 0) = bit_at map i.
Proof. intros. rewrite bitmap_get_spec by done. by destruct (bit_at map i). Qed.

(** Updating one granule: the bits of the other granules stay. *)
Lemma bit_at_upd map k x i :
  bit_at (<[k := x]> map) i = if decide (i / 32 = k) then Z.testbit x (i mod 32) else bit_at map i.
Proof.
  unfold bit_at. case_decide as Hd; [by subst; rewrite upd_eq|].
  by rewrite upd_ne by congruence.
Qed.

Lemma bit_at_set map i j :
  0 ≤ i → 0 ≤ j → bit_at (bitmap_set map i) j = bit_at map j || (j =? i).
Proof.
  intros. unfold bitmap_set, BITMAP_GRANULE_LEN. rewrite bit_at_upd.
  pose proof (Z.mod_pos_bound j 32 ltac:(lia)). pose proof (Z.mod_pos_bound i 32 ltac:(lia)).
  case_decide as Hd.
  - pose proof (testbit_bit_set 32 (map (i / 32)) (i mod 32) (j mod 32)) as Hs.
    unfold bit_set in Hs. rewrite Hs by lia. unfold bit_at. rewrite Hd. f_equal.
    destruct (Z.eqb_spec j i) as [->|Hne]; [lia|]. apply Z.eqb_neq.
    intros ?. apply Hne. by apply granule_eq.
  - destruct (Z.eqb_spec j i) as [->|]; [done|]. by rewrite orb_false_r.
Qed.

Lemma bit_at_clear map i j :
  0 ≤ i → 0 ≤ j → bit_at (bitmap_clear map i) j = bit_at map j && negb (j =? i).
Proof.
  intros. unfold bitmap_clear, BITMAP_GRANULE_LEN. rewrite bit_at_upd.
  pose proof (Z.mod_pos_bound j 32 ltac:(lia)). pose proof (Z.mod_pos_bound i 32 ltac:(lia)).
  case_decide as Hd.
  - pose proof (testbit_bit_clear 32 (map (i / 32)) (i mod 32) (j mod 32)) as Hs.
    unfold bit_clear in Hs. rewrite Hs by lia. unfold bit_at. rewrite Hd. f_equal.
    destruct (Z.eqb_spec j i) as [->|Hne]; [by rewrite Z.eqb_refl|].
    f_equal. apply Z.eqb_neq. intros ?. apply Hne. by apply granule_eq.
  - destruct (Z.eqb_spec j i) as [->|]; [done|]. by rewrite andb_true_r.
Qed.

Lemma words_ok_upd map k x : words_ok map → in_word 32 x → words_ok (<[k := x]> map).
Proof. intros Hm Hx j. rewrite upd_case. by case_decide. Qed.

Lemma words_ok_set map i : words_ok map → words_ok (bitmap_set map i).
Proof. intros Hm. apply words_ok_upd; [done|]. apply in_word_lor; auto with words lia. Qed.

Lemma words_ok_clear map i : words_ok map → words_ok (bitmap_clear map i).
Proof. intros Hm. apply words_ok_upd; [done|]. apply in_word_land; auto with words lia. Qed.

#[export] Hint Resolve words_ok_upd words_ok_set words_ok_clear : words.

Lemma run_nil map b i k : k ≤ 0 → run map b i k.
Proof. intros ? j Hj. lia. Qed.

Lemma run_app map b i k l : 0 ≤ k → run map b i k → run map b (i + k) l → run map b i (k + l).
Proof.
  intros ? H1 H2 j Hj. destruct (decide (j < i + k)); [apply H1|apply H2]; lia.
Qed.

Lemma run_sub map b i k i' k' : i ≤ i' → i' + k' ≤ i + k → run map b i k → run map b i' k'.
Proof. intros ?? H j Hj. apply H. lia. Qed.

Lemma run_one map b i : bit_at map i = b → run map b i 1.
Proof. intros ? j Hj. by replace j with i by lia. Qed.

(** ** Clearing and setting runs *)

Lemma clear_loop_spec map s n i :
  0 ≤ s → s + Z.of_nat n < 2 ^ 64 → 0 ≤ i →
  bit_at (clear_loop map s n) i = bit_at map i && negb ((s <=? i) && (i <? s + Z.of_nat n)).
Proof.
  revert map s. induction n as [|n IH]; intros map s Hs Hn Hi; cbn [clear_loop].
  - zcase; simpl; by rewrite andb_true_r.
  - rewrite (wrap_small 64) by lia. rewrite IH, bit_at_clear by lia. rewrite <-andb_assoc. f_equal.
    zcase; try done.
Qed.

Lemma bitmap_clear_consecutive_spec map s n i :
  0 ≤ s → 0 ≤ n → s + n < 2 ^ 64 → 0 ≤ i →
  bit_at (bitmap_clear_consecutive map s n) i = bit_at map i && negb ((s <=? i) && (i <? s + n)).
Proof. intros. unfold bitmap_clear_consecutive. rewrite clear_loop_spec by lia. by rewrite Z2Nat.id. Qed.

Lemma words_ok_clear_consecutive map s n :
  words_ok map → words_ok (bitmap_clear_consecutive map s n).
Proof.
  unfold bitmap_clear_consecutive. generalize (Z.to_nat n). intros k. revert map s.
  induction k; simpl; auto with words.
Qed.

(** OR-ing the mask of bits [[o, o + l)] of the granule [k] sets exactly those bits. *)
Lemma bit_at_or_mask map k o l i :
  0 ≤ k → 0 ≤ o → 1 ≤ l → o + l ≤ 32 → 0 ≤ i →
  bit_at (<[k := Z.lor (map k) (BIT32_MASK o l)]> map) i =
    bit_at map i || ((32 * k + o <=? i) && (i <? 32 * k + o + l)).
Proof.
  intros. rewrite bit_at_upd. pose proof (Z.mod_pos_bound i 32 ltac:(lia)).
  pose proof (Z.div_mod i 32 ltac:(lia)). case_decide as Hd.
  - rewrite Z.lor_spec, testbit_BIT_MASK by lia. unfold bit_at. rewrite Hd. f_equal.
    by zcase.
  - assert ((32 * k + o <=? i) && (i <? 32 * k + o + l) = false) as ->; [zcase; try done; lia|].
    by rewrite orb_false_r.
Qed.

Lemma ones_BIT_MASK : u32 (Z.lnot 0) = BIT32_MASK 0 32.
Proof. reflexivity. Qed.

Lemma set_words_spec map pos count fuel :
  0 ≤ pos → pos mod 32 = 0 → 0 ≤ count → pos + count < 2 ^ 63 →
  (Z.to_nat (count / 32) ≤ fuel)%nat →
  ∃ map', set_words map pos count fuel = (map', pos + 32 * (count / 32), count mod 32) ∧
    (words_ok map → words_ok map') ∧
    ∀ i, 0 ≤ i →
      bit_at map' i = bit_at map i || ((pos <=? i) && (i <? pos + 32 * (count / 32))).
Proof.
  revert map pos count. induction fuel as [|fuel IH]; intros map pos count Hp Ha Hc Hb Hf.
  - assert (count / 32 = 0) as Hz by (pose proof (Z.div_pos count 32); lia).
    pose proof (Z.div_mod count 32 ltac:(lia)). exists map. rewrite Hz. cbn [set_words].
    split; [do 2 f_equal; lia|]. split; [done|]. intros i Hi.
    zcase; simpl; by rewrite orb_false_r.
  - cbn [set_words]. unfold BITMAP_GRANULE_LEN. destruct (Z.leb_spec 32 count).
    + rewrite !(wrap_small 64) by lia.
      assert (count / 32 = (count - 32) / 32 + 1) as Hdiv.
      { replace count with (count - 32 + 1 * 32) at 1 by lia. by rewrite Z.div_add by lia. }
      assert (count mod 32 = (count - 32) mod 32) as Hmod.
      { replace count with (count - 32 + 1 * 32) at 1 by lia. by rewrite Z.mod_add by lia. }
      destruct (IH (<[pos / 32 := Z.lor (map (pos / 32)) (u32 (Z.lnot 0))]> map) (pos + 32)
        (count - 32)) as (map' & Hs & Hok & Hbits); [dlia..|].
      exists map'. rewrite Hs, Hdiv, Hmod. split; [do 2 f_equal; lia|]. split.
      { intros Hm. apply Hok. apply words_ok_upd; [done|]. auto with words lia. }
      intros i Hi. rewrite Hbits, ones_BIT_MASK, bit_at_or_mask by (first [apply Z.div_pos|idtac]; lia).
      pose proof (Z.div_mod pos 32 ltac:(lia)). rewrite <-orb_assoc. f_equal.
      pose proof (Z.div_pos (count - 32) 32 ltac:(lia) ltac:(lia)). zcase; done.
    + exists map. rewrite (Z.div_small count), (Z.mod_small count) by lia.
      split; [do 2 f_equal; lia|]. split; [done|]. intros i Hi.
      zcase; simpl; by rewrite orb_false_r.
Qed.

Lemma bit_at_set_consecutive map start n :
  0 ≤ start → 1 ≤ n → start + n < 2 ^ 63 →
  ∀ i, 0 ≤ i →
    bit_at (bitmap_set_consecutive map start n) i =
      bit_at map i || ((start <=? i) && (i <? start + n)).
Proof.
  intros Hs Hn Hb i Hi. unfold bitmap_set_consecutive, BITMAP_GRANULE_LEN.
  pose proof (Z.div_mod start 32 ltac:(lia)) as Hdm.
  pose proof (Z.mod_pos_bound start 32 ltac:(lia)) as Hmb.
  set (f := Z.min (32 - start mod 32) n).
  assert (1 ≤ f ≤ 32 ∧ f ≤ n) as Hf by lia.
  rewrite !(wrap_small 64) by lia.
  pose proof (Z.div_pos start 32 Hs ltac:(lia)).
  destruct (decide (f = n)) as [Hfn|Hfn].
  - rewrite Hfn, Z.sub_diag.
    assert (∀ m p k, set_words m p 0 k = (m, p, 0)) as -> by (by intros ?? []).
    simpl. rewrite bit_at_or_mask by lia. f_equal. zcase; done.
  - assert (f = 32 - start mod 32) as Hfe by lia.
    destruct (set_words_spec
      (<[start / 32 := Z.lor (map (start / 32)) (BIT32_MASK (start mod 32) f)]> map)
      (start + f) (n - f) (Z.to_nat (n / 32))) as (map' & -> & _ & Hbits); try lia.
    { replace (start + f) with ((start / 32 + 1) * 32) by lia. apply Z.mod_mul. lia. }
    { apply Z2Nat.inj_le; [apply Z.div_pos; lia..|]. apply Z.div_le_mono; lia. }
    pose proof (Z.mod_pos_bound (n - f) 32 ltac:(lia)).
    pose proof (Z.div_mod (n - f) 32 ltac:(lia)).
    pose proof (Z.div_pos (n - f) 32 ltac:(lia) ltac:(lia)).
    set (q := (n - f) / 32) in *. set (r := (n - f) mod 32) in *.
    assert ((start + f + 32 * q) / 32 = start / 32 + 1 + q) as Hpos.
    { replace (start + f + 32 * q) with ((start / 32 + 1 + q) * 32) by lia.
      apply Z.div_mul. lia. }
    destruct (Z.ltb_spec 0 r).
    + rewrite bit_at_or_mask, Hbits, bit_at_or_mask by lia.
      rewrite <-!orb_assoc. f_equal. zcase; done.
    + rewrite Hbits, bit_at_or_mask by lia. rewrite <-!orb_assoc. f_equal. zcase; done.
Qed.

Lemma words_ok_set_words map pos count fuel :
  words_ok map → words_ok (set_words map pos count fuel).1.1.
Proof.
  revert map pos count. induction fuel as [|fuel IH]; intros map pos count Hm; [done|].
  cbn [set_words]. case_match; [|done]. apply IH. auto with words lia.
Qed.

Lemma words_ok_set_consecutive map start n :
  words_ok map → words_ok (bitmap_set_consecutive map start n).
Proof.
  intros Hm. unfold bitmap_set_consecutive.
  match goal with |- context [set_words ?m ?p ?c ?k] =>
    pose proof (words_ok_set_words m p c k) as H; destruct (set_words m p c k) as [[m' p'] c'] end.
  simpl in H. assert (words_ok m') by (apply H; auto with words lia).
  case_match; auto with words lia.
Qed.

#[export] Hint Resolve words_ok_set_consecutive words_ok_clear_consecutive : words.

(** [bitmap_set_consecutive(map, start, n)] sets exactly the bits [start .. start+n-1] and
    [bitmap_clear_consecutive] clears exactly those: every other bit, in the bitmap and in the
    memory around it, keeps its value, so that clearing a run that was free before it was set
    restores every bit.  Granules stay 32-bit words. *)
Theorem bitmap_set_consecutive_spec map start n :
  words_ok map → 0 ≤ start → 1 ≤ n → start + n < 2 ^ 63 →
  words_ok (bitmap_set_consecutive map start n) ∧
  (∀ i, 0 ≤ i → bit_at (bitmap_set_consecutive map start n) i =
     bit_at map i || ((start <=? i) && (i <? start + n))) ∧
  (run map false start n → ∀ i, 0 ≤ i →
     bit_at (bitmap_clear_consecutive (bitmap_set_consecutive map start n) start n) i =
     bit_at map i).
Proof.
  intros Hm Hs Hn Hb. split_and!; [auto with words|intros; by apply bit_at_set_consecutive|].
  intros Hrun i Hi. rewrite bitmap_clear_consecutive_spec, bit_at_set_consecutive by lia.
  destruct (decide (start ≤ i < start + n)) as [Hin|Hout].
  - rewrite (Hrun i Hin). by zcase.
  - by zcase; simpl; rewrite ?orb_false_r, ?andb_true_r.
Qed.

Lemma bitmap_set_consecutive_spec_witness :
  words_ok (λ _, 0) ∧
  bit_at (bitmap_set_consecutive (λ _, 0) 5 70) 74 = true ∧
  bit_at (bitmap_set_consecutive (λ _, 0) 5 70) 75 = false.
Proof.
  assert (words_ok (λ _, 0)) as Hok by (intros ?; unfold in_word; lia).
  destruct (bitmap_set_consecutive_spec (λ _, 0) 5 70 Hok) as (_ & H & _); [lia..|].
  split; [exact Hok|]. split; rewrite H by lia; reflexivity.
Defined.

(** ** [bitmap_find_nth] *)

(** How many of the [k] bits from [s] on have value [b]. *)
Definition matching (map : bitmap_t) (b : bool) (s k : Z) : Z :=
  Z.of_nat (length (filter (λ j, bit_at map j = b) (seqZ s k))).

Lemma matching_nil map b s k : k ≤ 0 → matching map b s k = 0.
Proof. intros. unfold matching. by rewrite seqZ_nil. Qed.

Lemma matching_cons map b s k :
  0 < k →
  matching map b s k = (if Bool.eqb (bit_at map s) b then 1 else 0) + matching map b (s + 1) (k - 1).
Proof.
  intros. unfold matching. rewrite seqZ_cons, filter_cons by done.
  replace (Z.pred k) with (k - 1) by lia. rewrite <-Z.add_1_r.
  case_decide as Hd.
  - rewrite Hd, Bool.eqb_reflx. simpl. lia.
  - destruct (Bool.eqb (bit_at map s) b) eqn:He; [|done]. by apply Bool.eqb_prop in He.
Qed.

Lemma matching_app map b s k l :
  0 ≤ k → 0 ≤ l → matching map b s (k + l) = matching map b s k + matching map b (s + k) l.
Proof.
  intros. unfold matching. rewrite seqZ_app, list.filter_app, length_app by done. lia.
Qed.

Lemma matching_nonneg map b s k : 0 ≤ matching map b s k.
Proof. unfold matching. lia. Qed.

Lemma matching_zero map b s k j :
  matching map b s k = 0 → s ≤ j < s + k → bit_at map j = negb b.
Proof.
  unfold matching. intros H Hj.
  destruct (decide (bit_at map j = b)) as [Hb|]; [|by destruct (bit_at map j), b].
  assert (j ∈ filter (λ j, bit_at map j = b) (seqZ s k)) as Hin.
  { apply list_elem_of_filter. split; [done|]. apply elem_of_seqZ. lia. }
  destruct (filter _ _); [by apply not_elem_of_nil in Hin|]. simpl in H. lia.
Qed.

Lemma find_nth_loop_spec map set nth i count fuel :
  0 ≤ i → i + Z.of_nat fuel < 2 ^ 64 → 0 ≤ count < nth → nth < 2 ^ 64 →
  let r := find_nth_loop map (Z.b2z set) nth i count fuel in
  (r = SIZE_MAX ∧ count + matching map set i (Z.of_nat fuel) < nth) ∨
  (i ≤ r < i + Z.of_nat fuel ∧ bit_at map r = set ∧ count + matching map set i (r - i) = nth - 1).
Proof.
  intros Hi Hf Hc Hn. revert i count Hi Hf Hc.
  induction fuel as [|fuel IH]; intros i count Hi Hf Hc; cbn [find_nth_loop]; cbv zeta.
  - left. rewrite matching_nil by lia. lia.
  - rewrite bitmap_get_eqb by done. rewrite (matching_cons map set i) by lia.
    rewrite !(wrap_small 64) by lia.
    replace (Z.of_nat (S fuel) - 1) with (Z.of_nat fuel) by lia.
    destruct (Bool.eqb (bit_at map i) set) eqn:He.
    + apply Bool.eqb_prop in He. destruct (Z.eqb_spec (count + 1) nth).
      * right. rewrite Z.sub_diag, matching_nil by lia. split_and!; [lia..|done|lia].
      * destruct (IH (i + 1) (count + 1) ltac:(lia) ltac:(lia) ltac:(lia))
          as [[-> ?]|(Hr & Hb & Hm)]; [left; split; [done|lia]|].
        right. split_and!; [lia..|done|]. rewrite (matching_cons map set i) by lia.
        rewrite He, Bool.eqb_reflx.
        match type of Hm with context [matching _ _ _ ?x] =>
          match goal with |- context [matching _ _ (i + 1) ?y] => replace y with x by lia end end.
        lia.
    + destruct (IH (i + 1) count ltac:(lia) ltac:(lia) ltac:(lia))
        as [[-> ?]|(Hr & Hb & Hm)]; [left; split; [done|lia]|].
      right. split_and!; [lia..|done|]. rewrite (matching_cons map set i) by lia. rewrite He.
      match type of Hm with context [matching _ _ _ ?x] =>
        match goal with |- context [matching _ _ (i + 1) ?y] => replace y with x by lia end end.
      lia.
Qed.

Lemma bitmap_find_nth_cases map size nth start set :
  0 ≤ start → 0 ≤ size < 2 ^ 63 → 1 ≤ nth < 2 ^ 63 →
  let r := bitmap_find_nth map size nth start set in
  (r = SIZE_MAX ∧ matching map set start (size - start) < nth) ∨
  (start ≤ r < size ∧ bit_at map r = set ∧ matching map set start (r - start) = nth - 1).
Proof.
  intros Hs Hsz Hn r. subst r. unfold bitmap_find_nth.
  destruct (Z.leb_spec size 0).
  { left. split; [by zcase|]. rewrite matching_nil; lia. }
  destruct (Z.leb_spec nth 0); [lia|]. destruct (Z.ltb_spec start 0); [lia|]. simpl.
  destruct (decide (size ≤ start)) as [Hle|Hlt].
  { left. replace (Z.to_nat (size - start)) with 0%nat by lia. simpl. split; [done|].
    rewrite matching_nil; lia. }
  pose proof (find_nth_loop_spec map set nth start 0 (Z.to_nat (size - start))
    ltac:(lia) ltac:(lia) ltac:(lia) ltac:(lia)) as H2. cbv zeta in H2.
  replace (Z.b2z set) with (if set then 1 else 0) in H2 by done.
  rewrite Z2Nat.id in H2 by lia.
  destruct H2 as [[-> ?]|(Hr & Hb & Hm)]; [left; split; [done|lia]|].
  right. split_and!; [lia..|done|lia].
Qed.

(** The case the allocators use: the first match, with no match before it. *)
Lemma bitmap_find_first map size start set :
  0 ≤ start → 0 ≤ size < 2 ^ 63 →
  let r := bitmap_find_nth map size 1 start set in
  (r = SIZE_MAX ∧ ∀ j, start ≤ j < size → bit_at map j = negb set) ∨
  (start ≤ r < size ∧ bit_at map r = set ∧ ∀ j, start ≤ j < r → bit_at map j = negb set).
Proof.
  intros Hs Hsz. cbv zeta.
  destruct (bitmap_find_nth_cases map size 1 start set Hs Hsz ltac:(lia)) as [[Hr Hm]|(Hr & Hb & Hm)].
  - left. split; [done|]. intros j Hj. pose proof (matching_nonneg map set start (size - start)).
    apply (matching_zero map set start (size - start)); lia.
  - right. split; [done|]. split; [done|]. intros j Hj.
    eapply matching_zero; [|instantiate (2 := start)]; [exact Hm|lia].
Qed.

(** C16: [bitmap_find_nth] returns the position of the [nth] bit equal to [set] at or after
    [start]: that bit matches and exactly [nth - 1] earlier ones do; it returns [(size_t)-1]
    exactly when fewer than [nth] bits match. *)
Theorem bitmap_find_nth_spec map size nth start set :
  0 ≤ start → 0 ≤ size < 2 ^ 63 → 1 ≤ nth < 2 ^ 63 →
  let r := bitmap_find_nth map size nth start set in
  (r = SIZE_MAX ↔ matching map set start (size - start) < nth) ∧
  (r ≠ SIZE_MAX →
     start ≤ r < size ∧ bit_at map r = set ∧ matching map set start (r - start) = nth - 1).
Proof.
  intros Hs Hsz Hn. cbv zeta.
  pose proof (bitmap_find_nth_cases map size nth start set Hs Hsz Hn) as Hc. cbv zeta in Hc.
  unfold SIZE_MAX in *.
  destruct Hc as [[Hr Hm]|(Hr & Hb & Hm)]; (split; [split|]); try done; try lia.
  intros Hlt. exfalso. revert Hlt Hm Hr Hb. generalize (bitmap_find_nth map size nth start set).
  intros r Hlt Hm Hr Hb. pose proof (matching_app map set start (r - start) (size - r)).
  replace (r - start + (size - r)) with (size - start) in * by lia.
  replace (start + (r - start)) with r in * by lia.
  pose proof (matching_cons map set r (size - r) ltac:(lia)).
  rewrite Hb, Bool.eqb_reflx in *. pose proof (matching_nonneg map set (r + 1) (size - r - 1)). lia.
Qed.

Lemma bitmap_find_nth_spec_witness :
  (0 ≤ 1 ∧ 0 ≤ 40 < 2 ^ 63 ∧ 1 ≤ 2 < 2 ^ 63) ∧
  bitmap_find_nth (λ k, if k =? 1 then 0x12 else 0) 40 2 1 true = 36 ∧
  bit_at (λ k, if k =? 1 then 0x12 else 0) 36 = true.
Proof.
  split; [lia|]. split; [reflexivity|].
  destruct (bitmap_find_nth_spec (λ k, if k =? 1 then 0x12 else 0) 40 2 1 true
    ltac:(lia) ltac:(lia) ltac:(lia)) as [_ H].
  apply H. vm_compute. discriminate.
Defined.


(** ** [bitmap_count_consecutive] *)

Lemma land_zero_bits a m :
  Z.land a m = 0 ↔ ∀ i, 0 ≤ i → Z.testbit a i && Z.testbit m i = false.
Proof.
  split.
  - intros H i Hi. by rewrite <-Z.land_spec, H, Z.testbit_0_l.
  - intros H. apply Z.bits_inj'. intros i Hi. rewrite Z.land_spec, Z.testbit_0_l. by apply H.
Qed.

(** The masked comparison of the first granule tests exactly the bits of the run. *)
Lemma first_granule_run map (set : bool) start f :
  0 ≤ start → 1 ≤ f ≤ 32 - start mod 32 →
  let init := BIT32_MASK (start mod 32) f in
  (Z.land (Z.lxor (map (start / 32)) (if set then init else u32 (Z.lnot init))) init =? 0) = true
  ↔ run map set start f.
Proof.
  intros Hs Hf init. pose proof (Z.mod_pos_bound start 32 ltac:(lia)) as Hm.
  pose proof (Z.div_mod start 32 ltac:(lia)) as Hdm.
  rewrite Z.eqb_eq, land_zero_bits. split.
  - intros H j Hj. unfold bit_at.
    pose proof (Z.mod_pos_bound j 32 ltac:(lia)).
    assert (j / 32 = start / 32) as -> by dlia. specialize (H (j mod 32) ltac:(lia)).
    revert H. rewrite Z.lxor_spec. unfold init.
    destruct set; autorewrite with bits; zcase; try dlia; simpl; by destruct (Z.testbit _ _).
  - intros H i Hi. unfold init. autorewrite with bits.
    destruct (decide (start mod 32 ≤ i < start mod 32 + f)) as [Hin|Hout].
    + pose proof (H (32 * (start / 32) + i) ltac:(lia)) as Hb. unfold bit_at in Hb.
      replace ((32 * (start / 32) + i) / 32) with (start / 32) in Hb by dlia.
      replace ((32 * (start / 32) + i) mod 32) with i in Hb by dlia.
      rewrite Hb. destruct set; autorewrite with bits; by zcase.
    + assert ((i <? 32) && (start mod 32 <=? i) && (i <? start mod 32 + f) = false) as ->.
      { zcase; try done; lia. }
      apply andb_false_r.
Qed.

(** The whole-granule comparison. *)
Lemma granule_run map (set : bool) k :
  words_ok map → 0 ≤ k →
  (Z.lxor (map k) (if set then u32 (Z.lnot 0) else 0) =? 0) = true ↔ run map set (32 * k) 32.
Proof.
  intros Hm Hk. rewrite Z.eqb_eq, Z.lxor_eq_0_iff. split.
  - intros H j Hj. unfold bit_at. replace (j / 32) with k by dlia. rewrite H.
    pose proof (Z.mod_pos_bound j 32 ltac:(lia)).
    destruct set; autorewrite with bits; by zcase.
  - intros H. apply Z.bits_inj'. intros i Hi.
    destruct (decide (i < 32)) as [Hlt|].
    + specialize (H (32 * k + i) ltac:(lia)). unfold bit_at in H.
      replace ((32 * k + i) / 32) with k in H by dlia.
      replace ((32 * k + i) mod 32) with i in H by dlia. rewrite H.
      destruct set; autorewrite with bits; by zcase.
    + rewrite (testbit_small 32) by (apply Hm || lia).
      destruct set; autorewrite with bits; by zcase.
Qed.

Lemma count_words_run map size n (set : bool) pos count fuel :
  words_ok map → 0 ≤ pos → pos mod 32 = 0 → size < 2 ^ 63 → pos ≤ 2 ^ 63 + 32 →
  0 ≤ count ≤ pos →
  ∃ k, 0 ≤ k ∧ run map set pos k ∧
    count_words map size n (if set then u32 (Z.lnot 0) else 0) pos count fuel =
      (pos + k, count + k) ∧ (k = 0 ∨ (pos + k - 32 < size ∧ (pos + k) mod 32 = 0)).
Proof.
  intros Hm. revert pos count. induction fuel as [|fuel IH]; intros pos count Hp Ha Hs Hb Hc.
  { exists 0. cbn [count_words]. rewrite !Z.add_0_r.
    split_and!; [lia|by apply run_nil|done|by left]. }
  cbn [count_words]. unfold BITMAP_GRANULE_LEN.
  destruct (Z.ltb_spec pos size); cbn [andb].
  2:{ exists 0. rewrite !Z.add_0_r. split_and!; [lia|by apply run_nil|done|by left]. }
  destruct (Z.lxor (map (pos / 32)) (if set then u32 (Z.lnot 0) else 0) =? 0) eqn:Hx; cbn [andb].
  2:{ exists 0. rewrite !Z.add_0_r. split_and!; [lia|by apply run_nil|done|by left]. }
  destruct (Z.ltb_spec count n).
  2:{ exists 0. rewrite !Z.add_0_r. split_and!; [lia|by apply run_nil|done|by left]. }
  apply granule_run in Hx; [|done|apply Z.div_pos; lia].
  replace (32 * (pos / 32)) with pos in Hx by dlia.
  rewrite !(wrap_small 64) by lia.
  destruct (IH (pos + 32) (count + 32)) as (k & Hk & Hrun & -> & Hend); [dlia..|].
  exists (32 + k). split_and!; [lia| |f_equal; lia|right; split; [lia|dlia]].
  apply run_app; [lia|done|]. by replace (pos + 32) with (pos + 32) in Hrun by lia.
Qed.

Lemma count_words_stop map size n (set : bool) pos count fuel j :
  words_ok map → 0 ≤ pos → j / 32 = pos / 32 → bit_at map j = negb set →
  count_words map size n (if set then u32 (Z.lnot 0) else 0) pos count fuel = (pos, count).
Proof.
  intros Hm Hp Hj Hb. destruct fuel as [|fuel]; [done|]. cbn [count_words].
  destruct (Z.lxor (map (pos / BITMAP_GRANULE_LEN)) (if set then u32 (Z.lnot 0) else 0) =? 0)
    eqn:Hx.
  2:{ rewrite andb_false_r. done. }
  apply granule_run in Hx; [|done|apply Z.div_pos; unfold BITMAP_GRANULE_LEN; lia].
  unfold BITMAP_GRANULE_LEN in Hx. rewrite (Hx j) in Hb by dlia. by destruct set.
Qed.

Lemma count_words_enough map size n mask pos count fuel :
  n ≤ count → count_words map size n mask pos count fuel = (pos, count).
Proof.
  intros. destruct fuel; [done|]. cbn [count_words].
  destruct (Z.ltb_spec count n); [lia|]. by rewrite andb_false_r.
Qed.

Lemma count_bits_run map size n set pos count fuel :
  0 ≤ pos → size < 2 ^ 63 → pos < 2 ^ 63 + 64 → 0 ≤ count ≤ pos →
  (Z.to_nat (size - pos) ≤ fuel)%nat →
  ∃ k, 0 ≤ k ∧ run map set pos k ∧ count_bits map size n set pos count fuel = count + k ∧
    (k = 0 ∨ pos + k ≤ size) ∧
    (size ≤ pos + k ∨ n ≤ count + k ∨ bit_at map (pos + k) = negb set).
Proof.
  revert pos count. induction fuel as [|fuel IH]; intros pos count Hp Hs Hb Hc Hf.
  { exists 0. cbn [count_bits]. rewrite !Z.add_0_r.
    split_and!; [lia|by apply run_nil|done|by left|lia]. }
  cbn [count_bits]. rewrite bitmap_get_negb by done.
  destruct (Z.ltb_spec pos size); cbn [andb].
  2:{ exists 0. rewrite !Z.add_0_r. split_and!; [lia|by apply run_nil|done|by left|lia]. }
  destruct (Bool.eqb (bit_at map pos) set) eqn:He; cbn [andb].
  2:{ exists 0. rewrite !Z.add_0_r. split_and!; [lia|by apply run_nil|done|by left|].
      right; right. by destruct (bit_at map pos), set. }
  apply Bool.eqb_prop in He.
  destruct (Z.ltb_spec count n).
  2:{ exists 0. rewrite !Z.add_0_r. split_and!; [lia|by apply run_nil|done|by left|lia]. }
  rewrite !(wrap_small 64) by lia.
  destruct (IH (pos + 1) (count + 1)) as (k & Hk & Hrun & -> & Hle & Hend); [lia..|].
  exists (1 + k). split_and!; [lia| |lia|lia|].
  - apply run_app; [lia|by apply run_one|done].
  - rewrite !Z.add_assoc. done.
Qed.

(** The three phases together: the count is the length of the run of bits equal to the first
    one, cut off (at the earliest) at [n]. *)
Lemma count_consecutive_cases map size start n :
  words_ok map → 0 ≤ start ≤ 2 ^ 63 → 0 ≤ size < 2 ^ 63 → 1 ≤ n →
  let r := bitmap_count_consecutive map size start n in
  0 ≤ r ∧ run map (bit_at map start) start r ∧
  (size ≤ start + r ∨ n ≤ r ∨ bit_at map (start + r) = negb (bit_at map start)) ∧
  start + r < Z.max size start + 33 ∧
  (start < size → size mod 32 = 0 → start + r ≤ size ∨ r = 1).
Proof.
  intros Hm Hs Hsz Hn. cbv zeta. unfold bitmap_count_consecutive, BITMAP_GRANULE_LEN.
  rewrite bitmap_get_negb by lia. set (set := bit_at map start).
  destruct (Z.leb_spec n 1) as [Hn1|Hn1].
  { split_and!; [lia|replace n with 1 by lia; by apply run_one|lia|lia|right; lia]. }
  pose proof (Z.mod_pos_bound start 32 ltac:(lia)) as Hmb.
  set (f := Z.min (32 - start mod 32) n).
  assert (1 ≤ f ≤ 32 - start mod 32 ∧ f ≤ n) as Hf by lia.
  pose proof (first_granule_run map set start f ltac:(lia) ltac:(lia)) as Hfirst. cbv zeta in Hfirst.
  destruct (Z.land _ _ =? 0) eqn:Hx.
  - apply proj1 in Hfirst. specialize (Hfirst eq_refl).
    rewrite !(wrap_small 64) by lia. cbn [fst snd].
    assert (∃ k, 0 ≤ k ∧ run map set (start + f) k ∧
      count_words map size n (if set then u32 (Z.lnot 0) else 0) (start + f) (0 + f)
        (Z.to_nat (size - (start + f))) = (start + f + k, f + k) ∧
      (k = 0 ∨ (start + f + k - 32 < size ∧ (start + f + k) mod 32 = 0)))
      as (k & Hk & Hrk & -> & Hek).
    { rewrite Z.add_0_l. destruct (decide (f = n)) as [Heq|].
      - exists 0. rewrite !Z.add_0_r, count_words_enough by lia.
        split_and!; [lia|by apply run_nil|done|by left].
      - apply count_words_run; [done|lia| |lia..]. dlia. }
    destruct (count_bits_run map size n set (start + f + k) (f + k)
      (Z.to_nat (size - (start + f + k)))) as (l & Hl & Hrl & -> & Hel & Hend);
      [destruct Hek; lia..|lia|].
    split_and!; [lia| |..].
    + rewrite <-Z.add_assoc. apply run_app; [lia|done|]. by apply run_app.
    + rewrite !Z.add_assoc. destruct Hend as [?|[?|?]]; [left; lia|right; left; lia|by right; right].
    + destruct Hel as [->|], Hek as [->|]; lia.
    + intros Hlt Hal. left. destruct Hel as [->|]; [|lia].
      destruct Hek as [->|[Hk1 Hk2]]; [|dlia]. rewrite !Z.add_0_r. dlia.
  - assert (¬ run map set start f) as Hnr by (intros Hr; apply Hfirst in Hr; congruence).
    assert (∃ j, start ≤ j < start + f ∧ bit_at map j = negb set) as (j & Hj & Hjb).
    { clear -Hnr Hf. destruct (decide (Exists (λ j, bit_at map j = negb set) (seqZ start f))) as [He|He].
      - apply list.Exists_exists in He as (j & Hj & Hb). apply elem_of_seqZ in Hj. by exists j.
      - exfalso. apply Hnr. intros j Hj.
        destruct (decide (bit_at map j = set)) as [|Hne]; [done|]. exfalso. apply He.
        apply list.Exists_exists. exists j. split; [apply elem_of_seqZ; lia|].
        by destruct (bit_at map j), set. }
    rewrite (count_words_stop map size n set start 0 _ j) by (done || dlia).
    destruct (count_bits_run map size n set start 0 (Z.to_nat (size - start)))
      as (l & Hl & Hrl & -> & Hel & Hend); [lia..|].
    rewrite Z.add_0_l. split_and!; [lia|done| |destruct Hel as [->|]; lia|].
    + destruct Hend as [?|[?|?]]; [left; lia|right; left; lia|by right; right].
    + intros. left. destruct Hel as [->|]; lia.
Qed.

(** The count makes progress on a start inside the bitmap. *)
Lemma count_consecutive_pos map size start n :
  words_ok map → 0 ≤ start < size → size < 2 ^ 63 → 1 ≤ n →
  1 ≤ bitmap_count_consecutive map size start n.
Proof.
  intros Hm Hs Hsz Hn.
  destruct (count_consecutive_cases map size start n Hm ltac:(lia) ltac:(lia) Hn)
    as (H0 & _ & Hend & _).
  destruct (decide (bitmap_count_consecutive map size start n = 0)) as [Hz|]; [|lia].
  rewrite Hz, Z.add_0_r in Hend. destruct Hend as [?|[?|Hb]]; [lia..|].
  by destruct (bit_at map start).
Qed.

(** ** [bitmap_find_consec] *)

(** [n] matching bits fit at [i] inside the bitmap. *)
Definition fits (map : bitmap_t) (set : bool) (size n i : Z) : Prop :=
  i + n ≤ size ∧ run map set i n.

(** No window fits at a position whose run is shorter than [n]. *)
Lemma short_run_not_fits map set size n i c j :
  run map set i c → i ≤ j < i + c → c < n →
  (size ≤ i + c ∨ bit_at map (i + c) = negb set) → ¬ fits map set size n j.
Proof.
  intros Hr Hj Hc Hend [Hle Hf]. destruct Hend as [?|Hb]; [lia|].
  rewrite (Hf (i + c)) in Hb by lia. by destruct set.
Qed.

Lemma find_consec_loop_spec map set size n start i fuel :
  words_ok map → size mod 32 = 0 → 0 ≤ size < 2 ^ 63 → 1 ≤ n → 0 ≤ start ≤ i →
  i < size + 64 → (i < size → bit_at map i = set) →
  (∀ j, start ≤ j < i → ¬ fits map set size n j) →
  (Z.to_nat (size - i) ≤ fuel)%nat →
  let r := find_consec_loop map size n i fuel in
  (size ≤ r < 2 ^ 64 ∧ ∀ j, start ≤ j → ¬ fits map set size n j) ∨
  (start ≤ r < size ∧ fits map set size n r ∧ ∀ j, start ≤ j < r → ¬ fits map set size n j).
Proof.
  intros Hm Hal Hsz Hn. revert i. induction fuel as [|fuel IH]; intros i Hi Hb Hbit Hno Hf; cbv zeta.
  { cbn [find_consec_loop]. left. split; [lia|]. intros j Hj.
    destruct (decide (j < i)); [apply Hno; lia|]. intros [? _]. lia. }
  cbn [find_consec_loop]. destruct (Z.ltb_spec i size) as [Hlt|Hge].
  2:{ left. split; [lia|]. intros j Hj.
      destruct (decide (j < i)); [apply Hno; lia|]. intros [? _]. lia. }
  specialize (Hbit Hlt).
  destruct (count_consecutive_cases map size i n Hm ltac:(lia) Hsz Hn)
    as (Hc0 & Hrun & Hend & _ & Hle).
  pose proof (count_consecutive_pos map size i n Hm ltac:(lia) ltac:(lia) Hn) as Hc1.
  specialize (Hle Hlt Hal). rewrite Hbit in Hrun, Hend.
  set (c := bitmap_count_consecutive map size i n) in *.
  destruct (Z.ltb_spec c n) as [Hcn|Hcn].
  2:{ right. split_and!; [lia..| |by intros j Hj; apply Hno; lia].
      split; [lia|]. apply (run_sub _ _ i c); [lia..|done]. }
  assert (i + c ≤ size) by lia. rewrite (wrap_small 64 (i + c)) by lia.
  destruct (count_consecutive_cases map size (i + c) SIZE_MAX Hm ltac:(lia) Hsz ltac:(done))
    as (Hd0 & Hrun2 & Hend2 & Hbd & Hle2).
  set (d := bitmap_count_consecutive map size (i + c) SIZE_MAX) in *.
  rewrite (wrap_small 64 (i + c + d)) by lia.
  assert (∀ j, start ≤ j < i + c → ¬ fits map set size n j) as Hno1.
  { intros j Hj. destruct (decide (j < i)); [apply Hno; lia|].
    apply (short_run_not_fits map set size n i c); [done|lia..|].
    destruct Hend as [?|[?|?]]; [by left|lia|by right]. }
  destruct (decide (i + c < size)) as [Hin|Hout].
  - assert (bit_at map (i + c) = negb set) as Hneg.
    { destruct Hend as [?|[?|?]]; [lia..|done]. }
    assert (1 ≤ d) by (apply count_consecutive_pos; (done || lia)).
    specialize (Hle2 Hin Hal). rewrite Hneg in Hrun2, Hend2.
    apply IH; [lia..| | |lia].
    + intros Hlt2. destruct Hend2 as [?|[?|Hb2]]; [lia|unfold SIZE_MAX in *; lia|].
      by rewrite negb_involutive in Hb2.
    + intros j Hj. destruct (decide (j < i + c)); [apply Hno1; lia|].
      intros [_ Hf2]. pose proof (Hf2 j ltac:(lia)) as Ha.
      rewrite (Hrun2 j) in Ha by lia. by destruct set.
  - apply IH; [lia..| |lia]. intros j Hj.
    destruct (decide (j < i + c)); [apply Hno1; lia|]. intros [? _]. lia.
Qed.

(** The result of [bitmap_find_consec] on a bitmap of whole granules: the first window of [n]
    matching bits that fits, or [(size_t)-1] when none fits. *)
Lemma find_consec_cases map size start n set :
  words_ok map → size mod 32 = 0 → 0 ≤ size < 2 ^ 63 → 1 ≤ n → 0 ≤ start →
  let r := bitmap_find_consec map size start n set in
  (r = SIZE_MAX ∧ ∀ j, start ≤ j → ¬ fits map set size n j) ∨
  (start ≤ r < size ∧ fits map set size n r ∧ ∀ j, start ≤ j < r → ¬ fits map set size n j).
Proof.
  intros Hm Hal Hsz Hn Hs. cbv zeta. unfold bitmap_find_consec.
  pose proof (bitmap_find_first map size start set Hs Hsz) as Hff. cbv zeta in Hff.
  destruct Hff as [[Hr Hnone]|(Hr & Hb & Hbefore)].
  - rewrite Hr. replace (Z.to_nat (size - SIZE_MAX)) with 0%nat by (unfold SIZE_MAX; lia).
    cbn [find_consec_loop]. left. split; [unfold SIZE_MAX; by zcase|].
    intros j Hj [Hle Hf]. pose proof (Hf j ltac:(lia)) as Ha.
    rewrite Hnone in Ha by lia. by destruct set.
  - set (i := bitmap_find_nth map size 1 start set) in *.
    pose proof (find_consec_loop_spec map set size n start i (Z.to_nat (size - i)) Hm Hal Hsz Hn
      ltac:(lia) ltac:(lia) ltac:(done)) as Hl. cbv zeta in Hl.
    destruct Hl as [[Hr2 Hnone]|(Hr2 & Hfit & Hbef)]; [|lia|..].
    + intros j Hj [_ Hf]. pose proof (Hf j ltac:(lia)) as Ha.
      rewrite Hbefore in Ha by lia. by destruct set.
    + left. split; [by zcase|done].
    + right. split_and!; by zcase.
Qed.

(** On a bitmap that is a whole number of granules, [bitmap_find_consec] is first fit: it
    returns the lowest position at or after [start] where [n] bits equal to [set] fit below
    [size], and [(size_t)-1] exactly when there is none. *)
Theorem bitmap_find_consec_first_fit map size start n set :
  words_ok map → size mod 32 = 0 → 0 ≤ size < 2 ^ 63 → 1 ≤ n → 0 ≤ start →
  let r := bitmap_find_consec map size start n set in
  (r = SIZE_MAX ↔ ∀ j, start ≤ j → ¬ fits map set size n j) ∧
  (r ≠ SIZE_MAX → start ≤ r ∧ fits map set size n r ∧ ∀ j, start ≤ j < r → ¬ fits map set size n j).
Proof.
  intros Hm Hal Hsz Hn Hs. cbv zeta.
  pose proof (find_consec_cases map size start n set Hm Hal Hsz Hn Hs) as Hc. cbv zeta in Hc.
  destruct Hc as [[Hr Hnone]|(Hr & Hfit & Hbef)].
  - split; [by split|]. intros Hne. by destruct Hne.
  - split; [|intros _; split_and!; [lia|done..]]. split; [unfold SIZE_MAX; lia|].
    intros Hnone. exfalso. apply (Hnone _ (proj1 Hr) Hfit).
Qed.

Lemma bitmap_find_consec_first_fit_witness :
  words_ok (λ k, if k =? 0 then 0xff0f else 0) ∧
  bitmap_find_consec (λ k, if k =? 0 then 0xff0f else 0) 96 0 40 false = 16 ∧
  fits (λ k, if k =? 0 then 0xff0f else 0) false 96 40 16.
Proof.
  assert (words_ok (λ k, if k =? 0 then 0xff0f else 0)) as Hok.
  { intros k. unfold in_word. destruct (k =? 0); lia. }
  destruct (bitmap_find_consec_first_fit _ 96 0 40 false Hok eq_refl ltac:(lia) ltac:(lia)
    ltac:(lia)) as [_ H].
  split; [exact Hok|]. split; [reflexivity|]. apply H. vm_compute. discriminate.
Defined.

(** When the bitmap ends inside a granule the search overruns it.  If the first [n] bits
    of the granule match, a window of [n] bits is reported at position 0 of a bitmap of fewer
    than [n] bits: [bitmap_count_consecutive] does not compare its first granule with [size]. *)
Theorem bitmap_find_consec_overrun map size n set :
  words_ok map → 1 ≤ size < n → n ≤ 32 → run map set 0 n →
  bitmap_find_consec map size 0 n set = 0 ∧ ¬ fits map set size n 0.
Proof.
  intros Hm Hsz Hn Hrun. split; [|intros [? _]; lia].
  assert (bit_at map 0 = set) as Hb0 by (apply Hrun; lia).
  unfold bitmap_find_consec.
  pose proof (bitmap_find_first map size 0 set ltac:(lia) ltac:(lia)) as Hff. cbv zeta in Hff.
  assert (bitmap_find_nth map size 1 0 set = 0) as ->.
  { destruct Hff as [[_ Hnone]|(Hr & _ & Hbef)].
    - pose proof (Hnone 0 ltac:(lia)) as Hc. rewrite Hb0 in Hc. by destruct set.
    - destruct (decide (bitmap_find_nth map size 1 0 set = 0)); [done|].
      pose proof (Hbef 0 ltac:(lia)) as Hc. rewrite Hb0 in Hc. by destruct set. }
  assert (bitmap_count_consecutive map size 0 n = n) as Hcount.
  { unfold bitmap_count_consecutive, BITMAP_GRANULE_LEN. rewrite bitmap_get_negb, Hb0 by lia.
    destruct (Z.leb_spec n 1); [lia|].
    pose proof (proj2 (first_granule_run map set 0 n ltac:(lia) ltac:(rewrite Z.mod_0_l; lia)) Hrun)
      as Hx. cbv zeta in Hx. rewrite Z.mod_0_l in * by lia.
    replace (Z.min (32 - 0) n) with n by lia. rewrite Hx.
    rewrite (wrap_small 64 (0 + n)) by lia.
    rewrite count_words_enough by lia.
    destruct (Z.to_nat (size - (0 + n))) eqn:Hf; [cbn [count_bits]; lia|lia]. }
  replace (Z.to_nat (size - 0)) with (S (Z.to_nat (size - 1))) by lia.
  cbn [find_consec_loop]. rewrite Hcount. zcase.
Qed.

Lemma bitmap_find_consec_overrun_witness :
  run (λ _, 0) false 0 20 ∧ bitmap_find_consec (λ _, 0) 12 0 20 false = 0.
Proof.
  assert (run (λ _, 0) false 0 20) as Hrun.
  { intros j Hj. unfold bit_at. apply Z.testbit_0_l. }
  split; [exact Hrun|].
  apply (bitmap_find_consec_overrun (λ _, 0) 12 20 false); [|lia..|exact Hrun].
  intros k. unfold in_word. lia.
Defined.
