(* ===== verification/Spinlock.v ===== *)
(** * Ticket spinlocks: src/lib/inc/spinlock.h

    Two views of the same two words.  [spin_lock] and [spin_unlock] are the operations as a
    single CPU runs them with nobody else around: the components that take locks use these, and
    a lock that is already taken makes the run spin for ever ([Halt FDeadlock]).  [lock_step] is
    the interleaving of the instructions of several CPUs on one lock: the exclusive pair that
    draws a ticket, the load that meets the ticket, and the separate load and store of the
    release.  The tickets are 32-bit and wrap around. *)
From S2P Require Import Prelude.

Record spinlock_t := { ticket : Z; next : Z }.

Definition SPINLOCK_INITVAL : spinlock_t := {| ticket := 0; next := 0 |}.

Definition spinlock_init (lock : spinlock_t) : spinlock_t := {| ticket := 0; next := 0 |}.

(** Draw a ticket, then wait until [next] reaches it. *)
Definition spin_lock (lock : spinlock_t) : outcome spinlock_t :=
  let t := ticket lock in
  let lock := {| ticket := u32 (t + 1); next := next lock |} in
  if t =? next lock then Done lock else Halt FDeadlock.

Definition spin_unlock (lock : spinlock_t) : spinlock_t :=
  {| ticket := ticket lock; next := u32 (next lock + 1) |}.

(** No ticket is out. *)
Definition lock_free (lock : spinlock_t) : Prop := ticket lock = next lock ∧ in_word 32 (next lock).

(** Taking and releasing a lock kept in the field [l] of a larger state. *)
Definition acquire {S} (l : S → spinlock_t) `{!Setter l} : prog S unit := λ s,
  match spin_lock (l s) with Done k => Done (tt, s <| l := k |>) | Halt e => Halt e end.

Definition release {S} (l : S → spinlock_t) `{!Setter l} : prog S unit :=
  modify (λ s, s <| l ::= spin_unlock |>).


(** ** One CPU *)

Lemma spin_lock_free lock :
  lock_free lock → spin_lock lock = Done {| ticket := u32 (next lock + 1); next := next lock |}.
Proof. intros [Ht _]. unfold spin_lock. simpl. rewrite Ht. by rewrite Z.eqb_refl. Qed.

Lemma lock_unlock_free lock lock' :
  lock_free lock → spin_lock lock = Done lock' → lock_free (spin_unlock lock').
Proof.
  intros [Ht Hw]. rewrite spin_lock_free by done. intros [= <-]. split; [done|].
  simpl. auto with words lia.
Qed.

(** A free lock, taken. *)
Definition lock_taken (lock : spinlock_t) : spinlock_t :=
  {| ticket := u32 (next lock + 1); next := next lock |}.

Lemma bind_acquire {S B} (l : S → spinlock_t) `{!Setter l} (k : unit → prog S B) s :
  lock_free (l s) → (acquire l ≫= k) s = k tt (s <| l := lock_taken (l s) |>).
Proof.
  intros Hl. unfold acquire, mbind, prog_bind. by rewrite spin_lock_free.
Qed.

(** A free lock after it was taken and released: free again. *)
Definition lock_cycle (lock : spinlock_t) : spinlock_t :=
  {| ticket := u32 (next lock + 1); next := u32 (next lock + 1) |}.

Lemma lock_cycle_free lock : lock_free (lock_cycle lock).
Proof. split; [done|]. simpl. auto with words lia. Qed.

(** Taking a free lock twice without releasing it never returns. *)
Lemma spin_lock_twice lock lock' :
  lock_free lock → spin_lock lock = Done lock' → spin_lock lock' = Halt FDeadlock.
Proof.
  intros [Ht Hw]. rewrite spin_lock_free by done. intros [= <-]. unfold spin_lock. simpl.
  destruct (Z.eqb_spec (u32 (next lock + 1)) (next lock)) as [He|]; [|done].
  unfold wrap, in_word in *. dlia.
Qed.

(** ** Several CPUs *)

(** Where a CPU is in [spin_lock]/[spin_unlock]. *)
Inductive phase :=
| Idle                  (* outside *)
| Waiting (t : Z)       (* drew ticket [t], spinning on [next] *)
| Critical              (* returned from [spin_lock] *)
| Releasing (n : Z).    (* in [spin_unlock], loaded [next = n] *)

#[export] Instance phase_eq_dec : EqDecision phase.
Proof. solve_decision. Defined.

(** The lock and the phase of each CPU. *)
Record lock_sys := { lock_word : spinlock_t; phases : list phase }.

Inductive lock_step : lock_sys → lock_sys → Prop :=
| step_take l ph c :
    ph !! c = Some Idle →
    lock_step {| lock_word := l; phases := ph |}
      {| lock_word := {| ticket := u32 (ticket l + 1); next := next l |};
         phases := <[c := Waiting (ticket l)]> ph |}
| step_enter l ph c t :
    ph !! c = Some (Waiting t) → next l = t →
    lock_step {| lock_word := l; phases := ph |}
      {| lock_word := l; phases := <[c := Critical]> ph |}
| step_load l ph c :
    ph !! c = Some Critical →
    lock_step {| lock_word := l; phases := ph |}
      {| lock_word := l; phases := <[c := Releasing (next l)]> ph |}
| step_store l ph c n :
    ph !! c = Some (Releasing n) →
    lock_step {| lock_word := l; phases := ph |}
      {| lock_word := {| ticket := ticket l; next := u32 (n + 1) |};
         phases := <[c := Idle]> ph |}.

(** [ncpus] CPUs, all outside, on an initialised lock. *)
Definition lock_start (ncpus : nat) : lock_sys :=
  {| lock_word := SPINLOCK_INITVAL; phases := replicate ncpus Idle |}.

Definition lock_reachable (ncpus : nat) (s : lock_sys) : Prop := rtc lock_step (lock_start ncpus) s.

(** ** The abstract lock: a FIFO queue

    The CPUs that hold a ticket, in the order they drew it, and whether the first of them has
    entered the critical section. *)
Record queue_lock := { waiting_line : list nat; entered : bool }.

Inductive queue_step : queue_lock → queue_lock → Prop :=
| queue_join q e c :
    c ∉ q → queue_step {| waiting_line := q; entered := e |} {| waiting_line := q ++ [c]; entered := e |}
| queue_enter c q :
    queue_step {| waiting_line := c :: q; entered := false |} {| waiting_line := c :: q; entered := true |}
| queue_leave c q :
    queue_step {| waiting_line := c :: q; entered := true |} {| waiting_line := q; entered := false |}
| queue_stay a : queue_step a a.

Definition in_section (p : phase) : bool :=
  match p with Critical | Releasing _ => true | _ => false end.

(** The simulation relation.  [s] counts the releases so far (not wrapped): the CPU at
    position [k] of the line drew ticket [s + k]. *)
Record lock_rel (s : Z) (sys : lock_sys) (a : queue_lock) : Prop := {
  rel_nodup : NoDup (waiting_line a);
  rel_few : Z.of_nat (length (phases sys)) < 2 ^ 32;
  rel_next : next (lock_word sys) = u32 s;
  rel_ticket : ticket (lock_word sys) = u32 (s + Z.of_nat (length (waiting_line a)));
  rel_line : ∀ c, c ∈ waiting_line a ↔ (∃ p, phases sys !! c = Some p ∧ p ≠ Idle);
  rel_phase : ∀ k c, waiting_line a !! k = Some c →
    (phases sys !! c = Some (Waiting (u32 (s + Z.of_nat k))) ∧ (k = 0%nat → entered a = false)) ∨
    (k = 0%nat ∧ entered a = true ∧
     (phases sys !! c = Some Critical ∨ phases sys !! c = Some (Releasing (u32 s))));
  rel_empty : waiting_line a = [] → entered a = false;
}.

Lemma u32_shift s k j :
  0 ≤ k < 2 ^ 32 → 0 ≤ j < 2 ^ 32 → u32 (s + k) = u32 (s + j) → k = j.
Proof. unfold wrap. intros. dlia. Qed.

Lemma u32_succ s : u32 (u32 s + 1) = u32 (s + 1).
Proof. unfold wrap. by rewrite Zplus_mod_idemp_l. Qed.

Section simulation.
Context (s : Z) (sys : lock_sys) (a : queue_lock) (R : lock_rel s sys a).

Lemma line_short : Z.of_nat (length (waiting_line a)) < 2 ^ 32.
Proof using R.
  pose proof (rel_few _ _ _ R).
  assert (length (waiting_line a) ≤ length (phases sys))%nat; [|lia].
  rewrite <-(length_seq (length (phases sys)) 0). apply submseteq_length.
  apply NoDup_submseteq; [apply (rel_nodup _ _ _ R)|].
  intros c Hc. apply (rel_line _ _ _ R) in Hc as (p & Hp & _).
  apply lookup_lt_Some in Hp. apply elem_of_seq. lia.
Qed.

(** A CPU whose ticket is the one served is first in the line and has not entered. *)
Lemma served_is_first c t :
  phases sys !! c = Some (Waiting t) → next (lock_word sys) = t →
  waiting_line a !! 0%nat = Some c ∧ entered a = false.
Proof using R.
  intros Hp Ht.
  assert (c ∈ waiting_line a) as Hin by (apply (rel_line _ _ _ R); by exists (Waiting t)).
  apply list_elem_of_lookup in Hin as [k Hk].
  pose proof (lookup_lt_Some _ _ _ Hk). pose proof line_short.
  destruct (rel_phase _ _ _ R k c Hk) as [[Hw Hz]|(-> & _ & [Hc|Hc])]; [|congruence..].
  rewrite Hp in Hw. injection Hw as ->. rewrite (rel_next _ _ _ R) in Ht.
  assert (0 = Z.of_nat k) as Hk0.
  { apply (u32_shift s); [lia..|]. by rewrite Z.add_0_r. }
  assert (k = 0%nat) as -> by lia. auto.
Qed.

(** A CPU inside the section is first in the line and has entered. *)
Lemma inside_is_first c p :
  phases sys !! c = Some p → in_section p = true →
  waiting_line a !! 0%nat = Some c ∧ entered a = true ∧ (p = Critical ∨ p = Releasing (u32 s)).
Proof using R.
  intros Hp Hi.
  assert (c ∈ waiting_line a) as Hin.
  { apply (rel_line _ _ _ R). exists p. split; [done|]. by intros ->. }
  apply list_elem_of_lookup in Hin as [k Hk].
  destruct (rel_phase _ _ _ R k c Hk) as [[Hw _]|(-> & He & Hc)].
  - rewrite Hp in Hw. by injection Hw as ->.
  - rewrite Hp in Hc. split_and!; [done..|]. destruct Hc as [[= ->]|[= ->]]; auto.
Qed.
End simulation.

(** Changing the phase of one CPU that stays in the line. *)
Lemma rel_line_same (ph : list phase) (q : list nat) c p p' :
  (∀ c, c ∈ q ↔ (∃ p, ph !! c = Some p ∧ p ≠ Idle)) → ph !! c = Some p → p ≠ Idle → p' ≠ Idle →
  ∀ c', c' ∈ q ↔ (∃ p, <[c := p']> ph !! c' = Some p ∧ p ≠ Idle).
Proof.
  intros Hq Hp Hi Hi' c'. destruct (decide (c = c')) as [<-|].
  - rewrite list_lookup_insert_eq by (by eapply lookup_lt_Some). split; [by eauto|].
    intros _. apply Hq. eauto.
  - rewrite list_lookup_insert_ne by done. apply Hq.
Qed.

Lemma sim_take s l ph a c :
  lock_rel s {| lock_word := l; phases := ph |} a → ph !! c = Some Idle →
  c ∉ waiting_line a ∧
  lock_rel s
    {| lock_word := {| ticket := u32 (ticket l + 1); next := next l |};
       phases := <[c := Waiting (ticket l)]> ph |}
    {| waiting_line := waiting_line a ++ [c]; entered := entered a |}.
Proof.
  intros R Hc. pose proof (lookup_lt_Some _ _ _ Hc) as Hlt.
  assert (c ∉ waiting_line a) as Hni.
  { intros Hin. apply (rel_line _ _ _ R) in Hin as (p & Hp & Hne). simpl in Hp. congruence. }
  split; [done|]. destruct R as [Hnd Hfew Hn Ht Hl Hph He]. simpl in *. split; simpl.
  - apply NoDup_app. split_and!; [done| |apply NoDup_singleton].
    intros x Hx Hx2. apply list_elem_of_singleton in Hx2 as ->. done.
  - by rewrite length_insert.
  - done.
  - rewrite Ht, u32_succ, length_app. simpl. f_equal. lia.
  - intros c'. rewrite elem_of_app, list_elem_of_singleton.
    destruct (decide (c = c')) as [<-|Hne].
    + rewrite list_lookup_insert_eq by done. split; [by eauto|by right].
    + rewrite list_lookup_insert_ne by done. rewrite Hl. naive_solver.
  - intros k c' Hk. destruct (decide (c = c')) as [<-|Hne].
    + left. rewrite list_lookup_insert_eq by done.
      apply lookup_app_Some in Hk as [Hk|[Hge Hk]].
      { exfalso. apply Hni. by eapply list_elem_of_lookup_2. }
      apply list_lookup_singleton_Some in Hk as [Hk0 _].
      assert (k = length (waiting_line a)) as -> by lia. rewrite Ht. split; [done|].
      intros Hz. apply He. by apply nil_length_inv.
    + rewrite list_lookup_insert_ne by done. apply Hph.
      apply lookup_app_Some in Hk as [Hk|[_ Hk]]; [done|].
      apply list_lookup_singleton_Some in Hk as [_ ?]. done.
  - intros Hnil. by apply app_nil in Hnil as [_ ?].
Qed.

Lemma sim_enter s l ph a c t :
  lock_rel s {| lock_word := l; phases := ph |} a → ph !! c = Some (Waiting t) → next l = t →
  ∃ q, a = {| waiting_line := c :: q; entered := false |} ∧
  lock_rel s {| lock_word := l; phases := <[c := Critical]> ph |}
    {| waiting_line := c :: q; entered := true |}.
Proof.
  intros R Hc Ht. pose proof (lookup_lt_Some _ _ _ Hc) as Hlt.
  destruct (served_is_first _ _ _ R c t Hc Ht) as [Hq He].
  destruct a as [[|c' q] e]; simpl in *; [done|]. injection Hq as ->. subst e.
  exists q. split; [done|]. destruct R as [Hnd Hfew Hn Htk Hl Hph Hemp]. simpl in *.
  split; simpl; try done.
  - by rewrite length_insert.
  - by eapply rel_line_same.
  - intros [|k] c' Hk; simpl in Hk.
    + injection Hk as <-. right. split_and!; [done..|]. left. by rewrite list_lookup_insert_eq.
    + left. assert (c ≠ c') as Hne.
      { intros <-. apply NoDup_cons in Hnd as [Hnd _]. apply Hnd. by eapply list_elem_of_lookup_2. }
      rewrite list_lookup_insert_ne by done.
      destruct (Hph (S k) c' Hk) as [[? _]|(? & _)]; [by split|done].
Qed.

Lemma sim_load s l ph a c :
  lock_rel s {| lock_word := l; phases := ph |} a → ph !! c = Some Critical →
  lock_rel s {| lock_word := l; phases := <[c := Releasing (next l)]> ph |} a.
Proof.
  intros R Hc. pose proof (lookup_lt_Some _ _ _ Hc) as Hlt.
  destruct (inside_is_first _ _ _ R c Critical Hc eq_refl) as (Hq & He & _).
  destruct R as [Hnd Hfew Hn Htk Hl Hph Hemp]. simpl in *. split; simpl; try done.
  - by rewrite length_insert.
  - by eapply rel_line_same.
  - intros k c' Hk. destruct (decide (c = c')) as [<-|Hne].
    + right. rewrite list_lookup_insert_eq by done. rewrite Hn.
      destruct (Hph k c Hk) as [[? _]|(-> & _)]; [congruence|]. auto.
    + rewrite list_lookup_insert_ne by done. by apply Hph.
Qed.

Lemma sim_store s l ph a c n :
  lock_rel s {| lock_word := l; phases := ph |} a → ph !! c = Some (Releasing n) →
  ∃ q, a = {| waiting_line := c :: q; entered := true |} ∧
  lock_rel (s + 1)
    {| lock_word := {| ticket := ticket l; next := u32 (n + 1) |}; phases := <[c := Idle]> ph |}
    {| waiting_line := q; entered := false |}.
Proof.
  intros R Hc. pose proof (lookup_lt_Some _ _ _ Hc) as Hlt.
  destruct (inside_is_first _ _ _ R c _ Hc eq_refl) as (Hq & He & [?|Hrel]); [done|].
  injection Hrel as ->. destruct a as [[|c' q] e]; simpl in *; [done|].
  injection Hq as ->. subst e. exists q. split; [done|].
  destruct R as [Hnd Hfew Hn Htk Hl Hph Hemp]. simpl in *.
  apply NoDup_cons in Hnd as [Hni Hnd]. split; simpl; try done.
  - by rewrite length_insert.
  - by rewrite u32_succ.
  - rewrite Htk. f_equal. lia.
  - intros c'. destruct (decide (c = c')) as [<-|Hne].
    + rewrite list_lookup_insert_eq by done. naive_solver.
    + rewrite list_lookup_insert_ne by done. rewrite <-Hl. rewrite elem_of_cons. naive_solver.
  - intros k c' Hk. left.
    assert (c ≠ c') as Hne by (intros <-; apply Hni; by eapply list_elem_of_lookup_2).
    rewrite list_lookup_insert_ne by done.
    destruct (Hph (S k) c' Hk) as [[Hw _]|(? & _)]; [|done].
    split; [|done]. rewrite Hw. do 3 f_equal. lia.
Qed.

(** One concrete step is one abstract step. *)
Lemma lock_step_sim s sys sys' a :
  lock_rel s sys a → lock_step sys sys' → ∃ s' a', queue_step a a' ∧ lock_rel s' sys' a'.
Proof.
  intros R Hstep. destruct Hstep as [l ph c Hc|l ph c t Hc Ht|l ph c Hc|l ph c n Hc].
  - destruct (sim_take _ _ _ _ _ R Hc) as [Hni R']. destruct a as [q e].
    exists s, {| waiting_line := q ++ [c]; entered := e |}. split; [by apply queue_join|done].
  - destruct (sim_enter _ _ _ _ _ _ R Hc Ht) as (q & -> & R').
    eexists s, _. split; [apply queue_enter|done].
  - exists s, a. split; [apply queue_stay|]. by apply sim_load.
  - destruct (sim_store _ _ _ _ _ _ R Hc) as (q & -> & R').
    eexists (s + 1), _. split; [apply queue_leave|done].
Qed.

Lemma lock_start_rel ncpus :
  Z.of_nat ncpus < 2 ^ 32 →
  lock_rel 0 (lock_start ncpus) {| waiting_line := []; entered := false |}.
Proof.
  intros Hn. split; simpl; try done.
  - by constructor.
  - by rewrite length_replicate.
  - intros c. split; [by intros ?%not_elem_of_nil|].
    intros (p & Hp & Hne). apply lookup_replicate in Hp as [-> _]. done.
Qed.

Lemma reachable_rel ncpus sys :
  Z.of_nat ncpus < 2 ^ 32 → lock_reachable ncpus sys →
  ∃ s a, rtc queue_step {| waiting_line := []; entered := false |} a ∧ lock_rel s sys a.
Proof.
  intros Hn Hr. unfold lock_reachable in Hr. revert Hr.
  assert (∃ s a, rtc queue_step {| waiting_line := []; entered := false |} a ∧
    lock_rel s (lock_start ncpus) a) as Hstart.
  { eexists 0, _. split; [apply rtc_refl|by apply lock_start_rel]. }
  intros Hr. revert Hstart. induction Hr as [|x y z Hxy Hyz IH]; [done|].
  intros (s & a & Ha & R). apply IH.
  destruct (lock_step_sim s x y a R Hxy) as (s' & a' & Hq & R').
  exists s', a'. split; [|done]. by eapply rtc_r.
Qed.

(** C10: mutual exclusion.  However the instructions of fewer than 2^32 CPUs interleave on one
    lock, and however often the 32-bit tickets wrap around, at most one CPU is between the
    return of [spin_lock] and the store of [spin_unlock]. *)
Theorem spinlock_mutual_exclusion ncpus sys c1 c2 p1 p2 :
  Z.of_nat ncpus < 2 ^ 32 → lock_reachable ncpus sys →
  phases sys !! c1 = Some p1 → phases sys !! c2 = Some p2 →
  in_section p1 = true → in_section p2 = true → c1 = c2.
Proof.
  intros Hn Hr Hp1 Hp2 Hi1 Hi2.
  destruct (reachable_rel ncpus sys Hn Hr) as (s & a & _ & R).
  destruct (inside_is_first s sys a R c1 p1 Hp1 Hi1) as [Hq1 _].
  destruct (inside_is_first s sys a R c2 p2 Hp2 Hi2) as [Hq2 _]. congruence.
Qed.

Lemma spinlock_mutual_exclusion_witness :
  ∃ sys, lock_reachable 2 sys ∧ phases sys !! 1%nat = Some Critical ∧
    ∀ c p, phases sys !! c = Some p → in_section p = true → c = 1%nat.
Proof.
  exists {| lock_word := {| ticket := 1; next := 0 |}; phases := [Idle; Critical] |}.
  assert (lock_reachable 2 {| lock_word := {| ticket := 1; next := 0 |}; phases := [Idle; Critical] |})
    as Hr.
  { eapply rtc_l; [apply (step_take SPINLOCK_INITVAL [Idle; Idle] 1%nat); reflexivity|].
    eapply rtc_l; [apply (step_enter {| ticket := 1; next := 0 |} [Idle; Waiting 0] 1%nat 0);
      reflexivity|].
    apply rtc_refl. }
  split; [exact Hr|]. split; [reflexivity|]. intros c p Hp Hi.
  refine (spinlock_mutual_exclusion 2 _ c 1%nat p Critical _ Hr Hp _ Hi _); reflexivity.
Defined.



(** The first CPU of the line can always finish: it enters if it has not, and releases. *)
Lemma first_releases s sys a c q :
  lock_rel s sys a → waiting_line a = c :: q →
  ∃ sys', rtc lock_step sys sys' ∧
    lock_rel (s + 1) sys' {| waiting_line := q; entered := false |}.
Proof.
  intros R Hq. destruct sys as [l ph].
  assert (∀ l ph a, lock_rel s {| lock_word := l; phases := ph |} a → waiting_line a = c :: q →
    ph !! c = Some (Releasing (u32 s)) →
    ∃ sys', rtc lock_step {| lock_word := l; phases := ph |} sys' ∧
      lock_rel (s + 1) sys' {| waiting_line := q; entered := false |}) as Hrel.
  { clear. intros l ph a R Hq Hc. destruct (sim_store _ _ _ _ _ _ R Hc) as (q' & -> & R').
    simpl in Hq. injection Hq as ->. eexists. split; [|exact R'].
    apply rtc_once. by constructor. }
  assert (∀ l ph a, lock_rel s {| lock_word := l; phases := ph |} a → waiting_line a = c :: q →
    ph !! c = Some Critical →
    ∃ sys', rtc lock_step {| lock_word := l; phases := ph |} sys' ∧
      lock_rel (s + 1) sys' {| waiting_line := q; entered := false |}) as Hcrit.
  { clear -Hrel. intros l ph a R Hq Hc. pose proof (sim_load _ _ _ _ _ R Hc) as R'.
    destruct (Hrel _ _ _ R' Hq) as (sys' & Hs & Hr).
    { rewrite list_lookup_insert_eq by (by eapply lookup_lt_Some).
      pose proof (rel_next _ _ _ R) as Hnx. simpl in Hnx. by rewrite Hnx. }
    exists sys'. split; [|done]. eapply rtc_l; [|exact Hs]. by constructor. }
  destruct (rel_phase _ _ _ R 0 c) as [[Hw _]|(_ & _ & [Hc|Hc])]; [by rewrite Hq|..].
  - rewrite Z.add_0_r in Hw. simpl in Hw.
    destruct (sim_enter _ _ _ _ _ _ R Hw (rel_next _ _ _ R)) as (q' & -> & R').
    simpl in Hq. injection Hq as ->.
    destruct (Hcrit _ _ _ R' eq_refl) as (sys' & Hs & Hr).
    { by rewrite list_lookup_insert_eq by (by eapply lookup_lt_Some). }
    exists sys'. split; [|done]. eapply rtc_l; [|exact Hs].
    eapply step_enter; [done|]. apply (rel_next _ _ _ R).
  - by apply (Hcrit _ _ a R).
  - by apply (Hrel _ _ a R).
Qed.


