(* ===== verification/Atomic.v ===== *)
(** * Atomic operations: src/lib/inc/atomic.h

    Each operation is a loop around a pair of exclusive instructions.  This file has the instructions
    the functions are made of, a machine on which any number of CPUs run them on one counter,
    each instruction a step, and the proof that every execution is one of a machine on which each
    operation is a single step.  That is what the models of the locks and barriers start from. *)
From S2P Require Import Prelude.

(** ** Instructions

    The operands are those of the assembly: the result, the status of the store, and one or two
    arguments.  Labels are numbers of instructions. *)
Inductive operand := RESULT | ARG2.
Inductive insn :=
| LDXR
| ADD
| SUB
| SUBS1
| CMP
| B_NE (l : nat)
| B_MI (l : nat)
| STXR (src : operand)
| STLXR (src : operand)
| CBNZ (l : nat)
| DMB.

Definition smp_mb : insn := DMB.

Definition atomic_add : list insn := [LDXR; ADD; STXR RESULT; CBNZ 0].
Definition atomic_add_return : list insn := [LDXR; ADD; STLXR RESULT; CBNZ 0; smp_mb].
Definition atomic_sub : list insn := [LDXR; SUB; STXR RESULT; CBNZ 0].
Definition atomic_sub_return : list insn := [LDXR; SUB; STLXR RESULT; CBNZ 0; smp_mb].
Definition atomic_cmpxchg : list insn := [smp_mb; LDXR; CMP; B_NE 6; STXR ARG2; CBNZ 1; smp_mb].
Definition atomic64_add : list insn := [LDXR; ADD; STXR RESULT; CBNZ 0].
Definition atomic64_add_return : list insn := [LDXR; ADD; STLXR RESULT; CBNZ 0; smp_mb].
Definition atomic64_sub : list insn := [LDXR; SUB; STXR RESULT; CBNZ 0].
Definition atomic64_sub_return : list insn := [LDXR; SUB; STLXR RESULT; CBNZ 0; smp_mb].
Definition atomic64_cmpxchg : list insn := [smp_mb; LDXR; CMP; B_NE 6; STXR ARG2; CBNZ 1; smp_mb].
Definition atomic64_dec_if_positive : list insn := [LDXR; SUBS1; B_MI 6; STLXR RESULT; CBNZ 0; DMB].

Inductive func :=
| F_add | F_add_return | F_sub | F_sub_return | F_cmpxchg
| F64_add | F64_add_return | F64_sub | F64_sub_return | F64_cmpxchg | F64_dec_if_positive.

Definition text (f : func) : list insn :=
  match f with
  | F_add => atomic_add
  | F_add_return => atomic_add_return
  | F_sub => atomic_sub
  | F_sub_return => atomic_sub_return
  | F_cmpxchg => atomic_cmpxchg
  | F64_add => atomic64_add
  | F64_add_return => atomic64_add_return
  | F64_sub => atomic64_sub
  | F64_sub_return => atomic64_sub_return
  | F64_cmpxchg => atomic64_cmpxchg
  | F64_dec_if_positive => atomic64_dec_if_positive
  end.

(** The counter of an [atomic_t] has 32 bits, that of an [atomic64_t] 64. *)
Definition width (f : func) : Z :=
  match f with F_add | F_add_return | F_sub | F_sub_return | F_cmpxchg => 32 | _ => 64 end.

(** Four of the functions return nothing. *)
Definition returned (f : func) (v : Z) : option Z :=
  match f with F_add | F_sub | F64_add | F64_sub => None | _ => Some v end.

(** ** The machine with exclusive instructions *)

Inductive label :=
| Call (c : Z) (f : func) (a b : Z)
| Ret (c : Z) (v : option Z)
| Read (c v : Z)
| Set_ (c v : Z).

Section machine.
Variable w : Z.

Record thread := { fn : func; pc : nat; result : Z; tmp : Z; arg1 : Z; arg2 : Z; zf : bool; nf : bool }.

(** A CPU: whether its exclusive monitor is set, and the function it is in. *)
Record cpu := { monitor : bool; running : option thread }.
Record world := { counter : Z; cpus : Z → cpu }.

Definition negative (v : Z) : bool := signed w v <? 0.

Definition start (f : func) (a b : Z) : thread :=
  {| fn := f; pc := 0; result := 0; tmp := 0; arg1 := wrap w a; arg2 := wrap w b; zf := false; nf := false |}.
Definition goto (l : nat) (t : thread) : thread :=
  {| fn := fn t; pc := l; result := result t; tmp := tmp t; arg1 := arg1 t; arg2 := arg2 t; zf := zf t; nf := nf t |}.
Definition set_result (v : Z) (t : thread) : thread :=
  {| fn := fn t; pc := S (pc t); result := v; tmp := tmp t; arg1 := arg1 t; arg2 := arg2 t; zf := zf t; nf := nf t |}.
Definition set_tmp (v : Z) (t : thread) : thread :=
  {| fn := fn t; pc := S (pc t); result := result t; tmp := v; arg1 := arg1 t; arg2 := arg2 t; zf := zf t; nf := nf t |}.
Definition set_flags (z n : bool) (t : thread) : thread :=
  {| fn := fn t; pc := pc t; result := result t; tmp := tmp t; arg1 := arg1 t; arg2 := arg2 t; zf := z; nf := n |}.

(** The instructions that do not touch the counter. *)
Definition exec (i : insn) (t : thread) : option thread :=
  match i with
  | ADD => Some (set_result (wrap w (result t + arg1 t)) t)
  | SUB => Some (set_result (wrap w (result t - arg1 t)) t)
  | SUBS1 => let v := wrap w (result t - 1) in Some (set_flags (v =? 0) (negative v) (set_result v t))
  | CMP => let v := wrap w (result t - arg1 t) in Some (goto (S (pc t)) (set_flags (v =? 0) (negative v) t))
  | B_NE l => Some (goto (if zf t then S (pc t) else l) t)
  | B_MI l => Some (goto (if nf t then l else S (pc t)) t)
  | CBNZ l => Some (goto (if tmp t =? 0 then S (pc t) else l) t)
  | DMB => Some (goto (S (pc t)) t)
  | LDXR | STXR _ | STLXR _ => None
  end.

Definition stored (i : insn) (t : thread) : option Z :=
  match i with
  | STXR RESULT | STLXR RESULT => Some (result t)
  | STXR ARG2 | STLXR ARG2 => Some (arg2 t)
  | _ => None
  end.

Definition fetch (t : thread) : option insn := nth_error (text (fn t)) (pc t).

Definition put (c : Z) (m : bool) (o : option thread) (W : world) : world :=
  {| counter := counter W; cpus := <[c := {| monitor := m; running := o |}]> (cpus W) |}.

(** A store clears every monitor. *)
Definition store (v : Z) (W : world) : world :=
  {| counter := v; cpus := λ c, {| monitor := false; running := running (cpus W c) |} |}.

Inductive step (W : world) : option label → world → Prop :=
| s_call c f a b :
    running (cpus W c) = None → width f = w → step W (Some (Call c f (wrap w a) (wrap w b))) (put c (monitor (cpus W c)) (Some (start f a b)) W)
| s_ret c t :
    running (cpus W c) = Some t → fetch t = None → step W (Some (Ret c (returned (fn t) (result t)))) (put c (monitor (cpus W c)) None W)
| s_read c : running (cpus W c) = None → step W (Some (Read c (counter W))) W
| s_set c v : running (cpus W c) = None → step W (Some (Set_ c (wrap w v))) (store (wrap w v) W)
| s_exec c t i t' :
    running (cpus W c) = Some t → fetch t = Some i → exec i t = Some t' → step W None (put c (monitor (cpus W c)) (Some t') W)
| s_ldxr c t :
    running (cpus W c) = Some t → fetch t = Some LDXR → step W None (put c true (Some (set_result (counter W) t)) W)
| s_store c t i v :
    running (cpus W c) = Some t → fetch t = Some i → stored i t = Some v → monitor (cpus W c) = true →
    step W None (put c false (Some (set_tmp 0 t)) (store v W))
| s_store_fails c t i v :
    running (cpus W c) = Some t → fetch t = Some i → stored i t = Some v → step W None (put c false (Some (set_tmp 1 t)) W).

(** ** The machine with atomic operations *)

Inductive doing := Idle | Pending (f : func) (a b : Z) | Finished (v : option Z).
Record aworld := { acounter : Z; acpus : Z → doing }.

(** What an operation leaves in the counter and what it returns. *)
Definition spec (f : func) (a b m : Z) : Z * Z :=
  match f with
  | F_add | F_add_return | F64_add | F64_add_return => (wrap w (m + a), wrap w (m + a))
  | F_sub | F_sub_return | F64_sub | F64_sub_return => (wrap w (m - a), wrap w (m - a))
  | F_cmpxchg | F64_cmpxchg => (if m =? a then b else m, m)
  | F64_dec_if_positive => let v := wrap w (m - 1) in (if negative v then m else v, v)
  end.

Definition aput (c : Z) (d : doing) (A : aworld) : aworld := {| acounter := acounter A; acpus := <[c := d]> (acpus A) |}.

Inductive astep (A : aworld) : option label → aworld → Prop :=
| a_call c f a b : acpus A c = Idle → width f = w → astep A (Some (Call c f a b)) (aput c (Pending f a b) A)
| a_ret c v : acpus A c = Finished v → astep A (Some (Ret c v)) (aput c Idle A)
| a_read c : acpus A c = Idle → astep A (Some (Read c (acounter A))) A
| a_set c v : acpus A c = Idle → astep A (Some (Set_ c v)) {| acounter := v; acpus := acpus A |}
| a_atomic c f a b :
    acpus A c = Pending f a b →
    astep A None {| acounter := (spec f a b (acounter A)).1; acpus := <[c := Finished (returned f (spec f a b (acounter A)).2)]> (acpus A) |}.

(** Executions with what can be seen of them. *)
Inductive run {X L} (R : X → option L → X → Prop) : X → list L → X → Prop :=
| run_nil x : run R x [] x
| run_silent x y tr z : R x None y → run R y tr z → run R x tr z
| run_label x l y tr z : R x (Some l) y → run R y tr z → run R x (l :: tr) z.

Definition boot (v : Z) : world := {| counter := v; cpus := λ _, {| monitor := false; running := None |} |}.
Definition aboot (v : Z) : aworld := {| acounter := v; acpus := λ _, Idle |}.

(** ** The simulation

    Where each function has its effect: the store that succeeds, or the load when nothing is to be
    stored. *)
Inductive kind := KAdd | KSub | KCas | KDec.
Definition kind_of (f : func) : kind :=
  match f with
  | F_add | F_add_return | F64_add | F64_add_return => KAdd
  | F_sub | F_sub_return | F64_sub | F64_sub_return => KSub
  | F_cmpxchg | F64_cmpxchg => KCas
  | F64_dec_if_positive => KDec
  end.

(** What a function in progress stands for, with its monitor [mon] and counter [m]: a monitor
    that is set says that what was loaded is still there. *)
Definition stands_for (mon : bool) (m : Z) (t : thread) (d : doing) : Prop :=
  let pend := d = Pending (fn t) (arg1 t) (arg2 t) in
  let fin := d = Finished (returned (fn t) (result t)) in
  let tried := if tmp t =? 0 then fin else pend in
  let arith op := match pc t with
    | 0%nat => pend
    | 1%nat => pend ∧ (mon = true → result t = m)
    | 2%nat => pend ∧ (mon = true → result t = op m)
    | 3%nat => tried
    | _ => fin
    end in
  match kind_of (fn t) with
  | KAdd => arith (λ m, wrap w (m + arg1 t))
  | KSub => arith (λ m, wrap w (m - arg1 t))
  | KCas =>
      let loaded := if result t =? arg1 t then pend ∧ (mon = true → result t = m) else fin in
      match pc t with
      | 0%nat | 1%nat => pend
      | 2%nat => in_word w (result t) ∧ loaded
      | 3%nat => zf t = (result t =? arg1 t) ∧ loaded
      | 4%nat => (result t =? arg1 t) = true ∧ loaded
      | 5%nat => tried
      | _ => fin
      end
  | KDec =>
      match pc t with
      | 0%nat => pend
      | 1%nat => if negative (wrap w (result t - 1)) then d = Finished (returned (fn t) (wrap w (result t - 1))) else pend ∧ (mon = true → result t = m)
      | 2%nat => nf t = negative (result t) ∧ if negative (result t) then fin else pend ∧ (mon = true → result t = wrap w (m - 1))
      | 3%nat => negative (result t) = false ∧ pend ∧ (mon = true → result t = wrap w (m - 1))
      | 4%nat => tried
      | _ => fin
      end
  end.

Definition cpu_ok (m : Z) (k : cpu) (d : doing) : Prop :=
  match running k with
  | None => d = Idle
  | Some t => in_word w (arg1 t) ∧ in_word w (arg2 t) ∧ stands_for (monitor k) m t d
  end.

Definition sim (W : world) (A : aworld) : Prop :=
  counter W = acounter A ∧ in_word w (counter W) ∧ ∀ c, cpu_ok (counter W) (cpus W c) (acpus A c).

(** A monitor that is cleared promises nothing. *)
Lemma stands_for_cleared mon m m' t d : stands_for mon m t d → stands_for false m' t d.
Proof.
  unfold stands_for. destruct (kind_of (fn t)); destruct (pc t) as [|[|[|[|[|[|n]]]]]];
    repeat case_match; intuition congruence.
Qed.

Lemma cpu_ok_cleared m m' k d : cpu_ok m k d → cpu_ok m' {| monitor := false; running := running k |} d.
Proof.
  unfold cpu_ok. cbn [running monitor]. destruct (running k) as [t|]; [|done]. intros (H1 & H2 & H3). split; [done|]. split; [done|]. by eapply stands_for_cleared.
Qed.

(** One CPU moves, the counter stays. *)
Lemma sim_put W A c mon o d : sim W A → cpu_ok (counter W) {| monitor := mon; running := o |} d → sim (put c mon o W) (aput c d A).
Proof.
  intros (H1 & H2 & H3) Hc. split; [done|]. split; [done|]. intros c'. cbn [put aput counter cpus acpus].
  destruct (decide (c = c')) as [<-|]; [by rewrite !upd_eq|rewrite !upd_ne by done; apply H3].
Qed.

Lemma sim_put_same W A c mon o : sim W A → cpu_ok (counter W) {| monitor := mon; running := o |} (acpus A c) → sim (put c mon o W) A.
Proof.
  intros (H1 & H2 & H3) Hc. split; [done|]. split; [done|]. intros c'. cbn [put counter cpus acpus].
  destruct (decide (c = c')) as [<-|]; [by rewrite upd_eq|rewrite upd_ne by done; apply H3].
Qed.

(** A step of a CPU in a function, when what it stands for stays. *)
Lemma sim_local W A c t mon t' :
  sim W A → running (cpus W c) = Some t → arg1 t' = arg1 t → arg2 t' = arg2 t →
  (stands_for (monitor (cpus W c)) (counter W) t (acpus A c) → stands_for mon (counter W) t' (acpus A c)) →
  sim (put c mon (Some t') W) A.
Proof.
  intros S Hr H1 H2 Hs. apply sim_put_same; [done|]. destruct S as (_ & _ & S). specialize (S c). unfold cpu_ok in *. rewrite Hr in S. cbn [running monitor].
  rewrite H1, H2. destruct S as (S1 & S2 & S3). auto.
Qed.

Lemma wrap_sub_zero a b : 0 ≤ w → in_word w a → in_word w b → (wrap w (a - b) =? 0) = (a =? b).
Proof.
  intros Hw Ha Hb. unfold wrap, in_word in *. destruct (Z.eqb_spec a b) as [->|Hne]; [by rewrite Z.sub_diag, Z.mod_0_l by lia|].
  apply Z.eqb_neq. intros Hm. apply Z.mod_divide in Hm as [k Hk]; [|lia]. assert (k = 0) by nia. lia.
Qed.

(** One case for every instruction of every function: what is fetched is that instruction. *)
Ltac each_insn t Hf :=
  destruct t as [f p r tm a b z n]; unfold fetch in Hf; cbn [fn pc] in Hf;
  destruct f; destruct p as [|[|[|[|[|[|[|p]]]]]]]; cbn in Hf; try discriminate Hf; try (rewrite nth_error_nil in Hf; discriminate Hf).

Lemma sim_exec W A c t i t' :
  0 ≤ w → sim W A → running (cpus W c) = Some t → fetch t = Some i → exec i t = Some t' → sim (put c (monitor (cpus W c)) (Some t') W) A.
Proof.
  intros Hw S Hr Hf He. pose proof S as (_ & _ & Sc). specialize (Sc c). unfold cpu_ok in Sc. rewrite Hr in Sc. destruct Sc as (W1 & W2 & _).
  each_insn t Hf; injection Hf as <-; cbn in He; try discriminate He; injection He as <-; (eapply sim_local; [done|exact Hr|done|done|]); unfold stands_for; cbn;
    cbn in W1; try (intros (Hin & Hd); rewrite (wrap_sub_zero _ _ Hw Hin W1)); repeat case_match; intuition congruence.
Qed.

(** A load, after which an operation that stores nothing is done. *)
Lemma sim_ldxr W A c t :
  0 ≤ w → sim W A → running (cpus W c) = Some t → fetch t = Some LDXR →
  ∃ A', (A' = A ∨ astep A None A') ∧ sim (put c true (Some (set_result (counter W) t)) W) A'.
Proof.
  intros Hw S Hr Hf. pose proof S as (S1 & S2 & Sc). specialize (Sc c). unfold cpu_ok in Sc. rewrite Hr in Sc. destruct Sc as (W1 & W2 & Sc).
  set (v := wrap w (counter W - 1)). set (quiet := match kind_of (fn t) with KCas => counter W =? arg1 t | KDec => negb (negative v) | _ => true end).
  destruct quiet eqn:Hq.
  - exists A. split; [by left|]. eapply sim_local; [done|exact Hr|done|done|]. unfold quiet in Hq.
    each_insn t Hf; unfold stands_for; cbn; cbn in Hq; fold v; rewrite ?Hq; try apply negb_true_iff in Hq; rewrite ?Hq; auto.
  - eexists. split; [right; apply (a_atomic _ c (fn t) (arg1 t) (arg2 t))|]; [unfold quiet in Hq; each_insn t Hf; try discriminate Hq; exact Sc|].
    rewrite <-S1. set (sp := spec (fn t) (arg1 t) (arg2 t) (counter W)).
    assert (sp.1 = counter W ∧ stands_for true (counter W) (set_result (counter W) t) (Finished (returned (fn t) sp.2))) as [E Hd].
    { unfold quiet in Hq. each_insn t Hf; try discriminate Hq; unfold sp, stands_for; cbn; cbn in Hq; fold v; rewrite ?Hq;
        try apply negb_false_iff in Hq; rewrite ?Hq; auto. }
    rewrite E. match goal with |- sim _ ?X => replace X with (aput c (Finished (returned (fn t) sp.2)) A) by (unfold aput; by rewrite S1) end.
    apply (sim_put W A); [done|]. exact (conj W1 (conj W2 Hd)).
Qed.

Lemma stored_word W A c t i v :
  sim W A → running (cpus W c) = Some t → fetch t = Some i → stored i t = Some v → monitor (cpus W c) = true → 0 ≤ w →
  acpus A c = Pending (fn t) (arg1 t) (arg2 t) ∧ spec (fn t) (arg1 t) (arg2 t) (counter W) = (v, result t) ∧ in_word w v ∧
  stands_for false v (set_tmp 0 t) (Finished (returned (fn t) (result t))).
Proof.
  intros (S1 & S2 & Sc) Hr Hf Hs Hm Hw. specialize (Sc c). unfold cpu_ok in Sc. rewrite Hr, Hm in Sc. destruct Sc as (W1 & W2 & Sc).
  each_insn t Hf; injection Hf as <-; cbn in Hs; try discriminate Hs; injection Hs as <-; unfold stands_for in *; cbn in *.
  all: first
    [ destruct Sc as [-> H]; specialize (H eq_refl); rewrite H; auto using wrap_in_word
    | destruct Sc as [E Sc]; rewrite E in Sc; destruct Sc as [-> H]; specialize (H eq_refl); rewrite <-H, E; auto
    | destruct Sc as (E & -> & H); specialize (H eq_refl); rewrite <-H, E; rewrite H; auto using wrap_in_word ].
Qed.

Lemma sim_stored W A c t i v :
  0 ≤ w → sim W A → running (cpus W c) = Some t → fetch t = Some i → stored i t = Some v → monitor (cpus W c) = true →
  ∃ A', astep A None A' ∧ sim (put c false (Some (set_tmp 0 t)) (store v W)) A'.
Proof.
  intros Hw S Hr Hf Hs Hm. destruct (stored_word W A c t i v S Hr Hf Hs Hm Hw) as (Hp & Hspec & Hv & Hd). destruct S as (S1 & S2 & Sc).
  pose proof (Sc c) as Hc. unfold cpu_ok in Hc. rewrite Hr in Hc. destruct Hc as (W1 & W2 & _).
  eexists. split; [by apply (a_atomic _ c)|]. rewrite <-S1, Hspec. cbn [fst snd].
  split; [done|]. split; [done|]. intros c'. cbn [put store counter cpus acpus].
  destruct (decide (c = c')) as [<-|]; [rewrite !upd_eq; exact (conj W1 (conj W2 Hd))|]. rewrite !upd_ne by done. eapply cpu_ok_cleared, Sc.
Qed.

Lemma sim_store_fails W A c t i v :
  sim W A → running (cpus W c) = Some t → fetch t = Some i → stored i t = Some v → sim (put c false (Some (set_tmp 1 t)) W) A.
Proof.
  intros S Hr Hf Hs. eapply sim_local; [done|exact Hr|done|done|].
  each_insn t Hf; injection Hf as <-; cbn in Hs; try discriminate Hs; unfold stands_for; cbn; try destruct (_ =? _); intuition congruence.
Qed.

Lemma stands_for_end mon m t d : fetch t = None → stands_for mon m t d → d = Finished (returned (fn t) (result t)).
Proof.
  intros Hf. destruct t as [f p r tm a b z n]. unfold fetch in Hf. cbn [fn pc] in Hf.
  destruct f; destruct p as [|[|[|[|[|[|[|p]]]]]]]; cbn in Hf; try discriminate Hf; unfold stands_for; cbn; auto.
Qed.

(** ** One step *)
Lemma sim_step W A l W' :
  0 ≤ w → sim W A → step W l W' → ∃ A', (l = None ∧ A' = A ∨ astep A l A') ∧ sim W' A'.
Proof.
  intros Hw S Hs. pose proof S as (S1 & S2 & Sc). inversion Hs as [c f a b Hr Hwd|c t Hr Hf|c Hr|c v Hr|c t i t' Hr Hf He|c t Hr Hf|c t i v Hr Hf Hv Hm|c t i v Hr Hf Hv]; subst; clear Hs.
  - specialize (Sc c). unfold cpu_ok in Sc. rewrite Hr in Sc. eexists. split; [right; by apply a_call|]. apply sim_put; [done|].
    split; [by apply wrap_in_word|]. split; [by apply wrap_in_word|]. unfold stands_for. by destruct f.
  - specialize (Sc c). unfold cpu_ok in Sc. rewrite Hr in Sc. destruct Sc as (_ & _ & Sc). apply stands_for_end in Sc; [|done].
    eexists. split; [right; by apply a_ret|]. by apply sim_put.
  - specialize (Sc c). unfold cpu_ok in Sc. rewrite Hr in Sc. exists A. split; [|done]. right. rewrite S1. by apply a_read.
  - pose proof (Sc c) as Hc. unfold cpu_ok in Hc. rewrite Hr in Hc. eexists. split; [right; by apply a_set|]. split; [done|]. split; [by apply wrap_in_word|].
    intros c'. eapply cpu_ok_cleared, Sc.
  - exists A. split; [by left|]. by eapply sim_exec.
  - destruct (sim_ldxr W A c t Hw S Hr Hf) as (A' & HA & S'). exists A'. split; [|done]. destruct HA; auto.
  - destruct (sim_stored W A c t i v Hw S Hr Hf Hv Hm) as (A' & HA & S'). exists A'. auto.
  - exists A. split; [by left|]. by eapply sim_store_fails.
Qed.

Lemma sim_run W tr W' : 0 ≤ w → run step W tr W' → ∀ A, sim W A → ∃ A', run astep A tr A' ∧ sim W' A'.
Proof.
  intros Hw. induction 1 as [x|x y tr z Hs _ IH|x l y tr z Hs _ IH]; intros A S.
  - exists A. split; [constructor|done].
  - destruct (sim_step x A None y Hw S Hs) as (A1 & HA & S1). destruct (IH A1 S1) as (A2 & HA2 & S2). exists A2. split; [|done].
    destruct HA as [[_ ->]|HA]; [done|]. by eapply run_silent.
  - destruct (sim_step x A (Some l) y Hw S Hs) as (A1 & HA & S1). destruct (IH A1 S1) as (A2 & HA2 & S2). exists A2. split; [|done].
    destruct HA as [[? _]|HA]; [done|]. by eapply run_label.
Qed.

(** C35: the exclusive loops are atomic.  Whatever number of CPUs calls the functions of atomic.h on one
    counter, with their instructions interleaved in any order and exclusive stores failing whenever they
    may, what can be seen, the calls with their arguments and the values they return, in their
    order, is what could be seen if every operation took place in a single step between its call
    and its return, and the counter ends up the same. *)
Theorem atomic_refines v tr W' :
  0 ≤ w → run step (boot (wrap w v)) tr W' →
  ∃ A', run astep (aboot (wrap w v)) tr A' ∧ acounter A' = counter W'.
Proof.
  intros Hw Hrun. destruct (sim_run _ _ _ Hw Hrun (aboot (wrap w v))) as (A' & HA & S1 & _).
  { split; [done|]. split; [by apply wrap_in_word|done]. }
  by exists A'.
Qed.

End machine.

(** ** Executions that can be computed *)

(** A CPU calls, goes on by one instruction, has its exclusive store fail, or returns. *)
Inductive move := MCall (c : Z) (f : func) (a b : Z) | MGo (c : Z) | MFail (c : Z) | MRet (c : Z).

Definition go (w c : Z) (t : thread) (i : insn) (W : world) : option world :=
  let k := cpus W c in
  match exec w i t, stored i t with
  | Some t', _ => Some (put c (monitor k) (Some t') W)
  | None, Some v => Some (if monitor k then put c false (Some (set_tmp 0 t)) (store v W) else put c false (Some (set_tmp 1 t)) W)
  | None, None => match i with LDXR => Some (put c true (Some (set_result (counter W) t)) W) | _ => None end
  end.

Definition play1 (w : Z) (m : move) (W : world) : option (list label * world) :=
  match m with
  | MCall c f a b =>
      if running (cpus W c) is Some _ then None
      else if width f =? w then Some ([Call c f (wrap w a) (wrap w b)], put c (monitor (cpus W c)) (Some (start w f a b)) W) else None
  | MGo c => t ← running (cpus W c); i ← fetch t; W' ← go w c t i W; Some ([], W')
  | MFail c => t ← running (cpus W c); i ← fetch t; _ ← stored i t; Some ([], put c false (Some (set_tmp 1 t)) W)
  | MRet c =>
      t ← running (cpus W c);
      if fetch t is Some _ then None else Some ([Ret c (returned (fn t) (result t))], put c (monitor (cpus W c)) None W)
  end.

Fixpoint play (w : Z) (ms : list move) (W : world) : option (list label * world) :=
  match ms with
  | [] => Some ([], W)
  | m :: ms => r ← play1 w m W; r' ← play w ms r.2; Some (r.1 ++ r'.1, r'.2)
  end.

Lemma play1_run w m W tr W' : play1 w m W = Some (tr, W') → tr = [] ∧ step w W None W' ∨ ∃ l, tr = [l] ∧ step w W (Some l) W'.
Proof.
  destruct m as [c f a b|c|c|c]; cbn; intros H.
  - destruct (running (cpus W c)) eqn:Hr; [done|]. destruct (Z.eqb_spec (width f) w); [|done]. injection H as <- <-. right. eexists. split; [done|]. by apply s_call.
  - apply bind_Some in H as (t & Hr & H). apply bind_Some in H as (i & Hf & H). apply bind_Some in H as (W1 & Hg & H). injection H as <- <-.
    left. split; [done|]. unfold go in Hg. destruct (exec w i t) as [t'|] eqn:He; [injection Hg as <-; by eapply s_exec|].
    destruct (stored i t) as [v|] eqn:Hs; [|destruct i; try done; injection Hg as <-; by apply s_ldxr].
    injection Hg as <-. destruct (monitor (cpus W c)) eqn:Hm; [by eapply s_store|by eapply s_store_fails].
  - apply bind_Some in H as (t & Hr & H). apply bind_Some in H as (i & Hf & H). apply bind_Some in H as (v & Hs & H). injection H as <- <-.
    left. split; [done|]. by eapply s_store_fails.
  - apply bind_Some in H as (t & Hr & H). destruct (fetch t) eqn:Hf; [done|]. injection H as <- <-. right. eexists. split; [done|]. by apply s_ret.
Qed.

Lemma play_run w ms W tr W' : play w ms W = Some (tr, W') → run (step w) W tr W'.
Proof.
  revert W tr. induction ms as [|m ms IH]; intros W tr; cbn; [intros [= <- <-]; constructor|].
  intros H. apply bind_Some in H as ([tr1 W1] & H1 & H). apply bind_Some in H as ([tr2 W2] & H2 & H). injection H as <- <-. cbn [fst snd] in *.
  apply IH in H2. destruct (play1_run _ _ _ _ _ H1) as [[-> Hs]|(l & -> & Hs)]; cbn; [by eapply run_silent|by eapply run_label].
Qed.

(** Two CPUs arrive at a barrier: both load the counter, the store of the second fails, and it
    starts again. *)
Definition two_arrivals : list move :=
  [MCall 0 F_add_return 1 0; MCall 1 F_add_return 1 0; MGo 0; MGo 1; MGo 1; MGo 0; MGo 0; MGo 1; MGo 0; MGo 1; MGo 0; MGo 1; MGo 1; MGo 1; MGo 1;
   MRet 0; MGo 1; MRet 1].

Lemma atomic_refines_witness :
  ∃ A, run (astep 32) (aboot 0) [Call 0 F_add_return 1 0; Call 1 F_add_return 1 0; Ret 0 (Some 1); Ret 1 (Some 2)] A ∧ acounter A = 2.
Proof.
  destruct (play 32 two_arrivals (boot 0)) as [[tr W]|] eqn:E; [|by vm_compute in E].
  assert (tr = [Call 0 F_add_return 1 0; Call 1 F_add_return 1 0; Ret 0 (Some 1); Ret 1 (Some 2)] ∧ counter W = 2) as [-> Hc].
  { vm_compute in E. by injection E as <- <-. }
  destruct (atomic_refines 32 0 _ W ltac:(lia) (play_run _ _ _ _ _ E)) as (A & HA & HcA).
  exists A. split; [exact HA|]. by rewrite HcA.
Defined.
