(* ===== verification/AtomicLoop.v ===== *)
(** * The operations of src/lib/inc/atomic.h that are made of others

    [__atomic_add_unless] and [atomic64_add_unless] are loops around a compare-and-exchange, which
    [Atomic] shows to be one step.  Here any number of CPUs run the loops, and other operations
    between them, on one counter; every execution is one in which the addition, and its condition, is a
    single step.  The macros that test a result are functions over the single steps. *)
From S2P Require Import Prelude Atomic.

Section tests.
Variable w : Z.

(** ** The macros: what is left in the counter, and the truth of the test *)

Definition test (f : func) (a : Z) (p : Z → bool) (m : Z) : Z * bool := let '(m', r) := spec w f a 0 m in (m', p r).

Definition atomic_inc (m : Z) : Z := (spec w F_add 1 0 m).1.
Definition atomic_dec (m : Z) : Z := (spec w F_sub 1 0 m).1.
Definition atomic_inc_and_test : Z → Z * bool := test F_add_return 1 (λ r, r =? 0).
Definition atomic_dec_and_test : Z → Z * bool := test F_sub_return 1 (λ r, r =? 0).
Definition atomic_inc_return (m : Z) : Z * Z := spec w F_add_return 1 0 m.
Definition atomic_dec_return (m : Z) : Z * Z := spec w F_sub_return 1 0 m.
Definition atomic_sub_and_test (i : Z) : Z → Z * bool := test F_sub_return i (λ r, r =? 0).
Definition atomic_add_negative (i : Z) : Z → Z * bool := test F_add_return i (negative w).
Definition atomic64_add_negative (i : Z) : Z → Z * bool := test F64_add_return i (negative w).
Definition atomic64_inc (m : Z) : Z := (spec w F64_add 1 0 m).1.
Definition atomic64_inc_return (m : Z) : Z * Z := spec w F64_add_return 1 0 m.
Definition atomic64_inc_and_test : Z → Z * bool := test F64_add_return 1 (λ r, r =? 0).
Definition atomic64_sub_and_test (i : Z) : Z → Z * bool := test F64_sub_return i (λ r, r =? 0).
Definition atomic64_dec (m : Z) : Z := (spec w F64_sub 1 0 m).1.
Definition atomic64_dec_return (m : Z) : Z * Z := spec w F64_sub_return 1 0 m.
Definition atomic64_dec_and_test : Z → Z * bool := test F64_sub_return 1 (λ r, r =? 0).

(** Exactly the CPU that takes the last reference is told so. *)
Lemma sub_and_test_last i m : 0 ≤ w → in_word w i → in_word w m →
  (atomic_sub_and_test i m).2 = (m =? i) ∧ (atomic64_sub_and_test i m).2 = (m =? i).
Proof. intros Hw Hi Hm. cbn. by rewrite wrap_sub_zero. Qed.

End tests.

(** ** The loops *)

(** A CPU is not in the function, about to read the counter, about to test [c] and to try the exchange
    for it, or about to return. *)
Inductive phase := Out | Reading (a u : Z) | Trying (a u c : Z) | Leaving (r : Z).
Record lworld := { value : Z; phases : Z → phase }.

Inductive event := ECall (c a u : Z) | ERet (c r : Z) | EOther (c : Z) (f : func) (a b r : Z).

Section loop.
#[local] Set Default Proof Using "All".
Variable w : Z.

(** What the function returns when it is asked for [u] and last saw [c]. *)
Variable ret : Z → Z → Z.

(** The compare-and-exchange of the width. *)
Variable cmpxchg : func.
Hypothesis cmpxchg_cas : kind_of cmpxchg = KCas.

(** The next access to the counter [m], and what is left in it. *)
Definition add_unless (p : phase) (m : Z) : phase * Z :=
  match p with
  | Reading a u => (Trying a u m, m)
  | Trying a u c =>
      if negb (c =? u) then
        let '(m', old) := spec w cmpxchg c (wrap w (c + a)) m in
        if negb (old =? c) then (Trying a u old, m') else (Leaving (ret u c), m')
      else (Leaving (ret u c), m)
  | p => (p, m)
  end.

Definition moving (p : phase) : bool := match p with Reading _ _ | Trying _ _ _ => true | _ => false end.

Inductive lstep (W : lworld) : option event → lworld → Prop :=
| l_call c a u : phases W c = Out → in_word w u → lstep W (Some (ECall c a u)) {| value := value W; phases := <[c := Reading a u]> (phases W) |}
| l_ret c r : phases W c = Leaving r → lstep W (Some (ERet c r)) {| value := value W; phases := <[c := Out]> (phases W) |}
| l_other c f a b : phases W c = Out → in_word w b →
    let s := spec w f a b (value W) in lstep W (Some (EOther c f a b s.2)) {| value := s.1; phases := phases W |}
| l_move c : moving (phases W c) = true →
    let s := add_unless (phases W c) (value W) in lstep W None {| value := s.2; phases := <[c := s.1]> (phases W) |}.

(** ** The abstract machine: the addition and its condition in one step *)

Inductive aphase := AOut | APending (a u : Z) | ADone (r : Z).
Record aloop := { avalue : Z; aphases : Z → aphase }.

Definition unless (a u m : Z) : Z := if m =? u then m else wrap w (m + a).

Inductive alstep (A : aloop) : option event → aloop → Prop :=
| al_call c a u : aphases A c = AOut → alstep A (Some (ECall c a u)) {| avalue := avalue A; aphases := <[c := APending a u]> (aphases A) |}
| al_ret c r : aphases A c = ADone r → alstep A (Some (ERet c r)) {| avalue := avalue A; aphases := <[c := AOut]> (aphases A) |}
| al_other c f a b : aphases A c = AOut →
    let s := spec w f a b (avalue A) in alstep A (Some (EOther c f a b s.2)) {| avalue := s.1; aphases := aphases A |}
| al_unless c a u : aphases A c = APending a u →
    alstep A None {| avalue := unless a u (avalue A); aphases := <[c := ADone (ret u (avalue A))]> (aphases A) |}.

(** A CPU that saw [u] is done already. *)
Definition abs (p : phase) : aphase :=
  match p with
  | Out => AOut
  | Reading a u => APending a u
  | Trying a u c => if c =? u then ADone (ret u c) else APending a u
  | Leaving r => ADone r
  end.

Definition lsim (W : lworld) (A : aloop) : Prop := value W = avalue A ∧ ∀ c, aphases A c = abs (phases W c).

Lemma lsim_put W A c p v : lsim W A → lsim {| value := v; phases := <[c := p]> (phases W) |} {| avalue := v; aphases := <[c := abs p]> (aphases A) |}.
Proof.
  intros [_ S]. split; [done|]. intros c'. cbn. destruct (decide (c = c')) as [<-|]; [by rewrite !upd_eq|by rewrite !upd_ne].
Qed.

Lemma lsim_stay W A c p : lsim W A → abs p = abs (phases W c) → lsim {| value := value W; phases := <[c := p]> (phases W) |} A.
Proof.
  intros [Hv S] Hp. split; [done|]. intros c'. cbn. destruct (decide (c = c')) as [<-|]; [by rewrite upd_eq, Hp|by rewrite upd_ne].
Qed.

Lemma cas_spec a b m : spec w cmpxchg a b m = (if m =? a then b else m, m).
Proof. by destruct cmpxchg. Qed.

Lemma lsim_step W A l W' : lsim W A → lstep W l W' → ∃ A', (l = None ∧ A' = A ∨ alstep A l A') ∧ lsim W' A'.
Proof.
  intros S Hs. pose proof S as [Hv Sc]. inversion Hs as [c a u Hp Hu|c r Hp|c f a b Hp Hb|c Hp]; subst; clear Hs; specialize (Sc c);
    try match goal with s := _ |- _ => subst s end.
  - rewrite Hp in Sc. eexists. split; [right; by apply al_call|]. rewrite <-Hv. by apply (lsim_put W A c (Reading a u)).
  - rewrite Hp in Sc. eexists. split; [right; by apply al_ret|]. rewrite <-Hv. by apply (lsim_put W A c Out).
  - rewrite Hp in Sc. cbv zeta. rewrite Hv. eexists. split; [right; by apply al_other|]. split; [done|]. intros c'. apply S.
  - destruct (phases W c) as [|a u|a u x|r] eqn:Ep; try discriminate Hp; cbn [add_unless abs] in *.
    + destruct (Z.eqb_spec (value W) u) as [Hu|Hu].
      * eexists. split; [right; by apply al_unless|]. cbn [fst snd]. rewrite <-Hv. unfold unless. rewrite Hu, Z.eqb_refl.
        pose proof (lsim_put W A c (Trying a u u) u S) as S'. cbn [abs] in S'. rewrite Z.eqb_refl in S'. exact S'.
      * exists A. split; [by left|]. apply lsim_stay; [done|]. rewrite Ep. cbn. by destruct (Z.eqb_spec (value W) u).
    + destruct (Z.eqb_spec x u) as [->|Hx]; cbn [negb].
      { exists A. split; [by left|]. apply lsim_stay; [done|]. rewrite Ep. cbn. by rewrite Z.eqb_refl. }
      rewrite cas_spec. cbv zeta. destruct (Z.eqb_spec (value W) x) as [<-|Hne]; cbn [negb fst snd].
      * eexists. split; [right; by apply al_unless|]. rewrite <-Hv. unfold unless.
        destruct (Z.eqb_spec (value W) u); [done|]. exact (lsim_put W A c (Leaving (ret u (value W))) _ S).
      * destruct (Z.eqb_spec (value W) u) as [Hu|Hu].
        -- eexists. split; [right; by apply al_unless|]. rewrite <-Hv. unfold unless. rewrite Hu, Z.eqb_refl.
           pose proof (lsim_put W A c (Trying a u u) u S) as S'. cbn [abs] in S'. rewrite Z.eqb_refl in S'. exact S'.
        -- exists A. split; [by left|]. apply lsim_stay; [done|]. rewrite Ep. cbn.
           destruct (Z.eqb_spec (value W) u), (Z.eqb_spec x u); done.
Qed.

(** The loops are atomic: whatever the CPUs do, what can be seen is what could be seen if every call tested and added in
    one step. *)
Lemma add_unless_refines v tr W' :
  run lstep {| value := v; phases := λ _, Out |} tr W' →
  ∃ A', run alstep {| avalue := v; aphases := λ _, AOut |} tr A' ∧ avalue A' = value W'.
Proof.
  assert (∀ W, run lstep W tr W' → ∀ A, lsim W A → ∃ A', run alstep A tr A' ∧ avalue A' = value W') as H.
  { induction 1 as [x|x y tr z Hs _ IH|x l y tr z Hs _ IH]; intros A S.
    - exists A. split; [constructor|]. by destruct S.
    - destruct (lsim_step _ _ _ _ S Hs) as (A1 & HA & S1). destruct (IH A1 S1) as (A2 & HA2 & E). exists A2. split; [|done].
      destruct HA as [[_ ->]|HA]; [done|by eapply run_silent].
    - destruct (lsim_step _ _ _ _ S Hs) as (A1 & HA & S1). destruct (IH A1 S1) as (A2 & HA2 & E). exists A2. split; [|done].
      destruct HA as [[? _]|HA]; [done|by eapply run_label]. }
  intros Hr. by apply (H _ Hr).
Qed.

(** A CPU goes round again only when another one has changed the counter; left alone from any point, it is about to
    return after at most three accesses. *)
Fixpoint alone (n : nat) (s : phase * Z) : phase * Z := match n with O => s | S n => alone n (add_unless s.1 s.2) end.

Lemma add_unless_alone p m : moving p = true → ∃ r m', alone 3 (p, m) = (Leaving r, m').
Proof.
  intros Hp. destruct p as [|a u|a u c|r]; try discriminate Hp; cbn [alone add_unless fst snd].
  - destruct (Z.eqb_spec m u) as [->|Hu]; cbn [negb]; [by eauto|]. rewrite cas_spec, Z.eqb_refl. cbn [negb]. by eauto.
  - destruct (Z.eqb_spec c u) as [->|Hc]; cbn [negb]; [by eauto|]. rewrite cas_spec.
    destruct (Z.eqb_spec m c) as [->|Hm]; cbn [negb add_unless fst snd alone]; [by eauto|].
    destruct (Z.eqb_spec m u) as [->|Hu]; cbn [negb]; [by eauto|]. rewrite cas_spec, Z.eqb_refl. cbn [negb]. by eauto.
Qed.

End loop.

(** ** The two functions *)

Definition __atomic_add_unless : phase → Z → phase * Z := add_unless 32 (λ u c, c) F_cmpxchg.
Definition atomic64_add_unless : phase → Z → phase * Z := add_unless 64 (λ u c, Z.b2z (negb (c =? u))) F64_cmpxchg.
Definition atomic64_inc_not_zero : phase := Reading 1 0.

(** A count of zero is left alone; any other one is incremented. *)
Lemma inc_not_zero_alone m : in_word 64 m →
  alone 64 (λ u c, Z.b2z (negb (c =? u))) F64_cmpxchg 3 (atomic64_inc_not_zero, m) =
    if m =? 0 then (Leaving 0, 0) else (Leaving 1, u64 (m + 1)).
Proof.
  intros Hm. cbn. destruct (Z.eqb_spec m 0) as [->|Hne]; [done|]. cbn. rewrite Z.eqb_refl. cbn. by destruct (Z.eqb_spec m 0).
Qed.
