(* ===== verification/MemString.v ===== *)
(** * Memory and strings: src/lib/string.c

    Memory is a function from addresses to bytes.  The loops over strings stop at the
    terminating zero; their fuel bounds the bytes visited and a string without a terminator
    makes them halt with [FSpin]. *)
From S2P Require Import Prelude.

Abbreviation bytes := (Z → Z).

(** ** memcpy and memset *)

(** Bytes [k .. k + n - 1] of the source to the destination, one after the other. *)
Fixpoint copy_bytes (m : bytes) (dst src i : Z) (n : nat) : bytes :=
  match n with
  | O => m
  | S n => copy_bytes (<[dst + i := m (src + i)]> m) dst src (i + 1) n
  end.

Definition WORD_SIZE : Z := 8.

(** A load and a store of one unsigned long: eight bytes read, then eight bytes written. *)
Definition copy_word (m : bytes) (dst src : Z) : bytes := λ x,
  if (dst <=? x) && (x <? dst + WORD_SIZE) then m (src + (x - dst)) else m x.

(** The word loop: it leaves when fewer than [WORD_SIZE] bytes are left. *)
Fixpoint copy_words (m : bytes) (dst src i count : Z) (fuel : nat) : bytes * Z :=
  match fuel with
  | O => (m, i)
  | S fuel =>
      if i <? count then
        if u64 (count - 1) <? i + (WORD_SIZE - 1) then (m, i)
        else copy_words (copy_word m (dst + i) (src + i)) dst src (i + WORD_SIZE) count fuel
      else (m, i)
  end.

Definition memcpy (m : bytes) (dst src count : Z) : bytes :=
  if (Z.land src (WORD_SIZE - 1) =? 0) && (Z.land dst (WORD_SIZE - 1) =? 0) then
    let '(m, i) := copy_words m dst src 0 count (Z.to_nat count) in
    if i <=? u64 (count - 1) then copy_bytes m dst src i (Z.to_nat (count - i)) else m
  else copy_bytes m dst src 0 (Z.to_nat count).

Fixpoint memset_loop (m : bytes) (d c : Z) (n : nat) : bytes :=
  match n with
  | O => m
  | S n => memset_loop (<[d := u8 c]> m) (d + 1) c n
  end.

Definition memset (m : bytes) (dest c count : Z) : bytes := memset_loop m dest c (Z.to_nat count).

(** ** Strings *)

(** The address of the first zero byte at or after [s]. *)
Fixpoint find_zero (m : bytes) (s : Z) (fuel : nat) : outcome Z :=
  if m s =? 0 then Done s
  else match fuel with O => Halt FSpin | S fuel => find_zero m (s + 1) fuel end.

(** Copy bytes up to and including the first zero. *)
Fixpoint copy_string (m : bytes) (dest src : Z) (fuel : nat) : outcome bytes :=
  match fuel with
  | O => Halt FSpin
  | S fuel =>
      let m' := <[dest := m src]> m in
      if m' dest =? 0 then Done m' else copy_string m' (dest + 1) (src + 1) fuel
  end.

Definition strcat (m : bytes) (dest src : Z) (fuel : nat) : outcome bytes :=
  e ← find_zero m dest fuel; copy_string m e src fuel.

Definition strlen (m : bytes) (s : Z) (fuel : nat) : outcome Z := e ← find_zero m s fuel; mret (u64 (e - s)).

Fixpoint strnlen_loop (m : bytes) (str n : Z) (fuel : nat) : Z :=
  match fuel with
  | O => str
  | S fuel => if negb (m str =? 0) && negb (n =? 0) then strnlen_loop m (str + 1) (n - 1) fuel else str
  end.

Definition strnlen (m : bytes) (s n : Z) : Z := strnlen_loop m s n (S (Z.to_nat n)) - s.

Definition strcpy (m : bytes) (dest src : Z) (fuel : nat) : outcome bytes := copy_string m dest src fuel.

(** The walk of [strcmp]: where both pointers stop. *)
Fixpoint strcmp_loop (m : bytes) (tmp0 tmp1 : Z) (fuel : nat) : outcome (Z * Z) :=
  if (m tmp0 =? m tmp1) && (negb (m tmp0 =? 0) && negb (m tmp1 =? 0)) then
    match fuel with O => Halt FSpin | S fuel => strcmp_loop m (tmp0 + 1) (tmp1 + 1) fuel end
  else Done (tmp0, tmp1).

Definition strcmp (m : bytes) (str0 str1 : Z) (fuel : nat) : outcome Z :=
  p ← strcmp_loop m str0 str1 fuel; mret (signed 32 (u32 (p.1 - p.2))).

(** ** Lemmas *)

Lemma memset_spec m dest c count x :
  memset m dest c count x = if (dest <=? x) && (x <? dest + count) then u8 c else m x.
Proof.
  unfold memset. destruct (Z.le_gt_cases 0 count) as [Hc|Hc].
  2: { rewrite Z2Nat.nonpos by lia. simpl. by zcase. }
  rewrite <-(Z2Nat.id count) at 2 by done. generalize (Z.to_nat count) as n. clear Hc. intros n.
  revert m dest. induction n as [|n IH]; intros m dest; simpl memset_loop; [by zcase|].
  rewrite IH. destruct (decide (x = dest)) as [->|].
  - rewrite upd_eq. by zcase.
  - rewrite upd_ne by done. by zcase.
Qed.

(** The ranges [dst, dst+count) and [src, src+count) do not overlap. *)
Definition disjoint_ranges (dst src count : Z) : Prop := dst + count ≤ src ∨ src + count ≤ dst.

Lemma copy_bytes_spec m dst src i n x :
  0 ≤ i → disjoint_ranges dst src (i + Z.of_nat n) →
  copy_bytes m dst src i n x =
    if (dst + i <=? x) && (x <? dst + i + Z.of_nat n) then m (src + (x - dst)) else m x.
Proof.
  revert m i. induction n as [|n IH]; intros m i Hi Hd; simpl copy_bytes; [by zcase|].
  assert (disjoint_ranges dst src (i + 1 + Z.of_nat n)) as Hd' by (unfold disjoint_ranges in *; lia).
  rewrite IH by (lia || done). unfold disjoint_ranges in Hd. destruct (decide (x = dst + i)) as [->|Hx].
  - rewrite upd_eq. zcase. simpl. f_equal. lia.
  - rewrite (upd_ne _ _ x) by congruence. zcase; try done. simpl. by rewrite upd_ne by lia.
Qed.

Lemma copy_words_spec m dst src count fuel i :
  0 ≤ i ≤ count → 0 < count < 2 ^ 64 → disjoint_ranges dst src count → (Z.to_nat (count - i) ≤ fuel)%nat →
  ∃ j m', copy_words m dst src i count fuel = (m', j) ∧ i ≤ j ≤ count ∧
    ∀ x, m' x = if (dst + i <=? x) && (x <? dst + j) then m (src + (x - dst)) else m x.
Proof.
  revert m i. induction fuel as [|fuel IH]; intros m i Hi Hc Hd Hf; cbn [copy_words].
  - exists i, m. split; [done|]. split; [lia|]. intros x. by zcase.
  - rewrite wrap_small by lia. unfold WORD_SIZE in *. zcase.
    + exists i, m. split; [done|]. split; [lia|]. intros x. by zcase.
    + destruct (IH (copy_word m (dst + i) (src + i)) (i + 8)) as (j & m' & E & Hj & Hm); [lia..|done|lia|].
      exists j, m'. split; [done|]. split; [lia|]. intros x. rewrite Hm. unfold copy_word, WORD_SIZE, disjoint_ranges in *.
      zcase; simpl; try done; f_equal; lia.
    + exists i, m. split; [done|]. split; [lia|]. intros x. by zcase.
Qed.

Lemma memcpy_run m dst src count :
  0 ≤ count < 2 ^ 64 → disjoint_ranges dst src count →
  ∀ x, memcpy m dst src count x = if (dst <=? x) && (x <? dst + count) then m (src + (x - dst)) else m x.
Proof.
  intros Hc Hd x. unfold memcpy.
  destruct (_ && _).
  - destruct (decide (count = 0)) as [->|Hne]; [simpl; zcase; done|].
    destruct (copy_words_spec m dst src count (Z.to_nat count) 0) as (j & m' & -> & Hj & Hm); [lia..|done|lia|].
    rewrite wrap_small by lia. destruct (Z.leb_spec j (count - 1)).
    + rewrite copy_bytes_spec by (rewrite ?Z2Nat.id by lia; (lia || by replace (j + (count - j)) with count by lia)).
      rewrite Z2Nat.id by lia. rewrite !Hm. unfold disjoint_ranges in *. zcase; simpl; done.
    + rewrite Hm. zcase; simpl; done.
  - rewrite copy_bytes_spec by (rewrite ?Z2Nat.id by lia; (lia || done)).
    rewrite Z2Nat.id by lia. by rewrite Z.add_0_r.
Qed.

Lemma strcmp_loop_diff m a b fuel p : strcmp_loop m a b fuel = Done p → p.1 - p.2 = a - b.
Proof.
  revert a b. induction fuel as [|fuel IH]; intros a b; simpl; destruct (_ && _); try done.
  - by intros [= <-].
  - intros H. rewrite (IH _ _ H). lia.
  - by intros [= <-].
Qed.

(** ** Properties *)

(** C20: [memcpy] copies.  For ranges that do not overlap, whatever their alignment and length, the
    bytes of the destination become those of the source and no other byte changes. *)
Theorem memcpy_copies m dst src count :
  0 ≤ count < 2 ^ 64 → disjoint_ranges dst src count →
  ∀ x, memcpy m dst src count x = if (dst <=? x) && (x <? dst + count) then m (src + (x - dst)) else m x.
Proof. intros. by apply memcpy_run. Qed.

Lemma memcpy_copies_witness :
  memcpy (λ x, x) 64 16 11 74 = 26 ∧ memcpy (λ x, x) 64 16 11 75 = 75.
Proof.
  assert (disjoint_ranges 64 16 11) as Hd by (unfold disjoint_ranges; lia).
  split; rewrite (memcpy_copies (λ x, x) 64 16 11) by (exact Hd || lia); reflexivity.
Defined.

(** What [strcmp] returns is the distance of its arguments, as an int: it does not depend on
    where the strings differ, and equal strings at different addresses compare as different. *)
Theorem strcmp_is_distance m str0 str1 fuel r :
  strcmp m str0 str1 fuel = Done r → r = signed 32 (u32 (str0 - str1)).
Proof.
  unfold strcmp. destruct (strcmp_loop m str0 str1 fuel) as [p|f] eqn:E; simpl; [|done].
  intros [= <-]. by rewrite (strcmp_loop_diff _ _ _ _ _ E).
Qed.
