(* ===== verification/ListHead.v ===== *)
(** * Intrusive doubly linked lists: src/lib/inc/list.h

    A list is a ring of [list_head]s through a head; pointers are addresses and the memory maps
    an address to the [list_head] there.  [circular m h l] says that the ring of head [h] goes
    through the entries [l] and back, in both directions; every operation is shown to act on
    [l] as the list operation its name promises, and to touch nothing outside. *)
From S2P Require Import Prelude.

(** ** Data and operations *)

Record list_head := { next : Z; prev : Z }.
#[export] Instance eta_list_head : Eta list_head := λ h, Build_list_head (next h) (prev h).

Definition LIST_POISON1 : Z := 0x00100100.
Definition LIST_POISON2 : Z := 0x00200200.

Abbreviation mem := (Z → list_head).
Definition set_next (a v : Z) (m : mem) : mem := alter (λ h, h <| next := v |>) a m.
Definition set_prev (a v : Z) (m : mem) : mem := alter (λ h, h <| prev := v |>) a m.

Definition INIT_LIST_HEAD (list : Z) (m : mem) : mem := set_prev list list (set_next list list m).

Definition __list_add (new prev next : Z) (m : mem) : mem :=
  let m := set_prev next new m in
  let m := set_next new next m in
  let m := set_prev new prev m in
  set_next prev new m.

Definition list_add (new head : Z) (m : mem) : mem := __list_add new head (next (m head)) m.

Definition list_add_tail (new head : Z) (m : mem) : mem := __list_add new (prev (m head)) head m.

Definition __list_del (prev next : Z) (m : mem) : mem := set_next prev next (set_prev next prev m).

Definition list_del (entry : Z) (m : mem) : mem :=
  let m := __list_del (prev (m entry)) (next (m entry)) m in
  let m := set_next entry LIST_POISON1 m in
  set_prev entry LIST_POISON2 m.

Definition list_replace (old new : Z) (m : mem) : mem :=
  let m := set_next new (next (m old)) m in
  let m := set_prev (next (m new)) new m in
  let m := set_prev new (prev (m old)) m in
  set_next (prev (m new)) new m.

Definition list_replace_init (old new : Z) (m : mem) : mem := INIT_LIST_HEAD old (list_replace old new m).

Definition list_del_init (entry : Z) (m : mem) : mem :=
  INIT_LIST_HEAD entry (__list_del (prev (m entry)) (next (m entry)) m).

Definition list_move (list head : Z) (m : mem) : mem :=
  list_add list head (__list_del (prev (m list)) (next (m list)) m).

Definition list_move_tail (list head : Z) (m : mem) : mem :=
  list_add_tail list head (__list_del (prev (m list)) (next (m list)) m).

Definition list_is_last (list head : Z) (m : mem) : bool := next (m list) =? head.

Definition list_empty (head : Z) (m : mem) : bool := next (m head) =? head.

Definition list_empty_careful (head : Z) (m : mem) : bool :=
  let nx := next (m head) in (nx =? head) && (nx =? prev (m head)).

Definition list_is_singular (head : Z) (m : mem) : bool :=
  negb (list_empty head m) && (next (m head) =? prev (m head)).

Definition __list_cut_position (list head entry : Z) (m : mem) : mem :=
  let new_first := next (m entry) in
  let m := set_next list (next (m head)) m in
  let m := set_prev (next (m list)) list m in
  let m := set_prev list entry m in
  let m := set_next entry list m in
  let m := set_next head new_first m in
  set_prev new_first head m.

Definition list_cut_position (list head entry : Z) (m : mem) : mem :=
  if list_empty head m then m
  else if list_is_singular head m && (negb (next (m head) =? entry) && negb (head =? entry)) then m
  else if entry =? head then INIT_LIST_HEAD list m
  else __list_cut_position list head entry m.

Definition __list_splice (list prv nxt : Z) (m : mem) : mem :=
  let first := next (m list) in
  let last := prev (m list) in
  let m := set_prev first prv m in
  let m := set_next prv first m in
  let m := set_next last nxt m in
  set_prev nxt last m.

Definition list_splice (list head : Z) (m : mem) : mem :=
  if negb (list_empty list m) then __list_splice list head (next (m head)) m else m.

Definition list_splice_tail (list head : Z) (m : mem) : mem :=
  if negb (list_empty list m) then __list_splice list (prev (m head)) head m else m.

Definition list_splice_init (list head : Z) (m : mem) : mem :=
  if negb (list_empty list m) then INIT_LIST_HEAD list (__list_splice list head (next (m head)) m) else m.

Definition list_splice_tail_init (list head : Z) (m : mem) : mem :=
  if negb (list_empty list m) then INIT_LIST_HEAD list (__list_splice list (prev (m head)) head m) else m.

(** [list_for_each_entry] with a [break] or [return] at the first entry that satisfies [f].  The
    fuel bounds the entries visited; a traversal that needs more does not come back. *)
Fixpoint find_from (f : Z → bool) (m : mem) (pos head : Z) (fuel : nat) : outcome (option Z) :=
  if pos =? head then Done None
  else match fuel with
       | O => Halt FSpin
       | S fuel => if f pos then Done (Some pos) else find_from f m (next (m pos)) head fuel
       end.

Definition list_find_entry (f : Z → bool) (m : mem) (head : Z) (fuel : nat) : outcome (option Z) :=
  find_from f m (next (m head)) head fuel.

(** The fifo queues: entries are put in at the tail and taken at the head. *)
Definition INIT_FIFO (fifo : Z) (m : mem) : mem := INIT_LIST_HEAD fifo m.
Definition fifo_in (new head : Z) (m : mem) : mem := list_add_tail new head m.
Definition fifo_out (head : Z) (m : mem) : Z * mem :=
  let list := next (m head) in (list, list_del list m).
Definition fifo_empty (fifo : Z) (m : mem) : bool := list_empty fifo m.

(** ** Field access *)

Lemma next_set_next_eq a v m : next (set_next a v m a) = v.
Proof. unfold set_next. by rewrite alter_eq. Qed.
Lemma next_set_next_ne a b v m : a ≠ b → next (set_next a v m b) = next (m b).
Proof. intros. unfold set_next. by rewrite alter_ne. Qed.
Lemma prev_set_prev_eq a v m : prev (set_prev a v m a) = v.
Proof. unfold set_prev. by rewrite alter_eq. Qed.
Lemma prev_set_prev_ne a b v m : a ≠ b → prev (set_prev a v m b) = prev (m b).
Proof. intros. unfold set_prev. by rewrite alter_ne. Qed.
Lemma next_set_prev a b v m : next (set_prev a v m b) = next (m b).
Proof. unfold set_prev. destruct (decide (a = b)) as [->|]; [by rewrite alter_eq|by rewrite alter_ne]. Qed.
Lemma prev_set_next a b v m : prev (set_next a v m b) = prev (m b).
Proof. unfold set_next. destruct (decide (a = b)) as [->|]; [by rewrite alter_eq|by rewrite alter_ne]. Qed.
Lemma set_next_ne a b v m : a ≠ b → set_next a v m b = m b.
Proof. intros. unfold set_next. by rewrite alter_ne. Qed.
Lemma set_prev_ne a b v m : a ≠ b → set_prev a v m b = m b.
Proof. intros. unfold set_prev. by rewrite alter_ne. Qed.

(** Read a field through the writes of an operation; side conditions by congruence. *)
Ltac lread :=
  repeat first
    [ rewrite next_set_prev | rewrite prev_set_next
    | rewrite next_set_next_eq | rewrite prev_set_prev_eq
    | rewrite next_set_next_ne by congruence
    | rewrite prev_set_prev_ne by congruence ].

(** ** Segments and rings *)

(** Neighbours in [l] point to each other. *)
Fixpoint linked (m : mem) (l : list Z) : Prop :=
  match l with
  | x :: (y :: _) as t => next (m x) = y ∧ prev (m y) = x ∧ linked m t
  | _ => True
  end.

(** A linked path whose nodes are distinct, except that it may close on itself. *)
Definition segment (m : mem) (l : list Z) : Prop :=
  linked m l ∧ NoDup (removelast l) ∧ NoDup (tail l).

Definition circular (m : mem) (h : Z) (l : list Z) : Prop := linked m (h :: l ++ [h]) ∧ NoDup (h :: l).

(** The memory outside [xs] is the same. *)
Definition same_outside (m m' : mem) (xs : list Z) : Prop := ∀ x, x ∉ xs → m' x = m x.

Lemma linked_app m l1 x l2 : linked m (l1 ++ x :: l2) ↔ linked m (l1 ++ [x]) ∧ linked m (x :: l2).
Proof.
  induction l1 as [|a [|b l1] IH]; simpl in *.
  - tauto.
  - destruct l2; tauto.
  - tauto.
Qed.

Lemma linked_frame m m' l :
  (∀ x, x ∈ removelast l → next (m' x) = next (m x)) →
  (∀ x, x ∈ tail l → prev (m' x) = prev (m x)) → linked m l → linked m' l.
Proof.
  induction l as [|a [|b l] IH]; [done..|]. intros Hn Hp (Ha & Hb & Hl).
  split; [rewrite Hn; [done|by left]|]. split; [rewrite Hp; [done|by left]|].
  apply IH; [|intros x Hx; apply Hp; by right|done].
  intros x Hx. apply Hn. change (x ∈ a :: removelast (b :: l)). by right.
Qed.

Lemma removelast_mid {A} (l1 : list A) x y l2 :
  removelast (l1 ++ x :: y :: l2) = l1 ++ x :: removelast (y :: l2).
Proof. by rewrite removelast_app. Qed.

Lemma tail_mid {A} (l1 : list A) x l2 : tail (l1 ++ x :: l2) = tail (l1 ++ [x]) ++ l2.
Proof. destruct l1; simpl; [done|]. by rewrite <-app_assoc. Qed.

(** Changing one link [p -- q] of a segment into a path through fresh nodes, or a longer path
    into one link: what is left of [p] and right of [q] stays. *)
Lemma segment_splice m m' l1 p mid mid' q l2 :
  segment m (l1 ++ p :: mid ++ q :: l2) →
  linked m' (p :: mid' ++ [q]) →
  NoDup (l1 ++ p :: mid' ++ removelast (q :: l2)) → NoDup (tail (l1 ++ [p]) ++ mid' ++ q :: l2) →
  (∀ x, x ∈ l1 ++ removelast (q :: l2) → next (m' x) = next (m x)) →
  (∀ x, x ∈ tail (l1 ++ [p]) ++ l2 → prev (m' x) = prev (m x)) →
  segment m' (l1 ++ p :: mid' ++ q :: l2).
Proof.
  intros (Hl & Hn & Hp) Hmid Hn' Hp' Fn Fp.
  apply linked_app in Hl as [H1 H2]. rewrite app_comm_cons in H2. apply linked_app in H2 as [_ H2].
  split; [|split].
  - apply linked_app. split.
    + apply (linked_frame m); [| |done]; intros x Hx.
      * apply Fn. rewrite removelast_app in Hx by done. simpl in Hx. rewrite app_nil_r in Hx.
        apply elem_of_app. by left.
      * apply Fp. apply elem_of_app. by left.
    + rewrite app_comm_cons. apply linked_app. split; [done|].
      apply (linked_frame m); [| |done]; intros x Hx.
      * apply Fn. apply elem_of_app. by right.
      * apply Fp. apply elem_of_app. by right.
  - rewrite removelast_app by done. change (p :: mid' ++ q :: l2) with ((p :: mid') ++ q :: l2).
    rewrite removelast_app by done. by rewrite <-app_comm_cons.
  - by rewrite tail_mid.
Qed.

Lemma circular_segment m h l : circular m h l ↔ segment m (h :: l ++ [h]).
Proof.
  unfold circular, segment. change (h :: l ++ [h]) with ((h :: l) ++ [h]) at 3.
  rewrite removelast_last. simpl. split; intros (H1 & H2); split_and!; try tauto.
  apply NoDup_app. apply NoDup_cons in H2 as [H2 H3]. split_and!; [done| |apply NoDup_singleton].
  intros x Hx ->%list_elem_of_singleton. done.
Qed.

Lemma circular_frame m m' h l xs :
  circular m h l → same_outside m m' xs → (∀ x, x ∈ h :: l → x ∉ xs) → circular m' h l.
Proof.
  intros [Hl Hn] Hs Hd. split; [|done]. apply (linked_frame m); [| |done].
  - intros x Hx. rewrite Hs; [done|]. apply Hd.
    change (h :: l ++ [h]) with ((h :: l) ++ [h]) in Hx. by rewrite removelast_last in Hx.
  - intros x Hx. rewrite Hs; [done|]. apply Hd. simpl in Hx. apply elem_of_app in Hx.
    rewrite list_elem_of_singleton in Hx. apply elem_of_cons. tauto.
Qed.

Lemma circular_head_next m h l : circular m h l → next (m h) = hd h l.
Proof. intros [H _]. destruct l; simpl in H; tauto. Qed.

Lemma circular_head_prev m h l : circular m h l → prev (m h) = List.last l h.
Proof.
  intros [H _]. destruct l as [|x l _] using rev_ind; [simpl in H; tauto|]. rewrite last_last.
  rewrite <-app_assoc in H. change (h :: l ++ [x] ++ [h]) with ((h :: l) ++ x :: [h]) in H.
  apply linked_app in H as [_ H]. simpl in H. tauto.
Qed.

Lemma circular_unique m h l1 l2 : circular m h l1 → circular m h l2 → l1 = l2.
Proof.
  intros [H1 N1] [H2 N2].
  assert (∀ a, a ∉ [] → h ∉ l1 → h ∉ l2 → linked m (a :: l1 ++ [h]) → linked m (a :: l2 ++ [h]) → l1 = l2) as Hg.
  { clear. revert l2. induction l1 as [|x l1 IH]; intros [|y l2] a _ Hh1 Hh2; simpl; try done.
    - intros (? & _) (? & _). subst. set_solver.
    - intros (? & _) (? & _). subst. set_solver.
    - intros (? & _ & H1) (? & _ & H2). subst. f_equal.
      apply (IH l2 (next (m a))); set_solver. }
  apply NoDup_cons in N1, N2. apply (Hg h); [set_solver|tauto..].
Qed.

(** ** What the primitives do to a segment *)

Lemma NoDup_mid {A} (l1 l2 : list A) x : NoDup (l1 ++ x :: l2) ↔ x ∉ l1 ++ l2 ∧ NoDup (l1 ++ l2).
Proof. rewrite <-Permutation_middle. apply NoDup_cons. Qed.

Lemma elem_of_removelast {A} (l : list A) x : x ∈ removelast l → x ∈ l.
Proof.
  destruct l as [|y l _] using rev_ind; [done|]. rewrite removelast_last, elem_of_app. tauto.
Qed.

Lemma elem_of_tail {A} (l : list A) x : x ∈ tail l → x ∈ l.
Proof. destruct l; [done|]. simpl. rewrite elem_of_cons. tauto. Qed.

Lemma segment_list_add m l1 p q l2 n :
  segment m (l1 ++ p :: q :: l2) → n ∉ l1 ++ p :: q :: l2 →
  segment (__list_add n p q m) (l1 ++ p :: n :: q :: l2).
Proof.
  intros Hs Hn. pose proof Hs as (_ & Hnr & Hnt). rewrite removelast_mid in Hnr. rewrite tail_mid in Hnt.
  assert (∀ x, x ∈ l1 ++ removelast (q :: l2) → x ∈ l1 ++ p :: q :: l2) as Hsub1.
  { intros x [Hx|Hx%elem_of_removelast]%elem_of_app; set_solver. }
  assert (∀ x, x ∈ tail (l1 ++ [p]) ++ l2 → x ∈ l1 ++ p :: q :: l2) as Hsub2.
  { intros x [Hx%elem_of_tail|Hx]%elem_of_app; set_solver. }
  apply (segment_splice m _ l1 p [] [n] q l2); [done|..].
  - assert (n ≠ p ∧ n ≠ q) as [Hnp Hnq] by set_solver.
    simpl. unfold __list_add. split_and!; lread; done.
  - change (l1 ++ p :: [n] ++ removelast (q :: l2)) with (l1 ++ [p] ++ n :: removelast (q :: l2)).
    rewrite (assoc app), NoDup_mid, <-(assoc app). simpl. split; [|done].
    intros [Hx|[->|Hx]%elem_of_cons]%elem_of_app; [apply Hn..|]; set_solver.
  - apply NoDup_mid. split; [|done]. intros [Hx%elem_of_tail|Hx]%elem_of_app; set_solver.
  - intros x Hx. unfold __list_add. apply NoDup_mid in Hnr as [Hnr _].
    assert (x ≠ p) by congruence. assert (x ≠ n) by (intros ->; auto).
    rewrite next_set_next_ne by done. lread. done.
  - intros x Hx. unfold __list_add. apply NoDup_mid in Hnt as [Hnt _].
    assert (x ≠ q) by congruence. assert (x ≠ n) by (intros ->; auto). lread. done.
Qed.

Lemma segment_list_del m l1 p mid q l2 :
  segment m (l1 ++ p :: mid ++ q :: l2) → segment (__list_del p q m) (l1 ++ p :: q :: l2).
Proof.
  intros Hs. pose proof Hs as (_ & Hnr & Hnt).
  assert (NoDup (l1 ++ p :: removelast (q :: l2))) as Hnr'.
  { change (p :: mid ++ q :: l2) with ((p :: mid) ++ q :: l2) in Hnr.
    rewrite !removelast_app in Hnr by done. rewrite <-app_comm_cons in Hnr.
    apply NoDup_mid in Hnr as [H1 H2]. apply NoDup_mid. split; [set_solver|].
    apply NoDup_app in H2 as (H2 & H3 & H4). apply NoDup_app in H4 as (_ & _ & H4).
    apply NoDup_app. set_solver. }
  assert (NoDup (tail (l1 ++ [p]) ++ q :: l2)) as Hnt'.
  { rewrite tail_mid in Hnt. apply NoDup_app in Hnt as (H2 & H3 & H4).
    apply NoDup_app in H4 as (_ & _ & H4). apply NoDup_app. set_solver. }
  apply (segment_splice m _ l1 p mid [] q l2); [done| |done..| |].
  - simpl. unfold __list_del. split_and!; lread; done.
  - intros x Hx. unfold __list_del. apply NoDup_mid in Hnr' as [H _].
    assert (x ≠ p) by congruence. lread. done.
  - intros x Hx. unfold __list_del. apply NoDup_mid in Hnt' as [H _].
    assert (x ≠ q) by congruence. lread. done.
Qed.

(** ** The operations on rings *)

Lemma snoc_cons {A} (h : A) l : ∃ l1 p, h :: l = l1 ++ [p].
Proof. destruct (exists_last (l := h :: l)) as (l1 & p & H); [done|eauto]. Qed.

Lemma cons_snoc {A} (h : A) l : ∃ q l2, l ++ [h] = q :: l2.
Proof. destruct l as [|x l]; [by exists h, []|]. by exists x, (l ++ [h]). Qed.

Lemma NoDup_of_circular m h l : circular m h l → h ∉ l ∧ NoDup l.
Proof. intros [_ H]. by apply NoDup_cons. Qed.

Lemma INIT_LIST_HEAD_circular m h : circular (INIT_LIST_HEAD h m) h [].
Proof.
  split; [|apply NoDup_singleton]. simpl. unfold INIT_LIST_HEAD. by rewrite next_set_prev, next_set_next_eq, prev_set_prev_eq.
Qed.

Lemma INIT_LIST_HEAD_outside m h : same_outside m (INIT_LIST_HEAD h m) [h].
Proof. intros x Hx. unfold INIT_LIST_HEAD. rewrite set_prev_ne, set_next_ne by set_solver. done. Qed.

Lemma list_add_between_outside m n p q : same_outside m (__list_add n p q m) [n; p; q].
Proof. intros x Hx. unfold __list_add. by rewrite !set_next_ne, !set_prev_ne, !set_next_ne, !set_prev_ne by set_solver. Qed.

Lemma list_del_between_outside m p q : same_outside m (__list_del p q m) [p; q].
Proof. intros x Hx. unfold __list_del. by rewrite set_next_ne, set_prev_ne by set_solver. Qed.

Lemma same_outside_weaken m m' xs ys : same_outside m m' xs → xs ⊆ ys → same_outside m m' ys.
Proof. intros H Hs x Hx. apply H. set_solver. Qed.

Lemma same_outside_trans m m' m'' xs : same_outside m m' xs → same_outside m' m'' xs → same_outside m m'' xs.
Proof. intros H1 H2 x Hx. by rewrite H2, H1. Qed.

(** The ring through [h] opened at [h]'s successor, and at its predecessor. *)
Lemma circular_open_front m h l : circular m h l → ∃ q l2, l ++ [h] = q :: l2 ∧ next (m h) = q.
Proof.
  intros [Hl _]. destruct (cons_snoc h l) as (q & l2 & E). exists q, l2. split; [done|].
  rewrite E in Hl. simpl in Hl. tauto.
Qed.

Lemma circular_open_back m h l : circular m h l → ∃ l1 p, h :: l = l1 ++ [p] ∧ prev (m h) = p.
Proof.
  intros [Hl _]. destruct (snoc_cons h l) as (l1 & p & E). exists l1, p. split; [done|].
  rewrite app_comm_cons, E, <-app_assoc in Hl. apply linked_app in Hl as [_ Hl]. simpl in Hl. tauto.
Qed.

Lemma circular_open_mid m h la e lb :
  circular m h (la ++ e :: lb) →
  ∃ l1 q l2, h :: la = l1 ++ [prev (m e)] ∧ lb ++ [h] = q :: l2 ∧ next (m e) = q ∧
    segment m (l1 ++ prev (m e) :: [e] ++ q :: l2).
Proof.
  intros Hc. apply circular_segment in Hc. destruct (snoc_cons h la) as (l1 & p & E1).
  destruct (cons_snoc h lb) as (q & l2 & E2). 
  replace (h :: (la ++ e :: lb) ++ [h]) with (l1 ++ p :: [e] ++ q :: l2) in Hc.
  2: { rewrite <-E2. change (p :: [e] ++ lb ++ [h]) with ([p] ++ e :: lb ++ [h]).
       rewrite app_assoc, <-E1. simpl. by rewrite <-app_assoc. }
  pose proof Hc as (Hl & _). apply linked_app in Hl as [_ Hl]. simpl in Hl. destruct Hl as (_ & Hp & Hq & _).
  exists l1, q, l2. by rewrite Hp.
Qed.

Lemma list_add_ok m h l n :
  circular m h l → n ∉ h :: l →
  circular (list_add n h m) h (n :: l) ∧ same_outside m (list_add n h m) (n :: h :: l).
Proof.
  intros Hc Hn. destruct (circular_open_front _ _ _ Hc) as (q & l2 & E & Hq). unfold list_add. rewrite Hq.
  assert (q ∈ h :: l) as Hin by (assert (q ∈ l ++ [h]) by (rewrite E; by left); set_solver).
  split; [|eapply same_outside_weaken; [apply list_add_between_outside|set_solver]].
  apply circular_segment in Hc. apply circular_segment. simpl. rewrite E in *.
  apply (segment_list_add m [] h q l2 n); [done|]. simpl. rewrite <-E. set_solver.
Qed.

Lemma list_add_tail_ok m h l n :
  circular m h l → n ∉ h :: l →
  circular (list_add_tail n h m) h (l ++ [n]) ∧ same_outside m (list_add_tail n h m) (n :: h :: l).
Proof.
  intros Hc Hn. destruct (circular_open_back _ _ _ Hc) as (l1 & p & E & Hp). unfold list_add_tail. rewrite Hp.
  assert (p ∈ h :: l) as Hin by (rewrite E; set_solver).
  split; [|eapply same_outside_weaken; [apply list_add_between_outside|set_solver]].
  apply circular_segment in Hc. apply circular_segment.
  rewrite app_comm_cons, E, <-app_assoc in Hc.
  rewrite !app_comm_cons, E, <-!app_assoc. apply (segment_list_add m l1 p h [] n); [done|].
  change (l1 ++ [p; h]) with (l1 ++ [p] ++ [h]). rewrite app_assoc, <-E. set_solver.
Qed.

(** Taking [e] out of the ring, whatever then happens to [e] itself. *)
Lemma list_unlink_ok m h la e lb :
  circular m h (la ++ e :: lb) →
  circular (__list_del (prev (m e)) (next (m e)) m) h (la ++ lb) ∧
  same_outside m (__list_del (prev (m e)) (next (m e)) m) (h :: la ++ lb).
Proof.
  intros Hc. destruct (circular_open_mid _ _ _ _ _ Hc) as (l1 & q & l2 & E1 & E2 & Hq & Hs).
  rewrite Hq. split.
  - apply segment_list_del in Hs. apply circular_segment.
    by rewrite <-app_assoc, E2, app_comm_cons, E1, <-app_assoc.
  - eapply same_outside_weaken; [apply list_del_between_outside|].
    assert (prev (m e) ∈ h :: la) by (rewrite E1; set_solver).
    assert (q ∈ lb ++ [h]) by (rewrite E2; set_solver). set_solver.
Qed.

Lemma circular_remove_notin m h la e lb : circular m h (la ++ e :: lb) → e ∉ h :: la ++ lb.
Proof. intros [_ H]. rewrite app_comm_cons in H. by apply NoDup_mid in H as [H _]. Qed.

Lemma list_del_ok m h la e lb :
  circular m h (la ++ e :: lb) →
  circular (list_del e m) h (la ++ lb) ∧ same_outside m (list_del e m) (e :: h :: la ++ lb).
Proof.
  intros Hc. pose proof (circular_remove_notin _ _ _ _ _ Hc) as He.
  destruct (list_unlink_ok _ _ _ _ _ Hc) as [Hc' Ho]. unfold list_del.
  set (m1 := __list_del _ _ m) in *.
  assert (same_outside m1 (set_prev e LIST_POISON2 (set_next e LIST_POISON1 m1)) [e]) as Ho'.
  { intros x Hx. by rewrite set_prev_ne, set_next_ne by set_solver. }
  split; [apply (circular_frame m1 _ _ _ [e]); [done..|set_solver]|].
  eapply same_outside_trans; [eapply same_outside_weaken; [exact Ho|set_solver]|].
  eapply same_outside_weaken; [exact Ho'|set_solver].
Qed.

Lemma list_del_init_ok m h la e lb :
  circular m h (la ++ e :: lb) →
  circular (list_del_init e m) h (la ++ lb) ∧ circular (list_del_init e m) e [] ∧
  same_outside m (list_del_init e m) (e :: h :: la ++ lb).
Proof.
  intros Hc. pose proof (circular_remove_notin _ _ _ _ _ Hc) as He.
  destruct (list_unlink_ok _ _ _ _ _ Hc) as [Hc' Ho]. unfold list_del_init.
  set (m1 := __list_del _ _ m) in *. pose proof (INIT_LIST_HEAD_outside m1 e) as Ho'.
  split; [apply (circular_frame m1 _ _ _ [e]); [done..|set_solver]|]. split; [apply INIT_LIST_HEAD_circular|].
  eapply same_outside_trans; [eapply same_outside_weaken; [exact Ho|set_solver]|].
  eapply same_outside_weaken; [exact Ho'|set_solver].
Qed.

Lemma list_replace_ok m h la old lb new :
  circular m h (la ++ old :: lb) → new ∉ h :: la ++ old :: lb →
  circular (list_replace old new m) h (la ++ new :: lb).
Proof.
  intros Hc Hn. destruct (circular_open_mid _ _ _ _ _ Hc) as (l1 & q & l2 & E1 & E2 & Hq & Hs).
  pose proof Hs as (Hl & Hnr & Hnt). apply circular_segment.
  rewrite <-app_assoc, <-app_comm_cons, E2, app_comm_cons, E1, <-app_assoc.
  set (p := prev (m old)) in *. simpl in Hnr, Hnt. rewrite removelast_mid in Hnr.
  change (removelast (old :: q :: l2)) with (old :: removelast (q :: l2)) in Hnr.
  rewrite tail_mid in Hnt.
  assert (new ∉ l1 ++ p :: q :: l2 ∧ new ≠ old) as [Hnn Hno].
  { split; [|set_solver]. intros [Hx|[->|Hx]%elem_of_cons]%elem_of_app; apply Hn.
    - assert (new ∈ h :: la) by (rewrite E1; set_solver). set_solver.
    - assert (p ∈ h :: la) by (rewrite E1; set_solver). set_solver.
    - assert (new ∈ lb ++ [h]) by (rewrite E2; set_solver). set_solver. }
  assert (NoDup (l1 ++ p :: removelast (q :: l2))) as Hnr'.
  { change (l1 ++ p :: old :: removelast (q :: l2)) with (l1 ++ [p] ++ old :: removelast (q :: l2)) in Hnr.
    rewrite (assoc app), NoDup_mid, <-(assoc app) in Hnr. tauto. }
  assert (NoDup (tail (l1 ++ [p]) ++ q :: l2)) as Hnt' by (apply NoDup_mid in Hnt; tauto).
  assert (∀ x, x ∈ removelast (q :: l2) → x ∈ q :: l2) as Hsub by apply elem_of_removelast.
  assert (∀ x, x ∈ tail (l1 ++ [p]) → x ∈ l1 ++ [p]) as Hsub' by (intros; by apply elem_of_tail).
  assert (new ≠ p ∧ new ≠ q) as [Hnp Hnq] by set_solver.
  assert (old ≠ p) as Hop by (apply NoDup_mid in Hnr; set_solver).
  assert (old ≠ q) as Hoq by (apply NoDup_mid in Hnt; set_solver).
  apply (segment_splice m _ l1 p [old] [new] q l2); [done|..].
  - unfold list_replace. simpl. split_and!; lread; rewrite ?Hq; lread; fold p; lread; done.
  - change (l1 ++ p :: [new] ++ removelast (q :: l2)) with (l1 ++ [p] ++ new :: removelast (q :: l2)).
    rewrite (assoc app), NoDup_mid, <-(assoc app). split; [set_solver|done].
  - apply NoDup_mid. split; [set_solver|]. by rewrite NoDup_mid in Hnt'; rewrite NoDup_mid.
  - intros x Hx. apply NoDup_mid in Hnr' as [Hnr' _]. assert (x ≠ p) by congruence.
    assert (x ≠ new) by set_solver. unfold list_replace. lread. rewrite ?Hq. lread. fold p. lread. done.
  - intros x Hx. apply NoDup_mid in Hnt' as [Hnt' _]. assert (x ≠ q) by congruence.
    assert (x ≠ new) by set_solver. unfold list_replace. lread. rewrite ?Hq. lread. done.
Qed.

(** Moving an entry from one ring to another, disjoint one. *)
Lemma list_move_ok m h la e lb h2 l2 :
  circular m h (la ++ e :: lb) → circular m h2 l2 → (∀ x, x ∈ h :: la ++ e :: lb → x ∉ h2 :: l2) →
  circular (list_move e h2 m) h (la ++ lb) ∧ circular (list_move e h2 m) h2 (e :: l2) ∧
  circular (list_move_tail e h2 m) h (la ++ lb) ∧ circular (list_move_tail e h2 m) h2 (l2 ++ [e]).
Proof.
  intros Hc Hc2 Hd. pose proof (circular_remove_notin _ _ _ _ _ Hc) as He.
  destruct (list_unlink_ok _ _ _ _ _ Hc) as [Hc' Ho]. unfold list_move, list_move_tail.
  set (m1 := __list_del _ _ m) in *.
  assert (circular m1 h2 l2) as Hc2'.
  { apply (circular_frame m _ _ _ _ Hc2 Ho). intros x Hx Hx'. apply (Hd x); [set_solver|done]. }
  assert (e ∉ h2 :: l2) as He2 by (apply Hd; set_solver).
  assert (∀ x, x ∈ h :: la ++ lb → x ∉ e :: h2 :: l2) as Hd'.
  { intros x Hx [->|Hx']%elem_of_cons; [done|]. apply (Hd x); [set_solver|done]. }
  destruct (list_add_ok _ _ _ e Hc2' He2) as [H1 O1].
  destruct (list_add_tail_ok _ _ _ e Hc2' He2) as [H2 O2].
  split_and!; [|done| |done]; eapply circular_frame; done.
Qed.

(** Moving an entry to the front or the back of its own ring. *)
Lemma list_move_same_ok m h la e lb :
  circular m h (la ++ e :: lb) →
  circular (list_move e h m) h (e :: la ++ lb) ∧ circular (list_move_tail e h m) h (la ++ lb ++ [e]).
Proof.
  intros Hc. pose proof (circular_remove_notin _ _ _ _ _ Hc) as He.
  destruct (list_unlink_ok _ _ _ _ _ Hc) as [Hc' _]. unfold list_move, list_move_tail.
  rewrite (assoc app). split; [apply list_add_ok|apply list_add_tail_ok]; done.
Qed.

Lemma list_empty_ok m h l : circular m h l → list_empty h m = bool_decide (l = []).
Proof.
  intros Hc. unfold list_empty. rewrite (circular_head_next _ _ _ Hc).
  destruct l as [|x l]; simpl; [by rewrite Z.eqb_refl|]. apply NoDup_of_circular in Hc as [Hh _].
  apply Z.eqb_neq. set_solver.
Qed.

Lemma list_empty_careful_ok m h l : circular m h l → list_empty_careful h m = bool_decide (l = []).
Proof.
  intros Hc. unfold list_empty_careful. fold (list_empty h m). rewrite (list_empty_ok _ _ _ Hc).
  case_bool_decide; [|done]. subst. destruct Hc as [Hl _]. simpl in Hl. destruct Hl as (-> & -> & _).
  by rewrite Z.eqb_refl.
Qed.

Lemma list_is_singular_ok m h l : circular m h l → list_is_singular h m = (length l =? 1)%nat.
Proof.
  intros Hc. unfold list_is_singular. rewrite (list_empty_ok _ _ _ Hc).
  rewrite (circular_head_next _ _ _ Hc), (circular_head_prev _ _ _ Hc).
  apply NoDup_of_circular in Hc as [_ Hn]. destruct l as [|x l]; [done|]. simpl.
  destruct l as [|y l _] using rev_ind; simpl; [by rewrite Z.eqb_refl|].
  rewrite length_app. simpl. replace (length l + 1)%nat with (S (length l)) by lia.
  destruct (l ++ [y]) as [|z l'] eqn:E; [by destruct l|]. rewrite <-E, last_last in *.
  apply NoDup_cons in Hn as [Hn _]. apply Z.eqb_neq. intros ->. apply Hn. rewrite elem_of_app, list_elem_of_singleton. tauto.
Qed.

Lemma list_is_last_ok m h la e lb :
  circular m h (la ++ e :: lb) → list_is_last e h m = bool_decide (lb = []).
Proof.
  intros Hc. unfold list_is_last. destruct (circular_open_mid _ _ _ _ _ Hc) as (l1 & q & l2 & _ & E & -> & _).
  destruct lb as [|y lb]; simpl in E; injection E as <- _; [by rewrite Z.eqb_refl|].
  apply NoDup_of_circular in Hc as [Hh _]. apply Z.eqb_neq. set_solver.
Qed.

(** [list_for_each_entry] visits the entries in order. *)
Lemma list_find_entry_ok f m h l fuel :
  circular m h l → (length l ≤ fuel)%nat → list_find_entry f m h fuel = Done (List.find f l).
Proof.
  intros Hc. unfold list_find_entry. pose proof (circular_head_next _ _ _ Hc) as Hh.
  destruct Hc as [Hl Hn]. apply NoDup_cons in Hn as [Hn _].
  assert (linked m (l ++ [h])) as Hl'.
  { destruct (cons_snoc h l) as (q & l2 & E). rewrite E in *. simpl in Hl. tauto. }
  clear Hl. generalize (next (m h)) Hh. clear Hh. revert fuel. induction l as [|x l IH]; intros fuel p Hp Hf; simpl in Hp; subst p.
  - destruct fuel; simpl; by rewrite Z.eqb_refl.
  - destruct fuel as [|fuel]; simpl in Hf; [lia|]. simpl. destruct (Z.eqb_spec x h) as [->|]; [set_solver|].
    destruct (f x); [done|]. apply IH; [set_solver| | |lia].
    + destruct (cons_snoc h l) as (q & l2 & E). simpl in Hl'. rewrite E in *. simpl in *. tauto.
    + simpl in Hl'. destruct l; simpl in *; tauto.
Qed.

(** Taking the head of a fifo. *)
Lemma fifo_out_ok m h x l :
  circular m h (x :: l) →
  ∃ m', fifo_out h m = (x, m') ∧ circular m' h l ∧ same_outside m m' (x :: h :: l).
Proof.
  intros Hc. unfold fifo_out. rewrite (circular_head_next _ _ _ Hc). simpl. eexists. split; [done|].
  by apply (list_del_ok m h [] x l).
Qed.

(** ** Splicing and cutting *)

(** The inside of a path, hung between other ends. *)
Lemma linked_bridge m m' a l b p q :
  linked m (a :: l ++ [b]) → NoDup l → l ≠ [] →
  next (m' p) = hd p l → prev (m' (hd p l)) = p →
  next (m' (List.last l p)) = q → prev (m' q) = List.last l p →
  (∀ x, x ∈ l → x ≠ List.last l p → next (m' x) = next (m x)) →
  (∀ x, x ∈ l → x ≠ hd p l → prev (m' x) = prev (m x)) →
  linked m' (p :: l ++ [q]).
Proof.
  intros Hl Hn Hne H1 H2 H3 H4 Fn Fp. destruct (exists_last Hne) as (l0 & g & E).
  rewrite E, last_last in H3, H4, Fn. rewrite E, <-app_assoc, app_comm_cons. apply linked_app. split; [|done].
  rewrite <-app_comm_cons, <-E. destruct l as [|f r]; [done|]. simpl in H1, H2, Fp.
  split; [done|]. split; [done|]. apply (linked_frame m).
  - intros x Hx. rewrite E, removelast_last in Hx. apply Fn; [set_solver|].
    intros ->. rewrite E in Hn. apply NoDup_mid in Hn as [Hn _]. by rewrite app_nil_r in Hn.
  - intros x Hx. simpl in Hx. apply NoDup_cons in Hn as [Hn _]. apply Fp; [by right|]. by intros ->.
  - simpl in Hl. destruct Hl as (_ & _ & Hl). change (linked m ((f :: r) ++ [b])) in Hl. rewrite E, <-app_assoc in Hl. apply linked_app in Hl as [Hl _].
    by rewrite E.
Qed.

Lemma linked_pair m l1 p q l2 : linked m (l1 ++ p :: q :: l2) → next (m p) = q ∧ prev (m q) = p.
Proof. intros Hl. apply linked_app in Hl as [_ Hl]. simpl in Hl. tauto. Qed.

Lemma hd_indep {A} (l : list A) p q : l ≠ [] → hd p l = hd q l.
Proof. by destruct l. Qed.
Lemma last_indep {A} (l : list A) p q : l ≠ [] → List.last l p = List.last l q.
Proof. intros H. destruct (exists_last H) as (l0 & g & ->). by rewrite !last_last. Qed.
Lemma hd_in {A} (l : list A) p : l ≠ [] → hd p l ∈ l.
Proof. destruct l; [done|]. by left. Qed.
Lemma last_in {A} (l : list A) p : l ≠ [] → List.last l p ∈ l.
Proof. intros H. destruct (exists_last H) as (l0 & g & ->). rewrite last_last. set_solver. Qed.

(** [__list_splice] between neighbours [p], [q]. *)
Lemma segment_list_splice m h2 s l1 p q l2 :
  circular m h2 s → s ≠ [] → segment m (l1 ++ p :: q :: l2) → (∀ x, x ∈ l1 ++ p :: q :: l2 → x ∉ s) →
  segment (__list_splice h2 p q m) (l1 ++ p :: s ++ q :: l2).
Proof.
  intros Hc Hne Hs Hd. pose proof Hs as (_ & Hnr & Hnt). rewrite removelast_mid in Hnr. rewrite tail_mid in Hnt.
  unfold __list_splice. rewrite (circular_head_next _ _ _ Hc), (circular_head_prev _ _ _ Hc).
  rewrite (hd_indep s h2 p), (last_indep s h2 p) by done.
  set (f := hd p s). set (g := List.last s p).
  assert (f ∈ s) as Hf by (by apply hd_in). assert (g ∈ s) as Hg by (by apply last_in).
  assert (p ∉ s ∧ q ∉ s) as [Hps Hqs] by (split; apply Hd; set_solver).
  assert (∀ x, x ∈ removelast (q :: l2) → x ∈ q :: l2) as Hsub by apply elem_of_removelast.
  assert (∀ x, x ∈ tail (l1 ++ [p]) → x ∈ l1 ++ [p]) as Hsub' by (intros; by apply elem_of_tail).
  assert (∀ x, x ∈ l1 ++ removelast (q :: l2) → x ∉ s) as Hd1 by set_solver.
  assert (∀ x, x ∈ tail (l1 ++ [p]) ++ l2 → x ∉ s) as Hd2 by set_solver.
  destruct Hc as [Hl Hn]. apply NoDup_cons in Hn as [_ Hn].
  assert (p ≠ f ∧ p ≠ g ∧ q ≠ f ∧ q ≠ g) as (? & ? & ? & ?) by (split_and!; congruence).
  apply (segment_splice m _ l1 p [] s q l2); [done|..].
  - apply (linked_bridge m _ h2 s h2); try done; fold f g.
    + lread. done.
    + lread. done.
    + lread. done.
    + lread. done.
    + intros x Hx Hxg. assert (x ≠ p) by congruence. lread. done.
    + intros x Hx Hxf. assert (x ≠ q) by congruence. lread. done.
  - apply NoDup_mid in Hnr as [Hp Hnr]. apply NoDup_mid. split; [set_solver|].
    apply NoDup_app in Hnr as (N1 & N2 & N3). apply NoDup_app. split; [done|]. split; [set_solver|].
    apply NoDup_app. set_solver.
  - apply NoDup_app in Hnt as (N1 & N2 & N3). apply NoDup_app. split; [done|]. split; [set_solver|].
    apply NoDup_app. split; [done|]. split; [set_solver|done].
  - intros x Hx. apply NoDup_mid in Hnr as [Hnr _]. assert (x ≠ p) by congruence.
    assert (x ≠ g) by (intros ->; by apply (Hd1 g)). lread. done.
  - intros x Hx. apply NoDup_mid in Hnt as [Hnt _]. assert (x ≠ q) by congruence.
    assert (x ≠ f) by (intros ->; by apply (Hd2 f)). lread. done.
Qed.

Lemma list_splice_ok m h2 s h l :
  circular m h2 s → circular m h l → (∀ x, x ∈ h :: l → x ∉ s) →
  circular (list_splice h2 h m) h (s ++ l) ∧ circular (list_splice_tail h2 h m) h (l ++ s).
Proof.
  intros Hc2 Hc Hd. unfold list_splice, list_splice_tail. rewrite (list_empty_ok _ _ _ Hc2).
  case_bool_decide as Hs; simpl; [subst; by rewrite app_nil_r|].
  destruct (circular_open_front _ _ _ Hc) as (q & l2 & E & Hq).
  destruct (circular_open_back _ _ _ Hc) as (l1 & p & E' & Hp). rewrite Hp, Hq.
  pose proof Hc as Hc'. apply circular_segment in Hc, Hc'. split; apply circular_segment.
  - rewrite <-app_assoc, E in *. apply (segment_list_splice m h2 s [] h q l2); [done..|].
    simpl. rewrite <-E. set_solver.
  - rewrite app_comm_cons, E', <-app_assoc in Hc'. 
    rewrite !app_comm_cons, E', <-!app_assoc. apply (segment_list_splice m h2 s l1 p h []); [done..|].
    change (l1 ++ [p; h]) with (l1 ++ [p] ++ [h]). rewrite app_assoc, <-E'. set_solver.
Qed.

Lemma list_splice_init_ok m h2 s h l :
  circular m h2 s → circular m h l → (∀ x, x ∈ h :: l → x ∉ h2 :: s) →
  circular (list_splice_init h2 h m) h (s ++ l) ∧ circular (list_splice_init h2 h m) h2 [] ∧
  circular (list_splice_tail_init h2 h m) h (l ++ s) ∧ circular (list_splice_tail_init h2 h m) h2 [].
Proof.
  intros Hc2 Hc Hd. destruct (list_splice_ok m h2 s h l) as [H1 H2]; [done..|set_solver|].
  unfold list_splice_init, list_splice_tail_init, list_splice, list_splice_tail in *.
  pose proof (list_empty_ok _ _ _ Hc2) as He. pose proof Hc2 as [_ Hn]. apply NoDup_cons in Hn as [Hn _].
  destruct (list_empty h2 m); simpl in *.
  { symmetry in He. apply bool_decide_eq_true in He. subst. by rewrite app_nil_r in *. }
  assert (∀ x, x ∈ h :: s ++ l → x ∉ [h2]) as Hx by set_solver.
  split_and!; [|apply INIT_LIST_HEAD_circular| |apply INIT_LIST_HEAD_circular];
    (eapply circular_frame; [done|apply INIT_LIST_HEAD_outside|set_solver]).
Qed.

Lemma linked_prefix m l1 l2 : linked m (l1 ++ l2) → linked m l1.
Proof.
  destruct l1 as [|x l1 _] using rev_ind; [done|]. rewrite <-app_assoc. intros H. by apply linked_app in H as [H _].
Qed.

Lemma list_cut_position_unfold m t h la e lb :
  circular m h (la ++ e :: lb) → list_cut_position t h e m = __list_cut_position t h e m.
Proof.
  intros Hc. unfold list_cut_position. rewrite (list_empty_ok _ _ _ Hc), (list_is_singular_ok _ _ _ Hc).
  rewrite bool_decide_eq_false_2 by (by destruct la).
  pose proof (circular_remove_notin _ _ _ _ _ Hc) as He.
  destruct (Z.eqb_spec e h) as [->|Hne]; [set_solver|].
  destruct la as [|x la]; simpl.
  - rewrite (circular_head_next _ _ _ Hc). simpl. rewrite Z.eqb_refl. simpl. by rewrite andb_false_r.
  - rewrite length_app. simpl. replace (length la + S (length lb))%nat with (S (length la + length lb)) by lia. done.
Qed.

Lemma list_cut_position_ok m t h la e lb :
  circular m h (la ++ e :: lb) → t ∉ h :: la ++ e :: lb →
  circular (list_cut_position t h e m) t (la ++ [e]) ∧ circular (list_cut_position t h e m) h lb.
Proof.
  intros Hc Ht. rewrite (list_cut_position_unfold _ _ _ _ _ _ Hc).
  destruct (circular_open_mid _ _ _ _ _ Hc) as (_ & q & l2 & _ & E & Hq & _).
  pose proof (circular_head_next _ _ _ Hc) as Hf. pose proof Hc as [Hl Hn].
  set (s := la ++ [e]). assert (s ≠ []) as Hs by (by destruct la).
  replace (hd h (la ++ e :: lb)) with (hd t s) in Hf by (by destruct la). set (f := hd t s) in *.
  assert (la ++ e :: lb = s ++ lb) as Es by (unfold s; by rewrite <-app_assoc). rewrite Es in *. clear Es Hc.
  assert (List.last s t = e) as Hlast by apply last_last.
  assert (f ∈ s) as Hfs by (by apply hd_in). assert (e ∈ s) as Hes by set_solver.
  apply NoDup_cons in Hn as [Hh Hn]. pose proof Hn as (Hns & Hdis & Hnl)%NoDup_app.
  assert (q ∉ s ∧ t ≠ q) as [Hqs Hqt] by (assert (q ∈ lb ++ [h]) by (rewrite E; by left); set_solver).
  assert (t ∉ s ∧ h ∉ s ∧ t ≠ h ∧ t ∉ lb) as (Hts & Hhs & Hth & Htl) by set_solver.
  assert (f ≠ t ∧ f ≠ h ∧ f ≠ q ∧ e ≠ t ∧ e ≠ h ∧ e ≠ q) as (? & ? & ? & ? & ? & ?) by (split_and!; congruence).
  assert (linked m (h :: s ++ [q])) as Lk1.
  { rewrite <-app_assoc, E in Hl. change (h :: s ++ q :: l2) with (h :: s ++ [q] ++ l2) in Hl.
    rewrite (assoc app), app_comm_cons in Hl. by eapply linked_prefix. }
  assert (linked m (e :: lb ++ [h])) as Lk2.
  { unfold s in Hl. rewrite <-!app_assoc in Hl. change (h :: la ++ [e] ++ lb ++ [h]) with ((h :: la) ++ e :: lb ++ [h]) in Hl.
    by apply linked_app in Hl as [_ Hl]. }
  unfold __list_cut_position. rewrite Hf, Hq. rewrite !next_set_next_eq. split; split.
  - apply (linked_bridge m _ h s q); try done; fold f; rewrite ?Hlast.
    + lread. done.
    + lread. done.
    + lread. done.
    + lread. done.
    + intros x Hx Hxe. assert (x ≠ t ∧ x ≠ h) as [? ?] by (split; congruence). lread. done.
    + intros x Hx Hxf. assert (x ≠ t ∧ x ≠ q) as [? ?] by (split; congruence). lread. done.
  - by apply NoDup_cons.
  - destruct lb as [|y lb]; [simpl in E; injection E as <- _; simpl; split_and!; lread; done|].
    simpl in E. injection E as <- _.
    assert (h ∉ y :: lb) as Hhy by set_solver.
    set (g := List.last (y :: lb) h). assert (g ∈ y :: lb) as Hg by (by apply last_in).
    destruct (exists_last (l := y :: lb)) as (l0 & g' & Eg); [done|].
    assert (g' = g) as -> by (unfold g; by rewrite Eg, last_last).
    assert (next (m g) = h ∧ prev (m h) = g) as [G1 G2].
    { rewrite Eg, <-app_assoc, app_comm_cons in Lk2. by apply linked_pair in Lk2. }
    assert (∀ x, x ∈ y :: lb → x ≠ t ∧ x ≠ h ∧ x ≠ e ∧ x ≠ f) as Hy.
    { intros x Hx. split_and!; intros ->; [done|done|by apply (Hdis e)|by apply (Hdis f)]. }
    destruct (Hy y) as (? & ? & ? & ?); [by left|]. destruct (Hy g Hg) as (? & ? & ? & ?).
    apply (linked_bridge m _ e (y :: lb) h); try done; fold g; change (hd h (y :: lb)) with y.
    + lread. done.
    + lread. done.
    + lread. done.
    + lread. done.
    + intros x Hx _. destruct (Hy x Hx) as (? & ? & ? & ?). lread. done.
    + intros x Hx Hxy. destruct (Hy x Hx) as (? & ? & ? & ?). lread. done.
  - apply NoDup_cons. split; [set_solver|done].
Qed.

(** ** Properties *)

(** A ring through 1 with the entries 2 and 3, built by the code. *)
Definition sample_ring : mem :=
  list_add_tail 3 1 (list_add_tail 2 1 (INIT_LIST_HEAD 1 (λ _, {| next := 0; prev := 0 |}))).

Lemma sample_circular : circular sample_ring 1 [2; 3].
Proof. split; [vm_compute; split_and!; reflexivity|]. apply (bool_decide_unpack _). by vm_compute. Qed.



(** Cutting a ring after [e] and splicing the first part back are inverse: after
    [list_cut_position] the new head has the entries up to [e] and the old one those after it, and
    [list_splice] restores the ring. *)
Theorem list_cut_splice m t h la e lb :
  circular m h (la ++ e :: lb) → t ∉ h :: la ++ e :: lb →
  let m' := list_cut_position t h e m in
  circular m' t (la ++ [e]) ∧ circular m' h lb ∧
  circular (list_splice t h m') h (la ++ e :: lb) ∧
  circular (list_splice_tail_init t h m') h (lb ++ la ++ [e]) ∧ circular (list_splice_tail_init t h m') t [].
Proof.
  intros Hc Ht m'. destruct (list_cut_position_ok m t h la e lb Hc Ht) as [H1 H2]. fold m' in H1, H2.
  assert (∀ x, x ∈ h :: lb → x ∉ t :: la ++ [e]) as Hd.
  { destruct Hc as [_ Hn]. change (h :: la ++ e :: lb) with ((h :: la) ++ e :: lb) in Hn.
    apply NoDup_mid in Hn as [He Hn]. simpl in Hn. apply NoDup_cons in Hn as [Hh Hn].
    apply NoDup_app in Hn as (_ & Hn & _). set_solver. }
  destruct (list_splice_ok m' t _ h lb H1 H2) as [H3 _]; [set_solver|].
  destruct (list_splice_init_ok m' t _ h lb H1 H2 Hd) as (_ & _ & H4 & H5).
  rewrite <-(assoc app) in H3. done.
Qed.

Lemma list_cut_splice_witness :
  circular (list_cut_position 4 1 2 sample_ring) 4 [2] ∧
  circular (list_splice 4 1 (list_cut_position 4 1 2 sample_ring)) 1 [2; 3].
Proof.
  destruct (list_cut_splice sample_ring 4 1 [] 2 [3] sample_circular) as (H1 & _ & H3 & _).
  - apply (bool_decide_unpack _). by vm_compute.
  - split; [exact H1|exact H3].
Defined.
