(* ===== verification/HList.v ===== *)
(** * Lists with a single pointer in the head: the second part of src/lib/inc/list.h

    A node does not point at its predecessor but at the pointer that points at it: the head's [first] or
    the predecessor's [next].  Such a place is a [slot].  The loops of list.h that survive the removal of
    the node they are at are here too, for both kinds of lists. *)
From S2P Require Import Prelude Spinlock ListHead.

Inductive slot := First (h : Z) | Next (n : Z).
#[export] Instance slot_eq_dec : EqDecision slot.
Proof. solve_decision. Defined.

(** A pointer to a slot; [Poison] is LIST_POISON2. *)
Inductive slot_ptr := Null | At (s : slot) | Poison.

Record hlist_node := { hnext : Z; pprev : slot_ptr }.
#[export] Instance eta_hlist_node : Eta hlist_node := λ n, Build_hlist_node (hnext n) (pprev n).

(** The heads, by address, and the nodes. *)
Record hmem := { hlist_head : Z → Z; hnodes : Z → hlist_node }.
#[export] Instance eta_hmem : Eta hmem := λ m, Build_hmem (hlist_head m) (hnodes m).

(** A bucket of a hash table: a list and its lock. *)
Record hbucket := { bucket_head : Z; bucket_lock : spinlock_t }.

Definition peek (m : hmem) (s : slot) : Z := match s with First h => hlist_head m h | Next n => hnext (hnodes m n) end.
Definition poke (s : slot) (v : Z) (m : hmem) : hmem :=
  match s with
  | First h => m <| hlist_head ::= <[h := v]> |>
  | Next n => m <| hnodes ::= alter (λ k, k <| hnext := v |>) n |>
  end.
Definition set_pprev (n : Z) (p : slot_ptr) (m : hmem) : hmem := m <| hnodes ::= alter (λ k, k <| pprev := p |>) n |>.

Definition deref_slot (p : slot_ptr) : prog hmem slot :=
  match p with At s => mret s | Null => halt FNull | Poison => halt FBounds end.

Definition INIT_HLIST_HEAD (h : Z) : prog hmem unit := modify (poke (First h) 0).
Definition INIT_HLIST_NODE (n : Z) : prog hmem unit := modify (poke (Next n) 0);; modify (set_pprev n Null).

Definition hlist_unhashed (n : Z) (m : hmem) : bool := match pprev (hnodes m n) with Null => true | _ => false end.
Definition hlist_empty (h : Z) (m : hmem) : bool := peek m (First h) =? 0.

Definition __hlist_del (n : Z) : prog hmem unit :=
  next ← gets (λ m, peek m (Next n));
  p ← gets (λ m, pprev (hnodes m n));
  s ← deref_slot p;
  modify (poke s next);;
  if negb (next =? 0) then modify (set_pprev next p) else mret tt.

Definition hlist_del (n : Z) : prog hmem unit :=
  __hlist_del n;;
  modify (poke (Next n) LIST_POISON1);;
  modify (set_pprev n Poison).

Definition hlist_del_init (n : Z) : prog hmem unit :=
  unhashed ← gets (hlist_unhashed n);
  if negb unhashed then __hlist_del n;; INIT_HLIST_NODE n else mret tt.

Definition hlist_add_head (n h : Z) : prog hmem unit :=
  first ← gets (λ m, peek m (First h));
  modify (poke (Next n) first);;
  (if negb (first =? 0) then modify (set_pprev first (At (Next n))) else mret tt);;
  modify (poke (First h) n);;
  modify (set_pprev n (At (First h))).

Definition hlist_add_before (n next : Z) : prog hmem unit :=
  p ← gets (λ m, pprev (hnodes m next));
  modify (set_pprev n p);;
  modify (poke (Next n) next);;
  modify (set_pprev next (At (Next n)));;
  p ← gets (λ m, pprev (hnodes m n));
  s ← deref_slot p;
  modify (poke s n).

(** The names are those of the code: it is [next] that is put after [n]. *)
Definition hlist_add_after (n next : Z) : prog hmem unit :=
  k ← gets (λ m, peek m (Next n));
  modify (poke (Next next) k);;
  modify (poke (Next n) next);;
  modify (set_pprev next (At (Next n)));;
  k ← gets (λ m, peek m (Next next));
  if negb (k =? 0) then modify (set_pprev k (At (Next next))) else mret tt.

(** [hlist_for_each_safe] with a body that is given the node: [n] is read before the body runs. *)
Fixpoint hlist_for_each_safe (body : Z → prog hmem unit) (pos : Z) (fuel : nat) : prog hmem unit :=
  match fuel with
  | O => halt FSpin
  | S fuel =>
      if pos =? 0 then mret tt
      else n ← gets (λ m, peek m (Next pos)); body pos;; hlist_for_each_safe body n fuel
  end.

(** [list_for_each_safe], from the current node [pos]. *)
Fixpoint list_for_each_safe (body : Z → mem → mem) (head pos : Z) (fuel : nat) (m : mem) : outcome mem :=
  match fuel with
  | O => Halt FSpin
  | S fuel => if pos =? head then Done m else let n := next (m pos) in list_for_each_safe body head n fuel (body pos m)
  end.

(** [list_for_each_prev]: the nodes visited. *)
Fixpoint list_for_each_prev (head pos : Z) (fuel : nat) (m : mem) : outcome (list Z) :=
  match fuel with
  | O => Halt FSpin
  | S fuel =>
      if pos =? head then Done []
      else match list_for_each_prev head (prev (m pos)) fuel m with Done l => Done (pos :: l) | Halt e => Halt e end
  end.

(** ** What a list is *)

(** From the slot [s] on, the nodes [l]. *)
Fixpoint hlinked (m : hmem) (s : slot) (l : list Z) : Prop :=
  match l with
  | [] => peek m s = 0
  | n :: l => peek m s = n ∧ n ≠ 0 ∧ pprev (hnodes m n) = At s ∧ hlinked m (Next n) l
  end.

Definition hlist (m : hmem) (h : Z) (l : list Z) : Prop := hlinked m (First h) l ∧ NoDup l.

(** ** Access *)

Lemma peek_poke s v m t : peek (poke s v m) t = if decide (s = t) then v else peek m t.
Proof.
  destruct s as [h|n], t as [h'|n']; cbn [peek poke]; rsimpl; case_decide as Hd; try congruence.
  - injection Hd as <-. by rewrite upd_eq.
  - by rewrite upd_ne by congruence.
  - injection Hd as <-. by rewrite alter_eq.
  - by rewrite alter_ne by congruence.
Qed.

Lemma pprev_poke s v m x : pprev (hnodes (poke s v m) x) = pprev (hnodes m x).
Proof.
  destruct s as [h|n]; cbn [poke]; rsimpl; [done|]. destruct (decide (n = x)) as [->|Hd]; [by rewrite alter_eq|by rewrite alter_ne].
Qed.

Lemma peek_set_pprev n p m t : peek (set_pprev n p m) t = peek m t.
Proof.
  destruct t as [h|x]; cbn [peek]; unfold set_pprev; rsimpl; [done|].
  destruct (decide (n = x)) as [->|Hd]; [by rewrite alter_eq|by rewrite alter_ne].
Qed.

Lemma pprev_set_pprev n p m x : pprev (hnodes (set_pprev n p m) x) = if decide (n = x) then p else pprev (hnodes m x).
Proof. unfold set_pprev. rsimpl. case_decide as Hd; [by rewrite Hd, alter_eq|by rewrite alter_ne]. Qed.

Create HintDb hlist.
#[local] Hint Rewrite peek_poke pprev_poke peek_set_pprev pprev_set_pprev : hlist.
Ltac hsimp := autorewrite with hlist; repeat case_decide; try congruence; try done.

(** A stretch of a list, without what follows it; the slots it reads and the one it ends with. *)
Fixpoint hsegment (m : hmem) (s : slot) (l : list Z) : Prop :=
  match l with [] => True | n :: l => peek m s = n ∧ n ≠ 0 ∧ pprev (hnodes m n) = At s ∧ hsegment m (Next n) l end.
Fixpoint slots (s : slot) (l : list Z) : list slot := match l with [] => [] | n :: l => s :: slots (Next n) l end.
Fixpoint end_slot (s : slot) (l : list Z) : slot := match l with [] => s | n :: l => end_slot (Next n) l end.

Lemma hlinked_app m l k : ∀ s, hlinked m s (l ++ k) ↔ hsegment m s l ∧ hlinked m (end_slot s l) k.
Proof. induction l as [|n l IH]; intros s; cbn; [tauto|]. rewrite IH. tauto. Qed.

Lemma hsegment_ext m m' l : ∀ s,
  (∀ t, t ∈ slots s l → peek m' t = peek m t) → (∀ x, x ∈ l → pprev (hnodes m' x) = pprev (hnodes m x)) →
  hsegment m s l → hsegment m' s l.
Proof.
  induction l as [|n l IH]; intros s Hs Hp; cbn; [done|]. intros (H1 & H2 & H3 & H4).
  rewrite Hs, Hp by (cbn; set_solver). repeat split; [done..|]. apply IH; [|intros; apply Hp|done]; [intros; apply Hs; cbn|]; set_solver.
Qed.

Lemma hlinked_ext m m' l s :
  (∀ t, t ∈ s :: map Next l → peek m' t = peek m t) → (∀ x, x ∈ l → pprev (hnodes m' x) = pprev (hnodes m x)) →
  hlinked m s l → hlinked m' s l.
Proof.
  revert s. induction l as [|n l IH]; intros s Hs Hp; cbn.
  { intros <-. apply Hs. set_solver. }
  intros (H1 & H2 & H3 & H4). rewrite Hs, Hp by set_solver. repeat split; [done..|].
  apply IH; [|intros; apply Hp; set_solver|done]. intros t Ht. apply Hs. cbn. set_solver.
Qed.

Lemma end_slot_in s l : end_slot s l ∈ s :: map Next l.
Proof. revert s. induction l as [|n l IH]; intros s; cbn; [by left|]. right. apply IH. Qed.

Lemma slots_in s l t : t ∈ slots s l → t ∈ s :: map Next l.
Proof. revert s. induction l as [|n l IH]; intros s; cbn; [set_solver|]. intros [->|Ht%IH]%elem_of_cons; [by left|by right]. Qed.

Lemma in_nexts x l : Next x ∈ map Next l ↔ x ∈ l.
Proof. rewrite list_elem_of_In, in_map_iff, list_elem_of_In. split; [by intros (y & [= ->] & H)|eauto]. Qed.

Lemma end_slot_fresh l : ∀ s, NoDup l → s ∉ map Next l → end_slot s l ∉ slots s l.
Proof.
  induction l as [|n l IH]; intros s Hn Hs; cbn; [set_solver|]. apply NoDup_cons in Hn as [Hnl Hn].
  apply not_elem_of_cons. split.
  - intros E. apply Hs. rewrite <-E. cbn. apply (end_slot_in (Next n) l).
  - apply IH; [done|]. by rewrite in_nexts.
Qed.

(** ** The operations *)

(** [m'] differs from [m] in the slots of the head [h] and of the nodes [l] and in what is in those nodes at most. *)
Definition hframe (h : Z) (l : list Z) (m m' : hmem) : Prop :=
  (∀ t, t ≠ First h → (∀ x, t = Next x → x ∉ l) → peek m' t = peek m t) ∧ ∀ x, x ∉ l → pprev (hnodes m' x) = pprev (hnodes m x).

(** So lists with other heads and nodes are what they were. *)
Lemma hframe_hlist h l m m' h' k : hframe h l m m' → h ≠ h' → (∀ x, x ∈ l → x ∉ k) → hlist m h' k → hlist m' h' k.
Proof.
  intros [Hp Hq] Hh Hd [Hk Hn]. split; [|done]. revert Hk. apply hlinked_ext.
  - intros t [->|Ht]%elem_of_cons; [apply Hp; [congruence|intros x; congruence]|]. apply Hp.
    + intros ->. apply list_elem_of_In, in_map_iff in Ht as (y & ? & _). congruence.
    + intros x ->. rewrite in_nexts in Ht. intros Hx. by apply (Hd x).
  - intros x Hx. apply Hq. intros Hl. by apply (Hd x).
Qed.

(** After a slot was written, the node behind the change, if there is one, is told where it is now. *)
Lemma link_run k p s v m : ∃ m', (if negb (k =? 0) then modify (set_pprev k p) else mret tt : prog hmem unit) (poke s v m) = Done (tt, m') ∧
  (∀ t, peek m' t = if decide (s = t) then v else peek m t) ∧
  ∀ x, pprev (hnodes m' x) = if decide (k = x ∧ k ≠ 0) then p else pprev (hnodes m x).
Proof.
  destruct (Z.eqb_spec k 0) as [Hk|Hk]; cbn [negb]; eexists; (split; [reflexivity|]); split; intros; autorewrite with hlist;
    repeat case_decide; tauto.
Qed.

Lemma hlist_add_head_run m h l n : hlist m h l → n ∉ l → n ≠ 0 →
  ∃ m', hlist_add_head n h m = Done (tt, m') ∧ hlist m' h (n :: l) ∧ hframe h (n :: l) m m'.
Proof.
  intros [Hl Hd] Hn Hz. unfold hlist_add_head. psteps. set (k := peek m (First h)).
  destruct (link_run k (At (Next n)) (Next n) k m) as (m1 & E & Ep & Eq).
  rewrite (prog_bind_done _ _ _ _ _ E). psteps. eexists. split; [reflexivity|]. split; [split|split].
  - cbn [hlinked]. split; [hsimp|]. split; [done|]. split; [hsimp|].
    destruct l as [|y l]; cbn [hlinked] in *; [hsimp; rewrite Ep; hsimp|].
    destruct Hl as (Hy & Hy0 & Hyp & Hl). fold k in Hy. subst y. autorewrite with hlist. rewrite !Ep, Eq.
    rewrite (decide_False (P := n = k)) by set_solver. rewrite decide_False, decide_True, decide_True by (done || congruence).
    repeat split; [done..|]. revert Hl. apply NoDup_cons in Hd as [Hkl Hd].
    apply hlinked_ext.
    + intros t Ht. autorewrite with hlist. rewrite Ep. rewrite !decide_False; [done| |].
      * intros <-. change (Next k :: map Next l) with (map Next (k :: l)) in Ht. by rewrite in_nexts in Ht.
      * intros <-. apply elem_of_cons in Ht as [?|Ht]; [congruence|]. apply list_elem_of_In, in_map_iff in Ht as (? & ? & _). congruence.
    + intros x Hx. autorewrite with hlist. rewrite Eq, !decide_False; [done|intros [-> _]; done|set_solver].
  - by apply NoDup_cons.
  - intros t Ht Hx. autorewrite with hlist. rewrite Ep, !decide_False; [done| |congruence]. intros <-. apply (Hx n eq_refl). set_solver.
  - intros x Hx. autorewrite with hlist. rewrite Eq, !decide_False; [done| |set_solver]. intros [Hkx Hk]. apply Hx. rewrite <-Hkx.
    destruct l as [|y l]; cbn [hlinked] in Hl; [done|]. destruct Hl as (Hy & _). fold k in Hy. set_solver.
Qed.

(** A place in a list: the nodes before it, the slot it is at, and what can be said of the slots before. *)
Lemma place h l x k : NoDup (l ++ x :: k) → let s := end_slot (First h) l in
  (∀ t, t ∈ slots (First h) l → t ≠ s ∧ (∀ y, y ∉ l → t ≠ Next y)) ∧ (∀ y, y ∉ l → s ≠ Next y) ∧
  (∀ t, t ∈ map Next (x :: k) → t ≠ s) ∧ x ∉ l ∧ x ∉ k ∧ NoDup k ∧ NoDup (l ++ k) ∧ (∀ y, y ∈ l → y ∉ x :: k).
Proof.
  intros Hd s. pose proof Hd as (Hl & Hlk & Hxk)%NoDup_app. apply NoDup_cons in Hxk as [Hx Hk].
  assert (∀ t y, t ∈ First h :: map Next l → y ∉ l → t ≠ Next y) as Hne.
  { intros t y [->|Ht]%elem_of_cons Hy; [congruence|]. intros ->. by apply in_nexts in Ht. }
  split; [|split; [|split; [|split; [|split; [|split; [|split]]]]]]; try done.
  - intros t Ht. split; [|intros y; apply Hne, slots_in, Ht]. intros ->. apply (end_slot_fresh l (First h) Hl); [|done].
    intros Hi%list_elem_of_In. apply in_map_iff in Hi as (? & ? & _). congruence.
  - intros y. apply Hne, end_slot_in.
  - intros t Ht%list_elem_of_In E. apply in_map_iff in Ht as (y & <- & Hy%list_elem_of_In). apply (Hne s y); [apply end_slot_in| |done].
    intros Hyl. by apply (Hlk y).
  - intros Hxl. apply (Hlk x Hxl). by left.
  - apply NoDup_app. split; [done|]. split; [|done]. intros y Hy Hyk. apply (Hlk y Hy). by right.
Qed.

Lemma __hlist_del_run m h l n k : hlist m h (l ++ n :: k) →
  ∃ m', __hlist_del n m = Done (tt, m') ∧ hlist m' h (l ++ k) ∧ hframe h (l ++ n :: k) m m'.
Proof.
  intros [Hl Hd]. destruct (place h l n k Hd) as (P1 & P2 & P3 & P4 & P5 & P6 & P7 & P8).
  apply hlinked_app in Hl as [Hseg (Hn & Hn0 & Hnp & Hk)]. set (s := end_slot (First h) l) in *.
  unfold __hlist_del. psteps. rewrite Hnp. unfold deref_slot. psteps. set (next := peek m (Next n)) in *.
  destruct (link_run next (At s) s next m) as (m1 & E & Ep & Eq).
  assert (next ≠ 0 → next ∈ k) as Hnext.
  { intros H0. destruct k as [|y k]; cbn [hlinked] in Hk; [done|]. destruct Hk as (<- & _). by left. }
  exists m1. split; [exact E|]. split; [split|split].
  - apply hlinked_app. split.
    + apply (hsegment_ext m); [| |done].
      * intros t Ht. rewrite Ep, decide_False; [done|]. intros <-. by destruct (P1 s Ht).
      * intros x Hx. rewrite Eq, decide_False; [done|]. intros [<- H0]. apply (P8 _ Hx). right. by apply Hnext.
    + fold s. destruct k as [|y k]; cbn [hlinked] in *; [by rewrite Ep, decide_True|]. destruct Hk as (Hy & Hy0 & Hyp & Hk). fold next in Hy.
      rewrite Ep, Eq, !decide_True by (done || (split; congruence)). repeat split; [done..|]. apply NoDup_cons in P6 as [Hyk _].
      revert Hk. apply hlinked_ext.
      * intros t Ht. rewrite Ep, decide_False; [done|]. intros <-. apply (P3 s); [by right|done].
      * intros x Hx. rewrite Eq, decide_False; [done|]. intros [<- _]. congruence.
  - done.
  - intros t Ht Hx. rewrite Ep, decide_False; [done|]. intros <-. pose proof (end_slot_in (First h) l) as Hin. fold s in Hin.
    apply elem_of_cons in Hin as [|Hin]; [done|]. apply list_elem_of_In, in_map_iff in Hin as (y & Hy & Hyl%list_elem_of_In).
    apply (Hx y); [done|]. by apply elem_of_app; left.
  - intros x Hx. rewrite Eq, decide_False; [done|]. intros [<- H0]. apply Hx, elem_of_app. right. right. by apply Hnext.
Qed.

(** What is done to a node that is not in a list, or not any more, leaves the list. *)
Lemma hlist_outside m h l n v p : n ∉ l → hlist m h l → hlist (set_pprev n p (poke (Next n) v m)) h l.
Proof.
  intros Hn [Hl Hd]. split; [|done]. revert Hl. apply hlinked_ext.
  - intros t Ht. autorewrite with hlist. rewrite decide_False; [done|]. intros <-. apply elem_of_cons in Ht as [|Ht]; [congruence|].
    by apply in_nexts in Ht.
  - intros x Hx. autorewrite with hlist. rewrite decide_False; [done|]. congruence.
Qed.

Lemma hframe_outside h l m m' n v p : n ∈ l → hframe h l m m' → hframe h l m (set_pprev n p (poke (Next n) v m')).
Proof.
  intros Hn [Hp Hq]. split.
  - intros t Ht Hx. autorewrite with hlist. rewrite decide_False; [by apply Hp|]. intros <-. by apply (Hx n).
  - intros x Hx. autorewrite with hlist. rewrite decide_False; [by apply Hq|]. congruence.
Qed.

Lemma hlist_del_run m h l n k : hlist m h (l ++ n :: k) →
  ∃ m', hlist_del n m = Done (tt, m') ∧ hlist m' h (l ++ k) ∧ hframe h (l ++ n :: k) m m'.
Proof.
  intros Hl. destruct (__hlist_del_run m h l n k Hl) as (m1 & E & Hl1 & F). unfold hlist_del. rewrite (prog_bind_done _ _ _ _ _ E).
  psteps. eexists. split; [reflexivity|]. destruct (place h l n k (proj2 Hl)) as (_ & _ & _ & P4 & P5 & _).
  split; [apply hlist_outside; [|done]; set_solver|apply hframe_outside; [set_solver|done]].
Qed.

(** A node taken out with [hlist_del_init] can be taken out again. *)
Lemma hlist_del_init_run m h l n k : hlist m h (l ++ n :: k) →
  ∃ m', hlist_del_init n m = Done (tt, m') ∧ hlist m' h (l ++ k) ∧ hframe h (l ++ n :: k) m m' ∧ hlist_del_init n m' = Done (tt, m').
Proof.
  intros Hl. destruct (__hlist_del_run m h l n k Hl) as (m1 & E & Hl1 & F).
  pose proof (proj1 Hl) as Hn. apply hlinked_app in Hn as [_ (_ & _ & Hn & _)].
  unfold hlist_del_init, hlist_unhashed. psteps. rewrite Hn. cbn [negb]. rewrite (prog_bind_done _ _ _ _ _ E).
  unfold INIT_HLIST_NODE. psteps. eexists. split; [reflexivity|]. destruct (place h l n k (proj2 Hl)) as (_ & _ & _ & P4 & P5 & _).
  split; [apply hlist_outside; [|done]; set_solver|]. split; [apply hframe_outside; [set_solver|done]|].
  psteps. autorewrite with hlist. by rewrite decide_True.
Qed.

Lemma hlist_add_before_run m h l x k n : hlist m h (l ++ x :: k) → n ∉ l ++ x :: k → n ≠ 0 →
  ∃ m', hlist_add_before n x m = Done (tt, m') ∧ hlist m' h (l ++ n :: x :: k) ∧ hframe h (l ++ n :: x :: k) m m'.
Proof.
  intros [Hl Hd] Hn Hn0. destruct (place h l x k Hd) as (P1 & P2 & P3 & P4 & P5 & P6 & P7 & P8).
  apply hlinked_app in Hl as [Hseg (Hx & Hx0 & Hxp & Hk)]. set (s := end_slot (First h) l) in *.
  apply not_elem_of_app in Hn as [Hnl [Hnx Hnk]%not_elem_of_cons].
  unfold hlist_add_before. psteps. rewrite Hxp. autorewrite with hlist. rewrite (decide_False (P := x = n)), decide_True by congruence.
  unfold deref_slot. psteps. eexists. split; [reflexivity|].
  match goal with |- hlist ?m1 _ _ ∧ _ => set (m' := m1) end.
  assert (∀ t, peek m' t = if decide (s = t) then n else if decide (Next n = t) then x else peek m t) as Ep
    by (intros; unfold m'; by autorewrite with hlist).
  assert (∀ y, pprev (hnodes m' y) = if decide (x = y) then At (Next n) else if decide (n = y) then At s else pprev (hnodes m y)) as Eq
    by (intros; unfold m'; by autorewrite with hlist).
  clearbody m'. split; [split|split].
  - apply hlinked_app. split.
    + apply (hsegment_ext m); [| |done].
      * intros t Ht. rewrite Ep, !decide_False; [done|intros <-; by apply (proj2 (P1 _ Ht) n Hnl)|intros <-; by destruct (P1 s Ht)].
      * intros y Hy. rewrite Eq, !decide_False; [done|congruence..].
    + fold s. cbn [hlinked]. rewrite Ep, Eq, (decide_True (P := s = s)), (decide_False (P := x = n)), (decide_True (P := n = n)) by congruence.
      split; [done|]. split; [done|]. split; [done|]. split; [by rewrite Ep, decide_False, decide_True by (done || by apply P2)|].
      split; [done|]. split; [by rewrite Eq, decide_True|]. revert Hk. apply hlinked_ext.
      * intros t Ht. rewrite Ep, !decide_False; [done| |]; intros <-.
        -- apply elem_of_cons in Ht as [|Ht]; [congruence|by apply in_nexts in Ht].
        -- by apply (P3 s).
      * intros y Hy. rewrite Eq, !decide_False; [done|congruence..].
  - apply NoDup_app in Hd as (Hdl & Hdlk & Hdx). apply NoDup_app. split; [done|]. split; [|apply NoDup_cons; split; [set_solver|done]].
    intros y Hy. apply not_elem_of_cons. split; [congruence|by apply Hdlk].
  - intros t Ht Hy. rewrite Ep, !decide_False; [done| |]; intros <-.
    + apply (Hy n); [done|]. apply elem_of_app. right. by left.
    + pose proof (end_slot_in (First h) l) as Hin. fold s in Hin. apply elem_of_cons in Hin as [|Hin]; [done|].
      apply list_elem_of_In, in_map_iff in Hin as (y & E & Hyl%list_elem_of_In). apply (Hy y); [done|]. apply elem_of_app. by left.
  - intros y Hy. rewrite Eq, !decide_False; [done| |]; intros <-; apply Hy, elem_of_app; right; [by left|right; by left].
Qed.

(** [next] is the new node and is put after [n]. *)
Lemma hlist_add_after_run m h l n k next : hlist m h (l ++ n :: k) → next ∉ l ++ n :: k → next ≠ 0 →
  ∃ m', hlist_add_after n next m = Done (tt, m') ∧ hlist m' h (l ++ n :: next :: k) ∧ hframe h (l ++ n :: next :: k) m m'.
Proof.
  intros [Hl Hd] Hn Hn0. destruct (place h l n k Hd) as (P1 & P2 & P3 & P4 & P5 & P6 & P7 & P8).
  apply hlinked_app in Hl as [Hseg (Hx & Hx0 & Hxp & Hk)]. set (s := end_slot (First h) l) in *.
  apply not_elem_of_app in Hn as [Hnl [Hnx Hnk]%not_elem_of_cons].
  unfold hlist_add_after. psteps. set (y := peek m (Next n)) in *. autorewrite with hlist.
  rewrite (decide_False (P := Next n = Next next)), (decide_True (P := Next next = Next next)) by congruence.
  set (m0 := set_pprev next (At (Next n)) (poke (Next n) next (poke (Next next) y m))).
  assert (∃ m', (if negb (y =? 0) then modify (set_pprev y (At (Next next))) else mret tt : prog hmem unit) m0 = Done (tt, m') ∧
    (∀ t, peek m' t = if decide (Next n = t) then next else if decide (Next next = t) then y else peek m t) ∧
    ∀ x, pprev (hnodes m' x) = if decide (y = x ∧ y ≠ 0) then At (Next next) else if decide (next = x) then At (Next n) else pprev (hnodes m x))
    as (m' & E & Ep & Eq).
  { unfold m0. destruct (Z.eqb_spec y 0) as [Hk0|Hk0]; cbn [negb]; eexists; (split; [reflexivity|]); split; intros;
      autorewrite with hlist; repeat case_decide; tauto. }
  assert (y ≠ 0 → y ∈ k) as Hy.
  { intros H0. destruct k as [|z k]; cbn [hlinked] in Hk; [done|]. destruct Hk as (<- & _). by left. }
  exists m'. split; [exact E|]. split; [split|split].
  - apply hlinked_app. split.
    + apply (hsegment_ext m); [| |done].
      * intros t Ht. rewrite Ep, !decide_False; [done|intros <-..]; [by apply (proj2 (P1 _ Ht) next Hnl)|by apply (proj2 (P1 _ Ht) n P4)].
      * intros x Hxl. rewrite Eq, !decide_False; [done|congruence|]. intros [<- H0]. apply (P8 _ Hxl). right. by apply Hy.
    + fold s. cbn [hlinked]. rewrite !Ep, !Eq.
      rewrite (decide_False (P := Next n = s)), (decide_False (P := Next next = s)) by (intros E'; by eapply P2, eq_sym, E').
      rewrite (decide_False (P := y = n ∧ y ≠ 0)) by (intros [-> H0]; by apply P5, Hy).
      rewrite (decide_False (P := next = n)), (decide_True (P := Next n = Next n)) by congruence.
      rewrite (decide_False (P := y = next ∧ y ≠ 0)) by (intros [E' H0]; apply Hnk; rewrite <-E'; by apply Hy).
      rewrite (decide_True (P := next = next)) by done. do 6 (split; [done|]).
      destruct k as [|z k]; cbn [hlinked] in *; [by rewrite Ep, decide_False, decide_True by congruence|].
      destruct Hk as (Hz & Hz0 & Hzp & Hk). fold y in Hz.
      rewrite Ep, Eq, decide_False, decide_True, decide_True by (done || congruence || (split; congruence)).
      split; [done|]. split; [done|]. split; [done|]. apply NoDup_cons in P6 as [Hzk _]. revert Hk. apply hlinked_ext.
      * intros t Ht. rewrite Ep, !decide_False; [done|intros <-..]; change (Next z :: map Next k) with (map Next (z :: k)) in Ht;
          by rewrite in_nexts in Ht.
      * intros x Hxk. rewrite Eq, !decide_False; [done| |].
        -- intros ->. apply Hnk. by right.
        -- intros [-> _]. congruence.
  - apply NoDup_app in Hd as (Hdl & Hdlk & Hdx). apply NoDup_app. split; [done|]. split.
    + intros x Hxl. pose proof (Hdlk x Hxl). set_solver.
    + apply NoDup_cons in Hdx as [H1 H2]. apply NoDup_cons. split; [set_solver|]. by apply NoDup_cons.
  - intros t Ht Hx'. rewrite Ep, !decide_False; [done| |]; intros <-; [apply (Hx' next)|apply (Hx' n)]; set_solver.
  - intros x Hxl. rewrite Eq, !decide_False; [done| |]; [set_solver|]. intros [<- H0]. specialize (Hy H0). set_solver.
Qed.

(** ** The loops *)

(** [hlist_for_each_safe] may remove the node it is at: doing so empties the list. *)
Lemma hlist_clear m h l fuel : hlist m h l → (length l < fuel)%nat →
  ∃ m', hlist_for_each_safe hlist_del (peek m (First h)) fuel m = Done (tt, m') ∧ hlist m' h [] ∧ hframe h l m m'.
Proof.
  revert m l. induction fuel as [|fuel IH]; intros m l Hl Hf; [lia|]. cbn [hlist_for_each_safe].
  destruct l as [|n l].
  - pose proof (proj1 Hl) as H0. cbn in H0. cbn [peek]. rewrite H0, Z.eqb_refl. exists m. split; [reflexivity|]. by split.
  - pose proof (proj1 Hl) as (Hn & Hn0 & _ & Hk). rewrite Hn. destruct (Z.eqb_spec n 0); [done|]. psteps.
    destruct (hlist_del_run m h [] n l Hl) as (m1 & E & Hl1 & F1). rewrite (prog_bind_done _ _ _ _ _ E). cbn [app] in Hl1, F1.
    assert (peek m (Next n) = peek m1 (First h)) as ->.
    { destruct l as [|y l]; cbn [hlinked] in Hk; [by rewrite Hk, (proj1 Hl1)|]. destruct Hk as (-> & _). by rewrite (proj1 (proj1 Hl1)). }
    destruct (IH m1 l Hl1) as (m2 & E2 & Hl2 & F2); [cbn in Hf; lia|]. exists m2. split; [exact E2|]. split; [exact Hl2|].
    destruct F1 as [A1 B1], F2 as [A2 B2]. split.
    + intros t Ht Hx. rewrite A2, A1; [done|done|exact Hx|done|]. intros x -> Hxl. apply (Hx x eq_refl). by right.
    + intros x Hx. rewrite B2, B1; [done|exact Hx|]. intros Hxl. apply Hx. by right.
Qed.

(** And so does [list_for_each_safe] on the rings of the first part. *)
Lemma list_clear m h l fuel : circular m h l → (length l < fuel)%nat →
  ∃ m', list_for_each_safe list_del h (next (m h)) fuel m = Done m' ∧ circular m' h [].
Proof.
  revert m l. induction fuel as [|fuel IH]; intros m l Hl Hf; [lia|]. cbn [list_for_each_safe].
  rewrite (circular_head_next m h l Hl). destruct l as [|n l]; cbn [hd].
  - rewrite Z.eqb_refl. by exists m.
  - destruct (NoDup_of_circular _ _ _ Hl) as [Hh Hd]. destruct (Z.eqb_spec n h) as [->|_]; [set_solver|].
    destruct (list_del_ok m h [] n l Hl) as [Hl1 _]. cbn [app] in Hl1.
    assert (next (m n) = next (list_del n m h)) as ->.
    { rewrite (circular_head_next _ _ _ Hl1). destruct Hl as [Hk _]. cbn [app] in Hk.
      destruct l as [|y l]; cbn [linked app] in Hk; cbn [hd]; tauto. }
    destruct (IH (list_del n m) l Hl1) as (m' & E & H'); [cbn in Hf; lia|]. by exists m'.
Qed.

(** [list_for_each_prev] visits the ring backwards. *)
Lemma list_for_each_prev_rev m h l l2 fuel : circular m h (l ++ l2) → (length l < fuel)%nat →
  list_for_each_prev h (List.last l h) fuel m = Done (rev l).
Proof.
  revert l2 fuel. induction l as [|x l IH] using rev_ind; intros l2 fuel Hc Hf; (destruct fuel as [|fuel]; [lia|]); cbn [list_for_each_prev].
  { cbn. by rewrite Z.eqb_refl. }
  destruct (NoDup_of_circular _ _ _ Hc) as [Hh _]. rewrite last_last. destruct (Z.eqb_spec x h) as [->|_]; [set_solver|].
  rewrite <-app_assoc in Hc. assert (prev (m x) = List.last l h) as ->.
  { destruct Hc as [Hl _]. destruct (exists_last (l := h :: l) ltac:(done)) as (a & p & E).
    rewrite <-app_assoc, app_comm_cons, E, <-app_assoc in Hl. apply linked_app in Hl as [_ Hl]. cbn [app linked] in Hl.
    destruct Hl as (_ & -> & _). transitivity (List.last (h :: l) h); [by rewrite E, last_last|]. by destruct l. }
  rewrite length_app in Hf. cbn in Hf. rewrite (IH (x :: l2)) by (done || lia). by rewrite rev_app_distr.
Qed.
