(* ===== verification/Emul.v ===== *)
(** * Emulated devices: src/core/inc/emul.h and the lists of handlers of src/core/vm.c

    A VM keeps a list of emulated memory regions and one of emulated registers, linked through
    the [list_head] each structure begins with.  A pointer to an entry is its address; the
    entries are functions from addresses to structures. *)
From S2P Require Import Prelude Util Bits MemString ListHead.

(** ** Accesses *)

Record emul_access := {
  addr : Z;
  write : bool;
  sign_ext : bool;
  width : Z;
  reg : Z;
  reg_high : Z;
  multi_reg : bool;
  reg_width : Z
}.

(** Little-endian loads and stores of [n] bytes. *)
Fixpoint load (m : bytes) (a : Z) (n : nat) : Z :=
  match n with O => 0 | S n => Z.lor (m a) (Z.shiftl (load m (a + 1) n) 8) end.
Fixpoint store (m : bytes) (a v : Z) (n : nat) : bytes :=
  match n with O => m | S n => store (<[a := u8 v]> m) (a + 1) (Z.shiftr v 8) n end.

(** [*((uintW_t* )a) = val] and [*((uintW_t* )a)], or the signed type, as an unsigned long. *)
Definition store_word (w : nat) (a val : Z) : prog bytes unit := modify (λ m, store m a val w).
Definition load_word (w : nat) (sign : bool) (a : Z) : prog bytes Z :=
  v ← gets (λ m, load m a w);
  mret (if sign then u64 (signed (8 * Z.of_nat w) v) else v).

Definition emul_write (emul : emul_access) (val : Z) : prog bytes unit :=
  match width emul with
  | 1 => store_word 1 (addr emul) val
  | 2 => store_word 2 (addr emul) val
  | 4 => store_word 4 (addr emul) val
  | 8 => store_word 8 (addr emul) val
  | _ => halt FError
  end.

Definition emul_read (emul : emul_access) : prog bytes Z :=
  match width emul with
  | 1 => load_word 1 (sign_ext emul) (addr emul)
  | 2 => load_word 2 (sign_ext emul) (addr emul)
  | 4 => load_word 4 (sign_ext emul) (addr emul)
  | 8 => load_word 8 false (addr emul)
  | _ => halt FError
  end.

(** ** Handlers *)

(** The functions the code registers with GIC_VERSION 2. *)
Inductive emul_handler := vgicd_emul_handler_id.

Record emul_mem := { va_base : Z; size : Z; mem_handler : emul_handler }.
Record emul_reg := { reg_addr : Z; reg_handler : emul_handler }.

Definition vm_emul_add_mem (emu emul_mem_list : Z) (m : mem) : mem := list_add_tail emu emul_mem_list m.
Definition vm_emul_add_reg (emu emul_reg_list : Z) (m : mem) : mem := list_add_tail emu emul_reg_list m.

Definition covers (e : emul_mem) (a : Z) : bool := (va_base e <=? a) && (a <? va_base e +64 size e).

(** [fuel] bounds the entries visited. *)
Definition vm_emul_get_mem (mems : Z → emul_mem) (m : mem) (emul_mem_list a : Z) (fuel : nat) : outcome (option emul_handler) :=
  p ← list_find_entry (λ p, covers (mems p) a) m emul_mem_list fuel;
  mret (option_map (λ p, mem_handler (mems p)) p).

Definition vm_emul_get_reg (emul_regs : Z → emul_reg) (m : mem) (emul_reg_list a : Z) (fuel : nat) : outcome (option emul_handler) :=
  p ← list_find_entry (λ p, reg_addr (emul_regs p) =? a) m emul_reg_list fuel;
  mret (option_map (λ p, reg_handler (emul_regs p)) p).

(** ** Properties *)

(** The first region of the list that contains the address answers. *)
Lemma vm_emul_get_mem_run mems m head l a fuel :
  circular m head l → (length l ≤ fuel)%nat →
  vm_emul_get_mem mems m head a fuel = Done (option_map (λ p, mem_handler (mems p)) (List.find (λ p, covers (mems p) a) l)).
Proof. intros Hc Hf. unfold vm_emul_get_mem. by rewrite (list_find_entry_ok _ _ _ _ _ Hc Hf). Qed.

Lemma vm_emul_get_reg_run rs m head l a fuel :
  circular m head l → (length l ≤ fuel)%nat →
  vm_emul_get_reg rs m head a fuel = Done (option_map (λ p, reg_handler (rs p)) (List.find (λ p, reg_addr (rs p) =? a) l)).
Proof. intros Hc Hf. unfold vm_emul_get_reg. by rewrite (list_find_entry_ok _ _ _ _ _ Hc Hf). Qed.

Lemma load_store m a v n : in_word (8 * Z.of_nat n) v → load (store m a v n) a n = v.
Proof.
  assert (∀ n m a b v, b < a → store m a v n b = m b) as Hout.
  { clear. induction n as [|n IH]; intros m a b v Hb; [done|]. cbn [store]. rewrite IH by lia. by rewrite upd_ne by lia. }
  revert m a v. induction n as [|n IH]; intros m a v Hv; unfold in_word in *; [simpl in *; lia|]. cbn [load store].
  rewrite Hout, upd_eq by lia. rewrite IH.
  2: { rewrite Z.shiftr_div_pow2 by lia. split; [apply Z.div_pos; lia|]. apply Z.div_lt_upper_bound; [lia|].
       rewrite <-Z.pow_add_r by lia. replace (8 + 8 * Z.of_nat n) with (8 * Z.of_nat (S n)) by lia. lia. }
  word_bits. destruct (Z.ltb_spec i 8); cbn [andb orb].
  - rewrite (Z.testbit_neg_r _ (i - 8)) by lia. apply orb_false_r.
  - rewrite testbit_shiftr by lia. f_equal. lia.
Qed.
