(* ===== verification/ObjPool.v ===== *)
(** * Object pools: src/core/objpool.c

    A pool hands out the objects of an array; a bitmap says which are in use.  [objpool_alloc]
    and [objpool_free] are programs over the pool; the memory of the objects belongs to their
    users, so only [objpool_init], which clears it, mentions memory. *)
From S2P Require Import Prelude Util Bits Bitmap Spinlock MemString.

(** ** Data and operations *)

Record objpool := {
  pool : Z;
  bitmap : bitmap_t;
  objsize : Z;
  num : Z;
  count : Z;
  lock : spinlock_t
}.
#[export] Instance eta_objpool : Eta objpool := λ p,
  Build_objpool (pool p) (bitmap p) (objsize p) (num p) (count p) (lock p).

(** [OBJPOOL_ALLOC]: a pool over a static array and a zeroed bitmap. *)
Definition OBJPOOL_ALLOC (array size n : Z) : objpool :=
  {| pool := array; bitmap := λ _, 0; objsize := size; num := n; count := 0; lock := SPINLOCK_INITVAL |}.

(** The first [n] bytes of a bitmap cleared; granules are little-endian words of four bytes. *)
Definition clear_bytes (map : bitmap_t) (n : Z) : bitmap_t := λ k,
  if k <? 0 then map k
  else if 4 * (k + 1) <=? n then 0
  else if n <=? 4 * k then map k
  else Z.shiftl (Z.shiftr (map k) (8 * (n - 4 * k))) (8 * (n - 4 * k)).

Definition objpool_init (m : bytes) (p : objpool) : bytes * objpool :=
  (memset m (pool p) 0 (objsize p *64 num p), p <| bitmap ::= λ b, clear_bytes b (BITMAP_SIZE (num p)) |>).

Definition objpool_alloc : prog objpool (option Z) :=
  acquire lock;;
  n ← gets (λ p, signed 64 (bitmap_find_nth (bitmap p) (num p) 1 0 false));
  (if 0 <=? n then modify (λ p, p <| bitmap ::= λ b, bitmap_set b n |>) else mret tt);;
  obj ← gets (λ p, if 0 <=? n then Some (pool p +64 (objsize p * n)) else None);
  release lock;;
  mret obj.

Definition objpool_free (obj : Z) : prog objpool unit :=
  p ← gets (λ p, p);
  let in_pool := in_range obj (pool p) (objsize p *64 num p) in
  let aligned := IS_ALIGNED (obj -64 pool p) (objsize p) in
  if in_pool && aligned then
    let n := (obj -64 pool p) / objsize p in
    acquire lock;;
    modify (λ p, p <| bitmap ::= λ b, bitmap_clear b n |>);;
    release lock
  else mret tt.

(** ** The pool as a set of objects in use *)

(** A pool whose array fits in memory. *)
Record pool_ok (p : objpool) : Prop := {
  po_size : 0 < objsize p;
  po_num : 0 ≤ num p < 2 ^ 63;
  po_base : 0 ≤ pool p;
  po_fits : pool p + objsize p * num p < 2 ^ 64;
  po_lock : lock_free (lock p)
}.

Definition object (p : objpool) (j : Z) : Z := pool p + objsize p * j.

(** The objects in use are exactly [live]. *)
Definition in_use (p : objpool) (live : list Z) : Prop :=
  NoDup live ∧ (∀ a, a ∈ live → ∃ j, 0 ≤ j < num p ∧ a = object p j) ∧
  ∀ j, 0 ≤ j < num p → bit_at (bitmap p) j = true ↔ object p j ∈ live.

Lemma object_inj p i j : pool_ok p → object p i = object p j → i = j.
Proof. intros [Hs _ _ _ _] He. unfold object in He. nia. Qed.

Lemma objpool_alloc_run p :
  lock_free (lock p) →
  let n := signed 64 (bitmap_find_nth (bitmap p) (num p) 1 0 false) in
  objpool_alloc p =
    if 0 <=? n then Done (Some (pool p +64 (objsize p * n)), p <| bitmap ::= λ b, bitmap_set b n |> <| lock ::= lock_cycle |>)
    else Done (None, p <| lock ::= lock_cycle |>).
Proof.
  intros Hl n. unfold objpool_alloc, release. rewrite bind_acquire by done. rsimpl.
  rewrite bind_gets. rsimpl. fold n. destruct (0 <=? n); psteps; by destruct p.
Qed.

Lemma objpool_alloc_cases p live :
  pool_ok p → in_use p live →
  (∃ j p', objpool_alloc p = Done (Some (object p j), p') ∧ 0 ≤ j < num p ∧ object p j ∉ live ∧
     pool_ok p' ∧ pool p' = pool p ∧ objsize p' = objsize p ∧ num p' = num p ∧
     in_use p' (object p j :: live)) ∨
  (∃ p', objpool_alloc p = Done (None, p') ∧ pool_ok p' ∧ pool p' = pool p ∧ objsize p' = objsize p ∧
     num p' = num p ∧ in_use p' live ∧ ∀ j, 0 ≤ j < num p → object p j ∈ live).
Proof.
  intros Hp (Hnd & Hlive & Hbits). pose proof Hp as [Hs Hn Hb Hf Hl].
  rewrite objpool_alloc_run by done. cbv zeta.
  destruct (bitmap_find_first (bitmap p) (num p) 0 false) as [[-> Hfull]|(Hr & Hbit & _)]; [lia..| |].
  - right. change (0 <=? signed 64 SIZE_MAX) with false. cbv iota. eexists. split; [done|].
    split; [constructor; rsimpl; try done; apply lock_cycle_free|]. rsimpl. split_and!; try done.
    intros j Hj. apply Hbits; [done|]. by apply Hfull.
  - left. set (n := bitmap_find_nth _ _ _ _ _) in *.
    assert (signed 64 n = n) as -> by (unfold signed; zcase; done).
    destruct (Z.leb_spec 0 n); [|lia]. rewrite wrap_small by nia. exists n. eexists. split; [done|].
    assert (object p n ∉ live) as Hfresh by (intros Hin; apply Hbits in Hin; [congruence|done]).
    split; [done|]. split; [done|].
    split; [constructor; rsimpl; try done; apply lock_cycle_free|]. rsimpl. do 3 (split; [done|]).
    split; [by apply NoDup_cons|]. unfold object. rsimpl. split.
    + intros a [->|Ha]%elem_of_cons; [by exists n|by apply Hlive].
    + intros j Hj. rewrite bit_at_set, orb_true_iff by lia. rewrite Hbits, elem_of_cons by done. rewrite Z.eqb_eq.
      unfold object. split; [intros [?| ->]; tauto|]. intros [He|?]; [|tauto]. right.
      apply (object_inj p); [done|]. exact He.
Qed.

Lemma objpool_free_run p j :
  pool_ok p → 0 ≤ j < num p →
  objpool_free (object p j) p = Done (tt, p <| bitmap ::= λ b, bitmap_clear b j |> <| lock ::= lock_cycle |>).
Proof.
  intros [Hs Hn Hb Hf Hl] Hj. unfold objpool_free. rewrite bind_gets. unfold object.
  assert (0 ≤ objsize p * j ≤ objsize p * num p) as Hr by nia.
  replace (pool p + objsize p * j - pool p) with (objsize p * j) by lia.
  rewrite (wrap_small 64 (objsize p * j)), (wrap_small 64 (objsize p * num p)) by nia.
  assert (in_range (pool p + objsize p * j) (pool p) (objsize p * num p) = true) as ->.
  { apply range_in_range_spec; unfold in_word; lia. }
  unfold IS_ALIGNED. rewrite (Z.mul_comm (objsize p) j), Z.mod_mul by lia. simpl.
  rewrite Z.div_mul by lia. rewrite bind_acquire by done. unfold release. psteps. by destruct p.
Qed.

Lemma objpool_free_cases p live1 j live2 :
  pool_ok p → in_use p (live1 ++ object p j :: live2) → 0 ≤ j < num p →
  ∃ p', objpool_free (object p j) p = Done (tt, p') ∧
    pool_ok p' ∧ pool p' = pool p ∧ objsize p' = objsize p ∧ num p' = num p ∧ in_use p' (live1 ++ live2).
Proof.
  intros Hp (Hnd & Hlive & Hbits) Hj. rewrite objpool_free_run by done.
  pose proof Hp as [Hs Hn Hb Hf Hl]. eexists. split; [done|].
  split; [constructor; rsimpl; try done; apply lock_cycle_free|]. rsimpl. do 3 (split; [done|]).
  rewrite <-Permutation_middle in Hnd. apply NoDup_cons in Hnd as [Hnj Hnd].
  split; [done|]. unfold object in *. rsimpl. split.
  - intros a Ha. apply Hlive. set_solver.
  - intros i Hi. rewrite bit_at_clear by lia. rewrite andb_true_iff, Hbits by done.
    rewrite negb_true_iff, Z.eqb_neq. rewrite !elem_of_app, elem_of_cons in *. split.
    + intros [Hin Hne]. assert (pool p + objsize p * i ≠ pool p + objsize p * j) by nia. tauto.
    + intros Hin. split; [tauto|]. intros ->. tauto.
Qed.

(** ** Clients of a pool *)

(** A pool with the objects its clients hold: they call [objpool_alloc] and keep what it returns, and
    give back objects they hold. *)
Inductive pool_step : objpool * list Z → objpool * list Z → Prop :=
| step_alloc p live a p' : objpool_alloc p = Done (Some a, p') → pool_step (p, live) (p', a :: live)
| step_full p live p' : objpool_alloc p = Done (None, p') → pool_step (p, live) (p', live)
| step_free p l1 a l2 p' : objpool_free a p = Done (tt, p') → pool_step (p, l1 ++ a :: l2) (p', l1 ++ l2).

(** The pool is the one declared with [OBJPOOL_ALLOC array size n]. *)
Definition same_pool (array size n : Z) (p : objpool) : Prop := pool p = array ∧ objsize p = size ∧ num p = n.

Lemma pool_start array size n :
  0 < size → 0 ≤ n < 2 ^ 63 → 0 ≤ array → array + size * n < 2 ^ 64 →
  pool_ok (OBJPOOL_ALLOC array size n) ∧ in_use (OBJPOOL_ALLOC array size n) [].
Proof.
  intros. split; [constructor; simpl; try done; by split|]. split; [constructor|]. split; [set_solver|].
  intros j Hj. unfold bit_at. simpl. rewrite Z.testbit_0_l. set_solver.
Qed.

Lemma pool_step_ok p live p' live' :
  pool_ok p → in_use p live → pool_step (p, live) (p', live') →
  pool_ok p' ∧ in_use p' live' ∧ same_pool (pool p) (objsize p) (num p) p'.
Proof.
  intros Hp Hu. inversion 1 as [? ? a ? Hr|? ? ? Hr|? l1 a l2 ? Hr]; subst.
  - destruct (objpool_alloc_cases p live Hp Hu) as [(j & q & He & ? & ? & ? & ? & ? & ? & ?)|(q & He & _)];
      rewrite Hr in He; [|done]. by injection He as -> ->.
  - destruct (objpool_alloc_cases p live' Hp Hu) as [(j & q & He & _)|(q & He & ? & ? & ? & ? & ? & _)];
      rewrite Hr in He; [done|]. by injection He as ->.
  - destruct Hu as (Hnd & Hlive & Hb). destruct (Hlive a) as (j & Hj & ->); [set_solver|].
    destruct (objpool_free_cases p l1 j l2 Hp) as (q & He & ? & ? & ? & ? & ?); [done..|].
    rewrite Hr in He. by injection He as ->.
Qed.

Lemma pool_reachable_ok array size n s :
  0 < size → 0 ≤ n < 2 ^ 63 → 0 ≤ array → array + size * n < 2 ^ 64 →
  rtc pool_step (OBJPOOL_ALLOC array size n, []) s →
  pool_ok s.1 ∧ in_use s.1 s.2 ∧ same_pool array size n s.1.
Proof.
  intros H1 H2 H3 H4. destruct (pool_start array size n H1 H2 H3 H4) as [Hp Hu].
  apply (rtc_ind_r (λ s, pool_ok s.1 ∧ in_use s.1 s.2 ∧ same_pool array size n s.1)); [done|].
  intros [p l] [p' l'] _ Hs (Hp' & Hu' & (E1 & E2 & E3)). simpl in *.
  rewrite <-E1, <-E2, <-E3. by apply (pool_step_ok p l).
Qed.

(** An object pool hands out each object to one holder at a time.  After any sequence of
    allocations and frees of held objects, starting from a freshly declared pool, the held
    objects are distinct objects of the array, an allocation returns an object nobody holds, and
    it returns NULL only when all [n] are held. *)
Theorem objpool_safe array size n p live :
  0 < size → 0 ≤ n < 2 ^ 63 → 0 ≤ array → array + size * n < 2 ^ 64 →
  rtc pool_step (OBJPOOL_ALLOC array size n, []) (p, live) →
  NoDup live ∧ (∀ a, a ∈ live → ∃ j, 0 ≤ j < n ∧ a = array + size * j) ∧
  ∃ r p', objpool_alloc p = Done (r, p') ∧
    match r with
    | Some a => a ∉ live ∧ ∃ j, 0 ≤ j < n ∧ a = array + size * j
    | None => ∀ j, 0 ≤ j < n → array + size * j ∈ live
    end.
Proof.
  intros H1 H2 H3 H4 Hr. destruct (pool_reachable_ok _ _ _ _ H1 H2 H3 H4 Hr) as (Hp & Hu & E1 & E2 & E3).
  simpl in *. pose proof Hu as (Hnd & Hlive & _). rewrite <-E1, <-E2, <-E3. split; [done|]. split; [done|].
  destruct (objpool_alloc_cases p live Hp Hu) as [(j & q & He & Hj & Hn & _)|(q & He & _ & _ & _ & _ & _ & Hf)].
  - exists (Some (object p j)), q. split; [done|]. split; [done|]. by exists j.
  - exists None, q. split; [done|]. exact Hf.
Qed.

Lemma objpool_safe_witness :
  ∃ p, objpool_alloc (OBJPOOL_ALLOC 0x1000 24 2) = Done (Some 0x1000, p) ∧
  ∃ r p', objpool_alloc p = Done (r, p') ∧ r ≠ Some 0x1000.
Proof.
  assert (∃ p, objpool_alloc (OBJPOOL_ALLOC 0x1000 24 2) = Done (Some 0x1000, p)) as [p Hp] by (eexists; reflexivity).
  exists p. split; [exact Hp|].
  destruct (objpool_safe 0x1000 24 2 p [0x1000] ltac:(lia) ltac:(lia) ltac:(lia) ltac:(lia)
    (rtc_once _ _ (step_alloc _ [] _ _ Hp))) as (_ & _ & r & p' & He & Hr).
  exists r, p'. split; [exact He|]. intros ->. destruct Hr as [Hr _]. apply Hr. by left.
Defined.

(** [objpool_init] clears [BITMAP_SIZE] bytes of the bitmap, although that many granules of four
    bytes hold it: of a pool of 128 objects in use, those from 32 on stay in use. *)
Theorem objpool_init_leaves_bits m array size :
  let p := OBJPOOL_ALLOC array size 128 <| bitmap := λ _, 2 ^ 32 - 1 |> in
  let p' := (objpool_init m p).2 in
  bit_at (bitmap p') 0 = false ∧ bit_at (bitmap p') 32 = true ∧ bit_at (bitmap p') 127 = true.
Proof. intros p p'. by vm_compute. Qed.

(** [objpool_free] accepts the address one past the last object, because [in_range] includes the
    end of the range: it clears a bit that is not of this pool. *)
Theorem objpool_free_past_end array size n p :
  pool_ok p → same_pool array size n p → array + size * n < 2 ^ 64 - 1 →
  ∃ p', objpool_free (array + size * n) p = Done (tt, p') ∧ bitmap p' = bitmap_clear (bitmap p) n.
Proof.
  intros [Hs Hn Hb Hf Hl] (<- & <- & <-) Hlt. unfold objpool_free. rewrite bind_gets.
  assert (0 ≤ objsize p * num p) as Hr by nia.
  replace (pool p + objsize p * num p - pool p) with (objsize p * num p) by lia.
  rewrite (wrap_small 64 (objsize p * num p)) by nia.
  assert (in_range (pool p + objsize p * num p) (pool p) (objsize p * num p) = true) as ->.
  { apply range_in_range_spec; unfold in_word; lia. }
  unfold IS_ALIGNED. rewrite (Z.mul_comm (objsize p)), Z.mod_mul by lia. simpl.
  rewrite Z.div_mul by lia. rewrite bind_acquire by done. unfold release. psteps. eexists. split; [done|]. by rsimpl.
Qed.
