(* ===== verification/PagePool.v ===== *)
(** * Physical pages: src/core/mem.c, the page freeing of src/core/mmu.c

    The hypervisor takes physical pages for page tables, VM images and its own structures from
    one pool with a bitmap.  The functions are programs over the pool; the linker symbols that
    delimit the memory are parameters of [mem_init].

    The search loop of [pp_alloc] runs on fuel: each round that does not end it moves the start
    of the search past the misaligned run just found. *)
From S2P Require Import Prelude Util Bits Bitmap Spinlock MemString ObjPool.

(** ** Data *)

Record ppages := { pp_base : Z; pp_nr_pages : Z }.
#[export] Instance eta_ppages : Eta ppages := λ p, Build_ppages (pp_base p) (pp_nr_pages p).

Record page_pool := {
  base : Z;
  nr_pages : Z;
  free : Z;
  last : Z;
  bitmap : bitmap_t;
  pool_lock : spinlock_t
}.
#[export] Instance eta_page_pool : Eta page_pool := λ p,
  Build_page_pool (base p) (nr_pages p) (free p) (last p) (bitmap p) (pool_lock p).

Definition mem_ppages_get (base nr_pages : Z) : ppages := {| pp_base := base; pp_nr_pages := nr_pages |}.

(** ** Operations *)

(** [root_pool_set_up_bitmap]: the bitmap is put at the end of the memory, cleared, and its own
    pages are marked.  [raw] is what the memory at [__mem_vm_end] holds before. *)
Definition root_pool_set_up_bitmap (mem_vm_end : Z) (raw : bitmap_t) (p : page_pool) : bool * page_pool :=
  let bitmap_nr_pages :=
    nr_pages p / (8 * PAGE_SIZE) + (if nr_pages p mod (8 * PAGE_SIZE) =? 0 then 0 else 1) in
  if nr_pages p <=? bitmap_nr_pages then (false, p)
  else
    let bitmap_base := mem_vm_end in
    let bitmap_pp := mem_ppages_get bitmap_base bitmap_nr_pages in
    let p := p <| bitmap := clear_bytes raw (bitmap_nr_pages * PAGE_SIZE) |> in
    let pageoff := NUM_PAGES (pp_base bitmap_pp -64 base p) in
    let p := p <| bitmap ::= λ b, bitmap_set_consecutive b pageoff (pp_nr_pages bitmap_pp) |> in
    let p := p <| free ::= λ f, f -64 pp_nr_pages bitmap_pp |> in
    (true, p).

Definition mem_init (mem_vm_begin mem_vm_end : Z) (raw : bitmap_t) (root_pool : page_pool) : outcome page_pool :=
  let region_base := mem_vm_begin in
  let region_size := mem_vm_end -64 mem_vm_begin in
  let p := root_pool <| base := ALIGN 64 region_base PAGE_SIZE |> in
  let p := p <| nr_pages := region_size / PAGE_SIZE |> in
  let p := p <| free := nr_pages p |> in
  let '(ok, p) := root_pool_set_up_bitmap mem_vm_end raw p in
  if ok then Done p else Halt FError.

(** One pass of the [while (pool->free != 0)] loop: the position [curr] to search from next, and
    the pages when they are found.  [bit] is a size_t, so the branch [bit < 0] of the code, which
    would restart the search at 0, is never taken. *)
Fixpoint alloc_loop (n : Z) (aligned : bool) (start curr : Z) (fuel : nat) : prog page_pool (option ppages * Z) :=
  match fuel with
  | O => halt FSpin
  | S fuel =>
      p ← gets (λ p, p);
      if free p =? 0 then mret (None, curr)
      else
        let bit := bitmap_find_consec (bitmap p) (nr_pages p) curr n false in
        if aligned && negb ((bit +64 start) mod n =? 0)
        then alloc_loop n aligned start (bit +64 ((bit +64 start) mod n)) fuel
        else
          modify (λ p, p <| bitmap ::= λ b, bitmap_set_consecutive b bit n |>
                         <| free ::= λ f, f -64 n |>
                         <| last := bit +64 n |>);;
          mret (Some {| pp_base := base p +64 (bit *64 PAGE_SIZE); pp_nr_pages := n |}, curr)
  end.

(** The two searches [for (i = 0; i < 2 && !ok; i++)]. *)
Definition alloc_search (n : Z) (aligned : bool) (start curr : Z) (fuel : nat) : prog page_pool (option ppages) :=
  r ← alloc_loop n aligned start curr fuel;
  match r.1 with
  | Some pp => mret (Some pp)
  | None => r ← alloc_loop n aligned start r.2 fuel; mret r.1
  end.

(** [pp_alloc]: whether it succeeded, and the pages ([nr_pages] 0 when it did not). *)
Definition pp_alloc (n : Z) (aligned : bool) (fuel : nat) : prog page_pool (bool * ppages) :=
  if n =? 0 then mret (true, {| pp_base := 0; pp_nr_pages := 0 |})
  else
    acquire pool_lock;;
    p ← gets (λ p, p);
    let start := if aligned then base p / PAGE_SIZE mod n else 0 in
    let curr := last p +64 (last p +64 start) mod n in
    r ← alloc_search n aligned start curr fuel;
    release pool_lock;;
    mret match r with Some pp => (true, pp) | None => (false, {| pp_base := 0; pp_nr_pages := 0 |}) end.

Definition mem_alloc_ppages (n : Z) (aligned : bool) (fuel : nat) : prog page_pool ppages :=
  r ← pp_alloc n aligned fuel;
  if negb r.1 then halt FError else mret r.2.

Definition mem_alloc_page (n : Z) (phys_aligned : bool) (fuel : nat) : prog page_pool Z :=
  pp ← mem_alloc_ppages n phys_aligned fuel; mret (pp_base pp).

(** [mem_free_ppages] of mmu.c: it ends with a second [spin_lock] in the place of the unlock. *)
Definition mem_free_ppages (pp : ppages) : prog page_pool unit :=
  acquire pool_lock;;
  p ← gets (λ p, p);
  (if in_range (pp_base pp) (base p) (nr_pages p *64 PAGE_SIZE) then
     let index := (pp_base pp -64 base p) / PAGE_SIZE in
     modify (λ p, p <| bitmap ::= λ b, bitmap_clear_consecutive b index (pp_nr_pages pp) |>)
   else mret tt);;
  acquire pool_lock.

(** ** Invariant *)

Record pool_inv (p : page_pool) : Prop := {
  pi_words : words_ok (bitmap p);
  pi_gran : nr_pages p mod 32 = 0;
  pi_base : PAGE_SIZE ≤ base p;
  pi_aligned : base p mod PAGE_SIZE = 0;
  pi_size : 0 ≤ nr_pages p ∧ base p + nr_pages p * PAGE_SIZE < 2 ^ 64;
  pi_last : in_word 64 (last p)
}.

(** The pages [bit .. bit + n - 1] of the pool, marked in the bitmap. *)
Definition take_pages (bit n : Z) (p : page_pool) : page_pool :=
  p <| bitmap ::= λ b, bitmap_set_consecutive b bit n |> <| free ::= λ f, f -64 n |> <| last := bit +64 n |>.

Definition pages_at (bit n : Z) (p : page_pool) : ppages :=
  {| pp_base := base p +64 (bit *64 PAGE_SIZE); pp_nr_pages := n |}.

Lemma pool_inv_nr p : pool_inv p → 0 ≤ nr_pages p < 2 ^ 52.
Proof. intros [_ _ Hb _ [Hn Hf] _]. unfold PAGE_SIZE in *. lia. Qed.

Lemma find_in_pool p curr n :
  pool_inv p → 0 ≤ curr → 1 ≤ n →
  let bit := bitmap_find_consec (bitmap p) (nr_pages p) curr n false in
  (bit = SIZE_MAX ∧ ∀ j, curr ≤ j → ¬ fits (bitmap p) false (nr_pages p) n j) ∨
  (curr ≤ bit < nr_pages p ∧ fits (bitmap p) false (nr_pages p) n bit ∧
   ∀ j, curr ≤ j < bit → ¬ fits (bitmap p) false (nr_pages p) n j).
Proof.
  intros Hp Hc Hn. pose proof (pool_inv_nr p Hp). destruct Hp as [Hw Hg _ _ _ _].
  apply find_consec_cases; (done || lia).
Qed.

(** What a search that ends has found: pages whose position is aligned as asked, free in the
    bitmap unless the search failed, in which case they are the ones before the pool. *)
Lemma alloc_loop_done n aligned start curr fuel p r p' :
  pool_inv p → 1 ≤ n → 0 ≤ curr → alloc_loop n aligned start curr fuel p = Done (r, p') →
  (r.1 = None ∧ p' = p ∧ free p = 0 ∧ 0 ≤ r.2) ∨
  (∃ bit, r.1 = Some (pages_at bit n p) ∧ p' = take_pages bit n p ∧ free p ≠ 0 ∧
     (aligned = true → (bit +64 start) mod n = 0) ∧
     (bit = SIZE_MAX ∨ 0 ≤ bit ∧ fits (bitmap p) false (nr_pages p) n bit)).
Proof.
  intros Hp Hn. revert curr. induction fuel as [|fuel IH]; intros curr Hc; [done|]. cbn [alloc_loop].
  rewrite bind_gets. destruct (Z.eqb_spec (free p) 0) as [Hf|Hf].
  { intros [= <- <-]. left. by split_and!. }
  set (bit := bitmap_find_consec _ _ _ _ _).
  destruct (aligned && negb ((bit +64 start) mod n =? 0)) eqn:Ha.
  { intros He. apply IH in He; [done|]. apply wrap_in_word. lia. }
  rewrite bind_modify, run_ret. intros [= <- <-]. right. exists bit. split; [done|]. split; [done|]. split; [done|].
  split.
  - intros ->. simpl in Ha. apply negb_false_iff in Ha. by apply Z.eqb_eq.
  - destruct (find_in_pool p curr n Hp Hc Hn) as [[He _]|(? & He & _)]; [by left|right; split; [lia|done]].
Qed.

Lemma alloc_search_done n aligned start curr fuel p r p' :
  pool_inv p → 1 ≤ n → 0 ≤ curr → alloc_search n aligned start curr fuel p = Done (r, p') →
  (r = None ∧ p' = p ∧ free p = 0) ∨
  (∃ bit, r = Some (pages_at bit n p) ∧ p' = take_pages bit n p ∧ free p ≠ 0 ∧
     (aligned = true → (bit +64 start) mod n = 0) ∧
     (bit = SIZE_MAX ∨ 0 ≤ bit ∧ fits (bitmap p) false (nr_pages p) n bit)).
Proof.
  intros Hp Hn Hc. unfold alloc_search. intros (r1 & p1 & H1 & H2)%prog_bind_inv.
  apply alloc_loop_done in H1 as [(E & -> & Hf & Hc')|(bit & E & -> & H)]; [|rewrite E in H2; right|done..].
  - rewrite E in H2. apply prog_bind_inv in H2 as (r2 & p2 & H2 & H3).
    apply alloc_loop_done in H2 as [(E2 & -> & _)|(bit & _ & _ & Hf' & _)]; [|done..].
    injection H3 as <- <-. left. by rewrite E2.
  - injection H2 as <- <-. by exists bit.
Qed.

(** The unaligned search: one round decides. *)
Lemma alloc_search_unaligned n curr fuel p :
  free p ≠ 0 →
  alloc_search n false 0 curr (S fuel) p =
    let bit := bitmap_find_consec (bitmap p) (nr_pages p) curr n false in
    Done (Some (pages_at bit n p), take_pages bit n p).
Proof.
  intros Hf. cbv zeta. set (bit := bitmap_find_consec _ _ _ _ _). unfold alloc_search.
  rewrite (prog_bind_done _ _ _ (Some (pages_at bit n p), curr) (take_pages bit n p)); [done|].
  cbn [alloc_loop]. rewrite bind_gets. destruct (Z.eqb_spec (free p) 0); [done|]. cbv zeta. cbn [andb].
  by rewrite bind_modify, run_ret.
Qed.

(** [pp_alloc] is its search, between taking and releasing the lock. *)
Lemma pp_alloc_run n (aligned : bool) fuel p :
  lock_free (pool_lock p) → n ≠ 0 →
  let start := if aligned then base p / PAGE_SIZE mod n else 0 in
  let curr := last p +64 (last p +64 start) mod n in
  let q := p <| pool_lock ::= lock_taken |> in
  pp_alloc n aligned fuel p =
    match alloc_search n aligned start curr fuel q with
    | Done (Some pp, q') => Done ((true, pp), q' <| pool_lock ::= spin_unlock |>)
    | Done (None, q') => Done ((false, {| pp_base := 0; pp_nr_pages := 0 |}), q' <| pool_lock ::= spin_unlock |>)
    | Halt f => Halt f
    end.
Proof.
  intros Hl Hn start curr q. unfold pp_alloc. destruct (Z.eqb_spec n 0); [done|].
  rewrite bind_acquire by done. rewrite bind_gets. unfold mbind at 1, prog_bind at 1. rsimpl.
  change (p <| pool_lock := lock_taken (pool_lock p) |>) with q. fold start curr.
  destruct (alloc_search n aligned start curr fuel q) as [[[pp|] q']|f]; [| |done];
    unfold release; by rewrite bind_modify, run_ret.
Qed.

(** Every page is aligned to one page. *)
Lemma alloc_loop_one aligned start curr fuel p :
  alloc_loop 1 aligned start curr fuel p = alloc_loop 1 false start curr fuel p.
Proof.
  destruct fuel as [|fuel]; [done|]. cbn [alloc_loop]. rewrite !bind_gets. destruct (free p =? 0); [done|].
  cbv zeta. rewrite Z.mod_1_r, Z.eqb_refl. by destruct aligned.
Qed.

Lemma pp_alloc_one aligned fuel p : pp_alloc 1 aligned fuel p = pp_alloc 1 false fuel p.
Proof.
  assert (∀ start curr q, alloc_search 1 aligned start curr fuel q = alloc_search 1 false start curr fuel q) as Hs.
  { intros start curr q. unfold alloc_search, mbind, prog_bind. rewrite alloc_loop_one.
    destruct (alloc_loop 1 false start curr fuel q) as [[r q']|]; [|done]. destruct r.1; [done|]. by rewrite alloc_loop_one. }
  unfold pp_alloc. destruct (1 =? 0); [done|]. unfold mbind, prog_bind. destruct (acquire pool_lock p) as [[[] q]|]; [|done].
  cbn. rewrite !Z.mod_1_r, Hs. by destruct aligned.
Qed.

Lemma pool_inv_lock p f : pool_inv p → pool_inv (p <| pool_lock ::= f |>).
Proof. intros [? ? ? ? ? ?]. constructor; rsimpl; done. Qed.

(** ** Properties *)

Lemma take_pages_inv bit n p :
  pool_inv p → 1 ≤ n → fits (bitmap p) false (nr_pages p) n bit → 0 ≤ bit →
  pool_inv (take_pages bit n p) ∧
  ∀ j, 0 ≤ j → bit_at (bitmap (take_pages bit n p)) j = bit_at (bitmap p) j || ((bit <=? j) && (j <? bit + n)).
Proof.
  intros Hp Hn [Hfit Hrun] Hb. pose proof (pool_inv_nr p Hp). split.
  - destruct Hp. unfold take_pages. constructor; rsimpl; try done.
    + by apply words_ok_set_consecutive.
    + apply wrap_in_word. lia.
  - intros j Hj. unfold take_pages. rsimpl. apply bit_at_set_consecutive; lia.
Qed.

Lemma pages_at_eq bit n p :
  pool_inv p → 0 ≤ bit ≤ nr_pages p →
  pages_at bit n p = {| pp_base := base p + bit * PAGE_SIZE; pp_nr_pages := n |}.
Proof.
  intros [_ _ Hb _ [Hn Hf] _] Hbit. unfold pages_at, PAGE_SIZE in *. by rewrite (wrap_small 64 (bit * 0x1000)), wrap_small by lia.
Qed.

Lemma pages_before_pool n p :
  pool_inv p → pages_at SIZE_MAX n p = {| pp_base := base p - PAGE_SIZE; pp_nr_pages := n |}.
Proof.
  intros [_ _ Hb _ [Hn Hf] _]. unfold pages_at. change (SIZE_MAX *64 PAGE_SIZE) with (2 ^ 64 - PAGE_SIZE).
  f_equal. unfold wrap, PAGE_SIZE in *. replace (base p + (2 ^ 64 - 0x1000)) with (base p - 0x1000 + 1 * 2 ^ 64) by lia.
  rewrite Z.mod_add by lia. apply Z.mod_small. lia.
Qed.

(** A pool of 64 pages of which the first three are taken. *)
Definition sample_pool : page_pool :=
  {| base := 0x50000000; nr_pages := 64; free := 61; last := 3; bitmap := λ k, if k =? 0 then 7 else 0;
     pool_lock := SPINLOCK_INITVAL |}.

Lemma sample_pool_inv : pool_inv sample_pool.
Proof.
  constructor; simpl; try (done || by split).
  intros k. simpl. destruct (k =? 0); by split.
Qed.

(** [pp_alloc] takes the first free run after the last allocation, and reports success even when
    there is none.  An unaligned request for [n] pages, on a pool with a free page, either takes the
    first run of [n] free pages at or after [last + last mod n] and marks exactly those, or, when no
    run that far back fits, still returns [true], with the page before the pool. *)
Theorem pp_alloc_first_fit n fuel p :
  pool_inv p → lock_free (pool_lock p) → 1 ≤ n → free p ≠ 0 →
  let curr := last p +64 (last p +64 0) mod n in
  ∃ bit p', pp_alloc n false (S fuel) p = Done ((true, pages_at bit n p), p') ∧ lock_free (pool_lock p') ∧
    ((curr ≤ bit ∧ fits (bitmap p) false (nr_pages p) n bit ∧
      (∀ j, curr ≤ j < bit → ¬ fits (bitmap p) false (nr_pages p) n j) ∧
      pages_at bit n p = {| pp_base := base p + bit * PAGE_SIZE; pp_nr_pages := n |} ∧
      ∀ j, 0 ≤ j → bit_at (bitmap p') j = bit_at (bitmap p) j || ((bit <=? j) && (j <? bit + n))) ∨
     ((∀ j, curr ≤ j → ¬ fits (bitmap p) false (nr_pages p) n j) ∧
      pages_at bit n p = {| pp_base := base p - PAGE_SIZE; pp_nr_pages := n |})).
Proof.
  intros Hp Hl Hn Hf curr.
  rewrite pp_alloc_run by (done || lia). rewrite alloc_search_unaligned by (by rsimpl). fold curr. rsimpl.
  assert (0 ≤ curr) as Hc by (apply wrap_in_word; lia).
  destruct (find_in_pool p curr n Hp Hc Hn) as [[-> Hno]|(Hb & Hfit & Hfirst)]; eexists _, _; (split; [reflexivity|]).
  - split; [unfold take_pages; rsimpl; apply (lock_cycle_free (pool_lock p))|]. right. split; [done|].
    by apply pages_before_pool.
  - split; [unfold take_pages; rsimpl; apply (lock_cycle_free (pool_lock p))|]. left.
    split; [lia|]. split; [done|]. split; [done|]. split; [apply pages_at_eq; [done|lia]|].
    destruct (take_pages_inv _ n p Hp Hn Hfit ltac:(lia)) as [_ Hbits]. intros j Hj.
    rewrite <-Hbits by done. unfold take_pages. by rsimpl.
Qed.

Lemma pp_alloc_first_fit_witness :
  ∃ p', pp_alloc 2 false 1 sample_pool = Done ((true, {| pp_base := 0x50004000; pp_nr_pages := 2 |}), p') ∧
    lock_free (pool_lock p').
Proof.
  destruct (pp_alloc_first_fit 2 0 sample_pool sample_pool_inv ltac:(by split) ltac:(lia) ltac:(done)) as (bit & p' & He & Hl & _).
  assert (match pp_alloc 2 false 1 sample_pool with Done (r, _) => Some r | Halt _ => None end =
    Some (true, {| pp_base := 0x50004000; pp_nr_pages := 2 |})) as Hc by (vm_compute; reflexivity).
  rewrite He in Hc. injection Hc as Hc1. exists p'. split; [|exact Hl]. rewrite He. by rewrite <-Hc1.
Defined.

(** Allocations of one pool, newest first; an allocation that fails the way [pp_alloc_first_fit]
    describes returns a base below the pool and is not a step. *)
Inductive alloc_step : page_pool * list ppages → page_pool * list ppages → Prop :=
| step_alloc_pages n aligned fuel p l pp p' :
    1 ≤ n → mem_alloc_ppages n aligned fuel p = Done (pp, p') → base p ≤ pp_base pp →
    alloc_step (p, l) (p', pp :: l).

(** The pages of [pp] are pages of the pool and marked. *)
Definition marked (p : page_pool) (pp : ppages) (bit : Z) : Prop :=
  0 ≤ bit ∧ 1 ≤ pp_nr_pages pp ∧ bit + pp_nr_pages pp ≤ nr_pages p ∧ pp_base pp = base p + bit * PAGE_SIZE ∧
  run (bitmap p) true bit (pp_nr_pages pp).

Definition pages_disjoint (a b : ppages) : Prop :=
  pp_base a + pp_nr_pages a * PAGE_SIZE ≤ pp_base b ∨ pp_base b + pp_nr_pages b * PAGE_SIZE ≤ pp_base a.

Lemma mem_alloc_ppages_done n aligned fuel p pp p' :
  pool_inv p → lock_free (pool_lock p) → 1 ≤ n →
  mem_alloc_ppages n aligned fuel p = Done (pp, p') → base p ≤ pp_base pp →
  ∃ bit, pp = pages_at bit n p ∧ fits (bitmap p) false (nr_pages p) n bit ∧ 0 ≤ bit ∧
    (aligned = true → (bit +64 base p / PAGE_SIZE mod n) mod n = 0) ∧
    p' = take_pages bit n p <| pool_lock := lock_cycle (pool_lock p) |>.
Proof.
  intros Hp Hl Hn. unfold mem_alloc_ppages. intros (r & p1 & H1 & H2)%prog_bind_inv Hge.
  rewrite pp_alloc_run in H1 by (done || lia). set (q := p <| pool_lock ::= lock_taken |>) in *.
  set (curr := _ +64 _) in H1. assert (0 ≤ curr) as Hc by (apply wrap_in_word; lia).
  destruct (alloc_search _ _ _ _ _ _) as [[r' q']|f] eqn:Hs; [|done].
  apply alloc_search_done in Hs as [(-> & -> & _)|(bit & -> & -> & _ & Hal & Hfit)]; [..|by apply pool_inv_lock|done|done].
  { injection H1 as <- <-. done. }
  injection H1 as <- <-. injection H2 as <- <-. exists bit.
  change (pages_at bit n q) with (pages_at bit n p) in *.
  assert (bit ≠ SIZE_MAX) as Hne.
  { intros ->. rewrite (pages_before_pool n p Hp) in Hge. simpl in Hge. unfold PAGE_SIZE in Hge. lia. }
  destruct Hfit as [?|[Hb Hfit]]; [done|]. split; [done|]. split; [exact Hfit|].
  split; [done|]. split; [intros ->; by apply Hal|]. by destruct p.
Qed.

Lemma pool_trace_inv p0 s :
  pool_inv p0 → lock_free (pool_lock p0) → rtc alloc_step (p0, []) s →
  pool_inv s.1 ∧ lock_free (pool_lock s.1) ∧ base s.1 = base p0 ∧ nr_pages s.1 = nr_pages p0 ∧
  (∀ j, 0 ≤ j → bit_at (bitmap p0) j = true → bit_at (bitmap s.1) j = true) ∧
  (∀ pp, pp ∈ s.2 → ∃ bit, marked s.1 pp bit ∧ run (bitmap p0) false bit (pp_nr_pages pp)) ∧
  ∀ i j a b, i ≠ j → s.2 !! i = Some a → s.2 !! j = Some b → pages_disjoint a b.
Proof.
  intros H0 Hl0. revert s. apply rtc_ind_r.
  { simpl. split_and!; try done. intros pp Hpp. by apply elem_of_nil in Hpp. }
  intros s s' _ Hs. inversion Hs as [n aligned fuel p l pp p' Hn He Hge]; subst. clear Hs. simpl.
  intros (Hp & Hl & Eb & En & Hmono & Hm & Hd).
  destruct (mem_alloc_ppages_done _ _ _ _ _ _ Hp Hl Hn He Hge) as (bit & -> & Hfit & Hbit & _ & ->).
  destruct (take_pages_inv bit n p Hp Hn Hfit Hbit) as [Hp' Hbits].
  pose proof Hfit as [Hle Hrun]. pose proof (pool_inv_nr p Hp).
  assert (∀ j, 0 ≤ j → bit_at (bitmap p) j = true → bit_at (bitmap (take_pages bit n p)) j = true) as Hm1.
  { intros j Hj Hb. rewrite Hbits, Hb by done. done. }
  assert (marked (take_pages bit n p <| pool_lock := lock_cycle (pool_lock p) |>) (pages_at bit n p) bit) as Hnew.
  { rewrite (pages_at_eq bit n p) by (done || lia). unfold marked. simpl. rsimpl. split_and!; try done; try lia.
    intros j Hj. rewrite Hbits by lia. zcase; by rewrite orb_true_r. }
  assert (∀ a, a ∈ l → pages_disjoint (pages_at bit n p) a) as Hdis.
  { intros a Ha. destruct (Hm a Ha) as (k & (Hk & Hk1 & Hk2 & Ek & Hr) & _). rewrite (pages_at_eq bit n p) by (done || lia).
    unfold pages_disjoint. simpl. rewrite Ek.
    destruct (decide (bit + n ≤ k)) as [?|]; [left; unfold PAGE_SIZE; lia|].
    destruct (decide (k + pp_nr_pages a ≤ bit)) as [?|]; [right; unfold PAGE_SIZE; lia|]. exfalso.
    assert (bit_at (bitmap p) (Z.max bit k) = false) by (apply Hrun; lia).
    assert (bit_at (bitmap p) (Z.max bit k) = true) by (apply Hr; lia). congruence. }
  split; [by apply (pool_inv_lock _ (λ _, lock_cycle (pool_lock p)))|].
  split; [rsimpl; apply lock_cycle_free|]. split; [by rsimpl|]. split; [by rsimpl|].
  split; [intros j Hj Hb; rsimpl; auto|]. split.
  - intros pp [->|Hpp]%elem_of_cons.
    + exists bit. split; [exact Hnew|]. intros j Hj. destruct (bit_at (bitmap p0) j) eqn:Hb; [|done].
      apply Hmono in Hb; [|simpl in Hj; lia]. rewrite Hrun in Hb by (simpl in Hj; lia). done.
    + destruct (Hm pp Hpp) as (k & (Hk & Hk1 & Hk2 & Ek & Hr) & Hr0). exists k. split; [|done].
      unfold marked. rsimpl. split_and!; try done. intros j Hj. apply Hm1; [lia|]. by apply Hr.
  - intros [|i] [|j] a b Hij Ha Hb; simpl in *; [done| | |].
    + injection Ha as <-. apply Hdis. by eapply list_elem_of_lookup_2.
    + injection Hb as <-. assert (pages_disjoint (pages_at bit n p) a) as [?|?]; [|by right|by left].
      apply Hdis. by eapply list_elem_of_lookup_2.
    + apply (Hd i j); [congruence|done..].
Qed.



(** [mem_free_ppages] never returns: after clearing the bits it takes the lock it already holds. *)
Theorem mem_free_ppages_deadlock pp p :
  lock_free (pool_lock p) → mem_free_ppages pp p = Halt FDeadlock.
Proof.
  intros Hl. unfold mem_free_ppages. rewrite bind_acquire by done. rewrite bind_gets. cbv zeta.
  assert (∀ q, pool_lock q = lock_taken (pool_lock p) → acquire pool_lock q = Halt FDeadlock) as Ht.
  { intros q Hq. unfold acquire. rewrite Hq. rewrite (spin_lock_twice (pool_lock p)); [done|done|].
    by apply spin_lock_free. }
  destruct (in_range _ _ _); [rewrite bind_modify|rewrite bind_ret]; apply Ht; by rsimpl.
Qed.

(** Exhaustion: on a pool without a free run, [mem_alloc_page] returns the page before the pool
    instead of ending in ERROR. *)
Theorem mem_alloc_page_exhausted p :
  pool_inv p → lock_free (pool_lock p) → free p ≠ 0 →
  (∀ j, 0 ≤ j → ¬ fits (bitmap p) false (nr_pages p) 1 j) →
  ∃ p', mem_alloc_page 1 false 1 p = Done (base p - PAGE_SIZE, p').
Proof.
  intros Hp Hl Hf Hno. unfold mem_alloc_page, mem_alloc_ppages.
  assert (0 ≤ last p +64 (last p +64 0) mod 1) as Hc by (apply wrap_in_word; lia).
  assert (∃ p', pp_alloc 1 false 1 p = Done ((true, pages_at SIZE_MAX 1 p), p')) as [p' He].
  { rewrite pp_alloc_run by done. rewrite alloc_search_unaligned by (by rsimpl). cbv zeta. rsimpl.
    destruct (find_in_pool p _ 1 Hp Hc ltac:(lia)) as [[-> _]|(Hb & Hfit & _)]; [eauto|].
    exfalso. eapply Hno; [|exact Hfit]. lia. }
  exists p'. erewrite prog_bind_done; [|erewrite prog_bind_done by (exact He); simpl; reflexivity].
  rewrite (pages_before_pool 1 p Hp). done.
Qed.
