(* ===== verification/PageTable.v ===== *)
(** * Page tables: src/core/inc/page_table.h, src/arch/aarch64/inc/arch_page_table.h and
    src/arch/aarch64/arch_page_table.c

    Physical memory is a function from the byte address of a 64-bit word to its value; the
    hypervisor runs with its physical memory mapped at the same addresses.  [table_at] and
    [translate] are the walk of the hardware, the specification the operations are compared with. *)
From S2P Require Import Prelude Util Bits.

Abbreviation memory := (Z → Z).

(** ** Entries *)

Definition ADDR_MSK (msb lsb : Z) : Z :=
  Z.land (u64 (Z.shiftl 1 (msb + 1)) -64 1) (u64 (Z.lnot (u64 (Z.shiftl 1 lsb) -64 1))).
Definition PTE_ADDR_MSK : Z := ADDR_MSK 47 12.
Definition PTE_FLAGS_MSK : Z := u64 (Z.lnot PTE_ADDR_MSK).
Definition PTE_TYPE_MSK : Z := 3.
Definition PTE_VALID : Z := 1.
Definition PTE_SUPERPAGE : Z := 1.
Definition PTE_TABLE : Z := 3.
Definition PTE_PAGE : Z := 3.
Definition PTE_INVALID : Z := 0.
Definition PTE_XN : Z := Z.shiftl 1 54.
Definition PTE_AF : Z := Z.shiftl 1 10.
Definition PTE_SH_OFF : Z := 8.
Definition PTE_SH_NS : Z := Z.shiftl 0 PTE_SH_OFF.
Definition PTE_SH_IS : Z := Z.shiftl 3 PTE_SH_OFF.
Definition PTE_AP_OFF : Z := 6.
Definition PTE_AP_RW : Z := Z.shiftl 1 PTE_AP_OFF.
Definition PTE_ATTR_OFF : Z := 2.
Definition PTE_ATTR_MSK : Z := Z.shiftl 7 PTE_ATTR_OFF.
Definition PTE_ATTR (n : Z) : Z := Z.land (Z.shiftl n PTE_ATTR_OFF) PTE_ATTR_MSK.
Definition PTE_MEMATTR_OFF : Z := 2.
Definition PTE_MEMATTR_DEV_GRE : Z := Z.shiftl (Z.shiftl 3 0) PTE_MEMATTR_OFF.
Definition PTE_MEMATTR_NRML_OWBC : Z := Z.shiftl (Z.shiftl 3 2) PTE_MEMATTR_OFF.
Definition PTE_MEMATTR_NRML_IWBC : Z := Z.shiftl (Z.shiftl 3 0) PTE_MEMATTR_OFF.
Definition PTE_S2AP_RW : Z := Z.shiftl 3 PTE_AP_OFF.
Definition PTE_RSW_OFF : Z := 55.
Definition PTE_RSW_WDT : Z := 4.
Definition PTE_RSW_MSK : Z :=
  (u64 (Z.shiftl 1 (PTE_RSW_OFF + PTE_RSW_WDT)) -64 1) -64 (u64 (Z.shiftl 1 PTE_RSW_OFF) -64 1).
Definition PTE_RSW_RSRV : Z := Z.shiftl 3 PTE_RSW_OFF.
Definition PTE_HYP_FLAGS : Z := Z.lor (Z.lor (Z.lor (PTE_ATTR 1) PTE_AP_RW) PTE_SH_IS) PTE_AF.
Definition PTE_HYP_DEV_FLAGS : Z :=
  Z.lor (Z.lor (Z.lor (Z.lor (PTE_ATTR 2) PTE_AP_RW) PTE_SH_IS) PTE_AF) PTE_XN.
Definition PTE_VM_FLAGS : Z :=
  Z.lor (Z.lor (Z.lor (Z.lor PTE_MEMATTR_NRML_OWBC PTE_MEMATTR_NRML_IWBC) PTE_SH_NS) PTE_S2AP_RW) PTE_AF.
Definition PTE_VM_DEV_FLAGS : Z := Z.lor (Z.lor (Z.lor PTE_MEMATTR_DEV_GRE PTE_SH_NS) PTE_S2AP_RW) PTE_AF.

(** [pte_set]: the value stored. *)
Definition pte_set (addr type flags : Z) : Z :=
  Z.lor (Z.land addr PTE_ADDR_MSK) (Z.land (Z.lor type flags) PTE_FLAGS_MSK).

Definition pte_valid (pte : Z) : bool := negb (Z.land pte PTE_VALID =? 0).

Definition pte_set_rsw (pte flag : Z) : Z :=
  Z.lor (Z.land pte (u64 (Z.lnot PTE_RSW_MSK))) (Z.land flag PTE_RSW_MSK).

Definition pte_check_rsw (pte flag : Z) : bool := Z.land pte PTE_RSW_MSK =? Z.land flag PTE_RSW_MSK.

Definition pte_addr (pte : Z) : Z := Z.land pte PTE_ADDR_MSK.

(** ** Descriptors

    The arrays of a descriptor are lists; a level out of their range reads 0. *)
Record page_table_dscr := {
  lvls : Z;
  lvl_off : list Z;
  lvl_wdt : list Z;
  lvl_term : list bool
}.
#[export] Instance eta_page_table_dscr : Eta page_table_dscr := λ d,
  Build_page_table_dscr (lvls d) (lvl_off d) (lvl_wdt d) (lvl_term d).

Definition armv8_pt_dscr : page_table_dscr :=
  {| lvls := 4; lvl_wdt := [48; 39; 30; 21]; lvl_off := [39; 30; 21; 12]; lvl_term := [false; true; true; true] |}.
Definition armv8_pt_s2_dscr : page_table_dscr :=
  {| lvls := 4; lvl_wdt := [48; 39; 30; 21]; lvl_off := [39; 30; 21; 12]; lvl_term := [false; true; true; true] |}.

Definition parange_table : list Z := [32; 36; 40; 42; 44; 48].

Definition off (d : page_table_dscr) (lvl : Z) : Z := nth (Z.to_nat lvl) (lvl_off d) 0.
Definition wdt (d : page_table_dscr) (lvl : Z) : Z := nth (Z.to_nat lvl) (lvl_wdt d) 0.

Definition sizeof_pte : Z := 8.

Definition pt_nentries (d : page_table_dscr) (lvl : Z) : Z := Z.shiftr (u64 (Z.shiftl 1 (wdt d lvl))) (off d lvl).
Definition pt_lvlsize (d : page_table_dscr) (lvl : Z) : Z := u64 (Z.shiftl 1 (off d lvl)).
Definition pt_size (d : page_table_dscr) (lvl : Z) : Z := pt_nentries d lvl *64 sizeof_pte.
Definition pt_getpteindex (d : page_table_dscr) (pte lvl : Z) : Z :=
  Z.land pte (pt_size d lvl -64 1) / sizeof_pte.
Definition pt_getpteindex_by_va (d : page_table_dscr) (va lvl : Z) : Z :=
  Z.land (Z.shiftr va (off d lvl)) (pt_nentries d lvl -64 1).
Definition pt_lvl_terminal (d : page_table_dscr) (lvl : Z) : bool := nth (Z.to_nat lvl) (lvl_term d) false.

(** ** The walk of the code

    [pt_get_pte] follows the address field of every entry on the way, whatever the entry is. *)
Fixpoint get_pte_loop (m : memory) (d : page_table_dscr) (va pte i : Z) (n : nat) : Z :=
  let idx := signed 32 (u32 (pt_getpteindex_by_va d va i)) in
  let pte := pte +64 sizeof_pte * idx in
  match n with
  | O => pte
  | S n => get_pte_loop m d va (pte_addr (m pte)) (i + 1) n
  end.

Definition pt_get_pte (m : memory) (d : page_table_dscr) (root lvl va : Z) : Z :=
  get_pte_loop m d va root 0 (Z.to_nat lvl).

Definition pt_get (m : memory) (d : page_table_dscr) (root lvl va : Z) : Z :=
  if lvl =? 0 then root
  else Z.land (pt_get_pte m d root lvl va) (u64 (Z.lnot (pt_size d lvl -64 1))).

(** [pte_page] and [pte_table] of the entry with value [pte]. *)
Definition pte_page (d : page_table_dscr) (pte lvl : Z) : bool :=
  if negb (pt_lvl_terminal d lvl) then false
  else if negb (lvl =? lvls d - 1) then Z.land pte PTE_TYPE_MSK =? PTE_SUPERPAGE
  else Z.land pte PTE_TYPE_MSK =? PTE_PAGE.

Definition pte_table (d : page_table_dscr) (pte lvl : Z) : bool :=
  if lvl =? lvls d - 1 then false else Z.land pte PTE_TYPE_MSK =? PTE_TABLE.

(** ** The walk of the hardware

    The index of [va] in its table at level [l] is [pfx d l va] modulo the size of the table;
    the table itself depends on the bits above. *)
Definition pfx (d : page_table_dscr) (l va : Z) : Z := va / 2 ^ off d l.

Definition entry_at (d : page_table_dscr) (a l va : Z) : Z := a + 8 * (pfx d l va mod pt_nentries d l).

Fixpoint table_at (m : memory) (d : page_table_dscr) (root : Z) (l : nat) (va : Z) : option Z :=
  match l with
  | O => Some root
  | S l =>
      a ← table_at m d root l va;
      let e := m (entry_at d a (Z.of_nat l) va) in
      if pte_table d e (Z.of_nat l) then Some (pte_addr e) else None
  end.

(** From the table [a] of level [l], with [n] levels below it: the address and the attributes. *)
Fixpoint walk (m : memory) (d : page_table_dscr) (va a l : Z) (n : nat) : option (Z * Z) :=
  let e := m (entry_at d a l va) in
  if negb (pte_valid e) then None
  else if pte_table d e l then match n with O => None | S n => walk m d va (pte_addr e) (l + 1) n end
  else if pte_page d e l then Some (pte_addr e + va mod 2 ^ off d l, Z.land e PTE_FLAGS_MSK) else None.

Definition translate (m : memory) (d : page_table_dscr) (root va : Z) : option (Z * Z) :=
  walk m d va root 0 (Z.to_nat (lvls d - 1)).

(** ** Bits of an entry *)

Lemma testbit_addr_msk i : 0 ≤ i → Z.testbit PTE_ADDR_MSK i = (12 <=? i) && (i <? 48).
Proof.
  intros. change PTE_ADDR_MSK with (Z.shiftl (Z.ones 36) 12). rewrite testbit_shiftl by done.
  destruct (Z.leb_spec 12 i); [rewrite Z.testbit_ones by lia; by zcase|by rewrite Z.testbit_neg_r by lia].
Qed.

Lemma testbit_flags_msk i : 0 ≤ i → Z.testbit PTE_FLAGS_MSK i = (i <? 64) && negb ((12 <=? i) && (i <? 48)).
Proof. intros. unfold PTE_FLAGS_MSK. autorewrite with bits. by rewrite testbit_addr_msk. Qed.

#[export] Hint Rewrite testbit_addr_msk testbit_flags_msk using lia : bits.

Lemma testbit_3 i : 0 ≤ i → Z.testbit 3 i = (i <? 2).
Proof. intros. change 3 with (Z.ones 2). rewrite Z.testbit_ones by lia. by zcase. Qed.

Lemma page_addr_msk a : 0 ≤ a < 2 ^ 48 → a mod PAGE_SIZE = 0 → Z.land a PTE_ADDR_MSK = a.
Proof.
  intros Ha Hp. word_bits. destruct (Z.leb_spec 12 i), (Z.ltb_spec i 48); simpl; rewrite ?andb_true_r, ?andb_false_r; try done.
  - by rewrite (testbit_small 48 a) by (done || lia).
  - assert (Z.testbit (a mod 2 ^ 12) i = false) as Hb.
    { change (2 ^ 12) with PAGE_SIZE. by rewrite Hp, Z.testbit_0_l. }
    rewrite Z.testbit_mod_pow2 in Hb by lia. destruct (Z.ltb_spec i 12); [by rewrite <-Hb|lia].
  - lia.
Qed.

Lemma pte_addr_set addr type flags : pte_addr (pte_set addr type flags) = Z.land addr PTE_ADDR_MSK.
Proof. unfold pte_addr, pte_set. word_bits. zcase; simpl; by rewrite ?andb_true_r, ?andb_false_r, ?orb_false_r. Qed.

Lemma pte_addr_page e : 0 ≤ pte_addr e < 2 ^ 48 ∧ pte_addr e mod PAGE_SIZE = 0.
Proof.
  split.
  - replace (pte_addr e) with (pte_addr e mod 2 ^ 48); [apply Z.mod_pos_bound; lia|].
    unfold pte_addr. apply Z.bits_inj'; intros i Hi. rewrite Z.testbit_mod_pow2 by lia. autorewrite with bits.
    zcase; simpl; by rewrite ?andb_false_r.
  - change PAGE_SIZE with (2 ^ 12). unfold pte_addr. apply Z.bits_inj'; intros i Hi.
    rewrite Z.testbit_mod_pow2 by lia. autorewrite with bits. zcase; simpl; by rewrite ?andb_false_r.
Qed.

Lemma pte_type_set addr type flags : Z.land (pte_set addr type flags) 3 = Z.land (Z.lor type flags) 3.
Proof.
  unfold pte_set. word_bits. rewrite !testbit_3 by done. zcase; simpl; rewrite ?andb_false_r, ?andb_true_r; done.
Qed.

Lemma pte_flags_set addr type flags :
  Z.land (pte_set addr type flags) PTE_FLAGS_MSK = Z.land (Z.lor type flags) PTE_FLAGS_MSK.
Proof.
  unfold pte_set. word_bits. zcase; simpl; rewrite ?andb_false_r, ?andb_true_r, ?orb_false_l; done.
Qed.

Lemma pte_valid_type e : pte_valid e = Z.testbit e 0.
Proof.
  unfold pte_valid, PTE_VALID. rewrite Z.land_comm. change 1 with (2 ^ 0). rewrite land_single_zero by lia. by destruct (Z.testbit e 0).
Qed.

Lemma type_3_valid e : Z.land e 3 = 3 → pte_valid e = true.
Proof.
  intros He. rewrite pte_valid_type. assert (Z.testbit (Z.land e 3) 0 = true) as Hb by by rewrite He.
  rewrite Z.land_spec, andb_true_r in Hb. done.
Qed.

Lemma pte_table_valid d e l : pte_table d e l = true → pte_valid e = true.
Proof. unfold pte_table. destruct (l =? _); [done|]. intros He%Z.eqb_eq. by apply type_3_valid. Qed.

Lemma lor_3_type f : Z.land (Z.lor 3 f) 3 = 3.
Proof.
  word_bits. rewrite !testbit_3 by done. zcase; simpl; by rewrite ?andb_true_r, ?andb_false_r.
Qed.

(** The entry [mem_alloc_pt] writes, for any flags. *)
Lemma pte_table_set d addr flags l : l ≠ lvls d - 1 → pte_table d (pte_set addr PTE_TABLE flags) l = true.
Proof.
  intros Hl. unfold pte_table. destruct (Z.eqb_spec l (lvls d - 1)); [done|].
  unfold PTE_TYPE_MSK, PTE_TABLE. rewrite pte_type_set, lor_3_type. done.
Qed.

(** An entry that keeps only software bits of another one is invalid. *)
Lemma rsw_invalid e : pte_valid (Z.lor PTE_INVALID (Z.land e PTE_RSW_MSK)) = false.
Proof.
  rewrite pte_valid_type. unfold PTE_INVALID. rewrite Z.lor_spec, Z.land_spec, Z.testbit_0_l.
  change (Z.testbit PTE_RSW_MSK 0) with false. by rewrite andb_false_r.
Qed.

Lemma set_rsw_valid e f : pte_valid (pte_set_rsw e f) = pte_valid e.
Proof.
  rewrite !pte_valid_type. unfold pte_set_rsw. rewrite Z.lor_spec, !Z.land_spec.
  change (Z.testbit PTE_RSW_MSK 0) with false. change (Z.testbit (u64 (Z.lnot PTE_RSW_MSK)) 0) with true.
  by rewrite andb_false_r, andb_true_r, orb_false_r.
Qed.

(** ** Descriptors *)

Record dscr_ok (d : page_table_dscr) : Prop := {
  do_lvls : 2 ≤ lvls d ≤ 4;
  do_off : ∀ l, 0 ≤ l < lvls d → off d l = 12 + 9 * (lvls d - 1 - l);
  do_wdt : ∀ l, 1 ≤ l < lvls d → wdt d l = off d l + 9;
  do_wdt0 : off d 0 < wdt d 0 ≤ 48
}.

Lemma armv8_pt_dscr_ok : dscr_ok armv8_pt_dscr.
Proof.
  constructor; [by split| | |by split];
    intros l Hl; simpl in Hl; assert (l = 0 ∨ l = 1 ∨ l = 2 ∨ l = 3) as [-> | [-> | [-> | ->]]] by lia; done || lia.
Qed.

(** Addresses a table of this shape translates. *)
Definition va_ok (d : page_table_dscr) (va : Z) : Prop := 0 ≤ va < 2 ^ wdt d 0.

Section dscr.
  Context (d : page_table_dscr) (Hd : dscr_ok d).

Lemma off_bounds l : 0 ≤ l < lvls d → 12 ≤ off d l ≤ 39.
Proof using Hd. intros Hl. pose proof (do_lvls d Hd). rewrite (do_off d Hd) by done. lia. Qed.

Lemma off_next l : 0 ≤ l → l + 1 < lvls d → off d l = off d (l + 1) + 9.
Proof using Hd. intros. rewrite !(do_off d Hd) by lia. lia. Qed.

Lemma off_last : off d (lvls d - 1) = 12.
Proof using Hd. pose proof (do_lvls d Hd). rewrite (do_off d Hd) by lia. lia. Qed.

Lemma wdt_bounds l : 0 ≤ l < lvls d → off d l < wdt d l ≤ 48.
Proof using Hd.
  intros Hl. pose proof (off_bounds l Hl). destruct (decide (l = 0)) as [->|]; [apply (do_wdt0 d Hd)|].
  rewrite (do_wdt d Hd) by lia. lia.
Qed.

Lemma pt_nentries_eq l : 0 ≤ l < lvls d → pt_nentries d l = 2 ^ (wdt d l - off d l).
Proof using Hd.
  intros Hl. pose proof (off_bounds l Hl). pose proof (wdt_bounds l Hl).
  unfold pt_nentries. rewrite Z.shiftl_mul_pow2, Z.mul_1_l by lia.
  rewrite wrap_small by (split; [lia|apply Z.pow_lt_mono_r; lia]).
  rewrite Z.shiftr_div_pow2, Z.pow_sub_r by lia. done.
Qed.

Lemma pt_nentries_512 l : 1 ≤ l < lvls d → pt_nentries d l = 512.
Proof using Hd. intros Hl. rewrite pt_nentries_eq by lia. rewrite (do_wdt d Hd) by lia. by replace (_ - _) with 9 by lia. Qed.

Lemma pt_nentries_bounds l : 0 ≤ l < lvls d → 0 < pt_nentries d l ≤ 2 ^ 27.
Proof using Hd.
  intros Hl. rewrite pt_nentries_eq by done. pose proof (off_bounds l Hl). pose proof (wdt_bounds l Hl).
  assert (wdt d l - off d l ≤ 27).
  { destruct (decide (l = 0)) as [->|]; [pose proof (do_off d Hd 0 Hl); pose proof (do_lvls d Hd); lia|].
    rewrite (do_wdt d Hd) by lia. lia. }
  split; [apply Z.pow_pos_nonneg; lia|apply Z.pow_le_mono_r; lia].
Qed.

Lemma pt_lvlsize_eq l : 0 ≤ l < lvls d → pt_lvlsize d l = 2 ^ off d l.
Proof using Hd.
  intros Hl. pose proof (off_bounds l Hl). unfold pt_lvlsize. rewrite Z.shiftl_mul_pow2, Z.mul_1_l by lia.
  apply wrap_small. split; [lia|]. apply Z.pow_lt_mono_r; lia.
Qed.

Lemma pt_size_eq l : 0 ≤ l < lvls d → pt_size d l = 8 * pt_nentries d l.
Proof using Hd.
  intros Hl. pose proof (pt_nentries_bounds l Hl). unfold pt_size, sizeof_pte. rewrite wrap_small; lia.
Qed.

Lemma pt_size_page l : 1 ≤ l < lvls d → pt_size d l = PAGE_SIZE.
Proof using Hd. intros Hl. rewrite pt_size_eq, pt_nentries_512 by lia. done. Qed.

Lemma index_by_va_eq va l : 0 ≤ va → 0 ≤ l < lvls d → pt_getpteindex_by_va d va l = pfx d l va mod pt_nentries d l.
Proof using Hd.
  intros Hv Hl. pose proof (off_bounds l Hl). pose proof (wdt_bounds l Hl). pose proof (pt_nentries_bounds l Hl).
  unfold pt_getpteindex_by_va, pfx. rewrite Z.shiftr_div_pow2 by lia.
  rewrite (wrap_small 64) by lia. rewrite pt_nentries_eq by done.
  replace (2 ^ (wdt d l - off d l) - 1) with (Z.ones (wdt d l - off d l)) by (rewrite Z.ones_equiv; lia).
  by rewrite Z.land_ones by lia.
Qed.

Lemma pfx_mod_bounds va l : 0 ≤ l < lvls d → 0 ≤ pfx d l va mod pt_nentries d l < pt_nentries d l.
Proof using Hd. intros Hl. apply Z.mod_pos_bound. by apply pt_nentries_bounds. Qed.

(** The number of an entry at one level is that of its table and its index in the table. *)
Lemma pfx_up l va : 0 ≤ l → l + 1 < lvls d → pfx d l va = pfx d (l + 1) va / 512.
Proof using Hd.
  intros Hl Hl1. pose proof (off_bounds (l + 1)). unfold pfx.
  rewrite Z.div_div by lia. f_equal. change 512 with (2 ^ 9). rewrite <-Z.pow_add_r by lia. f_equal. rewrite off_next; lia.
Qed.

Lemma pfx_up_eq l va va' : 0 ≤ l → l + 1 < lvls d → pfx d (l + 1) va = pfx d (l + 1) va' → pfx d l va = pfx d l va'.
Proof using Hd. intros Hl Hl1 E. by rewrite (pfx_up l va), (pfx_up l va'), E by lia. Qed.

Lemma pfx_le_eq k l va va' : 0 ≤ k ≤ l → l < lvls d → pfx d l va = pfx d l va' → pfx d k va = pfx d k va'.
Proof using Hd.
  intros Hkl Hl E. replace k with (l - Z.of_nat (Z.to_nat (l - k))) by lia.
  assert (Z.of_nat (Z.to_nat (l - k)) ≤ l) as Hn by lia. revert Hn. generalize (Z.to_nat (l - k)) as n.
  induction n as [|n IH]; intros Hn; [by rewrite Z.sub_0_r|].
  apply pfx_up_eq; [lia..|]. replace (l - Z.of_nat (S n) + 1) with (l - Z.of_nat n) by lia. apply IH. lia.
Qed.

Lemma pfx_root va : va_ok d va → pfx d 0 va mod pt_nentries d 0 = pfx d 0 va ∧ 0 ≤ pfx d 0 va < pt_nentries d 0.
Proof using Hd.
  intros Hv. pose proof (do_lvls d Hd). assert (0 ≤ pfx d 0 va < pt_nentries d 0) as Hb.
  { unfold pfx, va_ok in *. rewrite pt_nentries_eq by lia. pose proof (off_bounds 0). pose proof (wdt_bounds 0).
    split; [apply Z.div_pos; lia|]. apply Z.div_lt_upper_bound; [lia|].
    rewrite <-Z.pow_add_r by lia. replace (off d 0 + _) with (wdt d 0) by lia. lia. }
  split; [|done]. by apply Z.mod_small.
Qed.

(** Two addresses whose entries are in the same table. *)
Definition same_table (l : Z) (va va' : Z) : Prop := l = 0 ∨ pfx d (l - 1) va = pfx d (l - 1) va'.

Lemma same_table_pfx l va va' :
  0 ≤ l < lvls d → pfx d l va = pfx d l va' → same_table l va va'.
Proof using Hd.
  intros Hl E. destruct (decide (l = 0)); [by left|]. right. apply (pfx_le_eq _ l); [lia..|done].
Qed.

Lemma same_entry a l va va' :
  va_ok d va → va_ok d va' → 0 ≤ l < lvls d → same_table l va va' →
  entry_at d a l va = entry_at d a l va' → pfx d l va = pfx d l va'.
Proof using Hd.
  intros Hv Hv' Hl [-> |Hs] E; unfold entry_at in E.
  - destruct (pfx_root va Hv) as [E1 _], (pfx_root va' Hv') as [E2 _]. rewrite E1, E2 in E. lia.
  - destruct (decide (l = 0)) as [->|].
    { destruct (pfx_root va Hv) as [E1 _], (pfx_root va' Hv') as [E2 _]. rewrite E1, E2 in E. lia. }
    rewrite pt_nentries_512 in E by lia. rewrite !(pfx_up (l - 1)) in Hs by lia.
    replace (l - 1 + 1) with l in Hs by lia. pose proof (Z.div_mod (pfx d l va) 512). pose proof (Z.div_mod (pfx d l va') 512). lia.
Qed.

Lemma entry_at_bounds a l va :
  0 ≤ l < lvls d → a ≤ entry_at d a l va ∧ entry_at d a l va + 8 ≤ a + 8 * pt_nentries d l ∧ (entry_at d a l va - a) mod 8 = 0.
Proof using Hd.
  intros Hl. pose proof (pfx_mod_bounds va l Hl). unfold entry_at. split_and!; [lia..|].
  replace (_ - a) with (pfx d l va mod pt_nentries d l * 8) by lia. apply Z_mod_mult.
Qed.

Lemma entry_at_pfx a l va va' : pfx d l va = pfx d l va' → entry_at d a l va = entry_at d a l va'.
Proof. unfold entry_at. by intros ->. Qed.

End dscr.

(** ** Trees of tables *)

Lemma table_at_ext m m' d root k va :
  (∀ j a, (j < k)%nat → table_at m d root j va = Some a →
     m' (entry_at d a (Z.of_nat j) va) = m (entry_at d a (Z.of_nat j) va)) →
  table_at m' d root k va = table_at m d root k va.
Proof.
  induction k as [|k IH]; intros H; [done|]. simpl. rewrite IH by (intros; apply H; [lia|done]).
  destruct (table_at m d root k va) as [a|] eqn:E; [|done]. simpl. by rewrite (H k a) by (lia || done).
Qed.

Lemma walk_ext m m' d va a l n root :
  (∀ j b, (j ≤ l + n)%nat → table_at m d root j va = Some b →
     m' (entry_at d b (Z.of_nat j) va) = m (entry_at d b (Z.of_nat j) va)) →
  table_at m d root l va = Some a → walk m' d va a (Z.of_nat l) n = walk m d va a (Z.of_nat l) n.
Proof.
  revert l a. induction n as [|n IH]; intros l a H Ha; simpl; rewrite (H l a) by (lia || done); [done|].
  destruct (negb _) eqn:Hv; [done|]. destruct (pte_table _ _ _) eqn:Ht; [|done].
  replace (Z.of_nat l + 1) with (Z.of_nat (S l)) by lia. apply IH.
  - intros j b Hj. apply H. lia.
  - simpl. rewrite Ha. simpl. by rewrite Ht.
Qed.

Lemma table_at_S m d root l va :
  table_at m d root (S l) va = table_at m d root l va ≫= λ a,
    let e := m (entry_at d a (Z.of_nat l) va) in if pte_table d e (Z.of_nat l) then Some (pte_addr e) else None.
Proof. done. Qed.

Lemma table_at_split m d root l k va a :
  table_at m d root (l + k) va = Some a → ∃ b, table_at m d root l va = Some b.
Proof.
  revert a. induction k as [|k IH]; intros a Ha; [exists a; by replace (l + 0)%nat with l in Ha by lia|].
  replace (l + S k)%nat with (S (l + k)) in Ha by lia. simpl in Ha.
  destruct (table_at m d root (l + k) va) eqn:E; [|done]. by eapply IH.
Qed.

Lemma table_at_le m d root l k va a :
  (l ≤ k)%nat → table_at m d root k va = Some a → ∃ b, table_at m d root l va = Some b.
Proof. intros Hl Ha. eapply (table_at_split m d root l (k - l)). by replace (l + (k - l))%nat with k by lia. Qed.

Lemma table_at_page m d root l va a : table_at m d root (S l) va = Some a → 0 ≤ a < 2 ^ 48 ∧ a mod PAGE_SIZE = 0.
Proof.
  simpl. destruct (table_at m d root l va) as [b|]; [|done]. simpl. destruct (pte_table _ _ _); [|done].
  intros [= <-]. apply pte_addr_page.
Qed.

(** The walk reaches the table of each level that exists. *)
Lemma walk_at m d root va l n a :
  table_at m d root l va = Some a → walk m d va root 0 (l + n) = walk m d va a (Z.of_nat l) n.
Proof.
  revert n a. induction l as [|l IH]; intros n a Ha; [by injection Ha as <-|].
  simpl in Ha. destruct (table_at m d root l va) as [b|] eqn:E; [|done]. simpl in Ha.
  destruct (pte_table _ _ _) eqn:Ht; [|done]. injection Ha as <-.
  replace (S l + n)%nat with (l + S n)%nat by lia. rewrite (IH (S n) b) by done. simpl. rewrite Ht.
  rewrite (pte_table_valid _ _ _ Ht). simpl. by replace (Z.of_nat l + 1) with (Z.of_nat (S l)) by lia.
Qed.

Lemma translate_at m d root va l a :
  Z.of_nat l < lvls d → table_at m d root l va = Some a →
  translate m d root va = walk m d va a (Z.of_nat l) (Z.to_nat (lvls d - 1 - Z.of_nat l)).
Proof.
  intros Hl Ha. unfold translate. rewrite <-(walk_at m d root va l _ a Ha). f_equal. lia.
Qed.

(** The walk of the code, along tables that exist. *)
Section code_walk.
  Context (m : memory) (d : page_table_dscr) (root : Z) (Hd : dscr_ok d) (Hroot : 0 ≤ root < 2 ^ 48 ∧ root mod PAGE_SIZE = 0).

Lemma table_addr l va a : table_at m d root l va = Some a → 0 ≤ a < 2 ^ 48 ∧ a mod PAGE_SIZE = 0.
Proof using Hroot. destruct l; [|apply table_at_page]. by intros [= <-]. Qed.

Lemma get_pte_step a l va n :
  0 ≤ a < 2 ^ 48 → Z.of_nat l < lvls d → va_ok d va →
  get_pte_loop m d va a (Z.of_nat l) n =
    match n with O => entry_at d a (Z.of_nat l) va
               | S n => get_pte_loop m d va (pte_addr (m (entry_at d a (Z.of_nat l) va))) (Z.of_nat l + 1) n end.
Proof using Hd Hroot.
  intros Ha Hl Hv.
  pose proof (pfx_mod_bounds d Hd va (Z.of_nat l) ltac:(lia)).
  pose proof (pt_nentries_bounds d Hd (Z.of_nat l) ltac:(lia)).
  assert (a +64 sizeof_pte * signed 32 (u32 (pt_getpteindex_by_va d va (Z.of_nat l))) = entry_at d a (Z.of_nat l) va) as E.
  { rewrite index_by_va_eq by (done || unfold va_ok in *; lia). rewrite (wrap_small 32) by lia.
    unfold signed. change (32 - 1) with 31. zcase. apply wrap_small. unfold sizeof_pte, entry_at. lia. }
  destruct n; cbn [get_pte_loop]; by rewrite E.
Qed.

Lemma get_pte_from l k a b va :
  Z.of_nat (l + k) < lvls d → va_ok d va → table_at m d root l va = Some a → table_at m d root (l + k) va = Some b →
  get_pte_loop m d va a (Z.of_nat l) k = entry_at d b (Z.of_nat (l + k)) va.
Proof using Hd Hroot.
  revert l a. induction k as [|k IH]; intros l a Hl Hv Ha Hb; 
    rewrite get_pte_step by (done || lia || by apply (table_addr _ _ _ Ha)).
  - replace (l + 0)%nat with l in * by lia. congruence.
  - assert (table_at m d root (S l) va = Some (pte_addr (m (entry_at d a (Z.of_nat l) va)))) as Hs.
    { destruct (table_at_le m d root (S l) (l + S k) va b) as [c Hc]; [lia|done|]. rewrite Hc. simpl in Hc.
      rewrite Ha in Hc. simpl in Hc. destruct (pte_table _ _ _); [done|done]. }
    replace (Z.of_nat l + 1) with (Z.of_nat (S l)) by lia. replace (l + S k)%nat with (S l + k)%nat in * by lia.
    by apply IH.
Qed.

(** [pt_get_pte] returns the entry of [va] in the table of its level, when there is one. *)
Lemma pt_get_pte_at l va a :
  Z.of_nat l < lvls d → va_ok d va → table_at m d root l va = Some a →
  pt_get_pte m d root (Z.of_nat l) va = entry_at d a (Z.of_nat l) va.
Proof using Hd Hroot.
  intros Hl Hv Ha. unfold pt_get_pte. rewrite Nat2Z.id. by apply (get_pte_from 0 l root a va).
Qed.

Lemma entry_in_page a l va :
  1 ≤ l < lvls d → 0 ≤ a < 2 ^ 48 → a mod PAGE_SIZE = 0 →
  Z.land (entry_at d a l va) (u64 (Z.lnot (pt_size d l -64 1))) = a ∧
  Z.land (entry_at d a l va) (pt_size d l -64 1) = 8 * (pfx d l va mod pt_nentries d l).
Proof using Hd Hroot.
  intros Hl Ha Hp. rewrite (pt_size_page d Hd) by done.
  pose proof (pfx_mod_bounds d Hd va l ltac:(lia)). pose proof (pt_nentries_512 d Hd l Hl).
  assert (entry_at d a l va mod 2 ^ 12 = 8 * (pfx d l va mod pt_nentries d l)) as E.
  { unfold entry_at. rewrite Z.add_mod by lia. change PAGE_SIZE with (2 ^ 12) in Hp. rewrite Hp, Z.add_0_l.
    rewrite Z.mod_mod by lia. apply Z.mod_small. lia. }
  change (PAGE_SIZE -64 1) with (Z.ones 12). split.
  - apply Z.bits_inj'. intros i Hi. autorewrite with bits.
    destruct (Z.ltb_spec i 12) as [Hi12|Hi12].
    + destruct (Z.ltb_spec i 64); [|lia]. destruct (Z.leb_spec 0 i); [|lia]. simpl. rewrite ?andb_false_r. symmetry. assert (Z.testbit (a mod 2 ^ 12) i = false) as Hb.
      { change (2 ^ 12) with PAGE_SIZE. by rewrite Hp, Z.testbit_0_l. }
      rewrite Z.testbit_mod_pow2 in Hb by lia. by destruct (Z.ltb_spec i 12); [|lia].
    + assert (Z.testbit (entry_at d a l va) i = Z.testbit a i) as ->.
      { replace i with ((i - 12) + 12) by lia. rewrite <-!Z.div_pow2_bits by lia. f_equal.
        unfold entry_at. change PAGE_SIZE with (2 ^ 12) in Hp.
        rewrite (Z.div_mod a (2 ^ 12)) at 1 by lia. rewrite Hp, Z.add_0_r, Z.mul_comm, Z.div_add_l by lia.
        rewrite (Z.div_small (8 * _)) by lia. lia. }
      rewrite andb_false_r. destruct (Z.ltb_spec i 64); simpl; [by rewrite andb_true_r|]. rewrite andb_false_r.
      symmetry. apply (testbit_small 64); [lia|unfold in_word; lia|done].
  - rewrite Z.land_ones by lia. exact E.
Qed.

Lemma pt_get_at l va a :
  1 ≤ Z.of_nat l < lvls d → va_ok d va → table_at m d root l va = Some a →
  pt_get m d root (Z.of_nat l) va = a.
Proof using Hd Hroot.
  intros Hl Hv Ha. unfold pt_get. destruct (Z.eqb_spec (Z.of_nat l) 0); [lia|].
  rewrite (pt_get_pte_at l va a) by (done || lia). apply entry_in_page; [lia|by eapply table_addr..].
Qed.

End code_walk.

(** The tables of a root form a tree: distinct tables do not overlap.  There are no superpages;
    the code never makes one. *)
Record tables_ok (m : memory) (d : page_table_dscr) (root : Z) : Prop := {
  tk_dscr : dscr_ok d;
  tk_root : 0 ≤ root < 2 ^ 48 ∧ root mod PAGE_SIZE = 0 ∧ root mod pt_size d 0 = 0;
  tk_sep : ∀ l l' va va' a a', Z.of_nat l < lvls d → Z.of_nat l' < lvls d → va_ok d va → va_ok d va' →
    table_at m d root l va = Some a → table_at m d root l' va' = Some a' →
    a < a' + pt_size d (Z.of_nat l') → a' < a + pt_size d (Z.of_nat l) →
    l = l' ∧ same_table d (Z.of_nat l) va va';
  tk_blocks : ∀ l va a, Z.of_nat l < lvls d - 1 → va_ok d va → table_at m d root l va = Some a →
    let e := m (entry_at d a (Z.of_nat l) va) in pte_valid e = true → pte_table d e (Z.of_nat l) = true
}.

(** The page [f] is not part of any table. *)
Definition unused (m : memory) (d : page_table_dscr) (root f : Z) : Prop :=
  ∀ l va a, Z.of_nat l < lvls d → va_ok d va → table_at m d root l va = Some a →
    f + PAGE_SIZE ≤ a ∨ a + pt_size d (Z.of_nat l) ≤ f.

Section tree.
  Context (m : memory) (d : page_table_dscr) (root : Z) (Ht : tables_ok m d root).

(** Addresses with the same number share the table of the level below. *)
Lemma table_at_same l va va' :
  Z.of_nat l < lvls d → same_table d (Z.of_nat l) va va' → table_at m d root l va = table_at m d root l va'.
Proof using Ht.
  pose proof (tk_dscr _ _ _ Ht) as Hd. induction l as [|l IH]; intros Hl Hs; [done|].
  destruct Hs as [?|Hs]; [lia|]. replace (Z.of_nat (S l) - 1) with (Z.of_nat l) in Hs by lia. simpl.
  rewrite IH; [|lia|apply same_table_pfx; [done|lia|done]].
  destruct (table_at m d root l va') as [a|]; [|done]. simpl. by rewrite (entry_at_pfx d a _ va va' Hs).
Qed.

Lemma table_at_pfx l va va' :
  Z.of_nat l < lvls d → pfx d (Z.of_nat l) va = pfx d (Z.of_nat l) va' → table_at m d root l va' = table_at m d root l va.
Proof using Ht.
  intros Hl Hp. symmetry. apply table_at_same; [done|]. apply same_table_pfx; [by apply (tk_dscr _ _ _ Ht)|lia|done].
Qed.

(** Entries at the same place are the same entry. *)
Lemma entry_inj l l' va va' a a' :
  Z.of_nat l < lvls d → Z.of_nat l' < lvls d → va_ok d va → va_ok d va' →
  table_at m d root l va = Some a → table_at m d root l' va' = Some a' →
  entry_at d a (Z.of_nat l) va = entry_at d a' (Z.of_nat l') va' →
  l = l' ∧ pfx d (Z.of_nat l) va = pfx d (Z.of_nat l) va'.
Proof using Ht.
  intros Hl Hl' Hv Hv' Ha Ha' E. pose proof (tk_dscr _ _ _ Ht) as Hd.
  pose proof (entry_at_bounds d Hd a (Z.of_nat l) va ltac:(lia)). pose proof (entry_at_bounds d Hd a' (Z.of_nat l') va' ltac:(lia)).
  pose proof (pt_size_eq d Hd (Z.of_nat l) ltac:(lia)). pose proof (pt_size_eq d Hd (Z.of_nat l') ltac:(lia)).
  destruct (tk_sep _ _ _ Ht l l' va va' a a') as [<- Hs]; [done..|lia|lia|]. split; [done|].
  assert (a' = a) as ->. { rewrite (table_at_same l va va') in Ha by done. congruence. }
  apply (same_entry d Hd a); (done || lia).
Qed.

End tree.

(** ** Writing an entry of the last level *)

(** Memory with one entry of a last-level table changed: no table moves, and only the page of that
    entry is translated differently. *)
Section leaf.
  Context (m m' : memory) (d : page_table_dscr) (root : Z) (Ht : tables_ok m d root).
  Context (va a : Z) (l : nat) (Hl : Z.of_nat l = lvls d - 1) (Hv : va_ok d va) (Ha : table_at m d root l va = Some a).
  Context (v : Z).
  Context (Hm : ∀ x, m' x = if decide (entry_at d a (Z.of_nat l) va = x) then v else m x).

Lemma leaf_entry j b va' :
  Z.of_nat j < lvls d → va_ok d va' → table_at m d root j va' = Some b →
  (j ≠ l ∨ pfx d (Z.of_nat l) va ≠ pfx d (Z.of_nat l) va') →
  m' (entry_at d b (Z.of_nat j) va') = m (entry_at d b (Z.of_nat j) va').
Proof using Ht Hl Hv Ha Hm.
  intros Hj Hv' Hb Hne. rewrite Hm. case_decide as E; [exfalso|done].
  destruct (entry_inj m d root Ht l j va va' a b) as [-> E2]; (done || lia || naive_solver).
Qed.

Lemma leaf_table_at k va' : Z.of_nat k < lvls d → va_ok d va' → table_at m' d root k va' = table_at m d root k va'.
Proof using Ht Hl Hv Ha Hm.
  intros Hk Hv'. apply table_at_ext. intros j b Hj Hb. apply leaf_entry; (done || lia || (left; lia)).
Qed.

Lemma leaf_tables_ok : tables_ok m' d root.
Proof using Ht Hl Hv Ha Hm.
  pose proof Ht as [Hd Hr Hsep Hbl]. constructor; [done|done| |].
  - intros k k' va1 va2 b b' Hk Hk' Hv1 Hv2. rewrite !leaf_table_at by done. by apply Hsep.
  - intros k va' b Hk Hv'. rewrite leaf_table_at by (done || lia). intros Hb.
    rewrite leaf_entry by (done || lia || (left; lia)). by apply Hbl.
Qed.

Lemma leaf_unused f : unused m d root f → unused m' d root f.
Proof using Ht Hl Hv Ha Hm. intros Hf k va' b Hk Hv'. rewrite leaf_table_at by done. by apply Hf. Qed.

Lemma leaf_translate_other va' :
  va_ok d va' → pfx d (Z.of_nat l) va ≠ pfx d (Z.of_nat l) va' → translate m' d root va' = translate m d root va'.
Proof using Ht Hl Hv Ha Hm.
  intros Hv' Hne. unfold translate. apply (walk_ext m m' d va' root 0 _ root); [|done].
  intros j b Hj Hb. apply leaf_entry; [lia|done|done|by right].
Qed.

Lemma leaf_translate va' :
  va_ok d va' → pfx d (Z.of_nat l) va = pfx d (Z.of_nat l) va' →
  translate m' d root va' = walk m' d va' a (Z.of_nat l) 0 ∧ m' (entry_at d a (Z.of_nat l) va') = v.
Proof using Ht Hl Hv Ha Hm.
  intros Hv' Hp. pose proof (tk_dscr _ _ _ Ht) as Hd. split.
  - rewrite (translate_at m' d root va' l a); [by replace (Z.to_nat _) with O by lia|lia|].
    rewrite leaf_table_at by (done || lia). rewrite <-Ha. symmetry.
    apply (table_at_same m d root Ht); [lia|]. apply same_table_pfx; [done|lia|done].
  - rewrite Hm. case_decide as E; [done|]. destruct E. by apply entry_at_pfx.
Qed.

(** A page entry maps the page to the address and attributes it holds; an invalid one unmaps it. *)
Lemma leaf_translate_page va' paddr flags :
  v = pte_set paddr PTE_PAGE flags → 0 ≤ paddr < 2 ^ 48 → paddr mod PAGE_SIZE = 0 → pt_lvl_terminal d (lvls d - 1) = true →
  va_ok d va' → pfx d (Z.of_nat l) va = pfx d (Z.of_nat l) va' →
  translate m' d root va' = Some (paddr + va' mod PAGE_SIZE, Z.land (Z.lor PTE_PAGE flags) PTE_FLAGS_MSK).
Proof using Ht Hl Hv Ha Hm.
  intros Ev Hp Hp2 Hterm Hv' Hpf. destruct (leaf_translate va' Hv' Hpf) as [-> E]. simpl. rewrite E, Ev.
  pose proof (tk_dscr _ _ _ Ht) as Hd.
  rewrite (type_3_valid (pte_set _ _ _)) by (by rewrite pte_type_set; apply lor_3_type). simpl.
  unfold pte_table, pte_page. rewrite Hl, Z.eqb_refl, Hterm. simpl.
  unfold PTE_TYPE_MSK, PTE_PAGE. rewrite pte_type_set, lor_3_type. simpl.
  rewrite pte_addr_set, page_addr_msk, pte_flags_set by done. by rewrite off_last by done.
Qed.

Lemma leaf_translate_none va' :
  pte_valid v = false → va_ok d va' → pfx d (Z.of_nat l) va = pfx d (Z.of_nat l) va' →
  translate m' d root va' = None.
Proof using Ht Hl Hv Ha Hm.
  intros Ev Hv' Hpf. destruct (leaf_translate va' Hv' Hpf) as [-> E]. simpl. by rewrite E, Ev.
Qed.

End leaf.

(** ** Adding a table *)

(** Memory with the invalid entry of [va] at level [l] pointing to a fresh page [f] whose entries
    are all [w], which is invalid: one table more, and no translation changes. *)
Section grow.
  Context (m m' : memory) (d : page_table_dscr) (root : Z) (Ht : tables_ok m d root).
  Context (va a : Z) (l : nat) (Hl : Z.of_nat l < lvls d - 1) (Hv : va_ok d va) (Ha : table_at m d root l va = Some a).
  Context (Hinv : pte_valid (m (entry_at d a (Z.of_nat l) va)) = false).
  Context (f v w : Z) (Hf : 0 ≤ f < 2 ^ 48) (Hfp : f mod PAGE_SIZE = 0) (Hfree : unused m d root f).
  Context (Hvt : pte_table d v (Z.of_nat l) = true) (Hva : pte_addr v = f) (Hw : pte_valid w = false).
  Context (Hnew : ∀ j, 0 ≤ j < 512 → m' (f + 8 * j) = w).
  Context (Hupd : m' (entry_at d a (Z.of_nat l) va) = v).
  Context (Hold : ∀ x, x ≠ entry_at d a (Z.of_nat l) va → x < f ∨ f + PAGE_SIZE ≤ x → m' x = m x).

Lemma grow_entry j b va' :
  Z.of_nat j < lvls d → va_ok d va' → table_at m d root j va' = Some b →
  (j ≠ l ∨ pfx d (Z.of_nat l) va ≠ pfx d (Z.of_nat l) va') →
  m' (entry_at d b (Z.of_nat j) va') = m (entry_at d b (Z.of_nat j) va').
Proof using All.
  intros Hj Hv' Hb Hne. pose proof (tk_dscr _ _ _ Ht) as Hd. apply Hold.
  - intros E. destruct (entry_inj m d root Ht l j va va' a b) as [-> E2]; (done || lia || naive_solver).
  - pose proof (entry_at_bounds d Hd b (Z.of_nat j) va' ltac:(lia)). pose proof (Hfree j va' b Hj Hv' Hb) as Hu.
    rewrite (pt_size_eq d Hd) in Hu by lia. lia.
Qed.

Lemma new_entry j va' : 1 ≤ Z.of_nat j < lvls d → m' (entry_at d f (Z.of_nat j) va') = w.
Proof using All.
  intros Hj. pose proof (tk_dscr _ _ _ Ht) as Hd. pose proof (pfx_mod_bounds d Hd va' (Z.of_nat j) ltac:(lia)).
  unfold entry_at. rewrite (pt_nentries_512 d Hd) in * by lia. by apply Hnew.
Qed.

Lemma invalid_not_table e k : pte_valid e = false → pte_table d e k = false.
Proof. clear. intros He. destruct (pte_table d e k) eqn:E; [|done]. apply pte_table_valid in E. congruence. Qed.

Lemma grow_table_other k va' :
  Z.of_nat k < lvls d → va_ok d va' → (k ≤ l)%nat ∨ pfx d (Z.of_nat l) va ≠ pfx d (Z.of_nat l) va' →
  table_at m' d root k va' = table_at m d root k va'.
Proof using All.
  intros Hk Hv' Hc. apply table_at_ext. intros j b Hj Hb. apply grow_entry; [lia|done|done|].
  destruct Hc as [?|?]; [left; lia|by right].
Qed.

Lemma same_pfx_table va' : va_ok d va' → pfx d (Z.of_nat l) va = pfx d (Z.of_nat l) va' → table_at m d root l va' = Some a.
Proof using All.
  intros Hv' Hp. rewrite <-Ha. apply (table_at_pfx m d root Ht); [lia|done].
Qed.

Lemma grow_table_new va' :
  va_ok d va' → pfx d (Z.of_nat l) va = pfx d (Z.of_nat l) va' → table_at m' d root (S l) va' = Some f.
Proof using All.
  intros Hv' Hp. simpl. rewrite grow_table_other by (done || lia || (left; lia)).
  rewrite (same_pfx_table va') by done. simpl. rewrite <-(entry_at_pfx d a _ va va' Hp), Hupd, Hvt. by rewrite Hva.
Qed.

Lemma grow_table_below k va' :
  Z.of_nat k < lvls d → (S l < k)%nat → va_ok d va' → pfx d (Z.of_nat l) va = pfx d (Z.of_nat l) va' →
  table_at m' d root k va' = None ∧ table_at m d root k va' = None.
Proof using All.
  intros Hk Hlk Hv' Hp. split.
  - destruct (table_at m' d root k va') as [c|] eqn:E; [|done]. exfalso.
    apply (table_at_le m' d root (S (S l)) k va' c) in E as [b Eb]; [|lia].
    rewrite table_at_S in Eb. rewrite grow_table_new in Eb by done. cbn [mbind option_bind] in Eb. rewrite new_entry in Eb by lia.
    by rewrite invalid_not_table in Eb.
  - destruct (table_at m d root k va') as [c|] eqn:E; [|done]. exfalso.
    apply (table_at_le m d root (S l) k va' c) in E as [b Eb]; [|lia]. simpl in Eb.
    rewrite (same_pfx_table va') in Eb by done. simpl in Eb.
    rewrite <-(entry_at_pfx d a _ va va' Hp), invalid_not_table in Eb by done. done.
Qed.

(** Every table of the new memory is an old one or the new page. *)
Lemma grow_tables k va' b :
  Z.of_nat k < lvls d → va_ok d va' → table_at m' d root k va' = Some b →
  (table_at m d root k va' = Some b ∧ (k ≠ l ∨ pfx d (Z.of_nat l) va ≠ pfx d (Z.of_nat l) va' ∨ b = a)) ∨
  (k = S l ∧ b = f ∧ pfx d (Z.of_nat l) va = pfx d (Z.of_nat l) va').
Proof using All.
  intros Hk Hv' Hb. destruct (decide (pfx d (Z.of_nat l) va = pfx d (Z.of_nat l) va')) as [Hp|Hp].
  - destruct (decide (k ≤ l)%nat) as [|].
    + left. rewrite grow_table_other in Hb by (done || by left). split; [done|].
      destruct (decide (k = l)) as [->|]; [|by left]. right. right. rewrite (same_pfx_table va') in Hb by done. congruence.
    + right. destruct (decide (k = S l)) as [->|].
      * rewrite grow_table_new in Hb by done. naive_solver.
      * destruct (grow_table_below k va') as [E _]; [done|lia|done|done|congruence].
  - left. rewrite grow_table_other in Hb by (done || by right). auto.
Qed.

Lemma grow_tables_ok : tables_ok m' d root.
Proof using All.
  pose proof Ht as [Hd Hr Hsep Hbl]. constructor; [done|done| |].
  - intros k k' va1 va2 b b' Hk Hk' Hv1 Hv2 Hb Hb' Ho Ho'.
    pose proof (pt_size_page d Hd (Z.of_nat (S l)) ltac:(lia)) as Hs.
    destruct (grow_tables k va1 b Hk Hv1 Hb) as [[Hb1 _]|(-> & -> & Hp1)],
             (grow_tables k' va2 b' Hk' Hv2 Hb') as [[Hb2 _]|(-> & -> & Hp2)].
    + by eapply Hsep.
    + destruct (Hfree k va1 b Hk Hv1 Hb1); lia.
    + destruct (Hfree k' va2 b' Hk' Hv2 Hb2); lia.
    + split; [done|]. right. replace (Z.of_nat (S l) - 1) with (Z.of_nat l) by lia. congruence.
  - intros k va' b Hk Hv' Hb. cbv zeta. destruct (grow_tables k va' b) as [[Hb1 Hc]|(-> & -> & Hp)]; [lia|done|done| |].
    + destruct (decide (k = l ∧ pfx d (Z.of_nat l) va = pfx d (Z.of_nat l) va')) as [[-> Hp]|Hne].
      * assert (b = a) as ->. { rewrite (same_pfx_table va') in Hb1 by done. congruence. }
        by rewrite <-(entry_at_pfx d a _ va va' Hp), Hupd.
      * rewrite grow_entry; [by apply Hbl|lia|done|done|]. destruct (decide (k = l)); naive_solver.
    + rewrite new_entry by lia. by rewrite Hw.
Qed.

Lemma grow_unused g :
  g mod PAGE_SIZE = 0 → g ≠ f → unused m d root g → unused m' d root g.
Proof using All.
  intros Hg Hne Hu k va' b Hk Hv' Hb. destruct (grow_tables k va' b) as [[Hb1 _]|(-> & -> & _)]; [done..|by apply (Hu k va')|].
  rewrite (pt_size_page d (tk_dscr _ _ _ Ht)) by lia. unfold PAGE_SIZE in *. dlia.
Qed.

Lemma grow_translate va' : va_ok d va' → translate m' d root va' = translate m d root va'.
Proof using All.
  intros Hv'. destruct (decide (pfx d (Z.of_nat l) va = pfx d (Z.of_nat l) va')) as [Hp|Hp].
  - pose proof (same_pfx_table va' Hv' Hp) as Ea. pose proof (grow_table_new va' Hv' Hp) as Ef.
    rewrite (translate_at m' d root va' (S l) f) by (done || lia). rewrite (translate_at m d root va' l a) by (done || lia).
    replace (Z.to_nat (lvls d - 1 - Z.of_nat l)) with (S (Z.to_nat (lvls d - 1 - Z.of_nat (S l)))) by lia.
    assert (∀ n, walk m' d va' f (Z.of_nat (S l)) n = None) as ->.
    { intros n. destruct n; cbn [walk]; rewrite new_entry by lia; by rewrite Hw. }
    cbn [walk]. rewrite <-(entry_at_pfx d a _ va va' Hp). by rewrite Hinv.
  - unfold translate. apply (walk_ext m m' d va' root 0 _ root); [|done].
    intros j b Hj Hb. pose proof (do_lvls d (tk_dscr _ _ _ Ht)). apply grow_entry; [lia|done|done|by right].
Qed.

End grow.
