(* ===== verification/Mmu.v ===== *)
(** * Address spaces: src/core/mmu.c, src/core/inc/mmu.h, src/core/inc/tlb.h,
    src/arch/aarch64/inc/arch_tlb.h

    The functions are programs over [mmu]: physical memory, the page pool, the two descriptors the
    architecture shares between address spaces, the address space the call is about and the TLB
    maintenance the CPU has issued.  The loops over a range of addresses run on fuel; the theorems
    on them (file [MmuMap]) show what fuel is enough. *)
From S2P Require Import Prelude Util Bits Bitmap Spinlock PagePool PageTable.

(** ** Data *)

Inductive as_type_t := AS_HYP | AS_VM | AS_HYP_CPY.
#[export] Instance as_type_eq_dec : EqDecision as_type_t.
Proof. solve_decision. Defined.

(** The pointer [pt.dscr]: one of the two descriptors. *)
Inductive dscr_ref := hyp_pt_dscr | vm_pt_dscr.

(** [pt.arch], the data of the recursive mapping, is never written: the body of
    [pt_set_recursive] is commented out. *)
Record addr_space := {
  pt_root : Z;
  pt_dscr : dscr_ref;
  as_type : as_type_t;
  asid : Z;
  as_lock : spinlock_t
}.
#[export] Instance eta_addr_space : Eta addr_space := λ a,
  Build_addr_space (pt_root a) (pt_dscr a) (as_type a) (asid a) (as_lock a).

(** TLB maintenance instructions, with the VMID of VTTBR_EL2 they are executed under. *)
Inductive tlb_op :=
| tlbi_vae2is (page : Z)
| tlbi_alle2is
| tlbi_ipas2e1is (vmid page : Z)
| tlbi_vmalls12e1is (vmid : Z).

Record mmu := {
  phys : memory;
  pool : page_pool;
  hyp_dscr : page_table_dscr;
  vm_dscr : page_table_dscr;
  space : addr_space;
  cur_as : as_type_t * Z;
  vttbr : Z;
  tlb : list tlb_op
}.
#[export] Instance eta_mmu : Eta mmu := λ s,
  Build_mmu (phys s) (pool s) (hyp_dscr s) (vm_dscr s) (space s) (cur_as s) (vttbr s) (tlb s).

Definition MAX_VA : Z := SIZE_MAX.
Definition INVALID_VA : Z := MAX_VA.

Definition dscr_of (s : mmu) (r : dscr_ref) : page_table_dscr :=
  match r with hyp_pt_dscr => hyp_dscr s | vm_pt_dscr => vm_dscr s end.
Definition cur_dscr (s : mmu) : page_table_dscr := dscr_of s (pt_dscr (space s)).
Definition cur_root (s : mmu) : Z := pt_root (space s).

(** ** Access to memory, the pool and the lock of the address space *)

Definition load (p : Z) : prog mmu Z := gets (λ s, phys s p).
Definition store (p v : Z) : prog mmu unit := modify (λ s, s <| phys ::= <[p := v]> |>).
Definition on_pages {A} (m : prog page_pool A) : prog mmu A := lift_prog pool (λ p s, s <| pool := p |>) m.

(** A search of the pool for pages ends after a round per page. *)
Definition alloc_fuel (s : mmu) : nat := S (Z.to_nat (nr_pages (pool s))).

Definition alloc_pages (n : Z) (aligned : bool) : prog mmu ppages :=
  fuel ← gets alloc_fuel; on_pages (mem_alloc_ppages n aligned fuel).

Definition lock_as : prog mmu unit :=
  lift_prog space (λ a s, s <| space := a |>) (acquire as_lock).
Definition unlock_as : prog mmu unit :=
  lift_prog space (λ a s, s <| space := a |>) (release as_lock).

(** ** Tables *)

Definition pte_allocable (d : page_table_dscr) (pte lvl left addr : Z) : bool :=
  (lvl =? lvls d - 1) ||
  (pt_lvl_terminal d lvl && negb (pte_valid pte) && (pt_lvlsize d lvl <=? left *64 PAGE_SIZE) &&
   (addr mod pt_lvlsize d lvl =? 0)).

Fixpoint fill_pt (pt dflt i : Z) (n : nat) : prog mmu unit :=
  match n with
  | O => mret tt
  | S n => store (pt + sizeof_pte * i) dflt;; fill_pt pt dflt (i + 1) n
  end.

Definition mem_alloc_pt (parent lvl addr : Z) : prog mmu (option Z) :=
  d ← gets cur_dscr;
  let ptsize := NUM_PAGES (pt_size d (lvl + 1)) in
  ppage ← alloc_pages ptsize (1 <? ptsize);
  if pp_nr_pages ppage =? 0 then mret None
  else
    pv ← load parent;
    let pte_dflt_val := Z.lor PTE_INVALID (Z.land pv PTE_RSW_MSK) in
    store parent (pte_set (pp_base ppage) PTE_TABLE PTE_HYP_FLAGS);;
    temp_pt ← gets (λ s, pt_get (phys s) d (cur_root s) (lvl + 1) addr);
    fill_pt temp_pt pte_dflt_val 0 (Z.to_nat (pt_nentries d (lvl + 1)));;
    mret (Some temp_pt).

Definition pt_page_type (d : page_table_dscr) (lvl : Z) : Z :=
  if lvl =? lvls d - 1 then PTE_PAGE else PTE_SUPERPAGE.

(** The loop over the new table of [mem_expand_pte]. *)
Fixpoint expand_loop (vld rsv : bool) (type flags lvlsz pte paddr : Z) (n : nat) : prog mmu unit :=
  match n with
  | O => mret tt
  | S n =>
      (if vld then store pte (pte_set paddr type flags)
       else if rsv then v ← load pte; store pte (pte_set_rsw v PTE_RSW_RSRV)
       else mret tt);;
      expand_loop vld rsv type flags lvlsz (pte + sizeof_pte) (paddr +64 lvlsz) n
  end.

Definition mem_expand_pte (va lvl : Z) : prog mmu unit :=
  d ← gets cur_dscr;
  if lvls d - 1 <=? lvl then mret tt
  else
    pte ← gets (λ s, pt_get_pte (phys s) d (cur_root s) lvl va);
    pte_val ← load pte;
    if negb (pte =? 0) && negb (pte_table d pte_val lvl) then
      let rsv := pte_check_rsw pte_val PTE_RSW_RSRV in
      let vld := pte_valid pte_val in
      r ← mem_alloc_pt pte lvl va;
      if vld || rsv then
        pte ← deref r;
        let lvl := lvl + 1 in
        let paddr := pte_addr pte_val in
        let entry := pt_getpteindex d pte lvl in
        let nentries := pt_nentries d lvl in
        let lvlsz := pt_lvlsize d lvl in
        let type := pt_page_type d lvl in
        ty ← gets (λ s, as_type (space s));
        let flags := if decide (ty = AS_HYP) then PTE_HYP_FLAGS else PTE_VM_FLAGS in
        expand_loop vld rsv type flags lvlsz pte paddr (Z.to_nat (nentries - entry))
      else mret tt
    else mret tt.

(** The addresses of one level, [while (vaddr < (va + length))]. *)
Fixpoint inflate_range (lvl lvlsz vaddr top : Z) (fuel : nat) : prog mmu unit :=
  match fuel with
  | O => halt FSpin
  | S fuel =>
      if vaddr <? top then
        mem_expand_pte vaddr lvl;;
        inflate_range lvl lvlsz (vaddr +64 lvlsz) top fuel
      else mret tt
  end.

(** The levels [lvl .. lvl + n - 1]. *)
Fixpoint inflate_levels (va length lvl : Z) (n : nat) : prog mmu unit :=
  match n with
  | O => mret tt
  | S n =>
      d ← gets cur_dscr;
      inflate_range lvl (pt_lvlsize d lvl) va (va +64 length) (S (Z.to_nat (length / PAGE_SIZE)));;
      inflate_levels va length (lvl + 1) n
  end.

Definition mem_inflate_pt (va length : Z) : prog mmu unit :=
  d ← gets cur_dscr;
  inflate_levels va length 0 (Z.to_nat (lvls d - 1)).

(** ** Mapping *)

Fixpoint map_loop (d : page_table_dscr) (base flags vaddr i : Z) (n : nat) : prog mmu unit :=
  match n with
  | O => mret tt
  | S n =>
      pte ← gets (λ s, pt_get_pte (phys s) d (cur_root s) (lvls d - 1) vaddr);
      let paddr := base +64 (i *64 PAGE_SIZE) in
      store pte (pte_set paddr PTE_PAGE flags);;
      map_loop d base flags (vaddr +64 PAGE_SIZE) (i + 1) n
  end.

Definition page_down (va : Z) : Z := Z.land va (u64 (Z.lnot (PAGE_SIZE - 1))).

Definition mem_map (va : Z) (pp : option ppages) (n flags : Z) : prog mmu bool :=
  let vaddr := page_down va in
  lock_as;;
  pp ← match pp with
       | Some pp => mret pp
       | None =>
           pages ← alloc_pages n false;
           if pp_nr_pages pages <? n then halt FError else mret pages
       end;
  mem_inflate_pt vaddr (n *64 PAGE_SIZE);;
  d ← gets cur_dscr;
  map_loop d (pp_base pp) flags vaddr 0 (Z.to_nat (pp_nr_pages pp));;
  unlock_as;;
  mret true.

(** ** Setting up an address space *)

(** [memset(root, 0, n * PAGE_SIZE)], word by word. *)
Definition zero_pages (a n : Z) : prog mmu unit :=
  modify (λ s, s <| phys ::= λ m x, if (a <=? x) && (x <? a + n * PAGE_SIZE) then 0 else m x |>).

(** [as_init] with [as_arch_init], which does nothing. *)
Definition as_init (type : as_type_t) (id : Z) (root_pt : option Z) : prog mmu unit :=
  modify (λ s, s <| space ::= λ a, a <| as_type := type |> |>);;
  modify (λ s, s <| space ::= λ a,
    a <| pt_dscr := match type with AS_HYP | AS_HYP_CPY => hyp_pt_dscr | AS_VM => vm_pt_dscr end |> |>);;
  modify (λ s, s <| space ::= λ a, a <| as_lock := SPINLOCK_INITVAL |> <| asid := id |> |>);;
  root ← match root_pt with
         | Some r => mret r
         | None =>
             d ← gets cur_dscr;
             let n := NUM_PAGES (pt_size d 0) in
             pages ← alloc_pages n true;
             zero_pages (pp_base pages) n;;
             mret (pp_base pages)
         end;
  modify (λ s, s <| space ::= λ a, a <| pt_root := root |> |>).

(** ** Allocating virtual pages *)

Record vsearch := { v_lvl : Z; v_addr : Z; v_count : Z; v_vpage : Z; v_failed : bool }.
#[export] Instance eta_vsearch : Eta vsearch := λ v,
  Build_vsearch (v_lvl v) (v_addr v) (v_count v) (v_vpage v) (v_failed v).

(** What one entry does to the search, up to the test for a table. *)
Definition visit_entry (d : page_table_dscr) (at_ n pte : Z) (v : vsearch) : prog mmu vsearch :=
  e ← load pte;
  let lvl := v_lvl v in
  if pte_check_rsw e PTE_RSW_RSRV || (pte_valid e && negb (pte_table d e lvl)) then
    let v := v <| v_count := 0 |> <| v_vpage := INVALID_VA |> in
    mret (if at_ =? INVALID_VA then v else v <| v_failed := true |>)
  else if negb (pte_valid e) then
    if pte_allocable d e lvl (n - v_count v) (v_addr v) then
      let v := if v_count v =? 0 then v <| v_vpage := v_addr v |> else v in
      mret (v <| v_count ::= λ c, c +64 pt_lvlsize d lvl / PAGE_SIZE |>)
    else
      r ← mem_alloc_pt pte lvl (v_addr v);
      if r is None then halt FError else mret v
  else mret v.

(** The inner loop, over the rest of a table. *)
Fixpoint vpage_table (d : page_table_dscr) (at_ n nentries lvlsze pte entry : Z) (v : vsearch) (fuel : nat) : prog mmu vsearch :=
  match fuel with
  | O => halt FSpin
  | S fuel =>
      if (entry <? nentries) && (v_count v <? n) && negb (v_failed v) then
        v ← visit_entry d at_ n pte v;
        if v_failed v then mret v
        else
          e ← load pte;
          if pte_table d e (v_lvl v) then mret (v <| v_lvl ::= λ l, l + 1 |>)
          else
            let v := v <| v_addr ::= λ a, a +64 lvlsze |> in
            if nentries <=? entry + 1 then mret (v <| v_lvl := 0 |>)
            else vpage_table d at_ n nentries lvlsze (pte + sizeof_pte) (entry + 1) v fuel
      else mret v
  end.

Fixpoint vpage_search (d : page_table_dscr) (at_ n top : Z) (v : vsearch) (fuel : nat) : prog mmu vsearch :=
  match fuel with
  | O => halt FSpin
  | S fuel =>
      if (v_count v <? n) && negb (v_failed v) then
        let addr := v_addr v in
        let full_as := (addr =? 0) && (top =? MAX_VA) in
        if negb full_as && (((top +64 1) -64 addr) / PAGE_SIZE <? n)
        then mret (v <| v_vpage := INVALID_VA |> <| v_failed := true |>)
        else
          pte ← gets (λ s, pt_get_pte (phys s) d (cur_root s) (v_lvl v) addr);
          let entry := pt_getpteindex d pte (v_lvl v) in
          let nentries := pt_nentries d (v_lvl v) in
          let lvlsze := pt_lvlsize d (v_lvl v) in
          v ← vpage_table d at_ n nentries lvlsze pte entry v (S (Z.to_nat nentries));
          vpage_search d at_ n top v fuel
      else mret v
  end.

(** The level whose entry [addr] is reserved at: the first invalid one on the way down. *)
Fixpoint reserve_level (m : memory) (d : page_table_dscr) (root addr pte lvl : Z) (n : nat) : Z * Z :=
  match n with
  | O => (pte, lvl)
  | S n =>
      let pte := pt_get_pte m d root lvl addr in
      if negb (pte_valid (m pte)) then (pte, lvl) else reserve_level m d root addr pte (lvl + 1) n
  end.

Fixpoint reserve_loop (d : page_table_dscr) (n count addr pte : Z) (fuel : nat) : prog mmu unit :=
  match fuel with
  | O => halt FSpin
  | S fuel =>
      if count <? n then
        r ← gets (λ s, reserve_level (phys s) d (cur_root s) addr pte 0 (Z.to_nat (lvls d)));
        e ← load r.1;
        store r.1 (pte_set_rsw e PTE_RSW_RSRV);;
        reserve_loop d n (count +64 pt_lvlsize d r.2 / PAGE_SIZE) (addr +64 pt_lvlsize d r.2) r.1 fuel
      else mret tt
  end.

(** [fuel] bounds the tables the search visits. *)
Definition mem_alloc_vpage (at_ n : Z) (fuel : nat) : prog mmu Z :=
  let addr := if negb (at_ =? INVALID_VA) then at_ else 0 in
  let top := MAX_VA in
  if (top <? addr) || negb (IS_ALIGNED addr PAGE_SIZE) then mret INVALID_VA
  else
    lock_as;;
    d ← gets cur_dscr;
    v ← vpage_search d at_ n top
          {| v_lvl := 0; v_addr := addr; v_count := 0; v_vpage := INVALID_VA; v_failed := false |} fuel;
    (if negb (v_vpage v =? INVALID_VA) && negb (v_failed v)
     then reserve_loop d n 0 (v_vpage v) 0 (S (Z.to_nat n)) else mret tt);;
    unlock_as;;
    mret (v_vpage v).

Definition mem_alloc_map (page : option ppages) (at_ n flags : Z) (fuel : nat) : prog mmu Z :=
  address ← mem_alloc_vpage at_ n fuel;
  (if negb (address =? INVALID_VA) then mem_map address page n flags;; mret tt else mret tt);;
  mret address.

Definition mem_alloc_map_dev (at_ pa n : Z) (fuel : nat) : prog mmu Z :=
  address ← mem_alloc_vpage at_ n fuel;
  (if negb (address =? INVALID_VA) then
     let pages := mem_ppages_get pa n in
     ty ← gets (λ s, as_type (space s));
     let flags := if decide (ty = AS_HYP) then PTE_HYP_DEV_FLAGS else PTE_VM_DEV_FLAGS in
     mem_map address (Some pages) n flags;; mret tt
   else mret tt);;
  mret address.

(** ** TLB maintenance *)

Definition VTTBR_VMID_OFF : Z := 48.
Definition VTTBR_VMID_LEN : Z := 8.
Definition VTTBR_VMID_MSK : Z := BIT64_MASK VTTBR_VMID_OFF VTTBR_VMID_LEN.

Definition tlbi (op : Z → tlb_op) : prog mmu unit :=
  modify (λ s, s <| tlb ::= cons (op (bit_extract 64 (vttbr s) VTTBR_VMID_OFF VTTBR_VMID_LEN)) |>).

Definition tlb_hyp_inv_va (va : Z) : prog mmu unit := tlbi (λ _, tlbi_vae2is (Z.shiftr va 12)).
Definition tlb_hyp_inv_all : prog mmu unit := tlbi (λ _, tlbi_alle2is).

(** The bodies of [tlb_vm_inv_va] and [tlb_vm_inv_all] around the instruction [op].  Both writes of
    VTTBR_EL2 write the VMID; the old value is not put back. *)
Definition with_vmid (vmid : Z) (op : prog mmu unit) : prog mmu unit :=
  v ← gets vttbr;
  let switch_vmid := negb (bit_extract 64 v VTTBR_VMID_OFF VTTBR_VMID_LEN =? vmid) in
  let w := Z.land (u64 (Z.shiftl vmid VTTBR_VMID_OFF)) VTTBR_VMID_MSK in
  (if switch_vmid then modify (λ s, s <| vttbr := w |>) else mret tt);;
  op;;
  (if switch_vmid then modify (λ s, s <| vttbr := w |>) else mret tt).

Definition tlb_vm_inv_va (vmid va : Z) : prog mmu unit :=
  with_vmid vmid (tlbi (λ v, tlbi_ipas2e1is v (Z.shiftr va 12))).
Definition tlb_vm_inv_all (vmid : Z) : prog mmu unit := with_vmid vmid (tlbi tlbi_vmalls12e1is).

Definition tlb_inv_va (as_ : as_type_t * Z) (va : Z) : prog mmu unit :=
  match as_.1 with
  | AS_HYP => tlb_hyp_inv_va va
  | AS_VM => tlb_vm_inv_va as_.2 va
  | AS_HYP_CPY => mret tt
  end.

Definition tlb_inv_all (as_ : as_type_t * Z) : prog mmu unit :=
  match as_.1 with
  | AS_HYP => tlb_hyp_inv_all
  | AS_VM => tlb_vm_inv_all as_.2
  | AS_HYP_CPY => mret tt
  end.

(** ** Unmapping *)

(** The inner loop of [mem_unmap] over the entries of one table, from [pte]; it returns the level,
    the entry and the address it stops at. *)
Fixpoint unmap_table (d : page_table_dscr) (free_ppages : bool) (nentries lvlsz top lvl pte entry vaddr : Z) (fuel : nat) :
    prog mmu (Z * Z * Z) :=
  match fuel with
  | O => halt FSpin
  | S fuel =>
      if (entry <? nentries) && (vaddr <? top) then
        e ← load pte;
        if negb (pte_table d e lvl) then
          let vpage_base := Z.land vaddr (u64 (Z.lnot (lvlsz -64 1))) in
          if (vpage_base <? vaddr) || (top <? vpage_base +64 lvlsz) then
            mem_expand_pte vaddr lvl;; mret (lvl + 1, entry, vaddr)
          else
            (if free_ppages then
               on_pages (PagePool.mem_free_ppages (mem_ppages_get (pte_addr e) (lvlsz / PAGE_SIZE)))
             else mret tt);;
            store pte 0;;
            cur ← gets cur_as;
            tlb_inv_va cur vaddr;;
            unmap_table d free_ppages nentries lvlsz top lvl (pte + sizeof_pte) (entry + 1) (vaddr +64 lvlsz) fuel
        else mret (lvl, entry, vaddr)
      else mret (lvl, entry, vaddr)
  end.

Fixpoint unmap_loop (d : page_table_dscr) (free_ppages : bool) (top lvl vaddr : Z) (fuel : nat) : prog mmu unit :=
  match fuel with
  | O => halt FSpin
  | S fuel =>
      if vaddr <? top then
        pte ← gets (λ s, pt_get_pte (phys s) d (cur_root s) lvl vaddr);
        if pte =? 0 then halt FError
        else
          e ← load pte;
          if negb (pte_valid e) then unmap_loop d free_ppages top lvl (vaddr +64 pt_lvlsize d lvl) fuel
          else if pte_table d e lvl then unmap_loop d free_ppages top (lvl + 1) vaddr fuel
          else
            let entry := pt_getpteindex d pte lvl in
            let nentries := pt_nentries d lvl in
            let lvlsz := pt_lvlsize d lvl in
            r ← unmap_table d free_ppages nentries lvlsz top lvl pte entry vaddr (S (Z.to_nat nentries));
            let '(lvl, entry, vaddr) := r in
            let lvl := if entry =? nentries then lvl -64 1 else lvl in
            unmap_loop d free_ppages top lvl vaddr fuel
      else mret tt
  end.

Definition mem_unmap (at_ num_pages : Z) (free_ppages : bool) (fuel : nat) : prog mmu unit :=
  let vaddr := at_ in
  let top := at_ +64 (num_pages *64 PAGE_SIZE) in
  lock_as;;
  d ← gets cur_dscr;
  unmap_loop d free_ppages top 0 vaddr fuel;;
  unlock_as.
