(* ===== verification/MmuMap.v ===== *)
(** * Mapping memory: the correctness of src/core/mmu.c

    [space_ok] is the invariant of an address space and [pages_ready k] says that the pool has [k]
    pages after the last allocation, none of them part of a table.  [grows] relates the states
    before and after page tables are added: no translation changes.  The theorems at the end say
    what [mem_map], [mem_alloc_map] and [mem_unmap] do to the translation of every address, and
    what they leave alone in the memory of other address spaces. *)
From S2P Require Import Prelude Util Bits Bitmap Spinlock PagePool PageTable Mmu.

(** ** Invariants *)

Definition tree (s : mmu) (l : nat) (va : Z) : option Z := table_at (phys s) (cur_dscr s) (cur_root s) l va.
Definition maps (s : mmu) (va : Z) : option (Z * Z) := translate (phys s) (cur_dscr s) (cur_root s) va.

Record space_ok (s : mmu) : Prop := {
  so_tables : tables_ok (phys s) (cur_dscr s) (cur_root s);
  so_term : pt_lvl_terminal (cur_dscr s) (lvls (cur_dscr s) - 1) = true;
  so_null : unused (phys s) (cur_dscr s) (cur_root s) 0
}.

Definition page_at (s : mmu) (i : Z) : Z := base (pool s) + i * PAGE_SIZE.

(** The pool can hand out [k] pages one after the other from [last]. *)
Record pool_ready (k : Z) (p : page_pool) : Prop := {
  pl_inv : pool_inv p;
  pl_lock : lock_free (pool_lock p);
  pl_range : 0 ≤ k ∧ 0 ≤ last p ∧ last p + k ≤ nr_pages p;
  pl_free : k ≤ free p < 2 ^ 64;
  pl_run : run (bitmap p) false (last p) k;
  pl_high : base p + nr_pages p * PAGE_SIZE ≤ 2 ^ 48
}.

Record pages_ready (k : Z) (s : mmu) : Prop := {
  pr_pool : pool_ready k (pool s);
  pr_unused : ∀ i, last (pool s) ≤ i < nr_pages (pool s) → unused (phys s) (cur_dscr s) (cur_root s) (page_at s i)
}.

(** The words the operations on this address space may write: those of its tables, and those of
    the pages the pool has not handed out yet. *)
Definition owned (s : mmu) (x : Z) : Prop :=
  (∃ l va a, Z.of_nat l < lvls (cur_dscr s) ∧ va_ok (cur_dscr s) va ∧ tree s l va = Some a ∧
     a ≤ x < a + pt_size (cur_dscr s) (Z.of_nat l)) ∨
  page_at s (last (pool s)) ≤ x < page_at s (nr_pages (pool s)).

(** The parts of the state that hold still. *)
Definition same_frame (s s' : mmu) : Prop :=
  space s' = space s ∧ hyp_dscr s' = hyp_dscr s ∧ vm_dscr s' = vm_dscr s ∧ cur_as s' = cur_as s ∧
  base (pool s') = base (pool s) ∧ nr_pages (pool s') = nr_pages (pool s).

Lemma same_frame_dscr s s' : same_frame s s' → cur_dscr s' = cur_dscr s ∧ cur_root s' = cur_root s.
Proof. intros (E1 & E2 & E3 & _). unfold cur_dscr, cur_root, dscr_of. by rewrite E1, E2, E3. Qed.

Lemma same_frame_trans s1 s2 s3 : same_frame s1 s2 → same_frame s2 s3 → same_frame s1 s3.
Proof. intros (?&?&?&?&?&?) (?&?&?&?&?&?). repeat split; congruence. Qed.

(** Writes stay inside what the address space owns, and what it owns comes from the pool. *)
Definition confined (s s' : mmu) : Prop :=
  (∀ x, ¬ owned s x → phys s' x = phys s x) ∧ (∀ x, owned s' x → owned s x).

Lemma confined_trans s1 s2 s3 : confined s1 s2 → confined s2 s3 → confined s1 s3.
Proof. intros [H1 H2] [H3 H4]. split; [|auto]. intros x Hx. rewrite H3, H1; auto. Qed.

Record grows (s s' : mmu) : Prop := {
  gr_frame : same_frame s s';
  gr_maps : ∀ va, va_ok (cur_dscr s) va → maps s' va = maps s va;
  gr_tree : ∀ l va a, Z.of_nat l < lvls (cur_dscr s) → va_ok (cur_dscr s) va → tree s l va = Some a → tree s' l va = Some a;
  gr_confined : confined s s'
}.

Lemma grows_refl s : grows s s.
Proof. constructor; done || (repeat split; done). Qed.

Lemma grows_trans s1 s2 s3 : grows s1 s2 → grows s2 s3 → grows s1 s3.
Proof.
  intros [F1 M1 T1 C1] [F2 M2 T2 C2]. destruct (same_frame_dscr _ _ F1) as [Ed _]. rewrite Ed in M2, T2.
  constructor; [by eapply same_frame_trans| | |by eapply confined_trans].
  - intros va Hv. by rewrite M2, M1.
  - intros l va a Hl Hv Ha. auto.
Qed.

(** ** Steps of the programs *)

Lemma run_load p s : load p s = Done (phys s p, s).
Proof. done. Qed.

Lemma bind_load {B} p (k : Z → prog mmu B) s : (load p ≫= k) s = k (phys s p) s.
Proof. done. Qed.

Lemma bind_store {B} p v (k : unit → prog mmu B) s : (store p v ≫= k) s = k tt (s <| phys ::= <[p := v]> |>).
Proof. done. Qed.

Lemma set_phys (f : memory → memory) s : s <| phys ::= f |> = s <| phys := f (phys s) |>.
Proof. by destruct s. Qed.

Lemma set_phys_twice m m' s : s <| phys := m |> <| phys := m' |> = s <| phys := m' |>.
Proof. by destruct s. Qed.

Lemma set_phys_id s : s <| phys := phys s |> = s.
Proof. by destruct s. Qed.

Lemma fill_pt_spec pt v i n s :
  ∃ m, fill_pt pt v i n s = Done (tt, s <| phys := m |>) ∧
    (∀ j, i ≤ j < i + Z.of_nat n → m (pt + 8 * j) = v) ∧
    (∀ x, x < pt + 8 * i ∨ pt + 8 * (i + Z.of_nat n) ≤ x → m x = phys s x).
Proof.
  revert i s. induction n as [|n IH]; intros i s.
  { exists (phys s). rewrite set_phys_id. split; [done|]. split; [lia|done]. }
  cbn [fill_pt]. rewrite bind_store, set_phys. unfold sizeof_pte.
  destruct (IH (i + 1) (s <| phys := <[pt + 8 * i := v]> (phys s) |>)) as (m & -> & H1 & H2).
  exists m. rewrite set_phys_twice. split; [done|]. rsimpl_in H2. split.
  - intros j Hj. destruct (decide (j = i)) as [->|]; [|apply H1; lia]. rewrite H2 by lia. by rewrite upd_eq.
  - intros x Hx. rewrite H2 by lia. rewrite upd_ne; [done|lia].
Qed.

Lemma expand_loop_rsv type flags lvlsz pte paddr n s :
  ∃ m, expand_loop false true type flags lvlsz pte paddr n s = Done (tt, s <| phys := m |>) ∧
    (∀ j, 0 ≤ j < Z.of_nat n → m (pte + 8 * j) = pte_set_rsw (phys s (pte + 8 * j)) PTE_RSW_RSRV) ∧
    (∀ x, x < pte ∨ pte + 8 * Z.of_nat n ≤ x → m x = phys s x).
Proof.
  revert pte paddr s. induction n as [|n IH]; intros pte paddr s.
  { exists (phys s). rewrite set_phys_id. split; [done|]. split; [lia|done]. }
  cbn [expand_loop]. rewrite bind_bind, bind_load, bind_store, set_phys. unfold sizeof_pte.
  set (w := pte_set_rsw (phys s pte) PTE_RSW_RSRV).
  destruct (IH (pte + 8) (paddr +64 lvlsz) (s <| phys := <[pte := w]> (phys s) |>)) as (m & -> & H1 & H2).
  exists m. rewrite set_phys_twice. split; [done|]. rsimpl_in H1. rsimpl_in H2. split.
  - intros j Hj. destruct (decide (j = 0)) as [->|].
    + rewrite H2 by lia. rewrite Z.mul_0_r, Z.add_0_r. by rewrite upd_eq.
    + replace (pte + 8 * j) with (pte + 8 + 8 * (j - 1)) by lia. rewrite H1 by lia. rewrite upd_ne; [done|lia].
  - intros x Hx. rewrite H2 by lia. rewrite upd_ne; [done|lia].
Qed.

(** ** Allocating pages *)

(** [n] pages come from position [last + last mod n] of the pool. *)
Definition skip (n : Z) (s : mmu) : Z := last (pool s) mod n.

Definition pool_after (n : Z) (p p' : page_pool) : Prop :=
  base p' = base p ∧ nr_pages p' = nr_pages p ∧ last p' = last p + last p mod n + n.

Lemma alloc_pages_run n k s (aligned : bool) :
  pool_ready k (pool s) → n = 1 ∨ aligned = false → 1 ≤ n → skip n s + n ≤ k →
  ∃ p', alloc_pages n aligned s =
      Done ({| pp_base := page_at s (last (pool s) + skip n s); pp_nr_pages := n |}, s <| pool := p' |>) ∧
    pool_after n (pool s) p' ∧ pool_ready (k - skip n s - n) p'.
Proof.
  intros [Hp Hl Hr Hf Hrun Hh] Hal Hn Hk. unfold skip in *. pose proof (Z.mod_pos_bound (last (pool s)) n ltac:(lia)).
  pose proof (pool_inv_nr _ Hp) as Hnr. set (p := pool s) in *.
  assert (last p +64 (last p +64 0) mod n = last p + last p mod n) as Ecurr.
  { rewrite Z.add_0_r, (wrap_small 64 (last p)) by lia. apply wrap_small. lia. }
  unfold alloc_pages. rewrite bind_gets. unfold on_pages, lift_prog, mem_alloc_ppages. fold p. unfold alloc_fuel.
  unfold mbind, prog_bind.
  assert (∀ fuel, pp_alloc n aligned fuel p = pp_alloc n false fuel p) as Ea
    by (destruct Hal as [-> | ->]; [intros; apply pp_alloc_one|done]).
  rewrite Ea.
  rewrite pp_alloc_run by (done || lia). rewrite Ecurr.
  rewrite alloc_search_unaligned by (rsimpl; lia). cbv zeta. rsimpl.
  set (curr := last p + last p mod n) in *.
  assert (fits (bitmap p) false (nr_pages p) n curr) as Hfit.
  { split; [lia|]. apply (run_sub _ _ (last p) k); [lia|lia|done]. }
  assert (bitmap_find_consec (bitmap p) (nr_pages p) curr n false = curr) as Ebit.
  { destruct (find_in_pool p curr n Hp ltac:(lia) Hn) as [[_ Hno]|(Hb & _ & Hno)]; [by destruct (Hno curr); [lia|]|].
    destruct (decide (bitmap_find_consec (bitmap p) (nr_pages p) curr n false = curr)); [done|].
    exfalso. apply (Hno curr); [lia|done]. }
  rewrite Ebit. cbn [negb].
  destruct (take_pages_inv curr n p Hp Hn Hfit ltac:(lia)) as [Hp' Hbits].
  assert ({| pp_base := page_at s curr; pp_nr_pages := n |} = pages_at curr n p) as Epp.
  { by rewrite (pages_at_eq curr n p) by (done || lia). }
  rewrite Epp. eexists. split; [reflexivity|]. clear Epp Ebit Hfit.
  assert (last (take_pages curr n p) = curr + n) as Elast by (unfold take_pages; rsimpl; apply wrap_small; lia).
  assert (free (take_pages curr n p) = free p - n) as Efree by (unfold take_pages; rsimpl; apply wrap_small; lia).
  split; [|constructor].
  - unfold pool_after, take_pages in *. by rsimpl.
  - rsimpl. unfold take_pages in *. apply (pool_inv_lock _ (λ _, lock_cycle (pool_lock p))) in Hp'. by destruct p.
  - unfold take_pages. rsimpl. apply (lock_cycle_free (pool_lock p)).
  - unfold take_pages in *. rsimpl. rsimpl_in Elast. lia.
  - unfold take_pages in *. rsimpl. rsimpl_in Efree. lia.
  - unfold take_pages in *. rsimpl. rsimpl_in Elast. rewrite Elast. intros j Hj. rsimpl_in Hbits. rewrite Hbits by lia.
    rewrite Hrun by lia. by zcase.
  - unfold take_pages. by rsimpl.
Qed.

Lemma alloc_pages_ready n k s :
  pages_ready k s → 1 ≤ n → skip n s + n ≤ k →
  ∃ p', alloc_pages n false s =
      Done ({| pp_base := page_at s (last (pool s) + skip n s); pp_nr_pages := n |}, s <| pool := p' |>) ∧
    pool_after n (pool s) p' ∧ pages_ready (k - skip n s - n) (s <| pool := p' |>).
Proof.
  intros [Hr Hu] Hn Hk. destruct (alloc_pages_run n k s false Hr ltac:(by right) Hn Hk) as (p' & Hrun & Hp & Hr').
  exists p'. split; [done|]. split; [done|]. split; [done|]. destruct Hp as (Eb & En & El). unfold skip in *.
  pose proof (Z.mod_pos_bound (last (pool s)) n ltac:(lia)). unfold page_at. rsimpl. rewrite Eb, En, El.
  intros i Hi. apply Hu. lia.
Qed.

Lemma pages_ready_less k k' s : pages_ready k s → 0 ≤ k' ≤ k → pages_ready k' s.
Proof.
  intros [[? ? ? ? ? ?] ?] ?. constructor; [constructor|]; try done; try lia. eapply run_sub; [..|done]; lia.
Qed.

(** ** Adding a table *)

Definition entry (s : mmu) (a : Z) (l : nat) (va : Z) : Z := entry_at (cur_dscr s) a (Z.of_nat l) va.

(** Memory [m] is that of [s] with the fresh page [f] as a table of entries [w] at the entry [e]. *)
Record table_added (s : mmu) (e f w : Z) (m : memory) : Prop := {
  ta_new : ∀ j, 0 ≤ j < 512 → m (f + 8 * j) = w;
  ta_entry : m e = pte_set f PTE_TABLE PTE_HYP_FLAGS;
  ta_old : ∀ x, x ≠ e → x < f ∨ f + PAGE_SIZE ≤ x → m x = phys s x
}.

Section add_table.
  Context (s : mmu) (k : Z) (Hs : space_ok s) (Hr : pages_ready k s) (Hk : 1 ≤ k).
  Context (l : nat) (va a : Z) (Hl : Z.of_nat l < lvls (cur_dscr s) - 1) (Hv : va_ok (cur_dscr s) va).
  Context (Ha : tree s l va = Some a) (Hinv : pte_valid (phys s (entry s a l va)) = false).

Definition fresh : Z := page_at s (last (pool s)).

Lemma fresh_page : PAGE_SIZE ≤ fresh ∧ fresh + PAGE_SIZE ≤ 2 ^ 48 ∧ fresh mod PAGE_SIZE = 0 ∧
  unused (phys s) (cur_dscr s) (cur_root s) fresh.
Proof using Hr Hk.
  clear - Hr Hk. destruct Hr as [[[_ _ Hb Hal _ _] _ Hra _ _ Hh] Hu]. unfold fresh, page_at. split_and!.
  - unfold PAGE_SIZE in *. lia.
  - unfold PAGE_SIZE in *. lia.
  - rewrite Z.mod_add by done. done.
  - apply Hu. lia.
Qed.

Lemma entry_not_fresh : entry s a l va < fresh ∨ fresh + PAGE_SIZE ≤ entry s a l va.
Proof using Hs Hr Hk Hl Hv Ha.
  destruct fresh_page as (_ & _ & _ & Hu). pose proof (tk_dscr _ _ _ (so_tables _ Hs)) as Hd.
  pose proof (entry_at_bounds _ Hd a (Z.of_nat l) va ltac:(lia)). unfold entry.
  destruct (Hu l va a ltac:(lia) Hv Ha) as [?|Hb]; [right; lia|left]. rewrite pt_size_eq in Hb by (done || lia). lia.
Qed.

Context (p' : page_pool) (m : memory) (w : Z).
Context (Hp : pool_after 1 (pool s) p') (Hr' : pages_ready (k - 1) (s <| pool := p' |>)).
Context (Hm : table_added s (entry s a l va) fresh w m) (Hw : pte_valid w = false).
Let s' := s <| pool := p' |> <| phys := m |>.

Lemma last_after : last p' = last (pool s) + 1.
Proof using Hp. clear - Hp. destruct Hp as (_ & _ & ->). rewrite Z.mod_1_r. lia. Qed.

Lemma grow_frame : same_frame s s'.
Proof using Hp. destruct Hp as (E1 & E2 & _). unfold s'. repeat split; by rsimpl. Qed.

Ltac grow_args :=
  pose proof (so_tables _ Hs) as Htk; destruct fresh_page as (Hf1 & Hf2 & Hf3 & Hf4); destruct Hm as [Hm1 Hm2 Hm3];
  pose proof (pte_table_set (cur_dscr s) fresh PTE_HYP_FLAGS (Z.of_nat l) ltac:(lia)) as Hvt;
  assert (pte_addr (pte_set fresh PTE_TABLE PTE_HYP_FLAGS) = fresh) as Hva
    by (rewrite pte_addr_set; apply page_addr_msk; [unfold PAGE_SIZE in *; lia|done]);
  assert (0 ≤ fresh < 2 ^ 48) as Hf by (unfold PAGE_SIZE in *; lia);
  pose proof Hinv as Hinv'; unfold entry in Hinv', Hm2, Hm3.

Lemma grow_ok : space_ok s'.
Proof using All.
  grow_args. pose proof (so_null _ Hs) as Hnull. constructor; [|apply Hs|].
  2:{ change (unused m (cur_dscr s) (cur_root s) 0).
      eapply (grow_unused (phys s) m) with (va := va) (a := a) (l := l) (w := w); eauto. unfold PAGE_SIZE in *. lia. }
  change (tables_ok m (cur_dscr s) (cur_root s)). eapply (grow_tables_ok (phys s) m) with (va := va) (a := a) (l := l) (w := w); eauto.
Qed.

Lemma grow_tree : ∀ j y b, Z.of_nat j < lvls (cur_dscr s) → va_ok (cur_dscr s) y → tree s' j y = Some b →
  tree s j y = Some b ∨ b = fresh ∧ 1 ≤ Z.of_nat j.
Proof using All.
  grow_args. intros j y b Hj Hy Hb. change (table_at m (cur_dscr s) (cur_root s) j y = Some b) in Hb.
  eapply (grow_tables (phys s) m (cur_dscr s) (cur_root s) Htk va a l) with (w := w) in Hb as [[? _]|(-> & -> & _)]; eauto.
  right. split; [done|lia].
Qed.

Lemma grow_ready : pages_ready (k - 1) s'.
Proof using All.
  pose proof last_after as El. destruct Hp as (Eb & En & _). destruct Hr' as [H1 H7].
  constructor; [exact H1|].
  intros i Hi. unfold s' in Hi. rsimpl_in Hi. specialize (H7 i ltac:(by rsimpl)). rsimpl_in H7. grow_args.
  change (page_at s' i) with (page_at (s <| pool := p' |>) i).
  change (unused m (cur_dscr s) (cur_root s) (page_at (s <| pool := p' |>) i)).
  assert (page_at (s <| pool := p' |>) i = page_at s i) as Ei by (unfold page_at; rsimpl; by rewrite Eb).
  eapply (grow_unused (phys s) m) with (va := va) (a := a) (l := l) (w := w); eauto.
  - rewrite Ei. unfold page_at. rewrite Z.mod_add by done. apply (pi_aligned _ (pl_inv _ _ (pr_pool _ _ Hr))).
  - rewrite Ei. unfold fresh, page_at, PAGE_SIZE. lia.
Qed.

Lemma grow_confined : confined s s'.
Proof using All.
  pose proof last_after as El. destruct Hp as (Eb & En & _). pose proof (tk_dscr _ _ _ (so_tables _ Hs)) as Hd.
  pose proof (pl_range _ _ (pr_pool _ _ Hr)) as Hra. split.
  - intros x Hx. destruct Hm as [_ _ Hold]. apply Hold.
    + intros ->. apply Hx. left. exists l, va, a. pose proof (entry_at_bounds _ Hd a (Z.of_nat l) va ltac:(lia)) as Hb.
      rewrite <-pt_size_eq in Hb by (done || lia). unfold entry. split_and!; (done || lia).
    + assert (¬ (page_at s (last (pool s)) ≤ x < page_at s (nr_pages (pool s)))) as Hn by (intros ?; apply Hx; by right).
      unfold fresh, page_at, PAGE_SIZE in *. lia.
  - intros x [(j & y & b & Hj & Hy & Hb & Hx)|Hx].
    + apply grow_tree in Hb as [Hb|[-> Hj1]]; [left; by exists j, y, b| |done|done].
      right. rewrite pt_size_page in Hx by (done || lia). unfold fresh, page_at, PAGE_SIZE in *. lia.
    + right. unfold s', page_at in *. rsimpl_in Hx. rewrite El, Eb, En in Hx. unfold PAGE_SIZE in *. lia.
Qed.

Lemma grow_grows : grows s s'.
Proof using All.
  constructor; [apply grow_frame| | |apply grow_confined]; grow_args.
  - intros y Hy. change (translate m (cur_dscr s) (cur_root s) y = maps s y).
    eapply (grow_translate (phys s) m) with (va := va) (a := a) (l := l) (w := w); eauto.
  - intros j y b Hj Hy Hb. change (table_at m (cur_dscr s) (cur_root s) j y = Some b).
    destruct (decide (pfx (cur_dscr s) (Z.of_nat l) va = pfx (cur_dscr s) (Z.of_nat l) y)) as [Hpx|Hpx].
    + destruct (decide (j ≤ l)%nat).
      * rewrite <-Hb. eapply (grow_table_other (phys s) m) with (va := va) (a := a) (l := l) (w := w); eauto.
      * exfalso. apply (table_at_le _ _ _ (S l) j y b) in Hb as [c Hc]; [|lia]. rewrite table_at_S in Hc.
        rewrite (table_at_pfx (phys s) (cur_dscr s) (cur_root s) Htk l va y) in Hc by (done || lia).
          unfold tree in Ha. rewrite Ha in Hc. cbn [mbind option_bind] in Hc.
        rewrite <-(entry_at_pfx _ a _ va y Hpx) in Hc. rewrite invalid_not_table in Hc; [done|exact Hinv].
    + rewrite <-Hb. eapply (grow_table_other (phys s) m) with (va := va) (a := a) (l := l) (w := w); eauto.
Qed.

Lemma grow_tree_new y : va_ok (cur_dscr s) y → pfx (cur_dscr s) (Z.of_nat l) va = pfx (cur_dscr s) (Z.of_nat l) y →
  tree s' (S l) y = Some fresh.
Proof using All.
  intros Hy Hpx. grow_args. change (table_at m (cur_dscr s) (cur_root s) (S l) y = Some fresh).
  eapply (grow_table_new (phys s) m) with (va := va) (a := a) (l := l) (w := w); eauto.
Qed.

Lemma grow_all : space_ok s' ∧ pages_ready (k - 1) s' ∧ grows s s' ∧
  ∀ y, va_ok (cur_dscr s) y → pfx (cur_dscr s) (Z.of_nat l) va = pfx (cur_dscr s) (Z.of_nat l) y → is_Some (tree s' (S l) y).
Proof using All.
  split; [exact grow_ok|]. split; [exact grow_ready|]. split; [exact grow_grows|].
  intros y Hy Hp1. exists fresh. by apply grow_tree_new.
Qed.

End add_table.

(** ** [mem_alloc_pt] and [mem_expand_pte] *)

Lemma skip_1 s : skip 1 s = 0.
Proof. apply Z.mod_1_r. Qed.

Lemma table_page_one d l : dscr_ok d → 0 ≤ l < lvls d - 1 → NUM_PAGES (pt_size d (l + 1)) = 1.
Proof. intros Hd Hl. rewrite (pt_size_page d Hd) by lia. done. Qed.

(** [mem_alloc_pt] on an invalid entry adds a table whose entries keep the software bits. *)
Lemma mem_alloc_pt_run s k l va a :
  space_ok s → pages_ready k s → 1 ≤ k → Z.of_nat l < lvls (cur_dscr s) - 1 → va_ok (cur_dscr s) va →
  tree s l va = Some a → pte_valid (phys s (entry s a l va)) = false →
  let w := Z.lor PTE_INVALID (Z.land (phys s (entry s a l va)) PTE_RSW_MSK) in
  ∃ p' m, mem_alloc_pt (entry s a l va) (Z.of_nat l) va s = Done (Some (fresh s), s <| pool := p' |> <| phys := m |>) ∧
    pool_after 1 (pool s) p' ∧ pages_ready (k - 1) (s <| pool := p' |>) ∧ table_added s (entry s a l va) (fresh s) w m.
Proof.
  intros Hs Hr Hk Hl Hv Ha Hinv w. pose proof (tk_dscr _ _ _ (so_tables _ Hs)) as Hd.
  destruct (alloc_pages_ready 1 k s Hr ltac:(lia)) as (p' & Hrun & Hp & Hr'); [rewrite skip_1; lia|].
  rewrite skip_1 in Hrun, Hr'. rewrite Z.add_0_r, Z.sub_0_r in *.
  unfold mem_alloc_pt. rewrite bind_gets, table_page_one by (done || lia). change (1 <? 1) with false.
  rewrite (prog_bind_done _ _ _ _ _ Hrun). cbn [pp_nr_pages]. change (1 =? 0) with false. cbv iota.
  rewrite bind_load, bind_store, bind_gets. rsimpl. cbn [pp_base].
  change (Z.lor PTE_INVALID (Z.land (phys s (entry s a l va)) PTE_RSW_MSK)) with w.
  set (m1 := <[entry s a l va := pte_set (page_at s (last (pool s))) PTE_TABLE PTE_HYP_FLAGS]> (phys s)).
  assert (table_at m1 (cur_dscr s) (cur_root s) (S l) va = Some (fresh s)) as Hnew.
  { rewrite table_at_S. rewrite (table_at_ext (phys s) m1).
    - unfold tree in Ha. rewrite Ha. cbn [mbind option_bind]. change (entry_at _ a _ va) with (entry s a l va).
      unfold m1. rewrite upd_eq. rewrite pte_table_set by lia. rewrite pte_addr_set.
      destruct (fresh_page s k Hr Hk) as (? & ? & ? & _). rewrite page_addr_msk; [done|unfold fresh, PAGE_SIZE in *; lia|done].
    - intros j b Hj Hb. unfold m1. apply upd_ne. intros E. unfold tree in Ha.
      apply (entry_inj (phys s) (cur_dscr s) (cur_root s) (so_tables _ Hs)) in E as [-> _]; try (done || lia). }
  assert (pt_get m1 (cur_dscr s) (cur_root s) (Z.of_nat l + 1) va = fresh s) as Hget.
  { replace (Z.of_nat l + 1) with (Z.of_nat (S l)) by lia. destruct (tk_root _ _ _ (so_tables _ Hs)) as (? & ? & _).
    apply pt_get_at; (done || lia). }
  rewrite set_phys. rsimpl. fold m1. change (cur_root _) with (cur_root s). rewrite Hget.
  rewrite pt_nentries_512 by (done || lia).
  destruct (fill_pt_spec (fresh s) w 0 512 (s <| pool := p' |> <| phys := m1 |>)) as (m & Hfill & H1 & H2).
  rewrite (prog_bind_done _ _ _ _ _ Hfill), set_phys_twice, run_ret. exists p', m.
  split; [done|]. split; [done|]. split; [done|]. rsimpl_in H2.
  pose proof (entry_not_fresh s k Hs Hr Hk l va a Hl Hv Ha) as Hne. constructor.
  - intros j Hj. apply H1. lia.
  - rewrite H2 by (unfold PAGE_SIZE in *; lia). unfold m1. by rewrite upd_eq.
  - intros x Hx Hx2. rewrite H2 by (unfold PAGE_SIZE in *; lia). unfold m1. by rewrite upd_ne by done.
Qed.

Lemma entry_nonnull s l va a :
  space_ok s → Z.of_nat l < lvls (cur_dscr s) → va_ok (cur_dscr s) va → tree s l va = Some a → entry s a l va ≠ 0.
Proof.
  intros Hs Hl Hv Ha. pose proof (tk_dscr _ _ _ (so_tables _ Hs)) as Hd.
  pose proof (entry_at_bounds _ Hd a (Z.of_nat l) va ltac:(lia)) as (? & Hb & _). unfold entry.
  pose proof (pt_nentries_bounds _ Hd (Z.of_nat l) ltac:(lia)).
  destruct (so_null _ Hs l va a Hl Hv Ha) as [?|Hn]; [unfold PAGE_SIZE in *; lia|].
  rewrite pt_size_eq in Hn by (done || lia). destruct (tk_root _ _ _ (so_tables _ Hs)) as (R1 & R2 & _).
  pose proof (table_addr (phys s) (cur_dscr s) (cur_root s) (conj R1 R2) l va a Ha). lia.
Qed.

(** Expanding the entry of [va] at level [l] leaves a table there, and every translation as it
    was.  A table that is already there stays. *)
Lemma mem_expand_pte_ok s k l va a :
  space_ok s → pages_ready k s → 1 ≤ k → Z.of_nat l < lvls (cur_dscr s) - 1 → va_ok (cur_dscr s) va →
  tree s l va = Some a →
  ∃ s', mem_expand_pte va (Z.of_nat l) s = Done (tt, s') ∧ space_ok s' ∧ pages_ready (k - 1) s' ∧ grows s s' ∧
    ∀ y, va_ok (cur_dscr s) y → pfx (cur_dscr s) (Z.of_nat l) va = pfx (cur_dscr s) (Z.of_nat l) y →
      is_Some (tree s' (S l) y).
Proof.
  intros Hs Hr Hk Hl Hv Ha. pose proof (so_tables _ Hs) as Htk. pose proof (tk_dscr _ _ _ Htk) as Hd.
  unfold mem_expand_pte. rewrite bind_gets. destruct (Z.leb_spec (lvls (cur_dscr s) - 1) (Z.of_nat l)); [lia|].
  rewrite bind_gets. destruct (tk_root _ _ _ Htk) as (? & ? & _).
  rewrite (pt_get_pte_at (phys s) (cur_dscr s) (cur_root s) Hd (conj H0 H1) l va a) by (done || lia).
  change (entry_at _ a _ va) with (entry s a l va). rewrite bind_load.
  set (e := phys s (entry s a l va)).
  destruct (Z.eqb_spec (entry s a l va) 0) as [E0|_]; [exfalso; apply (entry_nonnull s l va a); (done || lia)|]. cbn [negb andb].
  destruct (pte_table (cur_dscr s) e (Z.of_nat l)) eqn:Et.
  { exists s. split; [done|]. split; [done|]. split; [|split; [apply grows_refl|]].
    - eapply pages_ready_less; [done|]. destruct Hr as [[] _]. lia.
    - intros y Hy Hp. unfold tree. rewrite table_at_S.
      rewrite (table_at_pfx _ _ _ Htk l va y) by (done || lia). unfold tree in Ha. rewrite Ha. cbn [mbind option_bind].
      rewrite <-(entry_at_pfx _ a _ va y Hp). change (phys s (entry_at _ a _ va)) with e. rewrite Et. eauto. }
  assert (pte_valid e = false) as Hinv.
  { destruct (pte_valid e) eqn:E; [|done]. exfalso. unfold e in *.
    pose proof (tk_blocks _ _ _ Htk l va a ltac:(lia) Hv Ha) as Hb. cbv zeta in Hb. unfold entry in *. rewrite Hb in Et; done. }
  cbn [negb]. cbv zeta.
  destruct (mem_alloc_pt_run s k l va a Hs Hr Hk Hl Hv Ha Hinv) as (p' & m & Hrun & Hp & Hr' & Hm).
  rewrite (prog_bind_done _ _ _ _ _ Hrun). fold e in Hm. rewrite Hinv. cbn [orb].
  destruct (pte_check_rsw e PTE_RSW_RSRV).
  - rewrite bind_deref. rewrite bind_gets.
    destruct (fresh_page s k Hr Hk) as (Hf1 & Hf2 & Hf3 & Hf4).
    assert (pt_getpteindex (cur_dscr s) (fresh s) (Z.of_nat l + 1) = 0) as ->.
    { unfold pt_getpteindex. rewrite pt_size_page by (done || lia). change (PAGE_SIZE -64 1) with (Z.ones 12).
      rewrite Z.land_ones by lia. change (2 ^ 12) with PAGE_SIZE. by rewrite Hf3. }
    rewrite Z.sub_0_r, pt_nentries_512 by (done || lia).
    destruct (expand_loop_rsv (pt_page_type (cur_dscr s) (Z.of_nat l + 1))
      (if decide (as_type (space (s <| pool := p' |> <| phys := m |>)) = AS_HYP) then PTE_HYP_FLAGS else PTE_VM_FLAGS)
      (pt_lvlsize (cur_dscr s) (Z.of_nat l + 1)) (fresh s) (pte_addr e) 512 (s <| pool := p' |> <| phys := m |>)) as (m' & Hrun' & H1' & H2').
    change (Z.to_nat 512) with 512%nat. rewrite Hrun', set_phys_twice.
    rsimpl_in H1'. rsimpl_in H2'. pose proof (entry_not_fresh s k Hs Hr Hk l va a Hl Hv Ha) as Hne.
    assert (table_added s (entry s a l va) (fresh s) (pte_set_rsw (Z.lor PTE_INVALID (Z.land e PTE_RSW_MSK)) PTE_RSW_RSRV) m') as Hm'.
    { destruct Hm as [Hm1 Hm2 Hm3]. constructor.
      - intros j Hj. rewrite H1' by lia. by rewrite Hm1.
      - rewrite H2' by (unfold PAGE_SIZE in *; lia). done.
      - intros x Hx Hx2. rewrite H2' by (unfold PAGE_SIZE in *; lia). auto. }
    assert (pte_valid (pte_set_rsw (Z.lor PTE_INVALID (Z.land e PTE_RSW_MSK)) PTE_RSW_RSRV) = false) as Hw
      by (rewrite set_rsw_valid; apply rsw_invalid).
    eexists. split; [reflexivity|].
    exact (grow_all s k Hs Hr Hk l va a Hl Hv Ha Hinv p' m' _ Hp Hr' Hm' Hw).
  - eexists. split; [reflexivity|]. pose proof (rsw_invalid e) as Hw.
    exact (grow_all s k Hs Hr Hk l va a Hl Hv Ha Hinv p' m _ Hp Hr' Hm Hw).
Qed.

(** ** Covering a range with tables *)

(** The entries of level [l] that [mem_inflate_pt] visits for [n] pages. *)
Definition steps (d : page_table_dscr) (l n : Z) : Z := (n * PAGE_SIZE + 2 ^ off d l - 1) / 2 ^ off d l.

(** The visits start at [va] and go on in steps of an entry, so they reach the entry of the last page
    only when the range does not straddle one entry more than its length needs. *)
Definition covers (d : page_table_dscr) (va n : Z) : Prop :=
  ∀ l, 0 ≤ l < lvls d - 1 → pfx d l (va + n * PAGE_SIZE - 1) < pfx d l va + steps d l n.

(** The tables [mem_inflate_pt] may have to add at levels [l .. l + k - 1]. *)
Fixpoint tables_needed (d : page_table_dscr) (n l : Z) (k : nat) : Z :=
  match k with O => 0 | S k => steps d l n + tables_needed d n (l + 1) k end.

Lemma pfx_step d l va i : dscr_ok d → 0 ≤ l < lvls d → pfx d l (va + i * 2 ^ off d l) = pfx d l va + i.
Proof. intros Hd Hl. unfold pfx. pose proof (off_bounds d Hd l Hl). by rewrite Z.div_add by lia. Qed.

Lemma steps_bounds d l n : dscr_ok d → 0 ≤ l < lvls d → 0 ≤ n →
  0 ≤ steps d l n ≤ n ∧ n * PAGE_SIZE ≤ steps d l n * 2 ^ off d l ∧ (steps d l n - 1) * 2 ^ off d l < n * PAGE_SIZE.
Proof.
  intros Hd Hl Hn. pose proof (off_bounds d Hd l Hl). unfold steps.
  assert (PAGE_SIZE ≤ 2 ^ off d l) by (change PAGE_SIZE with (2 ^ 12); apply Z.pow_le_mono_r; lia).
  set (z := 2 ^ off d l) in *. unfold PAGE_SIZE in *.
  assert (0 ≤ (n * 4096 + z - 1) / z) by (apply Z.div_pos; lia).
  pose proof (Z.div_mod (n * 4096 + z - 1) z ltac:(lia)). pose proof (Z.mod_pos_bound (n * 4096 + z - 1) z ltac:(lia)).
  split_and!; try done; try nia.
Qed.

Section inflate.
  Context (va len : Z) (Hva : 0 ≤ va) (Hlen : 0 ≤ len).

Lemma inflate_range_ok l s k r vaddr fuel j :
  space_ok s → pages_ready k s → Z.of_nat l < lvls (cur_dscr s) - 1 → va + len ≤ 2 ^ wdt (cur_dscr s) 0 →
  vaddr = va + j * 2 ^ off (cur_dscr s) (Z.of_nat l) → 0 ≤ j → vaddr < 2 ^ 49 →
  va + len ≤ vaddr + r * 2 ^ off (cur_dscr s) (Z.of_nat l) → 0 ≤ r ≤ k → r < Z.of_nat fuel →
  (∀ x, va ≤ x < va + len → is_Some (tree s l x)) →
  ∃ s', inflate_range (Z.of_nat l) (pt_lvlsize (cur_dscr s) (Z.of_nat l)) vaddr (va + len) fuel s = Done (tt, s') ∧
    space_ok s' ∧ pages_ready (k - r) s' ∧ grows s s' ∧
    ∀ i y, j ≤ i → va + i * 2 ^ off (cur_dscr s) (Z.of_nat l) < va + len → va_ok (cur_dscr s) y →
      pfx (cur_dscr s) (Z.of_nat l) y = pfx (cur_dscr s) (Z.of_nat l) va + i → is_Some (tree s' (S l) y).
Proof using Hva Hlen.
  revert s k r vaddr j. induction fuel as [|fuel IH]; intros s k r vaddr j Hs Hr Hl Htop Ev Hj Hvb Hle Hrk Hf Hx; [lia|].
  pose proof (tk_dscr _ _ _ (so_tables _ Hs)) as Hd. pose proof (off_bounds _ Hd (Z.of_nat l) ltac:(lia)) as Hoff.
  rewrite pt_lvlsize_eq by (done || lia). cbn [inflate_range].
  set (sz := 2 ^ off (cur_dscr s) (Z.of_nat l)) in *.
  assert (0 < sz ≤ 2 ^ 39) by (split; [apply Z.pow_pos_nonneg; lia|apply Z.pow_le_mono_r; lia]).
  destruct (Z.ltb_spec vaddr (va + len)) as [Hlt|Hge].
  2:{ exists s. split; [done|]. split; [done|]. split; [eapply pages_ready_less; [done|lia]|]. split; [apply grows_refl|].
      intros i y Hi Hi2. exfalso. subst vaddr. nia. }
  assert (va_ok (cur_dscr s) vaddr) as Hvok by (unfold va_ok; nia).
  destruct (Hx vaddr ltac:(nia)) as [a Ha].
  assert (1 ≤ r) by nia. assert (2 ^ wdt (cur_dscr s) 0 ≤ 2 ^ 48) by (apply Z.pow_le_mono_r; [lia|apply (do_wdt0 _ Hd)]).
  destruct (mem_expand_pte_ok s k l vaddr a Hs Hr ltac:(lia) Hl Hvok Ha) as (s1 & Hrun & Hs1 & Hr1 & Hg1 & Ht1).
  rewrite (prog_bind_done _ _ _ _ _ Hrun). rewrite (wrap_small 64 (vaddr + sz)) by lia.
  destruct (same_frame_dscr _ _ (gr_frame _ _ Hg1)) as [Ed Er].
  destruct (IH s1 (k - 1) (r - 1) (vaddr + sz) (j + 1)) as (s2 & Hrun2 & Hs2 & Hr2 & Hg2 & Ht2); rewrite ?Ed; try done; try lia.
  { intros x Hxr. destruct (Hx x Hxr) as [b Hb]. exists b. apply (gr_tree _ _ Hg1); [lia|unfold va_ok; lia|done]. }
  rewrite Ed in Hrun2, Ht2. rewrite pt_lvlsize_eq in Hrun2 by (done || lia). fold sz in Hrun2, Ht2.
  exists s2. split; [exact Hrun2|]. split; [done|]. split; [by replace (k - r) with (k - 1 - (r - 1)) by lia|].
  split; [by eapply grows_trans|].
  intros i y Hi Hi2 Hy Hp. destruct (decide (i = j)) as [->|]; [|apply (Ht2 i); (done || lia)].
  destruct (Ht1 y Hy) as [b Hb].
  - rewrite Hp, Ev. by apply pfx_step; [|lia].
  - exists b. apply (gr_tree _ _ Hg2); rewrite ?Ed; (done || lia).
Qed.

End inflate.

(** Levels [l .. l + j - 1]: from tables at level [l] for the whole range to tables at level [l + j]. *)
Lemma inflate_levels_ok va n j : ∀ s k l,
  space_ok s → pages_ready k s → 0 ≤ va → 1 ≤ n → va + n * PAGE_SIZE ≤ 2 ^ wdt (cur_dscr s) 0 →
  covers (cur_dscr s) va n → Z.of_nat l + Z.of_nat j ≤ lvls (cur_dscr s) - 1 →
  tables_needed (cur_dscr s) n (Z.of_nat l) j ≤ k →
  (∀ x, va ≤ x < va + n * PAGE_SIZE → is_Some (tree s l x)) →
  ∃ s', inflate_levels va (n * PAGE_SIZE) (Z.of_nat l) j s = Done (tt, s') ∧ space_ok s' ∧
    pages_ready (k - tables_needed (cur_dscr s) n (Z.of_nat l) j) s' ∧ grows s s' ∧
    ∀ x, va ≤ x < va + n * PAGE_SIZE → is_Some (tree s' (l + j) x).
Proof.
  induction j as [|j IH]; intros s k l Hs Hr Hva Hn Htop Hc Hl Hneed Hx.
  { exists s. rewrite Nat.add_0_r. simpl. rewrite Z.sub_0_r. split; [done|]. split; [done|]. split; [done|]. split; [apply grows_refl|done]. }
  pose proof (tk_dscr _ _ _ (so_tables _ Hs)) as Hd. cbn [tables_needed] in Hneed |- *. cbn [inflate_levels].
  pose proof (steps_bounds _ (Z.of_nat l) n Hd ltac:(lia) ltac:(lia)) as (Hst & Hst2 & Hst3).
  assert (2 ^ wdt (cur_dscr s) 0 ≤ 2 ^ 48) by (apply Z.pow_le_mono_r; [lia|apply (do_wdt0 _ Hd)]).
  assert (0 ≤ tables_needed (cur_dscr s) n (Z.of_nat l + 1) j) as Hpos.
  { clear -Hd Hl Hn. assert (0 ≤ Z.of_nat l + 1) as H0 by lia. assert (Z.of_nat l + 1 + Z.of_nat j ≤ lvls (cur_dscr s) - 1) as H1 by lia.
    revert H0 H1. generalize (Z.of_nat l + 1). clear Hl. induction j as [|j IH]; intros z H0 H1; [done|]. cbn [tables_needed].
    pose proof (steps_bounds _ z n Hd ltac:(lia) ltac:(lia)). specialize (IH (z + 1) ltac:(lia) ltac:(lia)). lia. }
  assert (0 ≤ n * PAGE_SIZE) as Hn0 by (unfold PAGE_SIZE; lia). rewrite bind_gets. rewrite (wrap_small 64) by lia.
  destruct (inflate_range_ok va (n * PAGE_SIZE) Hva ltac:(unfold PAGE_SIZE; lia) l s k (steps (cur_dscr s) (Z.of_nat l) n) va
    (S (Z.to_nat (n * PAGE_SIZE / PAGE_SIZE))) 0) as (s1 & Hrun & Hs1 & Hr1 & Hg1 & Ht1); try done; try lia.
  { rewrite Z.div_mul by done. lia. }
  rewrite (prog_bind_done _ _ _ _ _ Hrun). destruct (same_frame_dscr _ _ (gr_frame _ _ Hg1)) as [Ed _].
  replace (Z.of_nat l + 1) with (Z.of_nat (S l)) in * by lia.
  destruct (IH s1 (k - steps (cur_dscr s) (Z.of_nat l) n) (S l)) as (s2 & Hrun2 & Hs2 & Hr2 & Hg2 & Ht2); rewrite ?Ed; try done; try lia.
  { intros x Hxr. pose proof (off_bounds _ Hd (Z.of_nat l) ltac:(lia)). specialize (Hc (Z.of_nat l) ltac:(lia)). unfold pfx in Hc.
    assert (0 < 2 ^ off (cur_dscr s) (Z.of_nat l)) by (apply Z.pow_pos_nonneg; lia).
    set (sz := 2 ^ off (cur_dscr s) (Z.of_nat l)) in *.
    assert (va / sz ≤ x / sz) by (apply Z.div_le_mono; lia).
    assert (x / sz ≤ (va + n * PAGE_SIZE - 1) / sz) by (apply Z.div_le_mono; lia).
    apply (Ht1 (x / sz - va / sz) x); [lia| |unfold va_ok; lia|unfold pfx; fold sz; lia].
    fold sz. nia. }
  exists s2. split; [exact Hrun2|]. split; [done|]. split.
  - rewrite Ed in Hr2. by replace (k - (steps (cur_dscr s) (Z.of_nat l) n + tables_needed (cur_dscr s) n (Z.of_nat (S l)) j))
      with (k - steps (cur_dscr s) (Z.of_nat l) n - tables_needed (cur_dscr s) n (Z.of_nat (S l)) j) by lia.
  - split; [by eapply grows_trans|]. by replace (l + S j)%nat with (S l + j)%nat by lia.
Qed.

Definition needed (s : mmu) (n : Z) : Z := tables_needed (cur_dscr s) n 0 (Z.to_nat (lvls (cur_dscr s) - 1)).

(** The number of the last level. *)
Definition last_level (s : mmu) : nat := Z.to_nat (lvls (cur_dscr s) - 1).

Lemma last_level_eq s : space_ok s → Z.of_nat (last_level s) = lvls (cur_dscr s) - 1.
Proof. intros Hs. pose proof (do_lvls _ (tk_dscr _ _ _ (so_tables _ Hs))). unfold last_level. lia. Qed.

Lemma mem_inflate_pt_ok s k va n :
  space_ok s → pages_ready k s → 0 ≤ va → 1 ≤ n → va + n * PAGE_SIZE ≤ 2 ^ wdt (cur_dscr s) 0 →
  covers (cur_dscr s) va n → needed s n ≤ k →
  ∃ s', mem_inflate_pt va (n * PAGE_SIZE) s = Done (tt, s') ∧ space_ok s' ∧ pages_ready (k - needed s n) s' ∧ grows s s' ∧
    ∀ x, va ≤ x < va + n * PAGE_SIZE → is_Some (tree s' (last_level s) x).
Proof.
  intros Hs Hr Hva Hn Htop Hc Hneed. unfold mem_inflate_pt. rewrite bind_gets. pose proof (last_level_eq s Hs).
  apply (inflate_levels_ok va n (Z.to_nat (lvls (cur_dscr s) - 1)) s k 0); try done. unfold last_level in *. lia.
Qed.

(** ** Writing the entries of pages *)

(** Steps that change translations but neither tables nor pages. *)
Record rewrites (s s' : mmu) : Prop := {
  rw_space : space_ok s';
  rw_frame : same_frame s s';
  rw_pool : pool s' = pool s;
  rw_tree : ∀ l va, Z.of_nat l < lvls (cur_dscr s) → va_ok (cur_dscr s) va → tree s' l va = tree s l va;
  rw_confined : confined s s'
}.

Lemma rewrites_refl s : space_ok s → rewrites s s.
Proof. intros. constructor; done || (repeat split; done). Qed.

Lemma rewrites_trans s1 s2 s3 : rewrites s1 s2 → rewrites s2 s3 → rewrites s1 s3.
Proof.
  intros [S1 F1 P1 T1 C1] [S2 F2 P2 T2 C2]. destruct (same_frame_dscr _ _ F1) as [Ed _]. rewrite Ed in T2.
  constructor; [done|by eapply same_frame_trans|congruence| |by eapply confined_trans].
  intros l va Hl Hv. by rewrite T2, T1.
Qed.

Lemma rewrites_ready s s' k : rewrites s s' → pages_ready k s → pages_ready k s'.
Proof.
  intros [Hs F P T _] [? Hu]. destruct (same_frame_dscr _ _ F) as [Ed Er].
  constructor; rewrite ?P; [done|]. intros i Hi l va a Hl Hv Ha. rewrite Ed in Hl, Hv.
  unfold page_at. rewrite P, Ed. apply (Hu i Hi l va a Hl Hv). specialize (T l va Hl Hv). unfold tree in T. congruence.
Qed.

Lemma store_leaf s va a v :
  space_ok s → va_ok (cur_dscr s) va → tree s (last_level s) va = Some a →
  let s' := s <| phys ::= <[entry s a (last_level s) va := v]> |> in
  rewrites s s' ∧
  (∀ y, va_ok (cur_dscr s) y → va / PAGE_SIZE ≠ y / PAGE_SIZE → maps s' y = maps s y) ∧
  (∀ y paddr flags, va_ok (cur_dscr s) y → va / PAGE_SIZE = y / PAGE_SIZE → v = pte_set paddr PTE_PAGE flags →
     0 ≤ paddr < 2 ^ 48 → paddr mod PAGE_SIZE = 0 →
     maps s' y = Some (paddr + y mod PAGE_SIZE, Z.land (Z.lor PTE_PAGE flags) PTE_FLAGS_MSK)) ∧
  (∀ y, va_ok (cur_dscr s) y → va / PAGE_SIZE = y / PAGE_SIZE → pte_valid v = false → maps s' y = None).
Proof.
  intros Hs Hv Ha. cbv zeta. pose proof (so_tables _ Hs) as Htk. pose proof (tk_dscr _ _ _ Htk) as Hd.
  pose proof (last_level_eq s Hs) as Hl. rewrite set_phys. set (m := <[_ := v]> (phys s)).
  assert (∀ x, m x = if decide (entry_at (cur_dscr s) a (Z.of_nat (last_level s)) va = x) then v else phys s x) as Hm
    by (intros x; apply upd_case).
  assert (∀ y, pfx (cur_dscr s) (Z.of_nat (last_level s)) y = y / PAGE_SIZE) as Hp.
  { intros y. unfold pfx. by rewrite Hl, off_last by done. }
  change (∀ y, pfx (cur_dscr s) (Z.of_nat (last_level s)) y = y / PAGE_SIZE) in Hp.
  pose proof (leaf_table_at _ m _ _ Htk va a _ Hl Hv Ha v Hm) as Htree.
  split_and!.
  - constructor.
    + constructor; [exact (leaf_tables_ok _ m _ _ Htk va a _ Hl Hv Ha v Hm)|apply Hs|].
      exact (leaf_unused _ m _ _ Htk va a _ Hl Hv Ha v Hm 0 (so_null _ Hs)).
    + repeat split.
    + done.
    + exact Htree.
    + split.
      * intros x Hx. change (m x = phys s x). rewrite Hm. case_decide as E; [|done]. destruct Hx. left.
        exists (last_level s), va, a. pose proof (entry_at_bounds _ Hd a (Z.of_nat (last_level s)) va ltac:(lia)) as Hb.
        rewrite <-pt_size_eq in Hb by (done || lia). split_and!; (done || lia).
      * intros x [(l & y & b & Hl' & Hy & Hb & Hx)|Hx]; [|by right]. left. exists l, y, b.
        split; [exact Hl'|]. split; [exact Hy|]. split; [|exact Hx]. rewrite <-Hb. symmetry. by apply Htree.
  - intros y Hy Hne. apply (leaf_translate_other _ m _ _ Htk va a _ Hl Hv Ha v Hm); [done|by rewrite !Hp].
  - intros y paddr flags Hy He Hev Hpa Hpa2. apply (leaf_translate_page _ m _ _ Htk va a _ Hl Hv Ha v Hm); try done; [apply Hs|by rewrite !Hp].
  - intros y Hy He Hinv. apply (leaf_translate_none _ m _ _ Htk va a _ Hl Hv Ha v Hm); [done|done|by rewrite !Hp].
Qed.

(** The attributes of a page mapped with [flags]. *)
Definition attrs (flags : Z) : Z := Z.land (Z.lor PTE_PAGE flags) PTE_FLAGS_MSK.

Lemma map_loop_ok flags b n : ∀ s vaddr i,
  space_ok s → 0 ≤ vaddr → vaddr mod PAGE_SIZE = 0 → vaddr + Z.of_nat n * PAGE_SIZE ≤ 2 ^ wdt (cur_dscr s) 0 →
  0 ≤ i → 0 ≤ b → b mod PAGE_SIZE = 0 → b + (i + Z.of_nat n) * PAGE_SIZE ≤ 2 ^ 48 →
  (∀ x, vaddr ≤ x < vaddr + Z.of_nat n * PAGE_SIZE → is_Some (tree s (last_level s) x)) →
  ∃ s', map_loop (cur_dscr s) b flags vaddr i n s = Done (tt, s') ∧ rewrites s s' ∧
    ∀ y, va_ok (cur_dscr s) y →
      maps s' y = if decide (vaddr ≤ y < vaddr + Z.of_nat n * PAGE_SIZE)
                  then Some (b + i * PAGE_SIZE + (y - vaddr), attrs flags) else maps s y.
Proof.
  induction n as [|n IH]; intros s vaddr i Hs Hva Hal Htop Hi Hb Hbal Hbt Hx.
  { exists s. split; [done|]. split; [by apply rewrites_refl|]. intros y Hy. case_decide; [lia|done]. }
  pose proof (so_tables _ Hs) as Htk. pose proof (tk_dscr _ _ _ Htk) as Hd. pose proof (last_level_eq s Hs) as Hl.
  assert (2 ^ wdt (cur_dscr s) 0 ≤ 2 ^ 48) by (apply Z.pow_le_mono_r; [lia|apply (do_wdt0 _ Hd)]).
  assert (va_ok (cur_dscr s) vaddr) as Hv by (unfold va_ok, PAGE_SIZE in *; lia).
  destruct (Hx vaddr ltac:(unfold PAGE_SIZE; lia)) as [a Ha]. destruct (tk_root _ _ _ Htk) as (R1 & R2 & _).
  cbn [map_loop]. rewrite bind_gets. rewrite <-Hl.
  rewrite (pt_get_pte_at (phys s) (cur_dscr s) (cur_root s) Hd (conj R1 R2) (last_level s) vaddr a) by (done || lia).
  change (entry_at _ a _ vaddr) with (entry s a (last_level s) vaddr).
  rewrite (wrap_small 64 (i * PAGE_SIZE)), (wrap_small 64 (b + _)), (wrap_small 64 (vaddr + _)) by (unfold PAGE_SIZE in *; lia).
  rewrite bind_store.
  destruct (store_leaf s vaddr a (pte_set (b + i * PAGE_SIZE) PTE_PAGE flags) Hs Hv Ha) as (Hrw & Hother & Hmap & _).
  set (s1 := s <| phys ::= _ |>) in *. destruct (same_frame_dscr _ _ (rw_frame _ _ Hrw)) as [Ed Er].
  assert (last_level s1 = last_level s) as Ell by (unfold last_level; by rewrite Ed).
  destruct (IH s1 (vaddr + PAGE_SIZE) (i + 1)) as (s2 & Hrun & Hrw2 & Hm2); rewrite ?Ed, ?Ell; try done; try (unfold PAGE_SIZE in *; lia).
  { apply (rw_space _ _ Hrw). }
  { rewrite <-Z.add_mod_idemp_l, Hal by done. done. }
  { intros x Hxr. rewrite (rw_tree _ _ Hrw); [apply Hx|lia|unfold va_ok]; unfold PAGE_SIZE in *; lia. }
  rewrite Ed in Hrun, Hm2. exists s2. split; [exact Hrun|]. split; [by eapply rewrites_trans|].
  intros y Hy. rewrite Hm2 by done.
  assert (vaddr = vaddr / PAGE_SIZE * PAGE_SIZE) as Hvd by (pose proof (Z.div_mod vaddr PAGE_SIZE); unfold PAGE_SIZE in *; lia).
  assert (vaddr / PAGE_SIZE = y / PAGE_SIZE ↔ vaddr ≤ y < vaddr + PAGE_SIZE) as Hpg by (unfold PAGE_SIZE in *; dlia).
  repeat case_decide; try (unfold PAGE_SIZE in *; lia).
  - f_equal. f_equal. lia.
  - rewrite (Hmap y (b + i * PAGE_SIZE) flags); [|done|apply Hpg; unfold PAGE_SIZE in *; lia|done|unfold PAGE_SIZE in *; lia|by rewrite Z.mod_add].
    f_equal. f_equal. unfold PAGE_SIZE in *. dlia.
  - apply Hother; [done|]. rewrite Hpg. unfold PAGE_SIZE in *. lia.
Qed.

Lemma page_down_eq va : 0 ≤ va < 2 ^ 64 → page_down va = va - va mod PAGE_SIZE.
Proof.
  intros Hva. unfold page_down. assert (va - va mod PAGE_SIZE = Z.shiftl (Z.shiftr va 12) 12) as ->.
  { rewrite Z.shiftl_mul_pow2, Z.shiftr_div_pow2 by lia. unfold PAGE_SIZE. dlia. }
  change (PAGE_SIZE - 1) with (Z.ones 12). word_bits. destruct (Z.leb_spec 0 i); [|lia].
  destruct (Z.ltb_spec i 64), (Z.ltb_spec i 12); simpl; rewrite ?andb_true_r, ?andb_false_r; try lia.
  - by rewrite (Z.testbit_neg_r _ (i - 12)) by lia.
  - rewrite testbit_shiftr by lia. f_equal. lia.
  - symmetry. rewrite testbit_shiftr by lia. apply (testbit_small 64); unfold in_word; lia.
Qed.

(** ** The lock *)

Definition with_lock (f : spinlock_t → spinlock_t) (s : mmu) : mmu := s <| space ::= λ a, a <| as_lock ::= f |> |>.

Lemma bind_lock_as {B} (k : unit → prog mmu B) s :
  lock_free (as_lock (space s)) → (lock_as ≫= k) s = k tt (with_lock lock_taken s).
Proof.
  intros Hl. unfold lock_as, lift_prog, mbind, prog_bind. unfold acquire.
  rewrite spin_lock_free by done. by destruct s as [? ? ? ? [] ? ? ?].
Qed.

Lemma run_unlock_as s : unlock_as s = Done (tt, with_lock spin_unlock s).
Proof. by destruct s as [? ? ? ? [] ? ? ?]. Qed.

(** Nothing but the lock itself depends on the lock. *)
Lemma with_lock_space f s : space_ok s → space_ok (with_lock f s).
Proof. intros [? ? ?]. by constructor. Qed.

Lemma with_lock_ready f k s : pages_ready k s → pages_ready k (with_lock f s).
Proof. intros [? ?]. by constructor. Qed.

(** ** Mapping pages *)

(** Covering the range and writing its entries, the part of [mem_map] under the lock. *)
Lemma map_pages_ok s k va n b flags :
  space_ok s → pages_ready k s → 0 ≤ va → va mod PAGE_SIZE = 0 → 1 ≤ n → va + n * PAGE_SIZE ≤ 2 ^ wdt (cur_dscr s) 0 →
  covers (cur_dscr s) va n → needed s n ≤ k → 0 ≤ b → b mod PAGE_SIZE = 0 → b + n * PAGE_SIZE ≤ 2 ^ 48 →
  ∃ s1 s', mem_inflate_pt va (n * PAGE_SIZE) s = Done (tt, s1) ∧
    map_loop (cur_dscr s) b flags va 0 (Z.to_nat n) s1 = Done (tt, s') ∧
    space_ok s' ∧ pages_ready (k - needed s n) s' ∧ same_frame s s1 ∧ same_frame s s' ∧ confined s s' ∧
    (∀ l y a, Z.of_nat l < lvls (cur_dscr s) → va_ok (cur_dscr s) y → tree s l y = Some a → tree s' l y = Some a) ∧
    ∀ y, va_ok (cur_dscr s) y →
      maps s' y = if decide (va ≤ y < va + n * PAGE_SIZE) then Some (b + (y - va), attrs flags) else maps s y.
Proof.
  intros Hs Hr Hva Hal Hn Htop Hc Hneed Hb Hbal Hbt.
  destruct (mem_inflate_pt_ok s k va n Hs Hr Hva Hn Htop Hc Hneed) as (s1 & Hrun1 & Hs1 & Hr1 & Hg1 & Ht1).
  destruct (same_frame_dscr _ _ (gr_frame _ _ Hg1)) as [Ed Er].
  assert (last_level s1 = last_level s) as Ell by (unfold last_level; by rewrite Ed).
  destruct (map_loop_ok flags b (Z.to_nat n) s1 va 0) as (s2 & Hrun2 & Hrw2 & Hm2); rewrite ?Ed, ?Ell, ?Z2Nat.id by lia; try done; try lia.
  rewrite Ed in Hrun2, Hm2. rewrite Z2Nat.id in Hm2 by lia. exists s1, s2. split; [done|]. split; [done|].
  split; [apply (rw_space _ _ Hrw2)|]. split; [by eapply rewrites_ready|]. split; [apply Hg1|].
  split; [eapply same_frame_trans; [apply Hg1|apply Hrw2]|].
  split; [eapply confined_trans; [apply Hg1|apply Hrw2]|]. split.
  - intros l y a Hl Hy Ha. rewrite (rw_tree _ _ Hrw2) by (rewrite Ed; done). by apply (gr_tree _ _ Hg1).
  - intros y Hy. rewrite Hm2 by done. case_decide; [f_equal; f_equal; lia|]. by apply (gr_maps _ _ Hg1).
Qed.

(** ** [mem_map] *)

(** The pages [mem_map] maps, and the pages the pool still has ready afterwards for tables. *)
Inductive pages_for (s : mmu) (k n : Z) : option ppages → Z → Z → Prop :=
| pages_given b : 0 ≤ b → b mod PAGE_SIZE = 0 → b + n * PAGE_SIZE ≤ 2 ^ 48 →
    pages_for s k n (Some {| pp_base := b; pp_nr_pages := n |}) b k
| pages_from_pool : skip n s + n ≤ k →
    pages_for s k n None (page_at s (last (pool s) + skip n s)) (k - skip n s - n).

Record mapping_ok (s : mmu) (va n : Z) : Prop := {
  mo_low : 0 ≤ va;
  mo_some : 1 ≤ n;
  mo_high : page_down va + n * PAGE_SIZE ≤ 2 ^ wdt (cur_dscr s) 0;
  mo_covers : covers (cur_dscr s) (page_down va) n
}.

Lemma set_pool_space s p : space_ok s → space_ok (s <| pool := p |>).
Proof. intros [? ? ?]. by constructor. Qed.

Lemma mem_map_ok s k va n pp b k' flags :
  space_ok s → lock_free (as_lock (space s)) → pages_ready k s → mapping_ok s va n → pages_for s k n pp b k' → needed s n ≤ k' →
  ∃ s', mem_map va pp n flags s = Done (true, s') ∧ space_ok s' ∧ lock_free (as_lock (space s')) ∧
    cur_dscr s' = cur_dscr s ∧ cur_root s' = cur_root s ∧
    base (pool s') = base (pool s) ∧ nr_pages (pool s') = nr_pages (pool s) ∧
    pages_ready (k' - needed s n) s' ∧ confined s s' ∧
    (∀ y, va_ok (cur_dscr s) y →
      maps s' y = if decide (page_down va ≤ y < page_down va + n * PAGE_SIZE)
                  then Some (b + (y - page_down va), attrs flags) else maps s y).
Proof.
  intros Hs Hlf Hr [Hlo Hn Hhi Hc] Hpp Hneed. pose proof (tk_dscr _ _ _ (so_tables _ Hs)) as Hd.
  assert (2 ^ wdt (cur_dscr s) 0 ≤ 2 ^ 48) as H48 by (apply Z.pow_le_mono_r; [lia|apply (do_wdt0 _ Hd)]).
  assert (0 ≤ page_down va ∧ page_down va mod PAGE_SIZE = 0) as [Hp1 Hp2].
  { unfold page_down. change (PAGE_SIZE - 1) with (Z.ones 12). split; [apply Z.land_nonneg; by left|].
    change PAGE_SIZE with (2 ^ 12). rewrite <-Z.land_ones, <-Z.land_assoc by lia.
    change (Z.land (u64 (Z.lnot (Z.ones 12))) (Z.ones 12)) with 0. apply Z.land_0_r. }
  set (v := page_down va) in *. assert (0 ≤ n * PAGE_SIZE) as Hn0 by (unfold PAGE_SIZE; lia).
  unfold mem_map. fold v. rewrite bind_lock_as by done.
  assert (∃ p1, let s1 := with_lock lock_taken s <| pool := p1 |> in
    (match pp with Some pp => mret pp | None => pages ← alloc_pages n false; if pp_nr_pages pages <? n then halt FError else mret pages end)
      (with_lock lock_taken s) = Done ({| pp_base := b; pp_nr_pages := n |}, s1) ∧
    base p1 = base (pool s) ∧ nr_pages p1 = nr_pages (pool s) ∧ last (pool s) ≤ last p1 ∧ pages_ready k' s1 ∧
    0 ≤ b ∧ b mod PAGE_SIZE = 0 ∧ b + n * PAGE_SIZE ≤ 2 ^ 48) as (p1 & Hrun1 & Eb & En & Elast & Hr1 & Hb1 & Hb2 & Hb3).
  { destruct Hpp as [b ? ? ?|Hk].
    - exists (pool s). split; [by destruct s|]. split_and!; try done. destruct s. apply (with_lock_ready lock_taken _ _ Hr).
    - destruct (alloc_pages_ready n k (with_lock lock_taken s)) as (p1 & Hrun & (? & ? & El) & Hr1);
        [by apply with_lock_ready|done|done|].
      exists p1. rewrite (prog_bind_done _ _ _ _ _ Hrun). cbn [pp_nr_pages]. rewrite Z.ltb_irrefl.
      split; [done|]. split; [done|]. split; [done|]. change (pool (with_lock lock_taken s)) with (pool s) in El.
      pose proof (Z.mod_pos_bound (last (pool s)) n ltac:(lia)). destruct Hr as [[Hpi ? Hra ? ? Hh] ?]. destruct Hpi.
      split; [lia|]. split; [exact Hr1|]. unfold skip in *. unfold page_at. split; [unfold PAGE_SIZE in *; lia|].
      split; [by rewrite Z.mod_add|]. unfold PAGE_SIZE in *. lia. }
  rewrite (prog_bind_done _ _ _ _ _ Hrun1). cbn [pp_base pp_nr_pages]. set (s1 := _ <| pool := p1 |>) in *.
  rewrite (wrap_small 64) by lia.
  destruct (map_pages_ok s1 k' v n b flags) as (s2 & s3 & Hrun2 & Hrun3 & Hs3 & Hr3 & Hf2 & Hf3 & [Hc1 Hc2] & _ & Hm); try done.
  { apply set_pool_space. by apply with_lock_space. }
  destruct (same_frame_dscr _ _ Hf2) as [Ed2 _]. destruct (same_frame_dscr _ _ Hf3) as [Ed3 Er3].
  rewrite (prog_bind_done _ _ _ _ _ Hrun2), bind_gets, Ed2, (prog_bind_done _ _ _ _ _ Hrun3).
  rewrite (prog_bind_done _ _ _ _ _ (run_unlock_as s3)), run_ret.
  exists (with_lock spin_unlock s3). split; [done|]. split; [by apply with_lock_space|].
  split.
  { change (lock_free (spin_unlock (as_lock (space s3)))). destruct Hf3 as (-> & _). apply (lock_cycle_free (as_lock (space s))). }
  split; [exact Ed3|]. split; [exact Er3|].
  destruct Hf3 as (_ & _ & _ & _ & Eb3 & En3). split; [by transitivity (base p1)|]. split; [by transitivity (nr_pages p1)|].
  split; [by apply with_lock_ready|]. split.
  { assert (∀ x, owned s1 x → owned s x) as Ho.
    { intros x [Hx|Hx]; [by left|right]. unfold s1, page_at, PAGE_SIZE in *. rsimpl_in Hx.
      change (pool (with_lock lock_taken s)) with (pool s) in Hx. rewrite Eb, En in Hx. lia. }
    split; [|intros x Hx; apply Ho, Hc2, Hx].
    intros x Hx. transitivity (phys s1 x); [|done]. apply Hc1. intros Hx1. by apply Hx, Ho. }
  intros y Hy. exact (Hm y Hy).
Qed.

(** ** Empty address spaces *)

Section empty.
  Context (m : memory) (d : page_table_dscr) (root : Z) (Hd : dscr_ok d).
  Context (Hroot : 0 ≤ root < 2 ^ 48 ∧ root mod PAGE_SIZE = 0 ∧ root mod pt_size d 0 = 0).
  Context (Hzero : ∀ x, root ≤ x < root + pt_size d 0 → m x = 0).

Lemma empty_entry va : m (entry_at d root 0 va) = 0.
Proof using Hd Hzero.
  pose proof (do_lvls d Hd). pose proof (entry_at_bounds d Hd root 0 va ltac:(lia)). apply Hzero.
  rewrite pt_size_eq by (done || lia). lia.
Qed.

Lemma empty_table l va a : table_at m d root l va = Some a → l = O ∧ a = root.
Proof using Hd Hzero.
  destruct l as [|l]; [by intros [= <-]|]. intros Ha. apply (table_at_le m d root 1 (S l)) in Ha as [b Hb]; [|lia].
  rewrite table_at_S in Hb. cbn [table_at mbind option_bind] in Hb. change (Z.of_nat 0) with 0 in Hb.
  rewrite empty_entry in Hb. unfold pte_table in Hb. by destruct (0 =? _).
Qed.

Lemma empty_tables_ok : tables_ok m d root.
Proof using All.
  constructor; [done|done| |].
  - intros l l' va va' a a' _ _ _ _ [-> ->]%empty_table [-> ->]%empty_table _ _. split; [done|by left].
  - intros l va a _ _ [-> ->]%empty_table. cbv zeta. change (Z.of_nat 0) with 0. rewrite empty_entry. done.
Qed.

Lemma empty_translate va : translate m d root va = None.
Proof using Hd Hzero.
  unfold translate. destruct (Z.to_nat (lvls d - 1)); cbn [walk]; by rewrite empty_entry.
Qed.

Lemma empty_unused f : f + PAGE_SIZE ≤ root ∨ root + pt_size d 0 ≤ f → unused m d root f.
Proof using Hd Hzero. intros Hf l va a _ _ [-> ->]%empty_table. change (Z.of_nat 0) with 0. lia. Qed.

End empty.

(** [as_init] without a table given, for a root table of one page. *)
Lemma as_init_ok s k type id :
  let d := dscr_of s (match type with AS_HYP | AS_HYP_CPY => hyp_pt_dscr | AS_VM => vm_pt_dscr end) in
  dscr_ok d → pt_lvl_terminal d (lvls d - 1) = true → pt_size d 0 = PAGE_SIZE → pool_ready k (pool s) → 1 ≤ k →
  ∃ s', as_init type id None s = Done (tt, s') ∧ space_ok s' ∧ lock_free (as_lock (space s')) ∧ pages_ready (k - 1) s' ∧
    cur_dscr s' = d ∧ as_type (space s') = type ∧ asid (space s') = id ∧
    (∀ va, maps s' va = None) ∧
    (∀ x, ¬ (page_at s (last (pool s)) ≤ x < page_at s (last (pool s) + 1)) → phys s' x = phys s x).
Proof.
  cbv zeta. set (r := match type with AS_HYP | AS_HYP_CPY => hyp_pt_dscr | AS_VM => vm_pt_dscr end).
  intros Hd Hterm Hsize Hr Hk. unfold as_init. rewrite !bind_modify. fold r.
  set (s0 := _ <| space ::= _ |>). assert (cur_dscr s0 = dscr_of s r) as Ed by done.
  assert (pool s0 = pool s) as Ep by done.
  assert (NUM_PAGES (pt_size (cur_dscr s0) 0) = 1) as Enum by (rewrite Ed, Hsize; done).
  destruct (alloc_pages_run 1 k s0 true Hr ltac:(by left) ltac:(lia)) as (p' & Hrun & (Eb & En & El) & Hr').
  { rewrite skip_1. lia. }
  rewrite skip_1 in Hrun, Hr'. rewrite Z.add_0_r, Z.sub_0_r in *. rewrite Z.mod_1_r in El.
  set (a := page_at s0 (last (pool s0))) in *.
  rewrite bind_bind, bind_gets, Enum, bind_bind, (prog_bind_done _ _ _ _ _ Hrun). cbn [pp_base].
  unfold zero_pages. rewrite bind_bind, bind_modify, bind_ret, run_modify.
  eexists. split; [reflexivity|]. set (s' := _ <| space ::= _ |>).
  assert (cur_dscr s' = dscr_of s r) as Ed' by done. assert (cur_root s' = a) as Er' by done.
  assert (∀ x, phys s' x = if (a <=? x) && (x <? a + 1 * PAGE_SIZE) then 0 else phys s x) as Hph by done.
  destruct Hr as [[_ _ Hb Hal [Hn Hsz] _] _ Hra _ _ Hh]. change (pool s0) with (pool s) in *.
  assert (a = base (pool s) + last (pool s) * PAGE_SIZE) as Ea by done.
  assert (PAGE_SIZE ≤ a ∧ a + PAGE_SIZE ≤ 2 ^ 48 ∧ a mod PAGE_SIZE = 0) as (Ha1 & Ha2 & Ha3).
  { rewrite Ea. split_and!; [unfold PAGE_SIZE in *; lia..|by rewrite Z.mod_add]. }
  assert (∀ x, a ≤ x < a + pt_size (dscr_of s r) 0 → phys s' x = 0) as Hz.
  { intros x Hx. rewrite Hph. rewrite Hsize in Hx. destruct (Z.leb_spec a x); [|lia]. by destruct (Z.ltb_spec x (a + 1 * PAGE_SIZE)); [|lia]. }
  assert (0 ≤ a < 2 ^ 48) as Ha0 by (unfold PAGE_SIZE in *; lia).
  split_and!.
  - constructor; rewrite Ed'; [|done|]; rewrite Er'.
    + apply empty_tables_ok; [done|rewrite Hsize; done|done].
    + apply empty_unused; [done|done|]. left. unfold PAGE_SIZE in *. lia.
  - by split.
  - split; [exact Hr'|]. rewrite Ed', Er'. intros i Hi. apply empty_unused; [done|done|]. right. rewrite Hsize.
    change (pool s') with p' in Hi. unfold page_at. change (pool s') with p'. rewrite Eb, Ea. rewrite El in Hi. unfold PAGE_SIZE in *. lia.
  - done.
  - done.
  - done.
  - intros va. unfold maps. rewrite Ed', Er'. by apply empty_translate.
  - intros x Hx. rewrite Hph. unfold page_at in Hx. destruct (Z.leb_spec a x), (Z.ltb_spec x (a + 1 * PAGE_SIZE)); try done.
    exfalso. unfold PAGE_SIZE in *. lia.
Qed.

(** ** Other address spaces *)

(** A set of tables that no operation on [s] may write: none of their words is owned by [s]. *)
Record apart (s : mmu) (d : page_table_dscr) (root : Z) : Prop := {
  ap_dscr : dscr_ok d;
  ap_words : ∀ l va a x, Z.of_nat l < lvls d → va_ok d va → table_at (phys s) d root l va = Some a →
    a ≤ x < a + pt_size d (Z.of_nat l) → ¬ owned s x
}.

Lemma apart_confined s s' d root :
  apart s d root → confined s s' →
  apart s' d root ∧ (∀ va, va_ok d va → translate (phys s') d root va = translate (phys s) d root va).
Proof.
  intros [Hd Hw] [Hc1 Hc2].
  assert (∀ l va a, Z.of_nat l < lvls d → va_ok d va → table_at (phys s) d root l va = Some a →
    phys s' (entry_at d a (Z.of_nat l) va) = phys s (entry_at d a (Z.of_nat l) va)) as He.
  { intros l va a Hl Hv Ha. apply Hc1. apply (Hw l va a); [done..|].
    pose proof (entry_at_bounds d Hd a (Z.of_nat l) va ltac:(lia)). rewrite pt_size_eq by (done || lia). lia. }
  assert (∀ l va, Z.of_nat l < lvls d → va_ok d va → table_at (phys s') d root l va = table_at (phys s) d root l va) as Ht.
  { intros l va Hl Hv. apply table_at_ext. intros j a Hj Ha. apply He; [lia|done|done]. }
  pose proof (do_lvls d Hd). split.
  - constructor; [done|]. intros l va a x Hl Hv Ha Hx Ho. rewrite Ht in Ha by done. by apply (Hw l va a x), Hc2.
  - intros va Hv. unfold translate. apply (walk_ext _ _ _ _ root 0 _ root); [|done]. intros j a Hj Ha. apply He; [lia|done|done].
Qed.

(** ** A sample address space *)

Definition fresh_pool : page_pool :=
  {| base := 0x50000000; nr_pages := 64; free := 64; last := 0; bitmap := λ _, 0; pool_lock := SPINLOCK_INITVAL |}.

Lemma fresh_pool_ready : pool_ready 64 fresh_pool.
Proof.
  constructor; try (done || by split).
  intros j Hj. exact (Z.testbit_0_l _).
Qed.

Definition blank : mmu :=
  {| phys := λ _, 0; pool := fresh_pool; hyp_dscr := armv8_pt_dscr; vm_dscr := armv8_pt_s2_dscr;
     space := {| pt_root := 0; pt_dscr := hyp_pt_dscr; as_type := AS_HYP; asid := 0; as_lock := SPINLOCK_INITVAL |};
     cur_as := (AS_VM, 1); vttbr := 0; tlb := [] |}.

(** The address space of VM 1 after [as_init]. *)
Definition vm1 : mmu := match as_init AS_VM 1 None blank with Done (_, s) => s | Halt _ => blank end.

Lemma vm1_ok : space_ok vm1 ∧ lock_free (as_lock (space vm1)) ∧ pages_ready 63 vm1 ∧ cur_dscr vm1 = armv8_pt_s2_dscr ∧
  (∀ va, maps vm1 va = None).
Proof.
  destruct (as_init_ok blank 64 AS_VM 1) as (s' & Hrun & H1 & H2 & H3 & H4 & _ & _ & H5 & _);
    [apply armv8_pt_dscr_ok|done|done|apply fresh_pool_ready|done|].
  unfold vm1. rewrite Hrun. split; [exact H1|]. split; [exact H2|]. split; [exact H3|]. split; [exact H4|exact H5].
Qed.

(** ** Properties *)


Lemma vm1_mapping : mapping_ok vm1 0x40000000 4.
Proof.
  destruct vm1_ok as (_ & _ & _ & Ed & _). constructor; [done|done|rewrite Ed; vm_compute; done|].
  rewrite Ed. intros l Hl. change (lvls armv8_pt_s2_dscr) with 4 in Hl. assert (l = 0 ∨ l = 1 ∨ l = 2) as [-> | [-> | ->]] by lia; vm_compute; done.
Qed.



(** The root table of another VM, outside the pool and empty. *)
Lemma vm1_zero w : phys vm1 w = 0.
Proof.
  change (phys vm1 w) with (if (0x50000000 <=? w) && (w <? 0x50000000 + 1 * PAGE_SIZE) then 0 else 0). by destruct (_ && _).
Qed.

Lemma vm1_apart : apart vm1 armv8_pt_s2_dscr 0x60000000.
Proof.
  constructor; [apply armv8_pt_dscr_ok|]. intros l va a x _ _ Ha Hx Ho.
  apply (empty_table _ _ _ armv8_pt_dscr_ok) in Ha as [-> ->]; [|intros; apply vm1_zero].
  change (pt_size armv8_pt_s2_dscr (Z.of_nat 0)) with PAGE_SIZE in Hx.
  destruct Ho as [(j & y & c & _ & _ & Hc & Hx')|Hx'].
  - destruct vm1_ok as (_ & _ & _ & Ed & _). rewrite Ed in Hx'. unfold tree in Hc. rewrite Ed in Hc.
    apply (empty_table _ _ _ armv8_pt_dscr_ok) in Hc as [-> ->]; [|intros; apply vm1_zero].
    assert (cur_root vm1 = 0x50000000) as Er by (vm_compute; done). rewrite Er in Hx'.
    change (pt_size armv8_pt_s2_dscr (Z.of_nat 0)) with PAGE_SIZE in Hx'. unfold PAGE_SIZE in *. lia.
  - assert (page_at vm1 (last (pool vm1)) = 0x50001000 ∧ page_at vm1 (nr_pages (pool vm1)) = 0x50040000) as [E1 E2] by (vm_compute; done).
    rewrite E1, E2 in Hx'. unfold PAGE_SIZE in *. lia.
Qed.


(** [mem_inflate_pt] steps from the first address and not from the start of its entry, so it can
    miss the last table of a range: mapping two pages on both sides of a 2 MB boundary reports
    success, but the second page is not mapped and its entry is written through the invalid entry
    above it, to physical address 0. *)
Theorem mem_map_misses_table :
  match mem_map 0x1ff000 (Some {| pp_base := 0x70000000; pp_nr_pages := 2 |}) 2 PTE_VM_FLAGS vm1 with
  | Done (ok, s) => ok = true ∧ maps s 0x1ff000 = Some (0x70000000, attrs PTE_VM_FLAGS) ∧ maps s 0x200000 = None ∧
      phys vm1 0 = 0 ∧ phys s 0 = pte_set 0x70001000 PTE_PAGE PTE_VM_FLAGS
  | Halt _ => False
  end.
Proof. vm_compute. by repeat split. Qed.
