(* ===== verification/Cpu.v ===== *)
(** * Physical CPUs: src/core/inc/cpu.h, the atomics of src/lib/inc/atomic.h

    The per-CPU structure and the synchronisation barrier.  [cpu_sync_barrier] is modelled twice:
    as one CPU runs it on its own, and as the interleaving of the atomic increment and the
    polling loop of several CPUs.  [cpu_sync_and_clear_msgs] is modelled as an interleaving
    too, because its increment and its reading of the counter are separate accesses. *)
From S2P Require Import Prelude Util.

(** The int of [atomic_t]. *)
Definition atomic_t := Z.
Definition s32 (z : Z) : Z := signed 32 (wrap 32 z).
Definition atomic_read (v : atomic_t) : Z := v.
Definition atomic_set (v : atomic_t) (i : Z) : atomic_t := i.
Definition atomic_add (i : Z) (v : atomic_t) : atomic_t := s32 (v + i).
Definition atomic_add_return (i : Z) (v : atomic_t) : Z * atomic_t := (s32 (v + i), s32 (v + i)).
Definition atomic_inc_return (v : atomic_t) : Z * atomic_t := atomic_add_return 1 v.

Record cpu_synctoken := { ready : bool; n : Z; count : atomic_t }.
#[export] Instance eta_synctoken : Eta cpu_synctoken := λ t, Build_cpu_synctoken (ready t) (n t) (count t).

(** What the hypervisor keeps per physical CPU; [sr_vttbr] and [sr_vmpidr] are the system
    registers VTTBR_EL2 and VMPIDR_EL2 of that CPU.  [vcpu] and [rqnode] point into the tables
    of virtual CPUs and run queue nodes. *)
Record cpu := {
  cpu_id : Z;
  handling_msgs : bool;
  cpu_vcpu : option Z;
  cpu_mpidr : Z;
  cpu_rqnode : option Z;
  flag : Z;
  sr_vttbr : Z;
  sr_vmpidr : Z
}.
#[export] Instance eta_cpu : Eta cpu := λ c,
  Build_cpu (cpu_id c) (handling_msgs c) (cpu_vcpu c) (cpu_mpidr c) (cpu_rqnode c) (flag c)
    (sr_vttbr c) (sr_vmpidr c).

Definition CPU_MASTER : Z := 0.

(** ** The barrier, on one CPU *)

Definition cpu_sync_init (token : cpu_synctoken) (nr : Z) : cpu_synctoken :=
  let token := token <| n := s32 nr |> in
  let token := token <| count := atomic_set (count token) 0 |> in
  token <| ready := true |>.

(** The counter value the [val]-th arrival waits for; [/] is C's division of ints. *)
Definition barrier_exp (val nr : Z) : Z := ((val - 1) `quot` nr + 1) * nr.

(** With nobody else running, a barrier that is not complete spins for ever. *)
Definition cpu_sync_barrier (token : cpu_synctoken) : outcome cpu_synctoken :=
  if negb (ready token) then Halt FSpin else
  let '(val, c) := atomic_inc_return (count token) in
  let token := token <| count := c |> in
  let exp_v := barrier_exp val (n token) in
  if atomic_read (count token) <? exp_v then Halt FSpin else Done token.

(** ** The barrier, interleaved *)

(** Where a CPU is: outside after [k] barriers, or polling in its [k+1]-st until the counter
    reaches [e]. *)
Inductive bphase :=
| BRun (k : Z)
| BWait (k e : Z).

#[export] Instance bphase_eq_dec : EqDecision bphase.
Proof. solve_decision. Defined.

Record barrier_sys := { token : cpu_synctoken; bphases : list bphase }.

Inductive barrier_step : barrier_sys → barrier_sys → Prop :=
| step_arrive t ph c k :
    ph !! c = Some (BRun k) → ready t = true →
    barrier_step {| token := t; bphases := ph |}
      {| token := t <| count := (atomic_inc_return (count t)).2 |>;
         bphases := <[c := BWait k (barrier_exp (atomic_inc_return (count t)).1 (n t))]> ph |}
| step_leave t ph c k e :
    ph !! c = Some (BWait k e) → ¬ atomic_read (count t) < e →
    barrier_step {| token := t; bphases := ph |}
      {| token := t; bphases := <[c := BRun (k + 1)]> ph |}.

(** The token just initialised for [nr] CPUs. *)
Definition barrier_start (nr : nat) : barrier_sys :=
  {| token := cpu_sync_init {| ready := false; n := 0; count := 0 |} (Z.of_nat nr);
     bphases := replicate nr (BRun 0) |}.

(** Barriers a CPU has arrived at. *)
Definition arrivals (p : bphase) : Z := match p with BRun k => k | BWait k _ => k + 1 end.

(** [r] complete rounds, [a] CPUs in the next one. *)
Definition in_round (r nr : Z) (p : bphase) : Prop :=
  p = BRun r ∨ p = BWait (r - 1) (r * nr) ∨ p = BWait r ((r + 1) * nr).

Record barrier_inv (nr r a : Z) (sys : barrier_sys) : Prop := {
  binv_few : 0 < nr < 2 ^ 31;
  binv_len : Z.of_nat (length (bphases sys)) = nr;
  binv_ready : ready (token sys) = true;
  binv_n : n (token sys) = nr;
  binv_count : count (token sys) = r * nr + a;
  binv_r : 0 ≤ r;
  binv_a : a = Z.of_nat (length (filter (λ p, p = BWait r ((r + 1) * nr)) (bphases sys)));
  binv_lt : a < nr;
  binv_phase : ∀ c p, bphases sys !! c = Some p → in_round r nr p
}.

Lemma s32_small z : - 2 ^ 31 ≤ z < 2 ^ 31 → s32 z = z.
Proof.
  intros. unfold s32, signed, wrap. change (32 - 1) with 31. zcase; dlia.
Qed.

Lemma barrier_exp_round r nr a :
  0 < nr → 0 ≤ r → 0 ≤ a < nr → barrier_exp (r * nr + a + 1) nr = (r + 1) * nr.
Proof.
  intros. unfold barrier_exp. replace (r * nr + a + 1 - 1) with (a + r * nr) by lia.
  rewrite Z.quot_div_nonneg by nia. rewrite Z.div_add by lia. rewrite Z.div_small by lia. lia.
Qed.

Lemma barrier_start_inv nr :
  (0 < nr)%nat → Z.of_nat nr < 2 ^ 31 → barrier_inv (Z.of_nat nr) 0 0 (barrier_start nr).
Proof.
  intros Hn Hb. unfold barrier_start. constructor; simpl; rewrite ?length_replicate; try lia; try done.
  - unfold cpu_sync_init. rsimpl. apply s32_small. lia.
  - assert (∀ k, length (filter (λ p, p = BWait 0 ((0 + 1) * Z.of_nat nr)) (replicate k (BRun 0))) = 0%nat) as ->; [|done].
    induction k as [|k IH]; [done|]. simpl. rewrite filter_cons. by case_decide.
  - intros c p [-> _]%lookup_replicate. by left.
Qed.

(** One more arrival: it completes the round or not. *)
Lemma barrier_arrive nr r a t ph c k :
  barrier_inv nr r a {| token := t; bphases := ph |} →
  ph !! c = Some (BRun k) → r * nr + a + 1 < 2 ^ 31 →
  let sys' := {| token := t <| count := (atomic_inc_return (count t)).2 |>;
      bphases := <[c := BWait k (barrier_exp (atomic_inc_return (count t)).1 (n t))]> ph |} in
  ∃ r' a', barrier_inv nr r' a' sys' ∧ r' * nr + a' = r * nr + a + 1.
Proof.
  intros [Hf Hl Hr Hn Hc Hr0 Ha Hlt Hp] Hk Hb sys'. simpl in *.
  assert (k = r) as -> by (destruct (Hp c _ Hk) as [|[|]]; congruence).
  assert (s32 (count t + 1) = r * nr + a + 1) as Hs by (rewrite s32_small; lia).
  pose proof (length_filter_insert (λ p, p = BWait r ((r + 1) * nr)) ph c _
    (BWait r ((r + 1) * nr)) Hk) as Hcnt.
  rewrite decide_False, decide_True in Hcnt by done.
  assert (bphases sys' = <[c := BWait r ((r + 1) * nr)]> ph) as Hph.
  { unfold sys'. simpl. by rewrite Hs, Hn, barrier_exp_round by lia. }
  assert (count (token sys') = r * nr + a + 1) as Hc' by (unfold sys'; simpl; rsimpl; done).
  assert (∀ c' p, bphases sys' !! c' = Some p → in_round r nr p) as Hp'.
  { rewrite Hph. intros c' p [(-> & <- & _)|[_ ?]]%list_lookup_insert_Some; [|eauto].
    right. by right. }
  destruct (decide (a + 1 = nr)) as [Hfull|Hmore].
  - exists (r + 1), 0. split; [|lia].
    assert (Forall (λ p, p = BWait r ((r + 1) * nr)) (bphases sys')) as Hall.
    { apply (filter_full _). rewrite Hph, length_insert. lia. }
    constructor; rewrite ?Hc'; try (unfold sys'; simpl; rsimpl; done || lia).
    + by rewrite Hph, length_insert.
    + assert (∀ l, Forall (λ p, p = BWait r ((r + 1) * nr)) l →
        length (filter (λ p, p = BWait (r + 1) ((r + 1 + 1) * nr)) l) = 0%nat) as Hz.
      { induction 1 as [|p l -> _ IH]; [done|]. rewrite filter_cons, decide_False; [done|].
        intros [=]; lia. }
      by rewrite Hz.
    + intros c' p Hc1. rewrite Forall_lookup in Hall. rewrite (Hall c' p Hc1).
      right. left. f_equal; lia.
  - exists r, (a + 1). split; [|lia].
    constructor; rewrite ?Hc'; try (unfold sys'; simpl; rsimpl; done || lia).
    + by rewrite Hph, length_insert.
    + rewrite Hph. lia.
Qed.

Lemma barrier_leave nr r a t ph c k e :
  barrier_inv nr r a {| token := t; bphases := ph |} →
  ph !! c = Some (BWait k e) → ¬ atomic_read (count t) < e →
  barrier_inv nr r a {| token := t; bphases := <[c := BRun (k + 1)]> ph |}.
Proof.
  intros [Hf Hl Hr Hn Hc Hr0 Ha Hlt Hp] Hk He. simpl in *. unfold atomic_read in He.
  assert (k = r - 1 ∧ e = r * nr) as [-> ->].
  { destruct (Hp c _ Hk) as [|[[= -> ->]|[= -> ->]]]; [done|done|]. lia. }
  pose proof (length_filter_insert (λ p, p = BWait r ((r + 1) * nr)) ph c _
    (BRun (r - 1 + 1)) Hk) as Hcnt.
  rewrite !decide_False in Hcnt by (try done; intros [=]; lia).
  constructor; simpl; try done; [by rewrite length_insert|lia|].
  intros c' p [(-> & <- & _)|[_ ?]]%list_lookup_insert_Some; [|eauto].
  left. f_equal. lia.
Qed.

(** Total arrivals, which the counter counts. *)
Definition barrier_reachable (nr : nat) (sys : barrier_sys) : Prop :=
  rtc (λ s s', barrier_step s s' ∧ count (token s) < 2 ^ 31 - 1) (barrier_start nr) sys.

Lemma barrier_reachable_inv nr sys :
  (0 < nr)%nat → Z.of_nat nr < 2 ^ 31 → barrier_reachable nr sys →
  ∃ r a, barrier_inv (Z.of_nat nr) r a sys.
Proof.
  intros Hn Hb Hr. pose proof (barrier_start_inv nr Hn Hb) as H0. revert H0.
  generalize 0 at 2 as a. generalize 0 as r.
  induction Hr as [s|s1 s2 s3 [Hs Hlt] Hr IH]; [eauto|]. intros r a Hi.
  destruct Hs as [t ph c k Hk Hrd|t ph c k e Hk He].
  - pose proof Hi as [_ _ _ _ Hc _ _ _ _]. simpl in *.
    destruct (barrier_arrive (Z.of_nat nr) r a t ph c k Hi Hk) as (r' & a' & Hi' & _); [lia|].
    by apply (IH r' a').
  - apply (IH r a). eapply barrier_leave; eauto.
Qed.

(** C12: the barrier synchronises.  While the arrivals fit an int, a CPU that has left its [k]-th
    barrier implies that every CPU has arrived at its own [k]-th. *)
Theorem cpu_sync_barrier_safe nr sys c1 c2 k p :
  (0 < nr)%nat → Z.of_nat nr < 2 ^ 31 → barrier_reachable nr sys →
  bphases sys !! c1 = Some (BRun k) → bphases sys !! c2 = Some p → k ≤ arrivals p.
Proof.
  intros Hn Hb Hr H1 H2. destruct (barrier_reachable_inv nr sys Hn Hb Hr) as (r & a & Hi).
  pose proof (binv_phase _ _ _ _ Hi _ _ H1) as P1.
  pose proof (binv_phase _ _ _ _ Hi _ _ H2) as P2.
  destruct P1 as [[= ->]|[|]]; [|done|done].
  destruct P2 as [->|[->| ->]]; simpl; lia.
Qed.

Lemma cpu_sync_barrier_safe_witness :
  ∃ sys, barrier_reachable 2 sys ∧ bphases sys !! 0%nat = Some (BRun 1) ∧ 1 ≤ arrivals (BWait 0 2).
Proof.
  eexists {| token := {| ready := true; n := 2; count := 2 |}; bphases := [BRun 1; BWait 0 2] |}.
  assert (barrier_reachable 2
    {| token := {| ready := true; n := 2; count := 2 |}; bphases := [BRun 1; BWait 0 2] |}) as Hr.
  { eapply rtc_l; [split; [apply (step_arrive _ _ 0%nat 0); done|done]|].
    eapply rtc_l; [split; [apply (step_arrive _ _ 1%nat 0); done|done]|].
    eapply rtc_l; [split; [apply (step_leave _ _ 0%nat 0 2); [done|by vm_compute]|done]|].
    apply rtc_refl. }
  split; [exact Hr|]. split; [done|].
  apply (cpu_sync_barrier_safe 2 _ 0%nat 1%nat 1 (BWait 0 2) ltac:(lia) ltac:(lia) Hr); done.
Defined.

(** ** Waiting while handling messages

    [cpu_sync_and_clear_msgs]: a barrier, then an [atomic_add], then a separate [atomic_read]
    whose value, rounded up to a multiple of [n], is polled for, then a second barrier.  The
    messages handled while polling do not touch the token. *)
Inductive clear_phase :=
| CEnter              (* about to arrive at the first barrier *)
| CBar1 (e : Z)       (* polling in the first barrier *)
| CAdd                (* about to increment *)
| CRead               (* incremented, about to read the counter *)
| CPoll (nx : Z)      (* polling for [next_count] *)
| CArrive             (* about to arrive at the second barrier *)
| CBar2 (e : Z)
| CDone.

Record clear_sys := { ctoken : cpu_synctoken; cphases : list clear_phase }.

Definition arrive (t : cpu_synctoken) : cpu_synctoken * Z :=
  let '(val, c) := atomic_inc_return (count t) in
  (t <| count := c |>, barrier_exp val (n t)).

Inductive clear_step : clear_sys → clear_sys → Prop :=
| clear_enter t ph c :
    ph !! c = Some CEnter → ready t = true →
    clear_step {| ctoken := t; cphases := ph |}
      {| ctoken := (arrive t).1; cphases := <[c := CBar1 (arrive t).2]> ph |}
| clear_bar1 t ph c e :
    ph !! c = Some (CBar1 e) → ¬ atomic_read (count t) < e →
    clear_step {| ctoken := t; cphases := ph |} {| ctoken := t; cphases := <[c := CAdd]> ph |}
| clear_add t ph c :
    ph !! c = Some CAdd → ready t = true →
    clear_step {| ctoken := t; cphases := ph |}
      {| ctoken := t <| count ::= atomic_add 1 |>; cphases := <[c := CRead]> ph |}
| clear_read t ph c :
    ph !! c = Some CRead →
    clear_step {| ctoken := t; cphases := ph |}
      {| ctoken := t; cphases := <[c := CPoll (ALIGN 32 (atomic_read (count t)) (n t))]> ph |}
| clear_poll t ph c nx :
    ph !! c = Some (CPoll nx) → ¬ atomic_read (count t) < nx →
    clear_step {| ctoken := t; cphases := ph |} {| ctoken := t; cphases := <[c := CArrive]> ph |}
| clear_arrive t ph c :
    ph !! c = Some CArrive → ready t = true →
    clear_step {| ctoken := t; cphases := ph |}
      {| ctoken := (arrive t).1; cphases := <[c := CBar2 (arrive t).2]> ph |}
| clear_bar2 t ph c e :
    ph !! c = Some (CBar2 e) → ¬ atomic_read (count t) < e →
    clear_step {| ctoken := t; cphases := ph |} {| ctoken := t; cphases := <[c := CDone]> ph |}.

Definition clear_start (nr : nat) : clear_sys :=
  {| ctoken := token (barrier_start nr); cphases := replicate nr CEnter |}.

(** CPU 0 increments last but is overtaken before it reads the counter: CPU 1 has already
    arrived at the second barrier, and CPU 0 rounds the counter up to a value nobody is left
    to reach. *)
Definition clear_stuck : clear_sys :=
  {| ctoken := {| ready := true; n := 2; count := 5 |}; cphases := [CPoll 6; CBar2 6] |}.

(** [cpu_sync_and_clear_msgs] can deadlock, because the increment and the reading of the
    counter are not one atomic access: two CPUs can reach a state where neither has finished and
    neither can ever move. *)
Theorem cpu_sync_and_clear_msgs_deadlock :
  ∃ sys, rtc clear_step (clear_start 2) sys ∧ (CDone ∉ cphases sys) ∧ ∀ sys', ¬ clear_step sys sys'.
Proof.
  exists clear_stuck. split; [|split].
  - eapply rtc_l; [apply (clear_enter _ _ 0%nat); done|].
    eapply rtc_l; [apply (clear_enter _ _ 1%nat); done|].
    eapply rtc_l; [apply (clear_bar1 _ _ 0%nat 2); [done|by vm_compute]|].
    eapply rtc_l; [apply (clear_bar1 _ _ 1%nat 2); [done|by vm_compute]|].
    eapply rtc_l; [apply (clear_add _ _ 1%nat); done|].
    eapply rtc_l; [apply (clear_add _ _ 0%nat); done|].
    eapply rtc_l; [apply (clear_read _ _ 1%nat); done|].
    eapply rtc_l; [apply (clear_poll _ _ 1%nat 4); [done|by vm_compute]|].
    eapply rtc_l; [apply (clear_arrive _ _ 1%nat); done|].
    eapply rtc_l; [apply (clear_read _ _ 0%nat); done|].
    apply rtc_refl.
  - set_solver.
  - intros sys' Hs. unfold clear_stuck in Hs.
    inversion Hs; subst; repeat match goal with
    | H : _ !! ?c = Some _ |- _ => destruct c as [|[|c]]; simplify_eq/=
    end; unfold atomic_read in *; simpl in *; lia.
Qed.
