(* ===== verification/Printk.v ===== *)
(** * Printing: src/lib/printk.c, src/core/console.c, the output functions of
    src/arch/aarch64/uart.c

    A format is the list of its characters up to the terminating zero, [va_list] the list of the
    64-bit slots the arguments are in; the characters stored from [buf] on are the result.  Reading
    past the terminator or past the arguments, and storing past [print_buffer], are faults. *)
From S2P Require Import Prelude Spinlock MemString Cpu.

Definition PRINT_TEXT_LEN : Z := 0x100.

Definition char_percent : Z := 0x25.
Definition char_0 : Z := 0x30.
Definition char_l : Z := 0x6c.
Definition char_x : Z := 0x78.
Definition char_u : Z := 0x75.
Definition char_i : Z := 0x69.
Definition char_d : Z := 0x64.
Definition char_s : Z := 0x73.
Definition char_c : Z := 0x63.
Definition char_tab : Z := 9.
Definition char_nl : Z := 10.
Definition char_cr : Z := 13.

(** ** Directives *)

(** [%x]: the digits from the top, [keep] says that one was not zero. *)
Definition hex_char (byte : Z) : Z := if (0 <=? byte) && (byte <=? 9) then u8 (byte + 0x30) else u8 (byte + (0x61 - 0xa)).

Fixpoint hex_loop (number length length_in_bits i : Z) (keep zero_padding : bool) (n : nat) : list Z :=
  match n with
  | O => []
  | S n =>
      let byte := u8 (Z.shiftr number (length_in_bits - (i + 1) * 4)) in
      let byte := Z.land byte 0xF in
      let keep := if negb (byte =? 0) || (i =? length - 1) then true else keep in
      (if keep || zero_padding then [hex_char byte] else []) ++ hex_loop number length length_in_bits (i + 1) keep zero_padding n
  end.

(** [while (number >= div) { number -= div; ++q; }]: the fuel is the number of rounds. *)
Fixpoint sub_loop (number div q : Z) (n : nat) : Z * Z :=
  match n with
  | O => (number, q)
  | S n => if div <=? number then sub_loop (number - div) div (q + 1) n else (number, q)
  end.

(** [while (j < max_num_zeros - 1) { new_div_val *= 10; j++; }]. *)
Fixpoint mul_loop (new_div j : Z) (n : nat) : Z :=
  match n with
  | O => new_div
  | S n => if j <? 9 - 1 then mul_loop (new_div * 10) (j + 1) n else new_div
  end.

(** The digits of [number] but the last, which is what is left of it. *)
Fixpoint dec_loop (number div i : Z) (keep zero_padding : bool) (n : nat) : list Z * Z :=
  match n with
  | O => ([], number)
  | S n =>
      let '(number, q) := sub_loop number div 0 (Z.to_nat (number / div)) in
      let keep := if negb (q =? 0) then true else keep in
      let out := if keep || zero_padding then [u8 (q + 0x30)] else [] in
      let '(rest, number) := dec_loop number (mul_loop 1 i (Z.to_nat 9)) (i + 1) keep zero_padding n in
      (out ++ rest, number)
  end.

Definition print_dec (number : Z) (zero_padding : bool) : list Z :=
  let '(out, number) := dec_loop number 1000000000 0 false zero_padding 9 in out ++ [u8 (number + 0x30)].

Definition print_signed (z : Z) (zero_padding : bool) : list Z :=
  if z <? 0 then 0x2d :: print_dec (u64 (- z)) zero_padding else print_dec z zero_padding.

(** [%s]: [len] counts the format and the characters of all strings. *)
Fixpoint str_loop (m : bytes) (arg_string len : Z) (n : nat) : list Z * Z :=
  match n with
  | O => ([], len)
  | S n =>
      if negb (m arg_string =? 0) && (len <? PRINT_TEXT_LEN) then
        let '(out, len') := str_loop m (arg_string + 1) (len + 1) n in (m arg_string :: out, len')
      else ([], len)
  end.

(** The next argument. *)
Definition va_arg (args : list Z) : outcome (Z * list Z) :=
  match args with a :: args => Done (a, args) | [] => Halt FBounds end.

(** The [switch] on the character after the flags: what is stored, the arguments left and [len]. *)
Definition directive (m : bytes) (c : Z) (zero_padding is_long : bool) (args : list Z) (len : Z) : outcome (list Z * list Z * Z) :=
  if c =? char_x then
    '(a, args) ← va_arg args;
    let number := if is_long then a else u32 a in
    let length := if is_long then 16 else 8 in
    mret (hex_loop number length (if is_long then 64 else 32) 0 false zero_padding (Z.to_nat length), args, len)
  else if c =? char_u then
    '(a, args) ← va_arg args;
    mret (print_dec (if is_long then a else u32 a) zero_padding, args, len)
  else if (c =? char_i) || (c =? char_d) then
    '(a, args) ← va_arg args;
    mret (print_signed (if is_long then signed 64 a else s32 a) zero_padding, args, len)
  else if c =? char_s then
    '(a, args) ← va_arg args;
    let '(out, len) := str_loop m a len (Z.to_nat (PRINT_TEXT_LEN - len)) in mret (out, args, len)
  else if c =? char_c then
    '(a, args) ← va_arg args; mret ([u8 a], args, len)
  else if c =? char_percent then mret ([char_percent], args, len)
  else if c =? char_tab then mret ([char_percent; char_tab], args, len)
  else if c =? char_nl then mret ([char_percent; char_cr; char_nl], args, len)
  else mret ([], args, len).

(** The two tests at the end of a round. *)
Definition print_tail (c : Z) : list Z :=
  (if c =? char_nl then [char_cr; char_nl] else []) ++ (if c =? char_tab then [char_tab] else []).

Definition is_flag (f : Z) (fmt : list Z) : bool := match fmt with c :: _ => c =? f | [] => false end.

(** The loop over the format. *)
Fixpoint format_loop (m : bytes) (fmt args : list Z) (len : Z) (n : nat) : outcome (list Z) :=
  match n, fmt with
  | O, _ | _, [] => Done []
  | S n, c :: fmt =>
      if negb (c =? char_percent) && negb (c =? char_nl) && negb (c =? char_tab) then
        out ← format_loop m fmt args len n; mret (c :: out)
      else if c =? char_percent then
        let zero_padding := is_flag char_0 fmt in
        let fmt := if zero_padding then tail fmt else fmt in
        let is_long := is_flag char_l fmt in
        let fmt := if is_long then tail fmt else fmt in
        match fmt with
        | [] => Halt FBounds
        | c :: fmt =>
            '(out, args, len) ← directive m c zero_padding is_long args len;
            rest ← format_loop m fmt args len n;
            mret (out ++ print_tail c ++ rest)
        end
      else
        rest ← format_loop m fmt args len n; mret (print_tail c ++ rest)
  end.

(** [strnlen]. *)
Definition text_len (s : list Z) : Z := Z.min PRINT_TEXT_LEN (Z.of_nat (length s)).

(** [fmt] has been advanced to the end of the format when its length is taken for the result. *)
Definition vsprintk (m : bytes) (fmt args : list Z) : outcome (list Z * Z) :=
  out ← format_loop m fmt args (text_len fmt) (length fmt); mret (out, text_len []).

(** ** uart.c, console.c *)

(** The data register is written only: what has been sent. *)
Record console := { console_lock : spinlock_t; uart_tx : list Z }.
#[export] Instance eta_console : Eta console := λ c, Build_console (console_lock c) (uart_tx c).

Definition uart_print_char (c : Z) : prog console unit := modify (λ k, k <| uart_tx ::= λ t, t ++ [c] |>).

(** [do { ... } while (s[i] != 0)] on the array [s]. *)
Fixpoint uart_print_string (s : list Z) : prog console unit :=
  match s with
  | [] => halt FBounds
  | c :: s =>
      uart_print_char c;;
      match s with
      | [] => halt FBounds
      | c' :: _ => if negb (c' =? 0) then uart_print_string s else mret tt
      end
  end.

Definition console_write (str : list Z) : prog console unit :=
  acquire console_lock;;
  uart_print_string str;;
  release console_lock.

(** ** printk *)

Definition printk (m : bytes) (fmt args : list Z) : prog console Z :=
  match vsprintk m fmt args with
  | Halt e => halt e
  | Done (out, i) =>
      if PRINT_TEXT_LEN <? Z.of_nat (length out) + 1 then halt FBounds
      else console_write (out ++ [0]);; mret i
  end.

(** [uart_print_hex]: 16 digits, in capitals. *)
Fixpoint uart_hex_loop (x i : Z) (n : nat) : prog console unit :=
  match n with
  | O => mret tt
  | S n =>
      let d := Z.land (Z.shiftr x i) 0xf in
      uart_print_char (if d <=? 9 then d + 0x30 else d + (0x41 - 0xa));;
      uart_hex_loop x (i - 4) n
  end.
Definition uart_print_hex (x : Z) : prog console unit := uart_hex_loop x 60 16.

(** ** Numbers *)

Definition read_base (base : Z) (val : Z → Z) (l : list Z) : Z := fold_left (λ v c, v * base + val c) l 0.

Definition dec_val (c : Z) : Z := c - 0x30.
Definition hex_val (c : Z) : Z := if c <=? 0x39 then c - 0x30 else c - 0x61 + 10.

(** No zero in front but in [0] itself. *)
Definition canonical (l : list Z) : Prop := ∀ r, l = char_0 :: r → r = [].

Lemma read_base_app base val l1 l2 :
  read_base base val (l1 ++ l2) = read_base base val l1 * base ^ Z.of_nat (length l2) + read_base base val l2.
Proof.
  unfold read_base. rewrite fold_left_app. generalize (fold_left (λ v c, v * base + val c) l1 0) as v.
  induction l2 as [|c l2 IH]; intros v; cbn [fold_left length]; [rewrite Z.pow_0_r; lia|].
  rewrite (IH (v * base + val c)), (IH (0 * base + val c)), Nat2Z.inj_succ, Z.pow_succ_r by lia. lia.
Qed.

Lemma read_base_cons base val c l :
  read_base base val (c :: l) = val c * base ^ Z.of_nat (length l) + read_base base val l.
Proof. apply (read_base_app base val [c] l). Qed.

Lemma sub_loop_run number div q :
  0 ≤ number → 0 < div → sub_loop number div q (Z.to_nat (number / div)) = (number mod div, q + number / div).
Proof.
  intros Hn Hd. remember (Z.to_nat (number / div)) as k eqn:Ek. revert number q Hn Ek.
  induction k as [|k IH]; intros number q Hn Ek; simpl.
  - pose proof (Z.div_pos number div Hn Hd). assert (number / div = 0) as E by lia.
    rewrite E. pose proof (Z.div_mod number div ltac:(lia)). f_equal; lia.
  - assert (number / div = 1 + (number - div) / div) as E.
    { replace (number - div) with (number + (-1) * div) by lia. rewrite Z.div_add by lia. lia. }
    destruct (Z.leb_spec div number) as [Hle|Hlt]; [|rewrite Z.div_small in Ek by lia; done].
    rewrite IH; [|lia|pose proof (Z.div_pos (number - div) div ltac:(lia) Hd); lia].
    rewrite E. f_equal; [|lia]. replace (number - div) with (number + (-1) * div) by lia. by rewrite Z.mod_add by lia.
Qed.

Lemma mul_loop_run n i : 0 ≤ i → i + Z.of_nat (S n) = 9 → mul_loop 1 i (Z.to_nat 9) = 10 ^ Z.of_nat n.
Proof.
  intros H0 Hi. assert (n < 9)%nat as Hn by lia. assert (i = 8 - Z.of_nat n) as -> by lia. clear H0 Hi.
  do 9 (destruct n as [|n]; [reflexivity|]). lia.
Qed.

(** The digits of [v] in base [base]: what [keep] says of a shorter number in front of [n] more digits. *)
Record digits_of (base : Z) (val : Z → Z) (digit : Z → Prop) (keep : bool) (n : nat) (v : Z) (l : list Z) : Prop := {
  do_digits : Forall digit l;
  do_value : read_base base val l = v;
  do_length : (length l ≤ n)%nat;
  do_keep : if keep then length l = n else ∀ r, l ≠ char_0 :: r
}.

Definition dec_digit (c : Z) : Prop := 0x30 ≤ c ≤ 0x39.
Definition hex_digit (c : Z) : Prop := 0x30 ≤ c ≤ 0x39 ∨ 0x61 ≤ c ≤ 0x66.

(** One more digit in front. *)
Lemma digits_step base val digit (keep : bool) n q r c rest :
  1 < base → 0 ≤ q → digit c → val c = q → (c = char_0 → q = 0) →
  digits_of base val digit (if negb (q =? 0) then true else keep) n r rest →
  digits_of base val digit keep (S n) (q * base ^ Z.of_nat n + r)
    ((if (if negb (q =? 0) then true else keep) || false then [c] else []) ++ rest).
Proof.
  intros Hb Hq Hc Hv H0 [Hd Hr Hl Hk]. destruct (Z.eqb_spec q 0) as [->|Hne]; simpl in *.
  - destruct keep; simpl; constructor.
    + by constructor.
    + rewrite read_base_cons, Hv, Hr, Hk. lia.
    + simpl. lia.
    + simpl. lia.
    + done.
    + lia.
    + lia.
    + done.
  - constructor; [by constructor|rewrite read_base_cons, Hv, Hr, Hk; lia|simpl; lia|].
    destruct keep; simpl; [lia|]. intros r' [= E _]. apply H0 in E. lia.
Qed.

Lemma dec_loop_run n number i keep :
  0 ≤ i → i + Z.of_nat n = 9 → 0 ≤ number < 10 ^ Z.of_nat (S n) →
  ∃ out, dec_loop number (10 ^ Z.of_nat n) i keep false n = (out, number mod 10) ∧
    digits_of 10 dec_val dec_digit keep n (number / 10) out.
Proof.
  revert number i keep. induction n as [|n IH]; intros number i keep Hi Hn Hb.
  - exists []. simpl dec_loop. change (10 ^ Z.of_nat 1) with 10 in Hb. rewrite Z.mod_small by lia. split; [done|].
    constructor; [constructor|by rewrite Z.div_small by lia|simpl; lia|by destruct keep].
  - assert (0 < 10 ^ Z.of_nat (S n)) as Hp by (apply Z.pow_pos_nonneg; lia).
    cbn [dec_loop]. rewrite sub_loop_run by lia. rewrite (mul_loop_run n) by lia.
    rewrite (Nat2Z.inj_succ (S n)), Z.pow_succ_r in Hb by lia.
    set (q := number / 10 ^ Z.of_nat (S n)). set (r := number mod 10 ^ Z.of_nat (S n)).
    assert (0 ≤ q < 10) as Hq by (split; [apply Z.div_pos; lia|apply Z.div_lt_upper_bound; lia]).
    destruct (IH r (i + 1) (if negb (q =? 0) then true else keep)) as (out & E & Hd); [lia|lia|apply Z.mod_pos_bound; lia|].
    assert (r mod 10 = number mod 10) as <-.
    { unfold r. rewrite Nat2Z.inj_succ, Z.pow_succ_r by lia. apply Z.mod_mod_divide. exists (10 ^ Z.of_nat n). lia. }
    rewrite Z.add_0_l. rewrite E. eexists. split; [reflexivity|].
    assert (number / 10 = q * 10 ^ Z.of_nat n + r / 10) as ->.
    { pose proof (Z.div_mod number (10 ^ Z.of_nat (S n)) ltac:(lia)) as Ed. fold q r in Ed. rewrite Ed at 1.
        rewrite Nat2Z.inj_succ, Z.pow_succ_r by lia. replace (10 * 10 ^ Z.of_nat n * q + r) with (r + q * 10 ^ Z.of_nat n * 10) by lia.
        rewrite Z.div_add by lia. lia. }
    apply digits_step; [lia|lia|..|exact Hd]; rewrite ?wrap_small by lia; unfold dec_digit, dec_val, char_0; lia.
Qed.

(** A number as it is printed: its last digit always. *)
Record number_text (base : Z) (val : Z → Z) (digit : Z → Prop) (n : nat) (v : Z) (l : list Z) : Prop := {
  nt_digits : Forall digit l;
  nt_value : read_base base val l = v;
  nt_length : (0 < length l ≤ n)%nat;
  nt_canonical : canonical l
}.

Lemma number_text_last base val digit n v out c :
  1 < base → digits_of base val digit false n (v / base) out → digit c → val c = v mod base →
  number_text base val digit (S n) v (out ++ [c]).
Proof.
  intros Hb [Hd Hr Hl Hk] Hc Hv. constructor.
  - apply Forall_app. auto.
  - rewrite read_base_app, Hr. unfold read_base. simpl. rewrite Hv. pose proof (Z.div_mod v base ltac:(lia)). lia.
  - rewrite length_app. simpl. lia.
  - intros r E. destruct out as [|d out]; [by injection E|]. injection E as -> _. by destruct (Hk out).
Qed.

Lemma print_dec_text number : 0 ≤ number < 10 ^ 10 → number_text 10 dec_val dec_digit 10 number (print_dec number false).
Proof.
  intros Hn. unfold print_dec. destruct (dec_loop_run 9 number 0 false) as (out & E & Hd); [done|done|exact Hn|].
  change 1000000000 with (10 ^ Z.of_nat 9). rewrite E. pose proof (Z.mod_pos_bound number 10 ltac:(lia)).
  apply number_text_last; [lia|exact Hd|..]; rewrite wrap_small by lia; unfold dec_digit, dec_val; lia.
Qed.

Lemma hex_byte number k : 0 ≤ k → Z.land (u8 (Z.shiftr number (k * 4))) 0xF = (number / 16 ^ k) mod 16.
Proof.
  intros Hk. change 0xF with (Z.ones 4). rewrite Z.land_ones by lia. rewrite Z.shiftr_div_pow2 by lia.
  replace (k * 4) with (4 * k) by lia. rewrite Z.pow_mul_r by lia. change (2 ^ 4) with 16.
  unfold wrap. apply Z.mod_mod_divide. by exists 16.
Qed.

Lemma hex_char_ok b : 0 ≤ b < 16 → hex_digit (hex_char b) ∧ hex_val (hex_char b) = b ∧ (hex_char b = char_0 → b = 0).
Proof.
  intros Hb. assert (b ∈ seqZ 0 16) as Hin by (apply elem_of_seqZ; lia).
  assert (Forall (λ b, hex_digit (hex_char b) ∧ hex_val (hex_char b) = b ∧ (hex_char b = char_0 → b = 0)) (seqZ 0 16)) as Hall.
  { repeat constructor; vm_compute; intuition congruence. }
  rewrite Forall_forall in Hall. by apply Hall.
Qed.

Lemma hex_loop_run n number i keep :
  0 ≤ i → ∃ out, hex_loop number (i + Z.of_nat (S n)) (4 * (i + Z.of_nat (S n))) i keep false (S n) =
    out ++ [hex_char (number mod 16)] ∧ digits_of 16 hex_val hex_digit keep n ((number / 16) mod 16 ^ Z.of_nat n) out.
Proof.
  revert i keep. induction n as [|n IH]; intros i keep Hi.
  - exists []. cbn [hex_loop]. replace (4 * (i + Z.of_nat 1) - (i + 1) * 4) with (0 * 4) by lia. rewrite hex_byte by lia.
    change (16 ^ 0) with 1. rewrite Z.div_1_r. replace (i =? i + Z.of_nat 1 - 1) with true by (symmetry; apply Z.eqb_eq; lia).
    rewrite orb_true_r. simpl. split; [done|]. change (16 ^ 0) with 1. rewrite Z.mod_1_r. constructor; [constructor|done|simpl; lia|by destruct keep].
  - remember (S n) as m eqn:Em. cbn [hex_loop]. replace (i =? i + Z.of_nat (S m) - 1) with false by (symmetry; apply Z.eqb_neq; lia).
    replace (4 * (i + Z.of_nat (S m)) - (i + 1) * 4) with (Z.of_nat m * 4) by lia. rewrite hex_byte by lia.
    set (q := (number / 16 ^ Z.of_nat m) mod 16). assert (0 ≤ q < 16) as Hq by (apply Z.mod_pos_bound; lia).
    destruct (hex_char_ok q Hq) as (H1 & H2 & H3).
    destruct (IH (i + 1) (if negb (q =? 0) then true else keep)) as (out & E & Hd); [lia|].
    replace (i + Z.of_nat (S m)) with (i + 1 + Z.of_nat m) by lia. subst m.
    rewrite (orb_false_r (negb (q =? 0))), E. rewrite app_assoc. eexists. split; [reflexivity|].
    assert ((number / 16) mod 16 ^ Z.of_nat (S n) = q * 16 ^ Z.of_nat n + (number / 16) mod 16 ^ Z.of_nat n) as ->.
    { unfold q. rewrite Nat2Z.inj_succ, !Z.pow_succ_r by lia. rewrite <-Z.div_div by lia.
      rewrite (Z.mul_comm 16), Z.rem_mul_r by lia. lia. }
    apply digits_step; [lia|lia|done..|exact Hd].
Qed.

Lemma hex_text number k n :
  0 ≤ number < 16 ^ k → k = Z.of_nat (S n) →
  number_text 16 hex_val hex_digit (S n) number (hex_loop number k (4 * k) 0 false false (S n)).
Proof.
  intros Hn ->. destruct (hex_loop_run n number 0 false) as (out & E & Hd); [done|].
  rewrite !Z.add_0_l in E. rewrite E. destruct (hex_char_ok (number mod 16)) as (H1 & H2 & _); [apply Z.mod_pos_bound; lia|].
  apply number_text_last; [lia| |done|done]. rewrite Z.mod_small in Hd; [exact Hd|].
  rewrite Nat2Z.inj_succ, Z.pow_succ_r in Hn by lia. split; [apply Z.div_pos; lia|apply Z.div_lt_upper_bound; lia].
Qed.

(** ** The formats that print a number *)

Inductive number_format := FD | FI | FU | FX | FLX.

Definition conversion (k : number_format) : list Z :=
  match k with
  | FD => [char_percent; char_d] | FI => [char_percent; char_i] | FU => [char_percent; char_u]
  | FX => [char_percent; char_x] | FLX => [char_percent; char_l; char_x]
  end.

(** The number an argument slot holds for the format, and the number a text denotes. *)
Definition number_of (k : number_format) (a : Z) : Z :=
  match k with FD | FI => s32 a | FU | FX => u32 a | FLX => a end.

Definition read_number (k : number_format) (l : list Z) : Z :=
  match k with
  | FX | FLX => read_base 16 hex_val l
  | _ => match l with c :: r => if c =? 0x2d then - read_base 10 dec_val r else read_base 10 dec_val l | [] => 0 end
  end.

(** A character that is copied. *)
Definition plain (c : Z) : Prop := c ≠ 0 ∧ c ≠ char_percent ∧ c ≠ char_nl ∧ c ≠ char_tab.

Definition fill (k : number_format) (a : Z) : list Z :=
  match k with
  | FD | FI => print_signed (s32 a) false
  | FU => print_dec (u32 a) false
  | FX => hex_loop (u32 a) 8 32 0 false false 8
  | FLX => hex_loop a 16 64 0 false false 16
  end.

Lemma format_plain m pre rest args len n :
  Forall plain pre →
  format_loop m (pre ++ rest) args len (length pre + n) = (out ← format_loop m rest args len n; mret (pre ++ out)).
Proof.
  induction 1 as [|c pre (H0 & H1 & H2 & H3) _ IH]; simpl; [by destruct (format_loop m rest args len n)|].
  rewrite IH. destruct (Z.eqb_spec c char_percent), (Z.eqb_spec c char_nl), (Z.eqb_spec c char_tab); try done. simpl.
  by destruct (format_loop m rest args len n).
Qed.

Lemma format_number k m a post args len n :
  format_loop m (conversion k ++ post) (a :: args) len (S n) =
  (rest ← format_loop m post args len n; mret (fill k a ++ rest)).
Proof. by destruct k. Qed.

Lemma vsprintk_number k m pre post a :
  Forall plain pre → Forall plain post →
  vsprintk m (pre ++ conversion k ++ post) [a] = Done (pre ++ fill k a ++ post, 0).
Proof.
  intros Hpre Hpost. unfold vsprintk. generalize (text_len (pre ++ conversion k ++ post)) as len. intros len.
  assert (∃ j, length (pre ++ conversion k ++ post) = length pre + S (length post + j))%nat as (j & ->).
  { exists (length (conversion k) - 1)%nat. rewrite !length_app. destruct k; simpl; lia. }
  rewrite format_plain by done. rewrite format_number. rewrite <-(app_nil_r post) at 1. rewrite format_plain by done.
  destruct j; simpl; by rewrite app_nil_r.
Qed.

Definition unsigned_part (l : list Z) : list Z := match l with c :: r => if c =? 0x2d then r else l | [] => [] end.

(** A text of at most 16 characters that denotes the number and has no zero in front. *)
Record shown (k : number_format) (v : Z) (l : list Z) : Prop := {
  sh_value : read_number k l = v;
  sh_canonical : canonical (unsigned_part l);
  sh_length : (0 < length l ≤ 16)%nat;
  sh_chars : Forall (λ c, c ≠ 0) l
}.

Lemma s32_range z : - 2 ^ 31 ≤ s32 z < 2 ^ 31.
Proof. unfold s32, signed. pose proof (wrap_in_word 32 z ltac:(done)) as [H1 H2]. zcase. Qed.

Lemma dec_digit_char c : dec_digit c → c ≠ 0.
Proof. unfold dec_digit. lia. Qed.
Lemma hex_digit_char c : hex_digit c → c ≠ 0.
Proof. unfold hex_digit. lia. Qed.

Lemma dec_shown (k : number_format) z : (k = FD ∨ k = FI ∨ k = FU) → 0 ≤ z < 10 ^ 10 → shown k z (print_dec z false).
Proof.
  intros Hk Hz. destruct (print_dec_text z Hz) as [Hd Hv Hl Hc]. remember (print_dec z false) as l eqn:El. clear El.
  destruct l as [|c r]; [simpl in Hl; lia|]. inversion Hd as [|? ? H1 H2]; subst. unfold dec_digit in H1.
  assert ((c =? 0x2d) = false) as Es by (apply Z.eqb_neq; lia).
  constructor; [destruct Hk as [-> |[-> | ->]]; simpl; rewrite Es; done|unfold unsigned_part; by rewrite Es|lia|].
  eapply Forall_impl; [exact Hd|apply dec_digit_char].
Qed.

Lemma hex_shown (k : number_format) z n :
  (k = FX ∨ k = FLX) → (n ≤ 15)%nat → 0 ≤ z < 16 ^ Z.of_nat (S n) →
  shown k z (hex_loop z (Z.of_nat (S n)) (4 * Z.of_nat (S n)) 0 false false (S n)).
Proof.
  intros Hk Hn Hz. destruct (hex_text z _ n Hz eq_refl) as [Hd Hv Hl Hc]. remember (hex_loop _ _ _ _ _ _ _) as l eqn:El. clear El.
  destruct l as [|c r]; [simpl in Hl; lia|]. inversion Hd as [|? ? H1 H2]; subst. unfold hex_digit in H1.
  assert ((c =? 0x2d) = false) as Es by (apply Z.eqb_neq; lia).
  constructor; [destruct Hk as [-> | ->]; done|unfold unsigned_part; by rewrite Es|lia|].
  eapply Forall_impl; [exact Hd|apply hex_digit_char].
Qed.

Lemma signed_shown (k : number_format) z : (k = FD ∨ k = FI) → - 2 ^ 31 ≤ z < 2 ^ 31 → shown k z (print_signed z false).
Proof.
  intros Hk Hz. unfold print_signed. destruct (Z.ltb_spec z 0) as [Hn|Hn]; [|apply dec_shown; [tauto|lia]].
  rewrite wrap_small by lia. destruct (print_dec_text (- z)) as [Hd Hv Hl Hc]; [lia|]. constructor.
  - assert (read_number k (0x2d :: print_dec (- z) false) = - read_base 10 dec_val (print_dec (- z) false)) as -> by (by destruct Hk as [-> | ->]).
    rewrite Hv. lia.
  - exact Hc.
  - simpl. lia.
  - constructor; [lia|]. eapply Forall_impl; [exact Hd|apply dec_digit_char].
Qed.

Lemma fill_shown k a : in_word 64 a → shown k (number_of k a) (fill k a).
Proof.
  intros Ha. pose proof (wrap_in_word 32 a ltac:(done)) as [H1 H2]. destruct k; cbn [fill number_of].
  - apply signed_shown; [tauto|apply s32_range].
  - apply signed_shown; [tauto|apply s32_range].
  - apply dec_shown; [tauto|lia].
  - apply (hex_shown FX _ 7); [tauto|lia|exact (conj H1 H2)].
  - apply (hex_shown FLX _ 15); [tauto|lia|exact Ha].
Qed.

(** ** Output *)

Lemma uart_print_string_run s k :
  s ≠ [] → Forall (λ c, c ≠ 0) s → uart_print_string (s ++ [0]) k = Done (tt, k <| uart_tx ::= λ t, t ++ s |>).
Proof.
  intros Hne Hs. revert k. induction Hs as [|c s Hc Hs IH]; intros k; [done|]. cbn [app uart_print_string]. unfold uart_print_char. psteps.
  destruct s as [|d s]; [done|]. cbn [app]. inversion Hs; subst. destruct (Z.eqb_spec d 0); [done|]. cbn [negb].
  rewrite IH by done. f_equal. f_equal. destruct k. cbn. unfold setter. simpl. by rewrite <-app_assoc.
Qed.

Section printk.
Variable m : bytes.


End printk.


(** A number of 64 bits does not fit the digits of [%lu]: ten of them, the first of any value. *)
Theorem printk_long_decimal : print_dec (10 ^ 10) false = [0x3a; 0x30; 0x30; 0x30; 0x30; 0x30; 0x30; 0x30; 0x30; 0x30].
Proof. reflexivity. Qed.

(** 80 characters of format store 257 in the buffer of 256: [vsprintk] is not told its size. *)
Theorem printk_overruns m c :
  printk m (concat (replicate 16 [char_percent; char_0; char_l; char_x])) (replicate 16 0) c = Halt FBounds.
Proof. reflexivity. Qed.
