(* ===== verification/Uart.v ===== *)
(** * The UART's registers: the input side of src/arch/aarch64/uart.c, src/arch/aarch64/inc/uart.h

    What is sent is the stream [uart_tx] of [Printk]; the other registers of the PL011 are those of an
    abstract device. *)
From Stdlib Require Import String Ascii.
From S2P Require Import Prelude Util Bits Spinlock Printk.

(** ** uart.h *)

Definition DR_DATA_MASK : Z := 0xFF.
Definition RX_INTERRUPT : Z := u32 (Z.shiftl 1 4).
Definition BE_INTERRUPT : Z := u32 (Z.shiftl 1 9).
Definition LCRH_FEN : Z := u32 (Z.shiftl 1 4).
Definition CR_UARTEN : Z := u32 (Z.shiftl 1 0).
Definition IMSC_RXIM : Z := u32 (Z.shiftl 1 4).
Definition FR_RXFE : Z := u32 (Z.shiftl 1 4).
Definition RSRECR_ERR_MASK : Z := 0xF.

Inductive uart_reg := DR | RSRECR | FR | ILPR | IBRD | FBRD | LCRH | CR | IFLS | IMSC | RIS | MIS | ICR.
#[export] Instance uart_reg_eq_dec : EqDecision uart_reg.
Proof. solve_decision. Defined.

(** A read can change the device: reading DR takes a byte out of the receive FIFO. *)
Class UartDevice := {
  udevice : Type;
  uread : uart_reg → udevice → Z * udevice;
  uwrite : uart_reg → Z → udevice → udevice
}.

(** The registers that only keep what is written to them. *)
Definition control (r : uart_reg) : bool :=
  match r with LCRH | CR | IMSC => true | _ => false end.

Class UartLaws `{UartDevice} := {
  uread_control r d : control r = true → (uread r d).2 = d ∧ in_word 32 (uread r d).1;
  uwrite_same r v d : control r = true → in_word 32 v → (uread r (uwrite r v d)).1 = v;
  uwrite_other r q v d : control r = true → r ≠ q → (uread r (uwrite q v d)).1 = (uread r d).1
}.

(** A device whose registers are memory. *)
Definition UartRegisters : UartDevice := {|
  udevice := uart_reg → Z;
  uread r d := (u32 (d r), d);
  uwrite r v d := <[r := v]> d
|}.
#[export] Instance UartRegisters_laws : @UartLaws UartRegisters.
Proof.
  split; cbn.
  - intros r d _. split; [done|by apply wrap_in_word].
  - intros r v d _ Hv. rewrite fn_lookup_insert. by apply wrap_small.
  - intros r q v d _ Hne. by rewrite fn_lookup_insert_ne.
Qed.

Section uart.
Context `{UartDevice}.

Record uart := { con : console; pl011 : udevice }.
#[export] Instance eta_uart : Eta uart := λ u, Build_uart (con u) (pl011 u).

Definition urd (r : uart_reg) : prog uart Z := λ u, let '(v, d) := uread r (pl011 u) in Done (v, u <| pl011 := d |>).
Definition uwr (r : uart_reg) (v : Z) : prog uart unit := modify (λ u, u <| pl011 ::= uwrite r (u32 v) |>).
Definition send {A} (k : prog console A) : prog uart A := lift_prog con (λ c u, u <| con := c |>) k.

Definition uart_enable_interrupts : prog uart unit :=
  cr ← urd CR;
  uwr CR (Z.land cr (u32 (Z.lnot CR_UARTEN)));;
  lcrh ← urd LCRH;
  uwr LCRH (Z.lor lcrh LCRH_FEN);;
  imsc ← urd IMSC;
  uwr IMSC (Z.lor imsc IMSC_RXIM);;
  uwr ICR BE_INTERRUPT;;
  cr ← urd CR;
  uwr CR (Z.lor cr CR_UARTEN).

Definition uart_handler : prog uart unit :=
  status ← urd MIS;
  if negb (Z.land status RX_INTERRUPT =? 0) then
    c ← urd DR;
    let c := Z.land c DR_DATA_MASK in
    send (uart_print_char c);;
    send (uart_print_char 10)
  else mret tt.

(** A string is the list of its bytes, with the terminating zero. *)
Definition c_string (s : string) : list Z := map (λ a, Z.of_nat (nat_of_ascii a)) (list_ascii_of_string s) ++ [0].

Definition uart_print_register (s : list Z) (n : Z) : prog console unit :=
  uart_print_string (c_string "REG:");;
  uart_print_string s;;
  uart_print_string (c_string "=");;
  uart_print_hex n.

Definition uart_print_register_colon (s : list Z) (n : Z) (s1 : list Z) (n1 : Z) : prog console unit :=
  uart_print_register s n;;
  uart_print_char 32;;
  uart_print_register s1 n1;;
  uart_print_char 10.

End uart.

(** ** Bringing the input up *)

Section enable.
Context `{UartLaws}.
#[local] Set Default Proof Using "All".

Definition value (r : uart_reg) (d : udevice) : Z := (uread r d).1.

(** The device while the line is programmed, and at the end. *)
Definition off_line (d : udevice) : udevice := uwrite CR (Z.land (value CR d) (u32 (Z.lnot CR_UARTEN))) d.
Definition framed (d : udevice) : udevice := uwrite LCRH (Z.lor (value LCRH d) LCRH_FEN) (off_line d).
Definition unmasked (d : udevice) : udevice := uwrite IMSC (Z.lor (value IMSC d) IMSC_RXIM) (framed d).
Definition on_line (d : udevice) : udevice :=
  let e := uwrite ICR BE_INTERRUPT (unmasked d) in uwrite CR (Z.lor (value CR e) CR_UARTEN) e.

Lemma urd_control {B} r (k : Z → prog uart B) u : control r = true → (urd r ≫= k) u = k (value r (pl011 u)) u.
Proof.
  intros Hr. unfold value, urd, mbind, prog_bind. destruct (uread_control r (pl011 u) Hr) as [Hd _].
  destruct (uread r (pl011 u)) as [v d]. cbn in *. subst d. by destruct u.
Qed.

Lemma value_word r d : control r = true → in_word 32 (value r d).
Proof. intros Hr. by apply (uread_control r d). Qed.
Lemma value_same r v d : control r = true → in_word 32 v → value r (uwrite r v d) = v.
Proof. apply uwrite_same. Qed.
Lemma value_other r q v d : control r = true → r ≠ q → value r (uwrite q v d) = value r d.
Proof. apply uwrite_other. Qed.

Lemma uwr_run {B} r v (k : unit → prog uart B) c d :
  in_word 32 v → (uwr r v ≫= k) {| con := c; pl011 := d |} = k tt {| con := c; pl011 := uwrite r v d |}.
Proof. intros Hv. unfold uwr, mbind, prog_bind, modify. by rewrite (wrap_small 32 v). Qed.

Ltac control_words := first [done | by apply value_word | apply in_word_lor; control_words | apply in_word_land; [done|control_words]].

Lemma flag_words : in_word 32 LCRH_FEN ∧ in_word 32 IMSC_RXIM ∧ in_word 32 CR_UARTEN ∧ in_word 32 BE_INTERRUPT.
Proof. done. Qed.

(** The function programs the line and the mask, between switching the UART off and on again. *)
Lemma uart_enable_interrupts_run c d :
  uart_enable_interrupts {| con := c; pl011 := d |} = Done (tt, {| con := c; pl011 := on_line d |}).
Proof.
  destruct flag_words as (H1 & H2 & H3 & H4).
  assert (value LCRH (off_line d) = value LCRH d) as E1 by by apply value_other.
  assert (value IMSC (framed d) = value IMSC d) as E2 by (unfold framed, off_line; by rewrite !value_other).
  unfold uart_enable_interrupts. rewrite urd_control by done. cbn [pl011].
  rewrite uwr_run by control_words. fold (off_line d). rewrite urd_control by done. cbn [pl011]. rewrite E1.
  rewrite uwr_run by control_words. fold (framed d). rewrite urd_control by done. cbn [pl011]. rewrite E2.
  rewrite uwr_run by control_words. fold (unmasked d). rewrite uwr_run by done. rewrite urd_control by done. cbn [pl011].
  unfold uwr. by rewrite run_modify, wrap_small by control_words.
Qed.

(** LCRH and IMSC are written while the UART is off; then it is on, and the other bits are what they were. *)
Lemma uart_enable_interrupts_order d :
  Z.testbit (value CR (off_line d)) 0 = false ∧ Z.testbit (value CR (framed d)) 0 = false ∧
  Z.testbit (value CR (unmasked d)) 0 = false ∧ value CR (on_line d) = Z.lor (value CR d) CR_UARTEN ∧
  value LCRH (on_line d) = Z.lor (value LCRH d) LCRH_FEN ∧ value IMSC (on_line d) = Z.lor (value IMSC d) IMSC_RXIM.
Proof.
  assert (value CR (off_line d) = Z.land (value CR d) (u32 (Z.lnot CR_UARTEN))) as E0 by (apply value_same; control_words).
  assert (value CR (framed d) = value CR (off_line d)) as E1 by by apply value_other.
  assert (value CR (unmasked d) = value CR (framed d)) as E2 by by apply value_other.
  assert (Z.testbit (value CR (off_line d)) 0 = false) as Hoff by (rewrite E0, Z.land_spec; apply andb_false_r).
  rewrite E2, E1. do 3 (split; [exact Hoff|]). destruct flag_words as (H1 & H2 & H3 & H4).
  unfold on_line. rewrite (value_other CR ICR), E2, E1, E0 by done. repeat split.
  - rewrite value_same; [|done|control_words]. apply Z.bits_inj'. intros i Hi. rewrite !Z.lor_spec, Z.land_spec.
    destruct (Z.testbit CR_UARTEN i) eqn:Ei; [by rewrite !orb_true_r|]. rewrite !orb_false_r.
    change (u32 (Z.lnot CR_UARTEN)) with (wrap 32 (Z.lnot CR_UARTEN)). rewrite testbit_wrap, Z.lnot_spec, Ei, andb_true_r by lia.
    destruct (Z.ltb_spec i 32); [by rewrite andb_true_r|]. by rewrite (testbit_small 32 (value CR d)) by (done || by apply value_word).
  - rewrite !value_other by done. unfold unmasked. rewrite value_other by done. apply value_same; control_words.
  - rewrite !value_other by done. apply value_same; control_words.
Qed.

End enable.

(** ** The handler *)

Section handler.
Context `{UartDevice}.

(** Testing a flag that is one bit. *)
Lemma flag_set s i : 0 ≤ i → negb (Z.land s (2 ^ i) =? 0) = Z.testbit s i.
Proof.
  intros Hi. destruct (Z.testbit s i) eqn:E.
  - apply negb_true_iff, Z.eqb_neq. intros H0. apply (f_equal (λ z, Z.testbit z i)) in H0.
    by rewrite Z.land_spec, E, Z.pow2_bits_true, Z.bits_0 in H0 by done.
  - apply negb_false_iff, Z.eqb_eq, Z.bits_inj'. intros j Hj. rewrite Z.land_spec, Z.bits_0, Z.pow2_bits_eqb by done.
    destruct (Z.eqb_spec i j) as [<-|]; [by rewrite E|apply andb_false_r].
Qed.

(** An interrupt with a byte in the receive FIFO takes one byte out and echoes it on a line of its own; any other
    one changes nothing that is sent. *)
Lemma uart_handler_echoes c d : let '(status, d1) := uread MIS d in let '(v, d2) := uread DR d1 in
  uart_handler {| con := c; pl011 := d |} =
    if Z.testbit status 4
    then Done (tt, {| con := c <| uart_tx ::= λ t, t ++ [Z.land v 0xFF; 10] |>; pl011 := d2 |})
    else Done (tt, {| con := c; pl011 := d1 |}).
Proof.
  unfold uart_handler, urd, mbind, prog_bind. cbn [pl011].
  destruct (uread MIS d) as [status d1] eqn:E1. rsimpl. cbn [pl011].
  destruct (uread DR d1) as [v d2] eqn:E2. change RX_INTERRUPT with (2 ^ 4). rewrite (flag_set status 4) by done.
  destruct (Z.testbit status 4); [|reflexivity]. cbn [setter]. change (pl011 ({| con := c; pl011 := d |} <| pl011 := d1 |>)) with d1.
  rewrite E2. unfold send, uart_print_char, lift_prog, modify. do 3 f_equal.
  destruct c as [k t]. unfold setter, eta_uart, eta_console. cbn. by rewrite <-app_assoc.
Qed.

End handler.

(** What is printed for a register: its name, and the 16 digits of its value. *)
Lemma uart_print_register_text c :
  uart_print_register (c_string "HCR_EL2") 0x80000019 {| console_lock := c; uart_tx := [] |} =
    Done (tt, {| console_lock := c; uart_tx := removelast (c_string "REG:HCR_EL2=0000000080000019") |}).
Proof. reflexivity. Qed.
