(* ===== verification/Ipi.v ===== *)
(** * Messages between CPUs: src/core/cpu.c

    A CPU sends a message by allocating a node from [msg_pool], linking it into the event list of
    the target's interface and raising a software interrupt there; the target's handler of that
    interrupt takes the nodes off and calls the registered function.  The lists are rings of
    [ListHead], the nodes objects of an [ObjPool]; a node starts with its [list_head], so the
    pointers to both are equal.

    The table [ipi_cpumsg_handlers] is filled by the linker with the functions other components
    register: it is a parameter, a function from handler number to a program over the same
    state; the client state those functions change is the parameter [C]. *)
From S2P Require Import Prelude Util Bits Bitmap Spinlock MemString ListHead ObjPool Cpu.

(** ** Data *)

Record cpu_msg := { handler : Z; event : Z; data : Z }.

Definition CPU_MSG_POOL_SIZE : Z := 128.
Definition IPI_CPU_MSG : Z := 1.
Definition CPU_MSG_NODE_SIZE : Z := 32.

(** [cpu_interfaces] is an array of page-aligned records that begin with [event_list]. *)
Definition cpu_if (cpu_interfaces cpu_id : Z) : Z := cpu_interfaces + cpu_id * PAGE_SIZE.

Record ipi (C : Type) := {
  lists : mem;
  node_msg : Z → cpu_msg;
  msg_pool : objpool;
  event_list_lock : Z → spinlock_t;
  cpus : Z → cpu;
  cpu_glb_sync : cpu_synctoken;
  cpu_interfaces : Z;
  ipi_cpumsg_handler_num : Z;
  sent_ipis : list (Z * Z);
  client : C
}.
Arguments lists {C}. Arguments node_msg {C}. Arguments msg_pool {C}. Arguments event_list_lock {C}.
Arguments cpus {C}. Arguments cpu_glb_sync {C}. Arguments cpu_interfaces {C}.
Arguments ipi_cpumsg_handler_num {C}. Arguments sent_ipis {C}. Arguments client {C}.
#[export] Instance eta_ipi C : Eta (ipi C) := λ s,
  Build_ipi C (lists s) (node_msg s) (msg_pool s) (event_list_lock s) (cpus s) (cpu_glb_sync s)
    (cpu_interfaces s) (ipi_cpumsg_handler_num s) (sent_ipis s) (client s).

Section messages.
Context {C : Type}.
Variable nr_cpus : Z.

(** ** Operations *)

Definition event_list (c : Z) (s : ipi C) : Z := cpu_if (cpu_interfaces s) c.

(** The lock of CPU [c]'s interface. *)
Definition lock_event_list (c : Z) : prog (ipi C) unit := λ s,
  match spin_lock (event_list_lock s c) with
  | Done k => Done (tt, s <| event_list_lock ::= <[c := k]> |>)
  | Halt e => Halt e
  end.
Definition unlock_event_list (c : Z) : prog (ipi C) unit :=
  modify (λ s, s <| event_list_lock ::= alter spin_unlock c |>).

Definition on_pool {A} (m : prog objpool A) : prog (ipi C) A :=
  lift_prog msg_pool (λ p s, s <| msg_pool := p |>) m.

(** [cpu_init] up to its barrier; [mpidr] is what MPIDR_EL1 of this CPU reads as and
    [handler_num] the number of handlers the linker put in the table. *)
Definition cpu_init (c mpidr handler_num : Z) : prog (ipi C) unit :=
  modify (λ s, s <| cpus ::= alter (λ k, k <| cpu_id := c |> <| handling_msgs := false |>
    <| cpu_rqnode := None |> <| flag := 0 |> <| cpu_mpidr := mpidr |>) c |>);;
  modify (λ s, s <| lists ::= INIT_LIST_HEAD (event_list c s) |>);;
  modify (λ s, s <| event_list_lock ::= <[c := SPINLOCK_INITVAL]> |>);;
  if c =? CPU_MASTER then
    modify (λ s, s <| cpu_glb_sync ::= λ t, cpu_sync_init t nr_cpus |>);;
    modify (λ s, s <| ipi_cpumsg_handler_num := handler_num |>)
  else mret tt.

Definition cpu_send_msg (trgtcpu : Z) (msg : cpu_msg) : prog (ipi C) unit :=
  node ← on_pool objpool_alloc;
  match node with
  | None => halt FError
  | Some node =>
      modify (λ s, s <| node_msg ::= <[node := msg]> |>);;
      modify (λ s, s <| lists ::= list_add_tail node (event_list trgtcpu s) |>);;
      modify (λ s, s <| sent_ipis ::= λ l, l ++ [(trgtcpu, IPI_CPU_MSG)] |>)
  end.

Definition cpu_get_msg (c : Z) : prog (ipi C) (option cpu_msg) :=
  empty ← gets (λ s, list_empty (event_list c s) (lists s));
  if negb empty then
    lock_event_list c;;
    node ← gets (λ s, prev (lists s (event_list c s)));
    unlock_event_list c;;
    msg ← gets (λ s, node_msg s node);
    modify (λ s, s <| lists ::= list_del node |>);;
    on_pool (objpool_free node);;
    mret (Some msg)
  else mret None.

Definition set_handling (c : Z) (b : bool) : prog (ipi C) unit :=
  modify (λ s, s <| cpus ::= alter (λ k, k <| handling_msgs := b |>) c |>).

(** The functions registered with [CPU_MSG_HANDLER]. *)
Definition handler_table : Type := Z → option (Z → Z → prog (ipi C) unit).

(** The loop of [cpu_msg_handler]; the fuel bounds the messages handled in one call. *)
Fixpoint handle_msgs (handlers : handler_table) (c : Z) (fuel : nat) : prog (ipi C) unit :=
  m ← cpu_get_msg c;
  match m with
  | None => mret tt
  | Some msg =>
      match fuel with
      | O => halt FSpin
      | S fuel =>
          num ← gets ipi_cpumsg_handler_num;
          (if handler msg <? num then
             match handlers (handler msg) with
             | Some f => f (event msg) (data msg)
             | None => mret tt
             end
           else mret tt);;
          handle_msgs handlers c fuel
      end
  end.

Definition cpu_msg_handler (handlers : handler_table) (c : Z) (fuel : nat) : prog (ipi C) unit :=
  set_handling c true;; handle_msgs handlers c fuel;; set_handling c false.

(** ** The queue of a CPU *)

(** The messages waiting for CPU [c], the oldest first: their nodes form its ring and are objects
    in use of the pool. *)
Definition waiting (s : ipi C) (c : Z) (nodes : list Z) (msgs : list cpu_msg) : Prop :=
  circular (lists s) (event_list c s) nodes ∧ map (node_msg s) nodes = msgs.

(** All event lists together: [live] are the nodes in use, [q c] those waiting for [c]. *)
Record ipi_ok (s : ipi C) (live : list Z) (q : Z → list Z) : Prop := {
  io_pool : pool_ok (msg_pool s);
  io_use : in_use (msg_pool s) live;
  io_ring c : 0 ≤ c < nr_cpus → circular (lists s) (event_list c s) (q c);
  io_live c a : 0 ≤ c < nr_cpus → a ∈ q c → a ∈ live;
  io_sep c d a : 0 ≤ c < nr_cpus → 0 ≤ d < nr_cpus → a ∈ q c → a ∈ q d → c = d;
  io_heads c a : 0 ≤ c < nr_cpus → a ∈ live → a ≠ event_list c s;
  io_head_obj c j : 0 ≤ c < nr_cpus → 0 ≤ j < num (msg_pool s) → object (msg_pool s) j ≠ event_list c s;
  io_lock c : 0 ≤ c < nr_cpus → lock_free (event_list_lock s c)
}.

(** ** Execution *)

Lemma event_list_inj s c d : event_list c s = event_list d s → c = d.
Proof. unfold event_list, cpu_if, PAGE_SIZE. lia. Qed.

(** Two rings of different CPUs have no node in common. *)
Lemma rings_disjoint s live q c d x :
  ipi_ok s live q → 0 ≤ c < nr_cpus → 0 ≤ d < nr_cpus → c ≠ d →
  x ∈ event_list d s :: q d → x ∉ event_list c s :: q c.
Proof.
  intros H Hc Hd Hne [->|Hx]%elem_of_cons [Hy|Hy]%elem_of_cons.
  - by apply event_list_inj in Hy.
  - by apply (io_heads _ _ _ H d _ Hd (io_live _ _ _ H c _ Hc Hy)).
  - subst. by apply (io_heads _ _ _ H c _ Hc (io_live _ _ _ H d _ Hd Hx)).
  - by apply Hne, (io_sep _ _ _ H c d x).
Qed.

(** The state after sending [msg] in the node [a]. *)
Definition sent (c a : Z) (msg : cpu_msg) (p : objpool) (s : ipi C) : ipi C :=
  s <| msg_pool := p |> <| node_msg ::= <[a := msg]> |> <| lists ::= list_add_tail a (event_list c s) |>
    <| sent_ipis ::= λ l, l ++ [(c, IPI_CPU_MSG)] |>.

Lemma cpu_send_msg_run s live q c msg :
  ipi_ok s live q → 0 ≤ c < nr_cpus →
  (∃ j p', let a := object (msg_pool s) j in
     cpu_send_msg c msg s = Done (tt, sent c a msg p' s) ∧ a ∉ live ∧
     ipi_ok (sent c a msg p' s) (a :: live) (<[c := q c ++ [a]]> q)) ∨
  (cpu_send_msg c msg s = Halt FError ∧ ∀ j, 0 ≤ j < num (msg_pool s) → object (msg_pool s) j ∈ live).
Proof.
  intros H Hc. pose proof H as [Hp Hu Hr Hl Hs Hh Ho Hk]. unfold cpu_send_msg, on_pool, lift_prog.
  destruct (objpool_alloc_cases _ _ Hp Hu) as
    [(j & p' & He & Hj & Hfr & Hp' & E1 & E2 & E3 & Hu')|(p' & He & _ & _ & _ & _ & _ & Hf)].
  2: { right. split; [|done]. unfold mbind at 1, prog_bind at 1. by rewrite He. }
  left. exists j, p'. cbv zeta. set (a := object (msg_pool s) j) in *.
  split; [|split; [done|]].
  { unfold mbind at 1, prog_bind at 1. rewrite He. psteps. done. }
  assert (∀ d, 0 ≤ d < nr_cpus → a ≠ event_list d s) as Ha by (intros d Hd; by apply Ho).
  assert (a ∉ event_list c s :: q c) as Hac.
  { intros [?|Hin]%elem_of_cons; [by apply (Ha c)|]. by apply Hfr, (Hl c). }
  destruct (list_add_tail_ok _ _ _ a (Hr c Hc) Hac) as [Hring Hout].
  unfold sent. constructor; rsimpl; try done.
  - intros d Hd. destruct (decide (d = c)) as [->|Hne]; [by rewrite upd_eq|]. rewrite upd_ne by congruence.
    apply (circular_frame _ _ _ _ _ (Hr d Hd) Hout). intros x Hx [->|Hx']%elem_of_cons.
    + apply elem_of_cons in Hx as [?|Hx]; [by apply (Ha d)|]. by apply Hfr, (Hl d).
    + by apply (rings_disjoint s live q c d x).
  - intros d b Hd. destruct (decide (d = c)) as [->|Hne]; [rewrite upd_eq|rewrite upd_ne by congruence].
    + intros [Hb|Hb%list_elem_of_singleton]%elem_of_app; [right; by apply (Hl c)|subst; by left].
    + intros Hb. right. by apply (Hl d).
  - assert (∀ d b, 0 ≤ d < nr_cpus → b ∈ (<[c := q c ++ [a]]> q : Z → list Z) d → b ∈ q d ∨ (d = c ∧ b = a)) as Hq.
    { intros d b Hd. destruct (decide (d = c)) as [->|]; [rewrite upd_eq|rewrite upd_ne by congruence; tauto].
      rewrite elem_of_app, list_elem_of_singleton. tauto. }
    intros d e b Hd He' [Hb|[-> ->]]%Hq [Hb'|[-> Hb']]%Hq; try done.
    + by apply (Hs d e b).
    + subst. exfalso. by apply Hfr, (Hl d).
    + exfalso. by apply Hfr, (Hl e).
  - intros d b Hd [->|Hb]%elem_of_cons; [by apply Ha|by apply Hh].
  - intros d i Hd Hi. unfold object. rewrite E1, E2. rewrite E3 in Hi. by apply Ho.
Qed.

(** The state after the node [a] was taken off CPU [c]'s ring. *)
Definition taken (c a : Z) (p : objpool) (s : ipi C) : ipi C :=
  s <| event_list_lock ::= λ m, alter spin_unlock c (<[c := lock_taken (m c)]> m) |> <| lists ::= list_del a |>
    <| msg_pool := p |>.

Lemma cpu_get_msg_empty s live q c :
  ipi_ok s live q → 0 ≤ c < nr_cpus → q c = [] → cpu_get_msg c s = Done (None, s).
Proof.
  intros H Hc Hq. pose proof (io_ring _ _ _ H c Hc) as Hr. rewrite Hq in Hr. unfold cpu_get_msg.
  rewrite bind_gets. by rewrite (list_empty_ok _ _ _ Hr).
Qed.

Lemma lock_unlock_event_list c s :
  lock_free (event_list_lock s c) →
  lock_event_list c s = Done (tt, s <| event_list_lock ::= <[c := lock_taken (event_list_lock s c)]> |>).
Proof. intros Hl. unfold lock_event_list. by rewrite spin_lock_free. Qed.

Lemma cpu_get_msg_run s live q c a l :
  ipi_ok s live q → 0 ≤ c < nr_cpus → q c = l ++ [a] →
  ∃ p' live1 live2, live = live1 ++ a :: live2 ∧
    cpu_get_msg c s = Done (Some (node_msg s a), taken c a p' s) ∧
    ipi_ok (taken c a p' s) (live1 ++ live2) (<[c := l]> q).
Proof.
  intros H Hc Hq. pose proof H as [Hp Hu Hr Hl Hs Hh Ho Hk].
  assert (a ∈ live) as Ha by (apply (Hl c); [done|]; rewrite Hq; set_solver).
  apply list_elem_of_split in Ha as (live1 & live2 & Elive).
  pose proof Hu as (Hnd & Hobj & _). destruct (Hobj a) as (j & Hj & Ea); [rewrite Elive; set_solver|].
  rewrite Elive, Ea in Hu. destruct (objpool_free_cases _ _ _ _ Hp Hu Hj) as (p' & He & Hp' & E1 & E2 & E3 & Hu').
  rewrite <-Ea in He. pose proof (Hr c Hc) as Hrc. rewrite Hq in Hrc.
  exists p', live1, live2. split; [done|]. split.
  - unfold cpu_get_msg. rewrite bind_gets. rewrite (list_empty_ok _ _ _ Hrc).
    rewrite bool_decide_eq_false_2 by (by destruct l). cbn [negb].
    erewrite prog_bind_done by (by apply lock_unlock_event_list, Hk).
    rewrite bind_gets. rsimpl. rewrite (circular_head_prev _ _ _ Hrc), last_last. unfold unlock_event_list.
    repeat pstep. unfold on_pool, lift_prog. unfold mbind, prog_bind. rsimpl. rewrite He, run_ret.
    unfold taken. by destruct s.
  - assert (∀ d b, 0 ≤ d < nr_cpus → b ∈ (<[c := l]> q : Z → list Z) d → b ∈ q d ∧ b ≠ a) as Hqd.
    { intros d b Hd. destruct (decide (d = c)) as [->|Hne].
      - rewrite upd_eq, Hq, elem_of_app. intros Hb. split; [tauto|]. intros ->.
        apply NoDup_of_circular in Hrc as [_ Hn]. apply NoDup_app in Hn as (_ & Hn & _). apply (Hn a); [done|by left].
      - rewrite upd_ne by congruence. intros Hb. split; [done|]. intros ->. apply Hne, (Hs d c a); [done..|].
        rewrite Hq. set_solver. }
    destruct (list_del_ok _ _ l a [] Hrc) as [Hring Hout]. rewrite app_nil_r in *.
    unfold taken. constructor; rsimpl; try done.
    + intros d Hd. destruct (decide (d = c)) as [->|Hne]; [by rewrite upd_eq|]. rewrite upd_ne by congruence.
      apply (circular_frame _ _ _ _ _ (Hr d Hd) Hout). intros x Hx Hx'.
      apply (rings_disjoint s live q c d x); try done. rewrite Hq. set_solver.
    + intros d b Hd [Hb Hne]%Hqd; [|done]. apply (Hl d) in Hb; [|done]. rewrite Elive in Hb. set_solver.
    + intros d e b Hd He' [Hb _]%Hqd [Hb' _]%Hqd; try done. by apply (Hs d e b).
    + intros d b Hd Hb. apply Hh; [done|]. rewrite Elive. set_solver.
    + intros d i Hd Hi. unfold object. rewrite E1, E2. rewrite E3 in Hi. by apply Ho.
    + intros d Hd. destruct (decide (d = c)) as [->|Hne].
      * rewrite alter_eq, upd_eq. apply (lock_cycle_free (event_list_lock s c)).
      * rewrite alter_ne, upd_ne by congruence. by apply Hk.
Qed.
End messages.

Arguments lock_free : simpl never.

(** ** Handling *)

Section delivery.
Context {C : Type}.
Variable nr_cpus : Z.
Variable handlers : @handler_table C.

(** The registered functions of this section only change the client state. *)
Variable act : Z → Z → Z → C → C.
Hypothesis handlers_act : ∀ h f, handlers h = Some f → ∀ e d s, f e d s = Done (tt, s <| client ::= act h e d |>).

(** The effect of one message on the client. *)
Definition deliver (handler_num : Z) (x : C) (m : cpu_msg) : C :=
  if handler m <? handler_num then
    match handlers (handler m) with Some _ => act (handler m) (event m) (data m) x | None => x end
  else x.

Lemma ipi_ok_client (s : ipi C) live q f : ipi_ok nr_cpus s live q → ipi_ok nr_cpus (s <| client ::= f |>) live q.
Proof. intros [? ? ? ? ? ? ? ?]. constructor; rsimpl; done. Qed.

Lemma ipi_ok_cpus (s : ipi C) live q f : ipi_ok nr_cpus s live q → ipi_ok nr_cpus (s <| cpus ::= f |>) live q.
Proof. intros [? ? ? ? ? ? ? ?]. constructor; rsimpl; done. Qed.

Lemma ipi_ok_queues (s : ipi C) live q q' :
  (∀ c, q' c = q c) → ipi_ok nr_cpus s live q → ipi_ok nr_cpus s live q'.
Proof.
  intros Hq [? ? Hr Hl Hs ? ? ?]. constructor; try done.
  - intros c Hc. rewrite Hq. by apply Hr.
  - intros c a Hc. rewrite Hq. by apply Hl.
  - intros c d a Hc Hd. rewrite !Hq. by apply Hs.
Qed.

Lemma deliver_run msg (s : ipi C) :
  (if handler msg <? ipi_cpumsg_handler_num s
   then match handlers (handler msg) with Some f => f (event msg) (data msg) | None => mret tt end
   else mret tt) s =
  Done (tt, s <| client ::= λ x, deliver (ipi_cpumsg_handler_num s) x msg |>).
Proof using handlers_act.
  unfold deliver. destruct (_ <? _); [|by destruct s].
  destruct (handlers (handler msg)) as [f|] eqn:E; [|by destruct s]. by apply handlers_act.
Qed.

Lemma handle_msgs_run c nodes fuel (s : ipi C) live q :
  ipi_ok nr_cpus s live q → 0 ≤ c < nr_cpus → q c = nodes → (length nodes ≤ fuel)%nat →
  ∃ s' live', handle_msgs handlers c fuel s = Done (tt, s') ∧ ipi_ok nr_cpus s' live' (<[c := []]> q) ∧
    live ≡ₚ nodes ++ live' ∧ cpus s' = cpus s ∧
    client s' = foldl (deliver (ipi_cpumsg_handler_num s)) (client s) (rev (map (node_msg s) nodes)).
Proof using handlers_act.
  revert fuel s live q. induction nodes as [|a l IH] using rev_ind; intros fuel s live q H Hc Hq Hf.
  - exists s, live. split.
    { destruct fuel; simpl; by rewrite (prog_bind_done _ _ _ None s) by (by apply (cpu_get_msg_empty nr_cpus s live q)). }
    split; [|done]. apply (ipi_ok_queues s live q); [|done]. intros d.
    destruct (decide (d = c)) as [->|]; [by rewrite upd_eq|by rewrite upd_ne by congruence].
  - destruct (cpu_get_msg_run nr_cpus s live q c a l H Hc Hq) as (p' & l1 & l2 & El & He & H').
    rewrite length_app in Hf. simpl in Hf. destruct fuel as [|fuel]; [lia|].
    set (s1 := taken c a p' s) in *. set (msg := node_msg s a) in *.
    set (s2 := s1 <| client ::= λ x, deliver (ipi_cpumsg_handler_num s) x msg |>).
    destruct (IH fuel s2 (l1 ++ l2) (<[c := l]> q)) as (s' & live' & He' & Hok & Hp & Hcpu & Hcl);
      [by apply ipi_ok_client|done|by rewrite upd_eq|lia|].
    exists s', live'. split; [|split; [|split; [|split]]].
    + cbn [handle_msgs]. rewrite (prog_bind_done _ _ _ _ _ He). rewrite bind_gets.
      rewrite (prog_bind_done _ _ _ _ _ (deliver_run msg s1)). exact He'.
    + apply (ipi_ok_queues s' live' _) with (2 := Hok). intros d.
      destruct (decide (d = c)) as [->|]; [by rewrite !upd_eq|by rewrite !upd_ne by congruence].
    + rewrite El, <-Permutation_middle, Hp, <-(assoc app). simpl. by rewrite <-Permutation_middle.
    + rewrite Hcpu. unfold s2, s1, taken. by rsimpl.
    + rewrite Hcl, map_app, rev_app_distr. unfold s2, s1, taken. rsimpl. done.
Qed.

Lemma cpu_msg_handler_run c (s : ipi C) live q :
  ipi_ok nr_cpus s live q → 0 ≤ c < nr_cpus →
  ∃ s' live', cpu_msg_handler handlers c (length (q c)) s = Done (tt, s') ∧
    ipi_ok nr_cpus s' live' (<[c := []]> q) ∧ live ≡ₚ q c ++ live' ∧ handling_msgs (cpus s' c) = false ∧
    client s' = foldl (deliver (ipi_cpumsg_handler_num s)) (client s) (rev (map (node_msg s) (q c))).
Proof using handlers_act.
  intros H Hc. unfold cpu_msg_handler, set_handling. rewrite bind_modify.
  set (s1 := s <| cpus ::= _ |>).
  destruct (handle_msgs_run c (q c) (length (q c)) s1 live q) as (s' & live' & He & Hok & Hp & _ & Hcl);
    [by apply ipi_ok_cpus|done..|].
  rewrite (prog_bind_done _ _ _ _ _ He), run_modify. eexists _, live'. split; [done|].
  split; [by apply ipi_ok_cpus|]. split; [done|]. split; [rsimpl; rewrite alter_eq; by rsimpl|].
  rsimpl. rewrite Hcl. unfold s1. by rsimpl.
Qed.

End delivery.

(** [cpu_send_msg] queues the message or stops the sender.  It appends a node with the message
    to the event list of the target, leaves every other list and waiting message alone, and
    raises the message interrupt on the target; when all nodes are in use it ends in ERROR. *)
Theorem cpu_send_msg_queues {C} nr_cpus (s : ipi C) live q c msg :
  ipi_ok nr_cpus s live q → 0 ≤ c < nr_cpus →
  (∃ a s', cpu_send_msg c msg s = Done (tt, s') ∧ a ∉ live ∧
     ipi_ok nr_cpus s' (a :: live) (<[c := q c ++ [a]]> q) ∧ node_msg s' a = msg ∧
     (∀ b, b ∈ live → node_msg s' b = node_msg s b) ∧ sent_ipis s' = sent_ipis s ++ [(c, IPI_CPU_MSG)]) ∨
  (cpu_send_msg c msg s = Halt FError ∧ ∀ j, 0 ≤ j < num (msg_pool s) → object (msg_pool s) j ∈ live).
Proof.
  intros H Hc. destruct (cpu_send_msg_run nr_cpus s live q c msg H Hc) as [(j & p' & He & Hf & Hok)|?]; [left|by right].
  eexists _, _. split; [exact He|]. split; [done|]. split; [done|]. unfold sent. rsimpl. split; [by rewrite upd_eq|].
  split; [|done]. intros b Hb. rewrite upd_ne; [done|]. by intros <-.
Qed.

(** ** A start state *)

(** Two CPUs after [cpu_init], with a pool of [CPU_MSG_POOL_SIZE] nodes and a client that records
    the data of its messages. *)
Definition blank_cpu : cpu :=
  {| cpu_id := 0; handling_msgs := false; cpu_vcpu := None; cpu_mpidr := 0; cpu_rqnode := None; flag := 0;
     sr_vttbr := 0; sr_vmpidr := 0 |}.
Definition blank_ipi : ipi (list Z) :=
  {| lists := λ _, {| next := 0; prev := 0 |}; node_msg := λ _, {| handler := 0; event := 0; data := 0 |};
     msg_pool := OBJPOOL_ALLOC 0x20000 CPU_MSG_NODE_SIZE CPU_MSG_POOL_SIZE; event_list_lock := λ _, SPINLOCK_INITVAL;
     cpus := λ _, blank_cpu; cpu_glb_sync := {| ready := false; n := 0; count := 0 |};
     cpu_interfaces := 0x10000; ipi_cpumsg_handler_num := 0; sent_ipis := []; client := [] |}.
Definition sample_ipi : ipi (list Z) :=
  match (cpu_init 2 0 0x80000000 1;; cpu_init 2 1 0x80000001 1) blank_ipi with
  | Done (_, s) => s
  | Halt _ => blank_ipi
  end.
Definition record_handlers : @handler_table (list Z) := λ h,
  if h =? 0 then Some (λ e d, modify (λ s, s <| client ::= λ l, l ++ [d] |>)) else None.

Lemma sample_ipi_ok : ipi_ok 2 sample_ipi [] (λ _, []).
Proof.
  assert (lists sample_ipi = INIT_LIST_HEAD 0x11000 (INIT_LIST_HEAD 0x10000 (λ _, {| next := 0; prev := 0 |})))
    as El by reflexivity.
  assert (∀ c, event_list c sample_ipi = 0x10000 + c * PAGE_SIZE) as Ee by done.
  destruct (pool_start 0x20000 CPU_MSG_NODE_SIZE CPU_MSG_POOL_SIZE) as [Hp Hu];
    [unfold CPU_MSG_NODE_SIZE, CPU_MSG_POOL_SIZE; lia..|].
  constructor; [exact Hp|exact Hu| | | | | |].
  - intros c Hc. rewrite Ee, El. assert (c = 0 ∨ c = 1) as [-> | ->] by lia.
    + eapply circular_frame; [apply INIT_LIST_HEAD_circular|apply INIT_LIST_HEAD_outside|].
      intros x [->|Hx]%elem_of_cons; [|set_solver]. by intros ?%list_elem_of_singleton.
    + apply INIT_LIST_HEAD_circular.
  - intros c a _ Ha. by apply elem_of_nil in Ha.
  - intros c d a _ _ Ha. by apply elem_of_nil in Ha.
  - intros c a _ Ha. by apply elem_of_nil in Ha.
  - intros c j Hc Hj. rewrite Ee. change (msg_pool sample_ipi) with (OBJPOOL_ALLOC 0x20000 CPU_MSG_NODE_SIZE CPU_MSG_POOL_SIZE) in *.
    unfold object. simpl in *. unfold CPU_MSG_NODE_SIZE, CPU_MSG_POOL_SIZE, PAGE_SIZE in *. lia.
  - intros c Hc. assert (event_list_lock sample_ipi c = SPINLOCK_INITVAL) as ->; [|by split].
    assert (c = 0 ∨ c = 1) as [-> | ->] by lia; reflexivity.
Qed.

Definition hello : cpu_msg := {| handler := 0; event := 2; data := 7 |}.

Lemma cpu_send_msg_queues_witness :
  ∃ a s', cpu_send_msg 1 hello sample_ipi = Done (tt, s') ∧ node_msg s' a = hello ∧
    ipi_ok 2 s' [a] (<[1 := [a]]> (λ _, [])).
Proof.
  destruct (cpu_send_msg_queues 2 sample_ipi [] (λ _, []) 1 hello sample_ipi_ok) as
    [(a & s' & He & _ & Hok & Hm & _)|[He Hf]]; [lia| |].
  - exists a, s'. split; [exact He|]. split; [exact Hm|exact Hok].
  - exfalso. apply (not_elem_of_nil (object (msg_pool sample_ipi) 0)), Hf. split; [lia|reflexivity].
Defined.

