(* ===== verification/Vcpu.v ===== *)
(** * Virtual machines and virtual CPUs: src/core/inc/vm.h, src/arch/aarch64/arch_vm.c and the
    accessors of src/core/vm.c

    The structures the other components share: [struct vm], [struct vcpu] and the register frame
    of a virtual CPU.  A pointer to a vcpu is its index in a table; a VM owns the consecutive
    entries starting at [vcpus].  The virtual interrupt controller's part of the two
    structures is in Vgic.v. *)
From S2P Require Import Prelude Util Bits Bitmap Spinlock Cpu.

Definition INVALID_CPUID : Z := SIZE_MAX.

(** ** Data *)

Record vcpu_regs := { x : Z → Z; spsr_el2 : Z; elr_el2 : Z; sp_el1 : Z }.
#[export] Instance eta_vcpu_regs : Eta vcpu_regs := λ r,
  Build_vcpu_regs (x r) (spsr_el2 r) (elr_el2 r) (sp_el1 r).

Record vcpu := {
  vcpu_id : Z;
  p_id : Z;
  regs : vcpu_regs;
  vmpidr : Z;
  vcpu_vm : option Z
}.
#[export] Instance eta_vcpu : Eta vcpu := λ v,
  Build_vcpu (vcpu_id v) (p_id v) (regs v) (vmpidr v) (vcpu_vm v).

Record rq_vm := { vbase : Z; pbase : Z; rq_size : Z }.
#[export] Instance eta_rq_vm : Eta rq_vm := λ r, Build_rq_vm (vbase r) (pbase r) (rq_size r).

(** [as_id] and [as_root] are [as.id] and [as.pt.root] of the VM's address space. *)
Record vm := {
  vm_id : Z;
  vcpus : Z;
  nr_cpus : Z;
  cpus : Z;
  master : Z;
  vm_sync : cpu_synctoken;
  vm_lock : spinlock_t;
  as_id : Z;
  as_root : Z;
  vm_rq : rq_vm;
  interrupt_bitmap : bitmap_t
}.
#[export] Instance eta_vm : Eta vm := λ v,
  Build_vm (vm_id v) (vcpus v) (nr_cpus v) (cpus v) (master v) (vm_sync v) (vm_lock v) (as_id v)
    (as_root v) (vm_rq v) (interrupt_bitmap v).

(** ** Registers *)

Definition vcpu_readreg (v : vcpu) (reg : Z) : Z :=
  if 30 <? reg then 0 else x (regs v) reg.

Definition vcpu_writereg (v : vcpu) (reg val : Z) : vcpu :=
  if 30 <? reg then v else v <| regs ::= λ r, r <| x ::= <[reg := val]> |> |>.

Definition vcpu_readpc (v : vcpu) : Z := elr_el2 (regs v).

Definition vcpu_writepc (v : vcpu) (pc : Z) : vcpu := v <| regs ::= λ r, r <| elr_el2 := pc |> |>.

Definition MPIDR_RES1 : Z := 0x80000000.
Definition MPIDR_RES0_MSK : Z := wrap 64 (Z.lnot (Z.shiftl 0x1f 25)).
Definition MPIDR_U_BIT : Z := Z.shiftl 1 30.
Definition MPIDR_AFF_MSK : Z := 0xffff.

(** An invalid mpidr: [~(~MPIDR_RES1 & MPIDR_RES0_MSK)], where [~MPIDR_RES1] is 32 bits wide. *)
Definition INVALID_MPIDR : Z :=
  wrap 64 (Z.lnot (Z.land (wrap 32 (Z.lnot MPIDR_RES1)) MPIDR_RES0_MSK)).

Definition vm_cpuid_to_mpidr (v : vm) (cpuid : Z) : Z :=
  if nr_cpus v <? cpuid then INVALID_MPIDR else
  let mpidr := Z.lor cpuid MPIDR_RES1 in
  if nr_cpus v =? 1 then Z.lor mpidr MPIDR_U_BIT else mpidr.

(** [platform_arch_cpuid_to_mpidr(plat, cpuid)] over the platform's [cpu_num]. *)
Definition platform_arch_cpuid_to_mpidr (cpu_num cpuid : Z) : Z :=
  if cpu_num <? cpuid then INVALID_MPIDR else
  let mpidr := Z.lor cpuid MPIDR_RES1 in
  if cpu_num =? 1 then Z.lor mpidr MPIDR_U_BIT else mpidr.

Definition SPSR_EL1h : Z := 0x5.
Definition SPSR_F : Z := Z.shiftl 1 6.
Definition SPSR_I : Z := Z.shiftl 1 7.
Definition SPSR_A : Z := Z.shiftl 1 8.
Definition SPSR_D : Z := Z.shiftl 1 9.

(** [memset] to zero, then EL1h with every exception masked, then the entry point.  The four
    EL1 registers it also writes are not per vcpu. *)
Definition vcpu_arch_reset (v : vcpu) (entry : Z) : vcpu :=
  let v := v <| regs := {| x := λ _, 0; spsr_el2 := 0; elr_el2 := 0; sp_el1 := 0 |} |> in
  let v := v <| regs ::= λ r, r <| spsr_el2 :=
      Z.lor (Z.lor (Z.lor (Z.lor SPSR_EL1h SPSR_F) SPSR_I) SPSR_A) SPSR_D |> |> in
  vcpu_writepc v entry.

(** ** Virtual and physical CPU numbers *)

(** [&vm->vcpus[vcpuid]], or NULL. *)
Definition vm_get_vcpu (v : vm) (vcpuid : Z) : option Z :=
  if vcpuid <? nr_cpus v then Some (vcpus v + vcpuid) else None.

Definition vm_translate_to_pcpuid (vcpu_table : Z → vcpu) (v : vm) (vcpuid : Z) : Z :=
  match vm_get_vcpu v vcpuid with
  | None => INVALID_CPUID
  | Some p => p_id (vcpu_table p)
  end.

Definition vm_translate_to_vcpuid (v : vm) (pcpuid : Z) : Z :=
  if negb (Z.land (cpus v) (wrap 64 (Z.shiftl 1 pcpuid)) =? 0)
  then bit_count 64 (Z.land (cpus v) (BIT64_MASK 0 pcpuid))
  else INVALID_CPUID.

(** The loop of the two mask translations, from bit [i] on, with [f] the translation of one
    number. *)
Fixpoint translate_mask (f : Z → Z) (mask pmask i : Z) (fuel : nat) : Z :=
  match fuel with
  | O => pmask
  | S fuel =>
      let pmask :=
        if negb (Z.land mask (wrap 64 (Z.shiftl 1 i)) =? 0) && negb (f i =? INVALID_CPUID)
        then Z.lor pmask (wrap 64 (Z.shiftl 1 (f i))) else pmask in
      translate_mask f mask pmask (i + 1) fuel
  end.

Definition vm_translate_to_pcpu_mask (vcpu_table : Z → vcpu) (v : vm) (mask len : Z) : Z :=
  translate_mask (vm_translate_to_pcpuid vcpu_table v) mask 0 0 (Z.to_nat len).

Definition vm_translate_to_vcpu_mask (v : vm) (mask len : Z) : Z :=
  translate_mask (vm_translate_to_vcpuid v) mask 0 0 (Z.to_nat len).

(** The first vcpu of the VM whose affinity bits are those of [mpidr]. *)
Fixpoint by_mpidr_loop (vcpu_table : Z → vcpu) (v : vm) (mpidr vcpuid : Z) (fuel : nat) : option Z :=
  match fuel with
  | O => None
  | S fuel =>
      if vcpuid <? nr_cpus v then
        match vm_get_vcpu v vcpuid with
        | None => None
        | Some p =>
            if Z.land (vmpidr (vcpu_table p)) MPIDR_AFF_MSK =? Z.land mpidr MPIDR_AFF_MSK
            then Some p else by_mpidr_loop vcpu_table v mpidr (vcpuid + 1) fuel
        end
      else None
  end.

Definition vm_get_vcpu_by_mpidr (vcpu_table : Z → vcpu) (v : vm) (mpidr : Z) : option Z :=
  by_mpidr_loop vcpu_table v mpidr 0 (Z.to_nat (nr_cpus v)).

(** ** Bringing a VM up *)

(** [vm->cpus |= 1 << cpu()->id] under the VM's lock. *)
Definition vm_cpu_init (v : vm) (cpuid : Z) : outcome vm :=
  match spin_lock (vm_lock v) with
  | Halt e => Halt e
  | Done l => Done (v <| cpus ::= λ m, Z.lor m (wrap 64 (Z.shiftl 1 cpuid)) |>
                      <| vm_lock := spin_unlock l |>)
  end.

Fixpoint calc_loop (map i count : Z) (fuel : nat) : Z :=
  match fuel with
  | O => count
  | S fuel => calc_loop map (i + 1) (if negb (bit_get 64 map i =? 0) then count +64 1 else count) fuel
  end.

Definition vm_calc_vcpu_id (v : vm) (cpuid : Z) : Z := calc_loop (cpus v) 0 0 (Z.to_nat cpuid).

(** [vcpu_arch_init] without the interrupt controller's part. *)
Definition vcpu_arch_init (v : vm) (c : vcpu) : vcpu := c <| vmpidr := vm_cpuid_to_mpidr v (vcpu_id c) |>.

(** One round of [vm_vcpu_init]: vcpu [i] of VM [vmp]; only vcpu 0 gets the image's entry. *)
Definition vcpu_init_one (vmp : Z) (v : vm) (entry i : Z) (c : vcpu) : vcpu :=
  let c := c <| vcpu_id := i |> <| vcpu_vm := Some vmp |> in
  let c := vcpu_arch_init v c in
  if i =? 0 then vcpu_arch_reset c entry else vcpu_arch_reset c 0.

Fixpoint vcpu_init_loop (vmp : Z) (v : vm) (entry i : Z) (tbl : Z → vcpu) (fuel : nat) : outcome (Z → vcpu) :=
  match fuel with
  | O => Done tbl
  | S fuel =>
      match vm_get_vcpu v i with
      | None => Halt FNull
      | Some p => vcpu_init_loop vmp v entry (i + 1) (alter (vcpu_init_one vmp v entry i) p tbl) fuel
      end
  end.

Definition vm_vcpu_init (vmp : Z) (v : vm) (entry : Z) (tbl : Z → vcpu) : outcome (Z → vcpu) :=
  vcpu_init_loop vmp v entry 0 tbl (Z.to_nat (nr_cpus v)).

(** The scalar fields [vm_master_init] sets, on the CPU [cpuid]. *)
Definition vm_master_init (v : vm) (config_nr_cpus id cpuid : Z) : vm :=
  let v := v <| master := cpuid |> <| nr_cpus := config_nr_cpus |> <| vm_id := id |> in
  v <| vm_sync ::= λ t, cpu_sync_init t config_nr_cpus |> <| as_id := id |>.

Definition vm_has_interrupt (v : vm) (int_id : Z) : bool :=
  negb (bitmap_get (interrupt_bitmap v) int_id =? 0).

(** ** Properties *)

Lemma vcpu_readreg_writereg v r r' val :
  0 ≤ r ≤ 30 → vcpu_readreg (vcpu_writereg v r val) r' = if r =? r' then val else vcpu_readreg v r'.
Proof.
  intros Hr. unfold vcpu_readreg, vcpu_writereg. zcase; subst; rsimpl; upd_simp; done.
Qed.

(** The reset PSTATE: EL1h, DAIF masked. *)
Lemma vcpu_arch_reset_spec v entry :
  vcpu_readpc (vcpu_arch_reset v entry) = entry ∧
  spsr_el2 (regs (vcpu_arch_reset v entry)) = 0x3c5 ∧
  (∀ r, vcpu_readreg (vcpu_arch_reset v entry) r = 0).
Proof.
  unfold vcpu_arch_reset, vcpu_writepc, vcpu_readpc, vcpu_readreg. rsimpl.
  split_and!; [done..|]. intros r. rsimpl. zcase; done.
Qed.

Lemma set_bits_snoc k word :
  0 ≤ k → set_bits (k + 1) word = set_bits k word ++ (if Z.testbit word k then [k] else []).
Proof.
  intros Hk. unfold set_bits. rewrite seqZ_app, list.filter_app by lia. f_equal.
  rewrite Z.add_0_l, seqZ_cons, seqZ_nil by lia. simpl.
  destruct (Z.testbit word k) eqn:E; [rewrite filter_cons_True|rewrite filter_cons_False]; try done; congruence.
Qed.

Lemma set_bits_length_le k j word :
  0 ≤ j ≤ k → (length (set_bits j word) ≤ length (set_bits k word))%nat.
Proof.
  intros Hj. unfold set_bits. replace k with (j + (k - j)) by lia.
  rewrite seqZ_app, list.filter_app, length_app by lia. lia.
Qed.

Lemma set_bits_length_bound k word : 0 ≤ k → Z.of_nat (length (set_bits k word)) ≤ k.
Proof.
  intros. unfold set_bits. pose proof (length_filter (λ i, Z.testbit word i = true) (seqZ 0 k)) as H1.
  rewrite length_seqZ in H1. lia.
Qed.

Lemma calc_loop_spec map i count fuel :
  0 ≤ i → i + Z.of_nat fuel ≤ 64 → count = Z.of_nat (length (set_bits i map)) →
  calc_loop map i count fuel = Z.of_nat (length (set_bits (i + Z.of_nat fuel) map)).
Proof.
  revert i count. induction fuel as [|fuel IH]; intros i count Hi Hb Hc.
  { simpl. by rewrite Z.add_0_r. }
  cbn [calc_loop].
  replace (i + Z.of_nat (S fuel)) with (i + 1 + Z.of_nat fuel) by lia.
  apply IH; [lia|lia|]. rewrite set_bits_snoc by lia. rewrite length_app.
  pose proof (set_bits_length_bound i map Hi).
  pose proof (bit_get_spec 64 map i ltac:(lia)) as Hg.
  rewrite Hg, negb_involutive.
  destruct (Z.testbit map i); simpl; rewrite ?wrap_small by lia; lia.
Qed.

(** The number of vcpus of the VM on lower-numbered CPUs. *)
Lemma vm_calc_vcpu_id_spec v cpuid :
  0 ≤ cpuid ≤ 64 → vm_calc_vcpu_id v cpuid = Z.of_nat (length (set_bits cpuid (cpus v))).
Proof.
  intros. unfold vm_calc_vcpu_id. rewrite (calc_loop_spec _ 0) by (done || lia).
  by rewrite Z.add_0_l, Z2Nat.id by lia.
Qed.

(** The affinity field of a vcpu's mpidr is its number. *)
Lemma vm_cpuid_to_mpidr_aff v i :
  0 ≤ i < nr_cpus v → i < 2 ^ 16 → Z.land (vm_cpuid_to_mpidr v i) MPIDR_AFF_MSK = i.
Proof.
  intros Hi Hb. unfold vm_cpuid_to_mpidr. destruct (Z.ltb_spec (nr_cpus v) i); [lia|].
  assert (Z.land i MPIDR_AFF_MSK = i) as Hl.
  { change MPIDR_AFF_MSK with (Z.ones 16). rewrite Z.land_ones by lia. apply Z.mod_small. lia. }
  destruct (nr_cpus v =? 1); rewrite !Z.land_lor_distr_l, Hl; simpl; by rewrite ?Z.lor_0_r.
Qed.

Lemma vcpu_init_loop_spec vmp v entry i tbl fuel :
  0 ≤ i → i + Z.of_nat fuel = nr_cpus v →
  ∃ tbl', vcpu_init_loop vmp v entry i tbl fuel = Done tbl' ∧
    ∀ q, tbl' q = if (vcpus v + i <=? q) && (q <? vcpus v + nr_cpus v)
                  then vcpu_init_one vmp v entry (q - vcpus v) (tbl q) else tbl q.
Proof.
  revert i tbl. induction fuel as [|fuel IH]; intros i tbl Hi Hf.
  { exists tbl. split; [done|]. intros q. zcase; done. }
  cbn [vcpu_init_loop]. unfold vm_get_vcpu at 1.
  destruct (Z.ltb_spec i (nr_cpus v)); [|lia].
  destruct (IH (i + 1) (alter (vcpu_init_one vmp v entry i) (vcpus v + i) tbl)) as (tbl' & -> & Ht); [lia|lia|].
  exists tbl'. split; [done|]. intros q. rewrite Ht.
  destruct (decide (q = vcpus v + i)) as [->|].
  - rewrite alter_eq. replace (vcpus v + i - vcpus v) with i by lia. zcase; done.
  - rewrite alter_ne by done. zcase; done.
Qed.

Lemma by_mpidr_loop_first tbl v mpidr i k fuel :
  0 ≤ i ≤ k → k < nr_cpus v → (Z.to_nat (k - i) < fuel)%nat →
  (∀ j, i ≤ j < k → Z.land (vmpidr (tbl (vcpus v + j))) MPIDR_AFF_MSK ≠ Z.land mpidr MPIDR_AFF_MSK) →
  Z.land (vmpidr (tbl (vcpus v + k))) MPIDR_AFF_MSK = Z.land mpidr MPIDR_AFF_MSK →
  by_mpidr_loop tbl v mpidr i fuel = Some (vcpus v + k).
Proof.
  revert i. induction fuel as [|fuel IH]; intros i Hi Hk Hf Hne Heq; [lia|].
  cbn [by_mpidr_loop]. unfold vm_get_vcpu. destruct (Z.ltb_spec i (nr_cpus v)); [|lia].
  destruct (decide (i = k)) as [->|].
  - by rewrite Heq, Z.eqb_refl.
  - destruct (Z.eqb_spec (Z.land (vmpidr (tbl (vcpus v + i))) MPIDR_AFF_MSK) (Z.land mpidr MPIDR_AFF_MSK)).
    { exfalso. apply (Hne i); [lia|done]. }
    apply IH; try lia. intros j Hj. apply Hne. lia.
Qed.

(** Initialising the vcpus of a VM of at most 2^16 vcpus succeeds, touches exactly the VM's
    own entries of the table, gives vcpu [i] the number [i], its VM, a cleared frame in EL1h with
    the image's entry as pc for vcpu 0 (0 for the others), and an mpidr by which
    [vm_get_vcpu_by_mpidr] finds it again. *)
Theorem vm_vcpu_init_by_mpidr vmp v entry tbl :
  0 ≤ nr_cpus v ≤ 2 ^ 16 →
  ∃ tbl', vm_vcpu_init vmp v entry tbl = Done tbl' ∧
    (∀ q, ¬ vcpus v ≤ q < vcpus v + nr_cpus v → tbl' q = tbl q) ∧
    ∀ i, 0 ≤ i < nr_cpus v →
      let c := tbl' (vcpus v + i) in
      vcpu_id c = i ∧ vcpu_vm c = Some vmp ∧ vcpu_readpc c = (if i =? 0 then entry else 0) ∧
      spsr_el2 (regs c) = 0x3c5 ∧
      vm_get_vcpu_by_mpidr tbl' v (vmpidr c) = Some (vcpus v + i).
Proof.
  intros Hn. destruct (vcpu_init_loop_spec vmp v entry 0 tbl (Z.to_nat (nr_cpus v))) as (tbl' & He & Ht);
    [lia|lia|]. exists tbl'. split_and!; [exact He| |].
  { intros q Hq. rewrite Ht. zcase; done. }
  assert (∀ i, 0 ≤ i < nr_cpus v → tbl' (vcpus v + i) = vcpu_init_one vmp v entry i (tbl (vcpus v + i))) as Hi.
  { intros i Hi. rewrite Ht. replace (vcpus v + i - vcpus v) with i by lia. zcase; done. }
  assert (∀ i, 0 ≤ i < nr_cpus v → Z.land (vmpidr (tbl' (vcpus v + i))) MPIDR_AFF_MSK = i) as Haff.
  { intros i Hr. rewrite Hi by done.
    trans (Z.land (vm_cpuid_to_mpidr v i) MPIDR_AFF_MSK); [|by apply vm_cpuid_to_mpidr_aff; lia].
    f_equal. unfold vcpu_init_one. by destruct (i =? 0). }
  intros i Hr c. subst c. split_and!.
  1-4: rewrite (Hi i Hr); unfold vcpu_init_one; by destruct (i =? 0).
  - unfold vm_get_vcpu_by_mpidr. apply by_mpidr_loop_first; try lia.
    intros j Hj. rewrite !Haff by lia. lia.
Qed.

(** A VM of four vcpus at entries 8..11 of the table, on CPUs 0, 2 and 3. *)
Definition sample_vcpu : vcpu :=
  {| vcpu_id := 0; p_id := 0; regs := {| x := λ _, 0; spsr_el2 := 0; elr_el2 := 0; sp_el1 := 0 |};
     vmpidr := 0; vcpu_vm := None |}.
Definition sample_vm : vm :=
  {| vm_id := 1; vcpus := 8; nr_cpus := 4; cpus := 13; master := 0;
     vm_sync := {| ready := false; n := 0; count := 0 |}; vm_lock := SPINLOCK_INITVAL;
     as_id := 1; as_root := 0x50000000; vm_rq := {| vbase := 0; pbase := 0; rq_size := 0 |};
     interrupt_bitmap := λ _, 0 |}.

Lemma vm_vcpu_init_by_mpidr_witness :
  ∃ tbl', vm_vcpu_init 1 sample_vm 0x40100000 (λ _, sample_vcpu) = Done tbl' ∧
    vm_get_vcpu_by_mpidr tbl' sample_vm (vmpidr (tbl' 10)) = Some 10.
Proof.
  destruct (vm_vcpu_init_by_mpidr 1 sample_vm 0x40100000 (λ _, sample_vcpu)) as (tbl' & He & _ & Hs);
    [by vm_compute|].
  exists tbl'. split; [exact He|]. apply (Hs 2). by vm_compute.
Defined.

Lemma set_bits_land_ones k p word :
  0 ≤ p ≤ k → set_bits k (Z.land word (Z.ones p)) = set_bits p word.
Proof.
  intros Hp.
  assert (∀ m : nat, set_bits (Z.of_nat m) (Z.land word (Z.ones p)) = set_bits (Z.min (Z.of_nat m) p) word) as H.
  { induction m as [|m IH]; [rewrite Z.min_l by lia; done|].
    replace (Z.of_nat (S m)) with (Z.of_nat m + 1) by lia.
    rewrite set_bits_snoc, IH, Z.land_spec, Z.testbit_ones_nonneg by lia.
    destruct (Z.ltb_spec (Z.of_nat m) p).
    - rewrite !Z.min_l, andb_true_r, set_bits_snoc by lia. done.
    - rewrite !Z.min_r, andb_false_r, app_nil_r by lia. done. }
  specialize (H (Z.to_nat k)). rewrite Z2Nat.id, Z.min_r in H by lia. exact H.
Qed.

(** The vcpu number of a physical CPU.  On a VM whose [cpus] contains the CPU it is the
    number of lower-numbered CPUs of the VM, which [vm_calc_vcpu_id] also counts, except for
    CPU 0, where the empty [BIT_MASK] is all ones and the result is the number of all CPUs of
    the VM; a CPU outside [cpus] has none. *)
Theorem vm_translate_to_vcpuid_rank v p :
  in_word 64 (cpus v) → 0 ≤ p < 64 →
  vm_translate_to_vcpuid v p =
    if Z.testbit (cpus v) p
    then if p =? 0 then Z.of_nat (length (set_bits 64 (cpus v))) else vm_calc_vcpu_id v p
    else INVALID_CPUID.
Proof.
  intros Hw Hp. unfold vm_translate_to_vcpuid.
  pose proof (bit_get_spec 64 (cpus v) p ltac:(lia)) as Hg. unfold bit_get in Hg. rewrite Hg, negb_involutive.
  destruct (Z.testbit (cpus v) p) eqn:Hb; [|done].
  rewrite bit_count_spec by lia.
  destruct (Z.eqb_spec p 0) as [->|Hne].
  - assert (BIT64_MASK 0 0 = Z.ones 64) as -> by done. do 3 f_equal.
    rewrite Z.land_ones by lia. by rewrite Z.mod_small.
  - by rewrite vm_calc_vcpu_id_spec, BIT_MASK_ones, set_bits_land_ones by lia.
Qed.

Lemma vm_translate_to_vcpuid_rank_witness :
  vm_translate_to_vcpuid sample_vm 3 = 2 ∧ vm_translate_to_vcpuid sample_vm 0 = 3.
Proof.
  split; rewrite vm_translate_to_vcpuid_rank by (unfold in_word; by vm_compute); by vm_compute.
Defined.
