(* ===== verification/Gic.v ===== *)
(** * The interrupt controller: src/arch/aarch64/gic.c, src/arch/aarch64/gicv2.c,
    src/arch/aarch64/inc/gic.h, src/arch/aarch64/inc/gicv2.h, and the tables of
    src/core/interrupts.c

    The build sets GIC_VERSION to 2.  The controller is a device behind an interface: a type of
    device states with a read and a write of each register.  [GicLaws] states the documented
    behaviour of the virtual interface registers the hypervisor relies on; [RegisterFile] is the
    device whose registers are plain memory. *)
From S2P Require Import Prelude Util Bits Bitmap Spinlock Cpu.

(** ** Registers *)

Inductive gic_reg :=
| GICD_CTLR | GICD_TYPER | GICD_IIDR
| GICD_IGROUPR (i : Z) | GICD_ISENABLER (i : Z) | GICD_ICENABLER (i : Z) | GICD_ISPENDR (i : Z) | GICD_ICPENDR (i : Z)
| GICD_ISACTIVER (i : Z) | GICD_ICACTIVER (i : Z) | GICD_IPRIORITYR (i : Z) | GICD_ITARGETSR (i : Z) | GICD_ICFGR (i : Z)
| GICD_SGIR | GICD_CPENDSGIR (i : Z) | GICD_SPENDSGIR (i : Z) | GICD_ID (i : Z)
| GICC_CTLR | GICC_PMR | GICC_BPR | GICC_IAR | GICC_EOIR | GICC_RPR | GICC_HPPIR | GICC_DIR
| GICH_HCR | GICH_VTR | GICH_MISR | GICH_EISR (i : Z) | GICH_ELSR (i : Z) | GICH_LR (i : Z).
#[export] Instance gic_reg_eq_dec : EqDecision gic_reg.
Proof. solve_decision. Defined.

(** A read can change the device: reading GICC_IAR acknowledges an interrupt. *)
Class GicDevice := {
  device : Type;
  read_reg : gic_reg → device → Z * device;
  write_reg : gic_reg → Z → device → device
}.

Definition GIC_FIRST_SPECIAL_INTID : Z := 1020.
Definition GIC_MAX_INTERUPTS : Z := 1024.
Definition GIC_MAX_VALID_INTERRUPTS : Z := GIC_FIRST_SPECIAL_INTID.
Definition GIC_MAX_SGIS : Z := 16.
Definition GIC_MAX_PPIS : Z := 16.
Definition GIC_CPU_PRIV : Z := GIC_MAX_SGIS + GIC_MAX_PPIS.
Definition GIC_PRIO_BITS : Z := 8.
Definition GIC_TARGET_BITS : Z := 8.
Definition GIC_MAX_TARGETS : Z := GIC_TARGET_BITS.
Definition GIC_CONFIG_BITS : Z := 2.
Definition GIC_SGI_BITS : Z := 8.
Definition GIC_LOWEST_PRIO : Z := 0xff.
Definition GIC_INT_REG (n : Z) : Z := n / 32.
Definition GIC_INT_MASK (n : Z) : Z := u32 (Z.shiftl 1 (n mod 32)).
Definition GIC_NUM_INT_REGS (n : Z) : Z := GIC_INT_REG n.
Definition GIC_NUM_PRIVINT_REGS : Z := GIC_CPU_PRIV / 32.
Definition GIC_PRIO_REG (n : Z) : Z := (n * GIC_PRIO_BITS) / 32.
Definition GIC_NUM_PRIO_REGS (n : Z) : Z := GIC_PRIO_REG n.
Definition GIC_PRIO_OFF (n : Z) : Z := (n * GIC_PRIO_BITS) mod 32.
Definition GIC_TARGET_REG (n : Z) : Z := (n * GIC_TARGET_BITS) / 32.
Definition GIC_NUM_TARGET_REGS (n : Z) : Z := GIC_TARGET_REG n.
Definition GIC_TARGET_OFF (n : Z) : Z := (n * GIC_TARGET_BITS) mod 32.
Definition GIC_NUM_SGI_REGS : Z := (GIC_MAX_SGIS * GIC_SGI_BITS) / 32.
Definition GICD_SGI_REG (n : Z) : Z := n / 4.
Definition GICD_SGI_OFF (n : Z) : Z := n mod 4 * 8.
Definition GIC_NUM_LIST_REGS : Z := 64.
Definition GICD_CTLR_EN_BIT : Z := 0x1.
Definition GICD_CTLR_ARE_NS_BIT : Z := 0x10.
Definition GICD_TYPER_CPUNUM_OFF : Z := 5.
Definition GICD_TYPER_CPUNUM_LEN : Z := 3.
Definition GICD_TYPER_CPUNUM_MSK : Z := BIT32_MASK GICD_TYPER_CPUNUM_OFF GICD_TYPER_CPUNUM_LEN.
Definition GICD_TYPER_ITLN_OFF : Z := 0.
Definition GICD_TYPER_ITLN_LEN : Z := 5.
Definition GICD_TYPER_ITLN_MSK : Z := BIT32_MASK GICD_TYPER_ITLN_OFF GICD_TYPER_ITLN_LEN.
Definition GICD_SGIR_SGIINTID_OFF : Z := 0.
Definition GICD_SGIR_SGIINTID_LEN : Z := 4.
Definition GICD_SGIR_SGIINTID_MSK : Z := BIT32_MASK GICD_SGIR_SGIINTID_OFF GICD_SGIR_SGIINTID_LEN.
Definition GICD_SGIR_SGIINTID (sgir : Z) : Z := bit_extract 32 sgir GICD_SGIR_SGIINTID_OFF GICD_SGIR_SGIINTID_LEN.
Definition GICD_SGIR_CPUTRGLST_OFF : Z := 16.
Definition GICD_SGIR_CPUTRGLST_LEN : Z := 8.
Definition GICD_SGIR_CPUTRGLST (sgir : Z) : Z := bit_extract 32 sgir GICD_SGIR_CPUTRGLST_OFF GICD_SGIR_CPUTRGLST_LEN.
Definition GICD_SGIR_TRGLSTFLT_OFF : Z := 24.
Definition GICD_SGIR_TRGLSTFLT_LEN : Z := 2.
Definition GICD_SGIR_TRGLSTFLT (sgir : Z) : Z := bit_extract 32 sgir GICD_SGIR_TRGLSTFLT_OFF GICD_SGIR_TRGLSTFLT_LEN.
Definition GICC_CTLR_EN_BIT : Z := 0x1.
Definition GICC_CTLR_EOImodeNS_BIT : Z := Z.shiftl 1 9.
Definition GICC_IAR_ID_OFF : Z := 0.
Definition GICC_IAR_ID_LEN : Z := 10.
Definition GICH_HCR_En_BIT : Z := Z.shiftl 1 0.
Definition GICH_HCR_UIE_BIT : Z := Z.shiftl 1 1.
Definition GICH_HCR_LRENPIE_BIT : Z := Z.shiftl 1 2.
Definition GICH_HCR_NPIE_BIT : Z := Z.shiftl 1 3.
Definition GICH_HCR_EOICount_OFF : Z := 27.
Definition GICH_HCR_EOICount_LEN : Z := 5.
Definition GICH_HCR_EOICount_MASK : Z := BIT32_MASK GICH_HCR_EOICount_OFF GICH_HCR_EOICount_LEN.
Definition GICH_VTR_OFF : Z := 0.
Definition GICH_VTR_LEN : Z := 6.
Definition GICH_VTR_MSK : Z := BIT32_MASK GICH_VTR_OFF GICH_VTR_LEN.
Definition GICH_LR_VID_OFF : Z := 0.
Definition GICH_LR_VID_LEN : Z := 10.
Definition GICH_LR_PID_OFF : Z := 10.
Definition GICH_LR_PID_LEN : Z := 10.
Definition GICH_LR_PRIO_OFF : Z := 23.
Definition GICH_LR_PRIO_LEN : Z := 5.
Definition GICH_LR_STATE_OFF : Z := 28.
Definition GICH_LR_STATE_LEN : Z := 2.
Definition GICH_LR_HW_BIT : Z := u32 (Z.shiftl 1 31).
Definition GICH_LR_EOI_BIT : Z := u32 (Z.shiftl 1 19).
Definition GICH_LR_PRIO_MSK : Z := BIT32_MASK GICH_LR_PRIO_OFF GICH_LR_PRIO_LEN.
Definition GICH_LR_PID_MSK : Z := BIT32_MASK GICH_LR_PID_OFF GICH_LR_PID_LEN.
Definition GICH_LR_STATE_MSK : Z := BIT32_MASK GICH_LR_STATE_OFF GICH_LR_STATE_LEN.
Definition GICH_LR_STATE (lr : Z) : Z := bit_extract 32 lr GICH_LR_STATE_OFF GICH_LR_STATE_LEN.
Definition GICH_LR_CPUID_OFF : Z := 10.
Definition GICH_LR_CPUID_LEN : Z := 3.
Definition GICH_LR_VID_MSK : Z := BIT_MASK 64 GICH_LR_VID_OFF GICH_LR_VID_LEN.
Definition GICH_LR_VID (lr : Z) : Z := bit_extract 64 lr GICH_LR_VID_OFF GICH_LR_VID_LEN.
Definition GICH_LR_CPUID_MSK : Z := BIT_MASK 64 GICH_LR_CPUID_OFF GICH_LR_CPUID_LEN.
Definition GICH_LR_CPUID (lr : Z) : Z := bit_extract 64 lr GICH_LR_CPUID_OFF GICH_LR_CPUID_LEN.
Definition GICH_LR_STATE_PND : Z := Z.land (Z.shiftl 1 GICH_LR_STATE_OFF) GICH_LR_STATE_MSK.
Definition GICH_LR_STATE_ACT : Z := Z.land (Z.shiftl 2 GICH_LR_STATE_OFF) GICH_LR_STATE_MSK.
Definition GICH_MISR_EOI : Z := u32 (Z.shiftl 1 0).
Definition GICH_MISR_U : Z := u32 (Z.shiftl 1 1).
Definition GICH_MISR_LRPEN : Z := u32 (Z.shiftl 1 2).
Definition GICH_MISR_NP : Z := u32 (Z.shiftl 1 3).

(** [enum int_state]. *)
Definition INV : Z := 0.
Definition PEND : Z := 1.
Definition ACT : Z := 2.
Definition PENDACT : Z := 3.

Definition gic_is_sgi (int_id : Z) : bool := int_id <? GIC_MAX_SGIS.
Definition gic_is_priv (int_id : Z) : bool := int_id <? GIC_CPU_PRIV.

Definition ALL_ONES : Z := u32 (-1).

(** The functions that are registered with [interrupts_reserve]. *)
Inductive irq_handler := gic_maintenance_handler_id | timer_interrupt_handler_id | cpu_msg_handler_id.

Section gic.
Context `{GicDevice}.

(** The controller as one CPU sees it, the globals of gic.c and gicv2.c, and the tables of
    interrupts.c. *)
Record gic := {
  dev : device;
  gicd_lock : spinlock_t;
  gic_cpu_map : Z → Z;
  NUM_LRS : Z;
  this_cpu : Z;
  hyp_interrupt_bitmap : bitmap_t;
  global_interrupt_bitmap : bitmap_t;
  interrupt_handlers : Z → option irq_handler
}.
#[export] Instance eta_gic : Eta gic := λ g,
  Build_gic (dev g) (gicd_lock g) (gic_cpu_map g) (NUM_LRS g) (this_cpu g) (hyp_interrupt_bitmap g)
    (global_interrupt_bitmap g) (interrupt_handlers g).

Definition rd (r : gic_reg) : prog gic Z := λ g,
  let '(v, d) := read_reg r (dev g) in Done (v, g <| dev := d |>).
Definition wr (r : gic_reg) (v : Z) : prog gic unit := modify (λ g, g <| dev ::= write_reg r (u32 v) |>).

(** [for (i = lo; i < hi; i++) body(i)], [n] rounds from [i]. *)
Fixpoint for_loop {S} (body : Z → prog S unit) (i : Z) (n : nat) : prog S unit :=
  match n with O => mret tt | Datatypes.S n => body i;; for_loop body (i + 1) n end.
Definition for_range {S} (lo hi : Z) (body : Z → prog S unit) : prog S unit := for_loop body lo (Z.to_nat (hi - lo)).

(** ** gicv2.h and gic.h *)

Definition gich_read_lr (i : Z) : prog gic Z :=
  n ← gets NUM_LRS; if i <? n then rd (GICH_LR i) else halt FError.
Definition gich_write_lr (i val : Z) : prog gic unit :=
  n ← gets NUM_LRS; if i <? n then wr (GICH_LR i) val else halt FError.
Definition gich_get_hcr : prog gic Z := rd GICH_HCR.
Definition gich_set_hcr (hcr : Z) : prog gic unit := wr GICH_HCR hcr.
Definition gich_get_misr : prog gic Z := rd GICH_MISR.
Definition gich_get_eisr : prog gic Z :=
  eisr ← rd (GICH_EISR 0);
  n ← gets NUM_LRS;
  if 32 <? n then hi ← rd (GICH_EISR 1); mret (Z.lor eisr (u64 (Z.shiftl hi 32))) else mret eisr.
Definition gich_get_elrsr : prog gic Z :=
  elsr ← rd (GICH_ELSR 0);
  n ← gets NUM_LRS;
  if 32 <? n then hi ← rd (GICH_ELSR 1); mret (Z.lor elsr (u64 (Z.shiftl hi 32))) else mret elsr.
Definition gicc_iar : prog gic Z := rd GICC_IAR.
Definition gicc_eoir (eoir : Z) : prog gic unit := wr GICC_EOIR eoir.
Definition gicc_dir (dir : Z) : prog gic unit := wr GICC_DIR dir.

Definition gic_num_irqs : prog gic Z :=
  t ← rd GICD_TYPER;
  mret (32 * bit_extract 32 t GICD_TYPER_ITLN_OFF GICD_TYPER_ITLN_LEN + 1).

(** ** gic.c: the distributor *)

Definition locked {A} (body : prog gic A) : prog gic A :=
  acquire gicd_lock;; r ← body; release gicd_lock;; mret r.

Definition gicd_get_prio (int_id : Z) : prog gic Z :=
  let reg_ind := GIC_PRIO_REG int_id in
  let off := GIC_PRIO_OFF int_id in
  v ← rd (GICD_IPRIORITYR reg_ind);
  mret (u8 (Z.land (Z.shiftr v off) (BIT32_MASK off GIC_PRIO_BITS))).

(** The read-modify-write of [len] bits at [off] that three functions share. *)
Definition update_bits (r : gic_reg) (mask off val : Z) : prog gic unit :=
  v ← rd r;
  wr r (Z.lor (Z.land v (u32 (Z.lnot mask))) (Z.land (u32 (Z.shiftl val off)) mask)).

Definition gicd_set_icfgr (int_id cfg : Z) : prog gic unit :=
  let reg_ind := (int_id * GIC_CONFIG_BITS) / 32 in
  let off := (int_id * GIC_CONFIG_BITS) mod 32 in
  let mask := u32 (Z.shiftl (Z.shiftl 1 GIC_CONFIG_BITS - 1) off) in
  locked (update_bits (GICD_ICFGR reg_ind) mask off cfg).

Definition gicd_set_prio (int_id prio : Z) : prog gic unit :=
  let reg_ind := GIC_PRIO_REG int_id in
  let off := GIC_PRIO_OFF int_id in
  let mask := BIT32_MASK off GIC_PRIO_BITS in
  locked (update_bits (GICD_IPRIORITYR reg_ind) mask off prio).

Definition gicd_set_pend (int_id : Z) (pend : bool) : prog gic unit :=
  let reg_ind := GIC_INT_REG int_id in
  if pend then wr (GICD_ISPENDR reg_ind) (GIC_INT_MASK int_id) else wr (GICD_ICPENDR reg_ind) (GIC_INT_MASK int_id).

Definition gicd_get_pend (int_id : Z) : prog gic bool :=
  v ← rd (GICD_ISPENDR (GIC_INT_REG int_id));
  mret (negb (Z.land v (GIC_INT_MASK int_id) =? 0)).

Definition gicd_set_act (int_id : Z) (act : bool) : prog gic unit :=
  let reg_ind := GIC_INT_REG int_id in
  if act then wr (GICD_ISACTIVER reg_ind) (GIC_INT_MASK int_id) else wr (GICD_ICACTIVER reg_ind) (GIC_INT_MASK int_id).

Definition gicd_get_act (int_id : Z) : prog gic bool :=
  v ← rd (GICD_ISACTIVER (GIC_INT_REG int_id));
  mret (negb (Z.land v (GIC_INT_MASK int_id) =? 0)).

Definition gicd_set_enable (int_id : Z) (en : bool) : prog gic unit :=
  let reg_ind := GIC_INT_REG int_id in
  let bit := GIC_INT_MASK int_id in
  if en then wr (GICD_ISENABLER reg_ind) bit else wr (GICD_ICENABLER reg_ind) bit.

(** ** interrupts.c: reservation *)

Definition interrupts_reserve (int_id : Z) (h : irq_handler) : prog gic unit :=
  if int_id <? GIC_MAX_INTERUPTS then
    modify (λ g, g <| interrupt_handlers ::= <[int_id := Some h]> |>);;
    modify (λ g, g <| hyp_interrupt_bitmap ::= λ b, bitmap_set b int_id |>);;
    modify (λ g, g <| global_interrupt_bitmap ::= λ b, bitmap_set b int_id |>)
  else mret tt.

Definition interrupt_is_reserved (int_id : Z) : prog gic bool :=
  b ← gets hyp_interrupt_bitmap; mret (negb (bitmap_get b int_id =? 0)).

(** [interrupts_arch_conflict] of arch_interrupts.c. *)
Definition interrupts_arch_conflict (b : bitmap_t) (int_id : Z) : bool :=
  negb (bitmap_get b int_id =? 0) && (GIC_CPU_PRIV <? int_id).

(** [gicd_init], with the platform's maintenance interrupt. *)
Definition gicd_init (maintenance_id : Z) : prog gic unit :=
  int_num ← gic_num_irqs;
  for_range GIC_NUM_PRIVINT_REGS (GIC_NUM_INT_REGS int_num) (λ i,
    wr (GICD_IGROUPR i) ALL_ONES;;
    wr (GICD_ICENABLER i) ALL_ONES;;
    wr (GICD_ICPENDR i) ALL_ONES;;
    wr (GICD_ICACTIVER i) ALL_ONES);;
  for_range (GIC_NUM_PRIO_REGS GIC_CPU_PRIV) (GIC_NUM_PRIO_REGS int_num) (λ i, wr (GICD_IPRIORITYR i) ALL_ONES);;
  for_range (GIC_NUM_TARGET_REGS GIC_CPU_PRIV) (GIC_NUM_TARGET_REGS int_num) (λ i, wr (GICD_ITARGETSR i) 0);;
  v ← rd GICD_CTLR;
  wr GICD_CTLR (Z.lor v GICD_CTLR_EN_BIT);;
  interrupts_reserve maintenance_id gic_maintenance_handler_id.

(** ** gicv2.c: the CPU interface *)

Definition gich_num_lrs : prog gic Z :=
  v ← rd GICH_VTR; mret (Z.shiftr (Z.land v GICH_VTR_MSK) GICH_VTR_OFF + 1).

(** [for (i = 0; i < gich_num_lrs(); i++)]: the bound is read again every round. *)
Fixpoint for_lrs (body : Z → prog gic unit) (i : Z) (fuel : nat) : prog gic unit :=
  match fuel with
  | O => halt FSpin
  | S fuel => n ← gich_num_lrs; if i <? n then body i;; for_lrs body (i + 1) fuel else mret tt
  end.

(** GICH_VTR reports at most 64 list registers. *)
Definition lrs_fuel : nat := S (Z.to_nat GIC_NUM_LIST_REGS).

Definition gicc_init : prog gic unit :=
  for_lrs (λ i, wr (GICH_LR i) 0) 0 lrs_fuel;;
  wr GICC_PMR GIC_LOWEST_PRIO;;
  c ← rd GICC_CTLR;
  wr GICC_CTLR (Z.lor c (Z.lor GICC_CTLR_EN_BIT GICC_CTLR_EOImodeNS_BIT));;
  h ← rd GICH_HCR;
  wr GICH_HCR (Z.lor h GICH_HCR_LRENPIE_BIT);;
  t ← rd (GICD_ITARGETSR 0);
  let sgi_targets := Z.land t (BIT32_MASK 0 GIC_TARGET_BITS) in
  let gic_cpu_id := bit_ffs 32 sgi_targets +64 1 in
  if signed 64 gic_cpu_id <? 0 then halt FError
  else modify (λ g, g <| gic_cpu_map ::= <[this_cpu g := gic_cpu_id]> |>).

Record gicc_state := {
  st_CTLR : Z; st_PMR : Z; st_BPR : Z; st_IAR : Z; st_EOIR : Z; st_RPR : Z; st_HPPIR : Z;
  priv_ISENABLER : Z; priv_IPRIORITYR : Z → Z; st_HCR : Z; st_LR : Z → Z
}.
#[export] Instance eta_gicc_state : Eta gicc_state := λ s,
  Build_gicc_state (st_CTLR s) (st_PMR s) (st_BPR s) (st_IAR s) (st_EOIR s) (st_RPR s) (st_HPPIR s)
    (priv_ISENABLER s) (priv_IPRIORITYR s) (st_HCR s) (st_LR s).

(** Registers [i .. i + n - 1] of a bank, read into an array. *)
Fixpoint read_bank (r : Z → gic_reg) (a : Z → Z) (i : Z) (n : nat) : prog gic (Z → Z) :=
  match n with O => mret a | S n => v ← rd (r i); read_bank r (<[i := v]> a) (i + 1) n end.

(** The list registers, read into an array; the bound is read again every round. *)
Fixpoint save_lrs (a : Z → Z) (i : Z) (fuel : nat) : prog gic (Z → Z) :=
  match fuel with
  | O => halt FSpin
  | S fuel =>
      n ← gich_num_lrs;
      if i <? n then v ← rd (GICH_LR i); save_lrs (<[i := v]> a) (i + 1) fuel else mret a
  end.

Definition gicc_save_state (st : gicc_state) : prog gic gicc_state :=
  ctlr ← rd GICC_CTLR;
  pmr ← rd GICC_PMR;
  bpr ← rd GICC_BPR;
  iar ← rd GICC_IAR;
  eoir ← rd GICC_EOIR;
  rpr ← rd GICC_RPR;
  hppir ← rd GICC_HPPIR;
  en ← rd (GICD_ISENABLER 0);
  prios ← read_bank GICD_IPRIORITYR (priv_IPRIORITYR st) 0 (Z.to_nat (GIC_NUM_PRIO_REGS GIC_CPU_PRIV));
  hcr ← rd GICH_HCR;
  lrs ← save_lrs (st_LR st) 0 lrs_fuel;
  mret {| st_CTLR := ctlr; st_PMR := pmr; st_BPR := bpr; st_IAR := iar; st_EOIR := eoir; st_RPR := rpr; st_HPPIR := hppir;
          priv_ISENABLER := en; priv_IPRIORITYR := prios; st_HCR := hcr; st_LR := lrs |}.

Definition gicc_restore_state (st : gicc_state) : prog gic unit :=
  wr GICC_CTLR (st_CTLR st);;
  wr GICC_PMR (st_PMR st);;
  wr GICC_BPR (st_BPR st);;
  wr GICC_IAR (st_IAR st);;
  wr GICC_EOIR (st_EOIR st);;
  wr GICC_RPR (st_RPR st);;
  wr GICC_HPPIR (st_HPPIR st);;
  wr (GICD_ISENABLER 0) (priv_ISENABLER st);;
  for_range 0 (GIC_NUM_PRIO_REGS GIC_CPU_PRIV) (λ i, wr (GICD_IPRIORITYR i) (priv_IPRIORITYR st i));;
  wr GICH_HCR (st_HCR st);;
  for_lrs (λ i, wr (GICH_LR i) (st_LR st i)) 0 lrs_fuel.

Definition gic_cpu_init : prog gic unit :=
  for_range 0 (GIC_NUM_INT_REGS GIC_CPU_PRIV) (λ i,
    wr (GICD_ICENABLER i) ALL_ONES;;
    wr (GICD_ICPENDR i) ALL_ONES;;
    wr (GICD_ICACTIVER i) ALL_ONES);;
  for_range 0 GIC_NUM_SGI_REGS (λ i, wr (GICD_CPENDSGIR i) ALL_ONES);;
  for_range 0 (GIC_NUM_PRIO_REGS GIC_CPU_PRIV) (λ i, wr (GICD_IPRIORITYR i) ALL_ONES);;
  gicc_init.

(** [gic_init] on this CPU.  The two barriers do not change the controller; the mapping of the
    registers sets three pointers. *)
Definition gic_init (maintenance_id : Z) : prog gic unit :=
  c ← gets this_cpu;
  (if c =? CPU_MASTER then
     gicd_init maintenance_id;;
     n ← gich_num_lrs;
     modify (λ g, g <| NUM_LRS := n |>)
   else mret tt);;
  gic_cpu_init.

Definition gic_send_sgi (cpu_target sgi_num : Z) : prog gic unit :=
  if (sgi_num <? GIC_MAX_SGIS) && (cpu_target <? GIC_MAX_TARGETS) then
    map ← gets gic_cpu_map;
    wr GICD_SGIR (Z.lor (u64 (Z.shiftl 1 (GICD_SGIR_CPUTRGLST_OFF + map cpu_target)))
                        (Z.land sgi_num GICD_SGIR_SGIINTID_MSK))
  else mret tt.

Fixpoint trgt_loop (map : Z → Z) (cpu_targets gic_targets i : Z) (n : nat) : Z :=
  match n with
  | O => gic_targets
  | S n =>
      let gic_targets :=
        if negb (Z.land (Z.shiftl 1 i) cpu_targets =? 0) then u8 (Z.lor gic_targets (Z.shiftl 1 (map i))) else gic_targets in
      trgt_loop map cpu_targets gic_targets (i + 1) n
  end.

Definition gic_translate_cpu_to_trgt (map : Z → Z) (cpu_targets : Z) : Z :=
  trgt_loop map cpu_targets 0 0 (Z.to_nat GIC_MAX_TARGETS).

Definition gicd_set_trgt (int_id cpu_targets : Z) : prog gic unit :=
  let reg_ind := GIC_TARGET_REG int_id in
  let off := GIC_TARGET_OFF int_id in
  let mask := BIT32_MASK off GIC_TARGET_BITS in
  map ← gets gic_cpu_map;
  locked (update_bits (GICD_ITARGETSR reg_ind) mask off (gic_translate_cpu_to_trgt map cpu_targets)).

Definition gic_set_prio (int_id prio : Z) : prog gic unit := gicd_set_prio int_id prio.
Definition gic_get_prio (int_id : Z) : prog gic Z := gicd_get_prio int_id.
Definition gic_set_icfgr (int_id cfg : Z) : prog gic unit := gicd_set_icfgr int_id cfg.
Definition gic_get_pend (int_id : Z) : prog gic bool := gicd_get_pend int_id.
Definition gic_set_act (int_id : Z) (act : bool) : prog gic unit := gicd_set_act int_id act.
Definition gic_get_act (int_id : Z) : prog gic bool := gicd_get_act int_id.
Definition gic_set_enable (int_id : Z) (en : bool) : prog gic unit := gicd_set_enable int_id en.

Definition gic_set_pend (int_id : Z) (pend : bool) : prog gic unit :=
  if gic_is_sgi int_id then
    let reg_ind := GICD_SGI_REG int_id in
    let off := GICD_SGI_OFF int_id in
    c ← gets this_cpu;
    if pend then wr (GICD_SPENDSGIR reg_ind) (Z.shiftl 1 (off + c))
    else wr (GICD_CPENDSGIR reg_ind) (BIT32_MASK off 8)
  else gicd_set_pend int_id pend.

(** ** arch_interrupts.c *)

Definition interrupts_arch_enable (int_id : Z) (en : bool) : prog gic unit :=
  gic_set_enable int_id en;;
  gic_set_prio int_id 0x01;;
  c ← gets this_cpu;
  gicd_set_trgt int_id (u8 (Z.shiftl 1 c)).

Definition interrupts_arch_init (maintenance_id : Z) : prog gic unit :=
  gic_init maintenance_id;;
  interrupts_arch_enable maintenance_id true.

Definition interrupts_arch_ipi_send (target_cpu ipi_id : Z) : prog gic unit :=
  if ipi_id <? GIC_MAX_SGIS then gic_send_sgi target_cpu ipi_id else mret tt.

Definition interrupts_arch_clear (int_id : Z) : prog gic unit :=
  gic_set_act int_id false;; gic_set_pend int_id false.

Definition interrupts_arch_check (int_id : Z) : prog gic bool := gic_get_pend int_id.

(** The wrappers of interrupts.c. *)
Definition interrupts_cpu_enable (int_id : Z) (en : bool) : prog gic unit := interrupts_arch_enable int_id en.
Definition interrupts_cpu_sendipi (target_cpu ipi_id : Z) : prog gic unit := interrupts_arch_ipi_send target_cpu ipi_id.
Definition interrupts_check (int_id : Z) : prog gic bool := interrupts_arch_check int_id.
Definition interrupts_clear (int_id : Z) : prog gic unit := interrupts_arch_clear int_id.

End gic.

(** ** The virtual interface, as documented *)

(** Bits 22:20 of a list register are reserved. *)
Definition lr_reserved : Z := 0x700000.

(** The registers of the virtual interface the code reads. *)
Definition pure_reg (r : gic_reg) : bool :=
  match r with GICH_HCR | GICH_VTR | GICH_MISR | GICH_EISR _ | GICH_ELSR _ | GICH_LR _ => true | _ => false end.

(** A list register keeps what is written to it; the registers do not disturb each other and
    reading them changes nothing; ELSR shows a register empty only when its state is invalid. *)
Class GicLaws `{GicDevice} := {
  read_pure r d : pure_reg r = true → (read_reg r d).2 = d;
  read_word r d : pure_reg r = true → in_word 32 (read_reg r d).1;
  lr_written i v d : in_word 32 v → Z.land v lr_reserved = 0 → (read_reg (GICH_LR i) (write_reg (GICH_LR i) v d)).1 = v;
  lr_other i j v d : i ≠ j → (read_reg (GICH_LR i) (write_reg (GICH_LR j) v d)).1 = (read_reg (GICH_LR i) d).1;
  lr_hcr i v d : (read_reg (GICH_LR i) (write_reg GICH_HCR v d)).1 = (read_reg (GICH_LR i) d).1;
  elsr_empty i d : 0 ≤ i → Z.testbit (read_reg (GICH_ELSR (i / 32)) d).1 (i mod 32) = true →
    GICH_LR_STATE (read_reg (GICH_LR i) d).1 = INV
}.

(** A device whose registers are memory, except that ELSR is computed. *)
Definition elsr_bits (d : gic_reg → Z) (k : Z) (l : list Z) : Z :=
  foldr (λ j acc, Z.lor acc (if GICH_LR_STATE (u32 (d (GICH_LR (32 * k + j)))) =? INV then Z.shiftl 1 j else 0)) 0 l.

Definition RegisterFile : GicDevice := {|
  device := gic_reg → Z;
  read_reg r d := (u32 (match r with GICH_ELSR k => elsr_bits d k (seqZ 0 32) | _ => d r end), d);
  write_reg r v d := <[r := v]> d
|}.

Lemma testbit_elsr_bits d k l b :
  Forall (λ j, 0 ≤ j) l → 0 ≤ b → Z.testbit (elsr_bits d k l) b = true →
  GICH_LR_STATE (u32 (d (GICH_LR (32 * k + b)))) = INV.
Proof.
  intros Hl Hb. induction Hl as [|j l Hj Hl IH]; cbn [elsr_bits foldr]; [by rewrite Z.testbit_0_l|].
  fold (elsr_bits d k l). rewrite Z.lor_spec. intros [H|H]%orb_true_iff; [exact (IH H)|].
  destruct (Z.eqb_spec (GICH_LR_STATE (u32 (d (GICH_LR (32 * k + j))))) INV) as [E|E]; [|by rewrite Z.testbit_0_l in H].
  rewrite testbit_shiftl, testbit_1 in H by done. apply Z.eqb_eq in H. assert (b = j) as -> by lia. exact E.
Qed.

Lemma read_elsr (d : @device RegisterFile) k : (read_reg (GICH_ELSR k) d).1 = u32 (elsr_bits d k (seqZ 0 32)).
Proof. reflexivity. Qed.
Lemma read_lr (d : @device RegisterFile) i : (read_reg (GICH_LR i) d).1 = u32 (d (GICH_LR i)).
Proof. reflexivity. Qed.

Lemma seqZ_nonneg n : Forall (λ j, 0 ≤ j) (seqZ 0 n).
Proof. apply Forall_forall. intros j ?%elem_of_seqZ. lia. Qed.

Lemma RegisterFile_laws : @GicLaws RegisterFile.
Proof.
  apply Build_GicLaws.
  - intros r d _. reflexivity.
  - intros r d _. apply wrap_in_word. lia.
  - intros i v d Hv _. rewrite read_lr. etransitivity; [|exact (wrap_small 32 v Hv)]. f_equal. apply (fn_lookup_insert (A := gic_reg) d).
  - intros i j v d Hij. rewrite !read_lr. f_equal. apply (fn_lookup_insert_ne (A := gic_reg) d (GICH_LR j) (GICH_LR i)). congruence.
  - intros i v d. reflexivity.
  - intros i d Hi Hb. rewrite read_elsr in Hb. rewrite read_lr. rewrite (Z.div_mod i 32) by lia.
    apply (testbit_elsr_bits _ _ _ _ (seqZ_nonneg 32)); [apply Z.mod_pos_bound; lia|].
    rewrite testbit_wrap in Hb by lia. by apply andb_true_iff in Hb as [_ Hb].
Qed.

(** A controller for the examples: [n] list registers, everything zero, this CPU is [c]. *)
Definition sample_gic (n c : Z) : @gic RegisterFile := {|
  dev := (λ r, if decide (r = GICH_VTR) then n - 1 else 0) : @device RegisterFile;
  gicd_lock := SPINLOCK_INITVAL; gic_cpu_map := λ i, i; NUM_LRS := n; this_cpu := c;
  hyp_interrupt_bitmap := λ _, 0; global_interrupt_bitmap := λ _, 0; interrupt_handlers := λ _, None |}.
