(* ===== verification/Vgic.v ===== *)
(** * Virtual interrupts: the list registers, src/arch/aarch64/vgic.c,
    src/arch/aarch64/inc/vgic.h, src/arch/aarch64/vgicv2.c, src/arch/aarch64/inc/vgicv2.h

    The state is one VM's virtual interrupt controller as one physical CPU drives it.  A pointer to
    a [struct vgic_int] is its address; the structure begins with its [list_head], so the address
    is also that of the list node, and the spilled interrupts are linked in a [ListHead] memory.
    The register emulation is in [VgicEmul]. *)
From S2P Require Import Prelude Util Bits Bitmap Spinlock ListHead Emul Cpu Ipi Vcpu Gic.

(** ** Data *)

(** The union: [u0] is [targets] of a shared interrupt and [sgi.act] of a private one; [u1] is
    [sgi.pend]. *)
Record vgic_int := {
  owner : option Z;
  ilock : spinlock_t;
  id : Z;
  state : Z;
  prio : Z;
  cfg : Z;
  lr : Z;
  u0 : Z;
  u1 : Z;
  hw : bool;
  in_lr : bool;
  enabled : bool
}.
#[export] Instance eta_vgic_int : Eta vgic_int := λ i,
  Build_vgic_int (owner i) (ilock i) (id i) (state i) (prio i) (cfg i) (lr i) (u0 i) (u1 i) (hw i) (in_lr i) (enabled i).

Abbreviation targets := u0.
Abbreviation sgi_act := u0.
Abbreviation sgi_pend := u1.

(** The size the compiler gives the structure on AArch64. *)
Definition sizeof_vgic_int : Z := 56.

(** Where the structures of a VM lie in memory. *)
Record layout := {
  priv_interrupts : Z → Z;
  vcpu_spilled : Z → Z;
  vm_spilled : Z;
  emul_mem_list : Z;
  emul_reg_list : Z;
  vgicd_emul_node : Z
}.

Section vgic.
Context `{GicDevice}.

Record vgic := {
  cpu_gic : gic;
  ints : Z → vgic_int;
  links : mem;
  spilled_lock : spinlock_t;
  vgicd_lock : spinlock_t;
  interrupts : Z;
  int_num : Z;
  vCTLR : Z;
  vTYPER : Z;
  vIIDR : Z;
  emul_mems : Z → emul_mem;
  curr_lrs : Z → Z → Z;
  the_vm : vm;
  vcpu_tbl : Z → vcpu;
  cur_vcpu : Z;
  cpu_num : Z;
  ipis : ipi unit
}.
#[export] Instance eta_vgic : Eta vgic := λ s,
  Build_vgic (cpu_gic s) (ints s) (links s) (spilled_lock s) (vgicd_lock s) (interrupts s) (int_num s) (vCTLR s) (vTYPER s)
    (vIIDR s) (emul_mems s) (curr_lrs s) (the_vm s) (vcpu_tbl s) (cur_vcpu s) (cpu_num s) (ipis s).

Variable lay : layout.

(** ** Access *)

Definition on_gic {A} (m : prog gic A) : prog vgic A := lift_prog cpu_gic (λ g s, s <| cpu_gic := g |>) m.
Definition send_msg (c : Z) (msg : cpu_msg) : prog vgic unit := lift_prog ipis (λ i s, s <| ipis := i |>) (cpu_send_msg c msg).
Definition geti {A} (p : Z) (f : vgic_int → A) : prog vgic A := gets (λ s, f (ints s p)).
Definition updi (p : Z) (f : vgic_int → vgic_int) : prog vgic unit := modify (λ s, s <| ints ::= alter f p |>).
Definition lock_int (p : Z) : prog vgic unit := λ s,
  match spin_lock (ilock (ints s p)) with
  | Done k => Done (tt, s <| ints ::= alter (λ i, i <| ilock := k |>) p |>)
  | Halt e => Halt e
  end.
Definition unlock_int (p : Z) : prog vgic unit := updi p (λ i, i <| ilock ::= spin_unlock |>).

Definition my_cpu : prog vgic Z := gets (λ s, this_cpu (cpu_gic s)).
Definition num_lrs : prog vgic Z := gets (λ s, NUM_LRS (cpu_gic s)).

(** ** Messages *)

Definition VGIC_IPI_ID : Z := 0.
Definition VGIC_UPDATE_ENABLE : Z := 0.
Definition VGIC_ROUTE : Z := 1.
Definition VGIC_INJECT : Z := 2.
Definition VGIC_SET_REG : Z := 3.

Definition VGIC_MSG_DATA (VM_ID VGICRID INT_ID REG VAL : Z) : Z :=
  Z.lor (Z.lor (Z.lor (Z.lor (u64 (Z.shiftl (u64 VM_ID) 48)) (Z.shiftl (Z.land (u64 VGICRID) 0xffff) 32))
    (Z.shiftl (Z.land INT_ID 0x7fff) 16)) (Z.shiftl (Z.land REG 0xff) 8)) (Z.land VAL 0xff).
Definition VGIC_MSG_VM (DATA : Z) : Z := Z.shiftr DATA 48.
Definition VGIC_MSG_VGICRID (DATA : Z) : Z := Z.land (Z.shiftr DATA 32) 0xffff.
Definition VGIC_MSG_INTID (DATA : Z) : Z := Z.land (Z.shiftr DATA 16) 0x7fff.
Definition VGIC_MSG_REG (DATA : Z) : Z := Z.land (Z.shiftr DATA 8) 0xff.
Definition VGIC_MSG_VAL (DATA : Z) : Z := Z.land DATA 0xff.

(** ** Finding an interrupt *)

(** Taking the address of a member of a NULL vcpu is a fault here; every caller would use it. *)
Definition vgic_get_int (v int_id vgicr_id : Z) : prog vgic (option Z) :=
  s ← gets (λ s, s);
  if int_id <? GIC_CPU_PRIV then
    target ← (if vgicr_id =? vcpu_id (vcpu_tbl s v) then mret v else deref (vm_get_vcpu (the_vm s) vgicr_id));
    mret (Some (priv_interrupts lay target + int_id * sizeof_vgic_int))
  else if int_id <? int_num s then mret (Some (interrupts s + (int_id - GIC_CPU_PRIV) * sizeof_vgic_int))
  else mret None.

Definition vgic_int_is_hw (i : vgic_int) : bool := negb (id i <? GIC_MAX_SGIS) && hw i.

(** The list register that holds the interrupt and its value, if it is on this CPU. *)
Definition gich_get_lr (p : Z) : prog vgic (option (Z * Z)) :=
  i ← geti p (λ i, i);
  c ← my_cpu;
  if negb (in_lr i) then mret None
  else
    o ← deref (owner i);
    pid ← gets (λ s, p_id (vcpu_tbl s o));
    if negb (pid =? c) then mret None
    else
      lr_val ← on_gic (gich_read_lr (lr i));
      if (GICH_LR_VID lr_val =? id i) && negb (GICH_LR_STATE lr_val =? INV)
      then mret (Some (lr i, lr_val)) else mret None.

Definition vgic_get_state (p : Z) : prog vgic Z :=
  r ← gich_get_lr p;
  i ← geti p (λ i, i);
  let st := match r with Some (_, lr_val) => GICH_LR_STATE lr_val | None => state i end in
  mret (if (id i <? GIC_MAX_SGIS) && negb (sgi_pend i =? 0) then Z.lor st PEND else st).

(** ** Ownership *)

Definition vgic_get_ownership (v p : Z) : prog vgic bool :=
  o ← geti p owner;
  match o with
  | Some o => mret (o =? v)
  | None => updi p (λ i, i <| owner := Some v |>);; mret true
  end.

Definition vgic_owns (v : Z) (i : vgic_int) : bool := bool_decide (owner i = Some v).

(** With GIC_VERSION 2, a private interrupt is never yielded. *)
Definition vgic_yield_ownership (v p : Z) : prog vgic unit :=
  i ← geti p (λ i, i);
  if gic_is_priv (id i) || negb (vgic_owns v i) || in_lr i then mret tt
  else
    st ← vgic_get_state p;
    if negb (Z.land st ACT =? 0) then mret tt
    else updi p (λ i, i <| owner := None |>).

(** ** vgicv2.h and the targets of vgicv2.c *)

Definition vgic_int_vcpu_is_target (v p : Z) : prog vgic bool :=
  i ← geti p (λ i, i);
  pid ← gets (λ s, p_id (vcpu_tbl s v));
  mret (gic_is_priv (id i) || negb (Z.land (targets i) (Z.shiftl 1 pid) =? 0)).

Definition vgic_int_has_other_target (p : Z) : prog vgic bool :=
  i ← geti p (λ i, i);
  c ← my_cpu;
  mret (negb (gic_is_priv (id i)) && negb (Z.land (targets i) (Z.lnot (Z.shiftl 1 c)) =? 0)).

Definition vgic_int_ptarget_mask (p : Z) : prog vgic Z := geti p targets.

(** ** List registers *)

(** The SGI source with the highest number among those pending, from bit [i] down. *)
Fixpoint highest_source (pend i : Z) (n : nat) : option Z :=
  match n with
  | O => None
  | S n => if negb (Z.land pend (Z.shiftl 1 i) =? 0) then Some i else highest_source pend (i - 1) n
  end.

(** The value [vgic_write_lr] puts in the register for the interrupt in state [st], and the bits of
    [sgi.pend] that stay. *)
Definition lr_value (i : vgic_int) (st : Z) : Z * Z :=
  let lr := u32 (Z.land (id i) GICH_LR_VID_MSK) in
  let lr := Z.lor lr (Z.land (u32 (Z.shiftl (Z.shiftr (prio i) 3) GICH_LR_PRIO_OFF)) GICH_LR_PRIO_MSK) in
  if vgic_int_is_hw i then
    let lr := Z.lor lr GICH_LR_HW_BIT in
    let lr := Z.lor lr (Z.land (u32 (Z.shiftl (id i) GICH_LR_PID_OFF)) GICH_LR_PID_MSK) in
    (if st =? PENDACT then Z.lor lr GICH_LR_STATE_ACT
     else Z.lor lr (Z.land (u32 (Z.shiftl st GICH_LR_STATE_OFF)) GICH_LR_STATE_MSK), sgi_pend i)
  else if id i <? GIC_MAX_SGIS then
    let '(lr, pend) :=
      if negb (Z.land st ACT =? 0) then
        (Z.lor (u32 (Z.lor lr (Z.land (Z.shiftl (sgi_act i) GICH_LR_CPUID_OFF) GICH_LR_CPUID_MSK))) GICH_LR_STATE_ACT, sgi_pend i)
      else
        match highest_source (sgi_pend i) (GIC_MAX_TARGETS - 1) (Z.to_nat GIC_MAX_TARGETS) with
        | Some b => (Z.lor (u32 (Z.lor lr (Z.land (Z.shiftl b GICH_LR_CPUID_OFF) GICH_LR_CPUID_MSK))) GICH_LR_STATE_PND,
                     Z.land (sgi_pend i) (u8 (Z.lnot (Z.shiftl 1 b))))
        | None => (lr, sgi_pend i)
        end in
    (if negb (pend =? 0) then Z.lor lr GICH_LR_EOI_BIT else lr, pend)
  else
    let lr := if negb (gic_is_priv (id i)) && negb (vgic_int_is_hw i) then Z.lor lr GICH_LR_EOI_BIT else lr in
    (Z.lor lr (Z.land (u32 (Z.shiftl st GICH_LR_STATE_OFF)) GICH_LR_STATE_MSK), sgi_pend i).

(** The interrupt that was in the register last no longer is. *)
Definition evict_lr (v lr_ind prev_int_id : Z) : prog vgic unit :=
  vid ← gets (λ s, vcpu_id (vcpu_tbl s v));
  prev ← vgic_get_int v prev_int_id vid;
  match prev with
  | None => mret tt
  | Some q =>
      lock_int q;;
      j ← geti q (λ j, j);
      (if vgic_owns v j && in_lr j && (lr j =? lr_ind) then
         updi q (λ j, j <| in_lr := false |>);;
         vgic_yield_ownership v q
       else mret tt);;
      unlock_int q
  end.

Definition vgic_write_lr (v p lr_ind : Z) : prog vgic unit :=
  prev_int_id ← gets (λ s, curr_lrs s v lr_ind);
  pid ← geti p id;
  (if negb (prev_int_id =? pid) && negb (gic_is_priv prev_int_id) then evict_lr v lr_ind prev_int_id else mret tt);;
  st ← vgic_get_state p;
  i ← geti p (λ i, i);
  let '(lrv, pend) := lr_value i st in
  updi p (λ i, i <| u1 := pend |>);;
  updi p (λ i, i <| state := 0 |> <| in_lr := true |> <| lr := u8 lr_ind |>);;
  modify (λ s, s <| curr_lrs ::= λ c, <[v := <[lr_ind := pid]> (c v)]> c |>);;
  on_gic (gich_write_lr lr_ind lrv).

Definition vgic_remove_lr (v p : Z) : prog vgic bool :=
  i ← geti p (λ i, i);
  if negb (vgic_owns v i) || negb (in_lr i) then mret false
  else
    r ← gich_get_lr p;
    (match r with Some (lr_ind, _) => on_gic (gich_write_lr lr_ind 0) | None => mret tt end);;
    let lr_val := match r with Some (_, w) => w | None => 0 end in
    updi p (λ i, i <| in_lr := false |>);;
    if negb (GICH_LR_STATE lr_val =? INV) then
      updi p (λ i, i <| state := GICH_LR_STATE lr_val |>);;
      i ← geti p (λ i, i);
      (if id i <? GIC_MAX_SGIS then
         if negb (Z.land (state i) ACT =? 0) then updi p (λ i, i <| u0 := GICH_LR_CPUID lr_val |>)
         else if negb (Z.land (state i) PEND =? 0)
              then updi p (λ i, i <| u1 ::= λ b, u8 (Z.lor b (Z.shiftl 1 (GICH_LR_CPUID lr_val))) |>)
              else mret tt
       else mret tt);;
      hcr ← on_gic gich_get_hcr;
      let hcr := if negb (Z.land (state i) PEND =? 0) && enabled i then Z.lor hcr GICH_HCR_NPIE_BIT else hcr in
      on_gic (gich_set_hcr (Z.lor hcr GICH_HCR_UIE_BIT));;
      mret true
    else mret false.

Definition lock_spilled : prog vgic unit := acquire spilled_lock.
Definition unlock_spilled : prog vgic unit := release spilled_lock.

Definition vgic_add_spilled (v p : Z) : prog vgic unit :=
  lock_spilled;;
  pid ← geti p id;
  let spilled_list := if gic_is_priv pid then vcpu_spilled lay v else vm_spilled lay in
  modify (λ s, s <| links ::= list_add_tail p spilled_list |>);;
  unlock_spilled;;
  hcr ← on_gic gich_get_hcr;
  on_gic (gich_set_hcr (Z.lor hcr GICH_HCR_NPIE_BIT)).

Definition vgic_spill_lr (v lr_ind : Z) : prog vgic unit :=
  lrv ← on_gic (gich_read_lr lr_ind);
  vid ← gets (λ s, vcpu_id (vcpu_tbl s v));
  spilled ← vgic_get_int v (GICH_LR_VID lrv) vid;
  match spilled with
  | None => mret tt
  | Some q =>
      lock_int q;;
      _ ← vgic_remove_lr v q;
      vgic_add_spilled v q;;
      vgic_yield_ownership v q;;
      unlock_int q
  end.

(** The first list register the hardware reports empty. *)
Fixpoint free_lr (elrsr i : Z) (n : nat) : option Z :=
  match n with
  | O => None
  | S n => if negb (bit_get 64 elrsr i =? 0) then Some i else free_lr elrsr (i + 1) n
  end.

(** The search for a register to spill: the lowest priority among the active and among the pending
    ones, found so far. *)
Record victim := { v_prio : Z; v_id : Z; v_ind : option Z; v_found : Z }.

Definition worse (lr_prio lr_id : Z) (w : victim) : bool :=
  (v_prio w <? lr_prio) || (lr_prio =? v_prio w) && (v_id w <? lr_id).

Definition consider (lr_prio lr_id i : Z) (w : victim) : victim :=
  if worse lr_prio lr_id w
  then {| v_prio := lr_prio; v_id := lr_id; v_ind := Some i; v_found := v_found w + 1 |}
  else {| v_prio := v_prio w; v_id := v_id w; v_ind := v_ind w; v_found := v_found w + 1 |}.

Fixpoint find_victims (act pend : victim) (i : Z) (n : nat) : prog vgic (victim * victim) :=
  match n with
  | O => mret (act, pend)
  | S n =>
      lrv ← on_gic (gich_read_lr i);
      let lr_id := u32 (GICH_LR_VID lrv) in
      let lr_prio := Z.shiftl (Z.shiftr (Z.land lrv GICH_LR_PRIO_MSK) GICH_LR_PRIO_OFF) 3 in
      let lr_state := u32 (Z.land lrv GICH_LR_STATE_MSK) in
      if negb (Z.land lr_state GICH_LR_STATE_ACT =? 0)
      then find_victims (consider lr_prio lr_id i act) pend (i + 1) n
      else if negb (Z.land lr_state GICH_LR_STATE_PND =? 0)
           then find_victims act (consider lr_prio lr_id i pend) (i + 1) n
           else find_victims act pend (i + 1) n
  end.

Definition vgic_add_lr (v p : Z) : prog vgic bool :=
  i ← geti p (λ i, i);
  if negb (enabled i) || in_lr i then mret false
  else
    elrsr ← on_gic gich_get_elrsr;
    n ← num_lrs;
    lr_ind ← match free_lr elrsr 0 (Z.to_nat n) with
             | Some k => mret (Some k)
             | None =>
                 let w := {| v_prio := prio i; v_id := u32 (id i); v_ind := None; v_found := 0 |} in
                 r ← find_victims w w 0 (Z.to_nat n);
                 let '(act, pend) := r in
                 let lr_ind := if 1 <? v_found pend then v_ind pend else v_ind act in
                 (match lr_ind with Some k => vgic_spill_lr v k | None => mret tt end);;
                 mret lr_ind
             end;
    match lr_ind with
    | Some k => vgic_write_lr v p k;; mret true
    | None => vgic_add_spilled v p;; mret false
    end.

(** ** Routing *)

(** Send [msg] to the CPUs of [trgtlist] below [platform.cpu_num]. *)
Fixpoint send_to (trgtlist : Z) (msg : cpu_msg) (i : Z) (n : nat) : prog vgic unit :=
  match n with
  | O => mret tt
  | S n =>
      (if negb (Z.land trgtlist (u64 (Z.shiftl 1 i)) =? 0) then send_msg i msg else mret tt);;
      send_to trgtlist msg (i + 1) n
  end.

Definition vgic_send_sgi_msg (pcpu_mask int_id : Z) : prog vgic unit :=
  s ← gets (λ s, s);
  let msg := {| handler := VGIC_IPI_ID; event := VGIC_INJECT;
                data := VGIC_MSG_DATA (vm_id (the_vm s)) 0 int_id 0 (vcpu_id (vcpu_tbl s (cur_vcpu s))) |} in
  send_to pcpu_mask msg 0 (Z.to_nat (cpu_num s)).

Definition vgic_route (v p : Z) : prog vgic unit :=
  i ← geti p (λ i, i);
  if (state i =? INV) || negb (enabled i) then mret tt
  else
    target ← vgic_int_vcpu_is_target v p;
    (if (target : bool) then _ ← vgic_add_lr v p; mret tt else mret tt);;
    inlr ← geti p in_lr;
    other ← vgic_int_has_other_target p;
    if negb inlr && other then
      s ← gets (λ s, s);
      let msg := {| handler := VGIC_IPI_ID; event := VGIC_ROUTE;
                    data := VGIC_MSG_DATA (vm_id (the_vm s)) (vcpu_id (vcpu_tbl s v)) (id i) 0 0 |} in
      vgic_yield_ownership v p;;
      mask ← vgic_int_ptarget_mask p;
      let trgtlist := Z.land mask (u64 (Z.lnot (u64 (Z.shiftl 1 (p_id (vcpu_tbl s v)))))) in
      send_to trgtlist msg 0 (Z.to_nat (cpu_num s))
    else mret tt.

(** ** Injection *)

Definition vgic_inject_hw (v int_id : Z) : prog vgic unit :=
  vid ← gets (λ s, vcpu_id (vcpu_tbl s v));
  r ← vgic_get_int v int_id vid;
  p ← deref r;
  lock_int p;;
  updi p (λ i, i <| owner := Some v |>);;
  updi p (λ i, i <| state := PEND |>);;
  updi p (λ i, i <| in_lr := false |>);;
  _ ← vgic_add_lr v p;
  unlock_int p.

(** [vgic_inject_sgi] of vgicv2.c. *)
Definition vgic_inject_sgi (v p source : Z) : prog vgic unit :=
  lock_int p;;
  _ ← vgic_remove_lr v p;
  pendstate ← geti p sgi_pend;
  let new_pendstate := u8 (Z.lor pendstate (Z.shiftl 1 source)) in
  (if negb (Z.lxor pendstate new_pendstate =? 0) then
     updi p (λ i, i <| u1 := new_pendstate |>);;
     (if negb (new_pendstate =? 0) then updi p (λ i, i <| state ::= λ st, Z.lor st PEND |>)
      else updi p (λ i, i <| state ::= λ st, Z.land st (u8 (Z.lnot PEND)) |>));;
     st ← geti p state;
     if negb (st =? INV) then _ ← vgic_add_lr v p; mret tt else mret tt
   else mret tt);;
  unlock_int p.

(** ** Spilled interrupts *)

(** The scan of one spilled list from [pos]: the best interrupt so far and its list. *)
Fixpoint scan_spilled (flags pos head : Z) (best : option (Z * Z)) (fuel : nat) : prog vgic (option (Z * Z)) :=
  match fuel with
  | O => halt FSpin
  | S fuel =>
      if pos =? head then mret best
      else
        st ← vgic_get_state pos;
        t ← geti pos (λ i, i);
        irq ← gets (λ s, match best with Some (b, _) => (prio (ints s b), id (ints s b)) | None => (GIC_LOWEST_PRIO, GIC_MAX_VALID_INTERRUPTS) end);
        let best :=
          if negb (Z.land st flags =? 0) && ((prio t <? irq.1) || (prio t =? irq.1) && (id t <? irq.2))
          then Some (pos, head) else best in
        nx ← gets (λ s, ListHead.next (links s pos));
        scan_spilled flags nx head best fuel
  end.

(** [fuel] bounds the length of each list. *)
Definition vgic_highest_prio_spilled (v flags : Z) (fuel : nat) : prog vgic (option (Z * Z)) :=
  first ← gets (λ s, ListHead.next (links s (vcpu_spilled lay v)));
  best ← scan_spilled flags first (vcpu_spilled lay v) None fuel;
  first ← gets (λ s, ListHead.next (links s (vm_spilled lay)));
  scan_spilled flags first (vm_spilled lay) best fuel.

(** [bitmap_find_nth] over a 64-bit register seen as two words; the result as an [ssize_t]. *)
Definition first_set (reg n : Z) : Z :=
  signed 64 (bitmap_find_nth (λ k, if k =? 0 then u32 reg else u32 (Z.shiftr reg 32)) n 1 0 true).

(** One spilled interrupt into a register, if it can be owned. *)
Definition refill_one (v q lr_ind : Z) : prog vgic bool :=
  lock_int q;;
  got ← vgic_get_ownership v q;
  (if (got : bool) then modify (λ s, s <| links ::= list_del q |>);; vgic_write_lr v q lr_ind else mret tt);;
  unlock_int q;;
  mret got.

Fixpoint refill_loop (v flags lr_ind : Z) (len fuel : nat) : prog vgic unit :=
  match fuel with
  | O => halt FSpin
  | S fuel =>
      if 0 <=? lr_ind then
        irq ← vgic_highest_prio_spilled v flags len;
        match irq with
        | Some (q, _) =>
            got ← refill_one v q lr_ind;
            if negb (got : bool) then refill_loop v flags lr_ind len fuel
            else
              elrsr ← on_gic gich_get_elrsr;
              n ← num_lrs;
              refill_loop v (Z.lor ACT PEND) (first_set elrsr n) len fuel
        | None =>
            hcr ← on_gic gich_get_hcr;
            on_gic (gich_set_hcr (Z.land hcr (u32 (Z.lnot (Z.lor GICH_HCR_NPIE_BIT GICH_HCR_UIE_BIT)))))
        end
      else mret tt
  end.

Definition vgic_refill_lrs (v : Z) (npie : bool) (len fuel : nat) : prog vgic unit :=
  elrsr ← on_gic gich_get_elrsr;
  n ← num_lrs;
  let flags := if npie then PEND else Z.lor ACT PEND in
  lock_spilled;;
  refill_loop v flags (first_set elrsr n) len fuel;;
  unlock_spilled.

Definition vgic_eoir_highest_spilled_active (v : Z) (len : nat) : prog vgic unit :=
  irq ← vgic_highest_prio_spilled v ACT len;
  match irq with
  | None => mret tt
  | Some (p, _) =>
      lock_int p;;
      own ← vgic_get_ownership v p;
      (if (own : bool) then
         updi p (λ i, i <| state ::= λ st, Z.land st (u8 (Z.lnot ACT)) |>);;
         i ← geti p (λ i, i);
         if vgic_int_is_hw i then on_gic (gic_set_act (id i) false)
         else if negb (Z.land (state i) PEND =? 0) then _ ← vgic_add_lr v p; mret tt else mret tt
       else mret tt);;
      unlock_int p
  end.

Fixpoint eoir_loop (v lr_ind : Z) (fuel : nat) : prog vgic unit :=
  match fuel with
  | O => halt FSpin
  | S fuel =>
      if 0 <=? lr_ind then
        lr_val ← on_gic (gich_read_lr lr_ind);
        on_gic (gich_write_lr lr_ind 0);;
        vid ← gets (λ s, vcpu_id (vcpu_tbl s v));
        r ← vgic_get_int v (GICH_LR_VID lr_val) vid;
        match r with
        | None => eoir_loop v lr_ind fuel
        | Some p =>
            lock_int p;;
            updi p (λ i, i <| in_lr := false |>);;
            pid ← geti p id;
            (if pid <? GIC_MAX_SGIS then _ ← vgic_add_lr v p; mret tt else vgic_yield_ownership v p);;
            unlock_int p;;
            eisr ← on_gic gich_get_eisr;
            n ← num_lrs;
            eoir_loop v (first_set eisr n) fuel
        end
      else mret tt
  end.

Definition vgic_handle_trapped_eoir (v : Z) (fuel : nat) : prog vgic unit :=
  eisr ← on_gic gich_get_eisr;
  n ← num_lrs;
  eoir_loop v (first_set eisr n) fuel.

(** [while (hcr_el2 & GICH_HCR_EOICount_MASK)]. *)
Fixpoint eoi_count_loop (hcr : Z) (len fuel : nat) : prog vgic unit :=
  match fuel with
  | O => halt FSpin
  | S fuel =>
      if negb (Z.land hcr GICH_HCR_EOICount_MASK =? 0) then
        v ← gets cur_vcpu;
        vgic_eoir_highest_spilled_active v len;;
        on_gic (gich_set_hcr (u32 (hcr - Z.shiftl 1 GICH_HCR_EOICount_OFF)));;
        hcr ← on_gic gich_get_hcr;
        eoi_count_loop hcr len fuel
      else mret tt
  end.

Definition gic_maintenance_handler (len fuel : nat) : prog vgic unit :=
  misr ← on_gic gich_get_misr;
  v ← gets cur_vcpu;
  (if negb (Z.land misr GICH_MISR_EOI =? 0) then vgic_handle_trapped_eoir v fuel else mret tt);;
  (if negb (Z.land misr (Z.lor GICH_MISR_NP GICH_MISR_U) =? 0)
   then vgic_refill_lrs v (negb (Z.land misr GICH_MISR_NP =? 0)) len fuel else mret tt);;
  (if negb (Z.land misr GICH_MISR_LRPEN =? 0) then hcr ← on_gic gich_get_hcr; eoi_count_loop hcr len fuel else mret tt).

End vgic.

(** ** Finding an interrupt, and reading the virtual interface *)

Section access.
Context `{GicDevice}.
Variable lay : layout.

(** Interrupt [n] as vcpu [v] sees it. *)
Definition int_addr (s : vgic) (v n : Z) : option Z :=
  if n <? GIC_CPU_PRIV then Some (priv_interrupts lay v + n * sizeof_vgic_int)
  else if n <? int_num s then Some (interrupts s + (n - GIC_CPU_PRIV) * sizeof_vgic_int) else None.

Lemma vgic_get_int_own v n s : vgic_get_int lay v n (vcpu_id (vcpu_tbl s v)) s = Done (int_addr s v n, s).
Proof.
  unfold vgic_get_int, int_addr. psteps. rewrite Z.eqb_refl. destruct (n <? GIC_CPU_PRIV); [done|].
  by destruct (n <? int_num s).
Qed.

Lemma int_addr_none s v n n' : int_addr s v n = None → n ≤ n' → int_addr s v n' = None.
Proof. unfold int_addr. intros. zcase_all; done. Qed.

End access.

(** ** A machine for the examples

    One VM with two vcpus, [vcpu 0] running on CPU 0; interrupts 0 to 63, four list registers. *)
Definition sample_layout : layout := {|
  priv_interrupts := λ v, 0x10000 + v * 0x1000; vcpu_spilled := λ v, 0x20000 + v * 0x100; vm_spilled := 0x30000;
  emul_mem_list := 0x30100; emul_reg_list := 0x30200; vgicd_emul_node := 0x30300 |}.

Definition sample_int (p : Z) : vgic_int := {|
  owner := None; ilock := SPINLOCK_INITVAL;
  id := if p <? 0x40000 then (p mod 0x1000) / sizeof_vgic_int else GIC_CPU_PRIV + (p - 0x40000) / sizeof_vgic_int;
  state := INV; prio := 0x80; cfg := 0; lr := 0; u0 := 0; u1 := 0; hw := false; in_lr := false; enabled := true |}.

Definition sample_ipis : ipi unit :=
  {| Ipi.lists := λ _, {| ListHead.next := 0; prev := 0 |}; node_msg := λ _, {| handler := 0; event := 0; data := 0 |};
     msg_pool := ObjPool.OBJPOOL_ALLOC 0 32 8; event_list_lock := λ _, SPINLOCK_INITVAL;
     Ipi.cpus := λ _, blank_cpu; cpu_glb_sync := {| ready := true; n := 1; count := 0 |};
     cpu_interfaces := 0x100000; ipi_cpumsg_handler_num := 1; sent_ipis := []; client := tt |}.

Definition sample_vgic : @vgic RegisterFile := {|
  cpu_gic := sample_gic 4 0; ints := sample_int;
  links := list_add 0x40000 0x30000 (INIT_LIST_HEAD 0x30000 (INIT_LIST_HEAD 0x20000 (λ _, {| ListHead.next := 0; prev := 0 |})));
  spilled_lock := SPINLOCK_INITVAL; vgicd_lock := SPINLOCK_INITVAL; interrupts := 0x40000; int_num := 64;
  vCTLR := 0; vTYPER := 0; vIIDR := 0; emul_mems := λ _, {| va_base := 0; size := 0; mem_handler := vgicd_emul_handler_id |};
  curr_lrs := λ _ _, 0; the_vm := sample_vm; vcpu_tbl := λ v, sample_vcpu <| vcpu_id := v |>; cur_vcpu := 0; cpu_num := 1;
  ipis := sample_ipis |}.
