(* ===== verification/VgicLr.v ===== *)
(** * Virtual interrupts: correctness of the list registers

    What [vgic_write_lr] puts in a list register is what [vgic_remove_lr] takes out again; the
    choice among the spilled interrupts; refilling the registers ends. *)
From S2P Require Import Prelude Util Bits Bitmap Spinlock ListHead Emul Cpu Ipi Vcpu Gic Vgic.

(** ** The contents of a list register *)

Lemma tb_out n z b : 0 ≤ n → in_word n z → b < 0 ∨ n ≤ b → Z.testbit z b = false.
Proof. intros Hn Hz [Hb|Hb]; [by apply Z.testbit_neg_r|by apply (testbit_small n)]. Qed.

(** A register for interrupt [i] in state [st] from the CPU [a]. *)
Record lr_image (w i st : Z) : Prop := {
  li_vid : GICH_LR_VID w = i;
  li_state : GICH_LR_STATE w = st;
  li_word : in_word 32 w;
  li_res : Z.land w lr_reserved = 0
}.

Lemma in_word_bits n w : 0 ≤ n → (∀ b, n ≤ b → Z.testbit w b = false) → in_word n w.
Proof.
  intros Hn Hb. assert (w = wrap n w) as ->; [|by apply wrap_in_word].
  word_bits. destruct (Z.ltb_spec i n); [done|]. by apply Hb.
Qed.

Lemma lr_image_intro w i st :
  in_word 10 i → in_word 2 st →
  (∀ b, 0 ≤ b < 10 → Z.testbit w b = Z.testbit i b) →
  (∀ b, 28 ≤ b < 30 → Z.testbit w b = Z.testbit st (b - 28)) →
  (∀ b, 20 ≤ b < 23 → Z.testbit w b = false) → (∀ b, 32 ≤ b → Z.testbit w b = false) → lr_image w i st.
Proof.
  intros Hi Hst Hv Hs Hr Hh. split.
  - apply Z.bits_inj'. intros b Hb. unfold GICH_LR_VID, GICH_LR_VID_OFF, GICH_LR_VID_LEN.
    rewrite testbit_bit_extract by lia. destruct (Z.ltb_spec b 10); cbn [andb].
    + rewrite Z.add_0_r. apply Hv. lia.
    + symmetry. apply (tb_out 10); [lia|done|by right].
  - apply Z.bits_inj'. intros b Hb. unfold GICH_LR_STATE, GICH_LR_STATE_OFF, GICH_LR_STATE_LEN.
    rewrite testbit_bit_extract by lia. destruct (Z.ltb_spec b 2); cbn [andb].
    + rewrite Hs by lia. f_equal. lia.
    + symmetry. apply (tb_out 2); [lia|done|by right].
  - apply in_word_bits; [lia|done].
  - apply Z.bits_inj'. intros b Hb. rewrite Z.land_spec, Z.testbit_0_l. unfold lr_reserved.
    change 0x700000 with (Z.shiftl (Z.ones 3) 20). rewrite testbit_shiftl, Z.testbit_ones by lia.
    destruct (Z.leb_spec 0 (b - 20)), (Z.ltb_spec (b - 20) 3); cbn [andb]; rewrite ?andb_false_r; try done.
    by rewrite Hr by lia.
Qed.

(** The parts [lr_value] puts together. *)
Lemma vid_part i : in_word 10 i → u32 (Z.land i GICH_LR_VID_MSK) = i.
Proof.
  intros Hi. change GICH_LR_VID_MSK with (Z.ones 10). rewrite Z.land_ones by lia. unfold in_word in Hi.
  rewrite Z.mod_small by lia. apply wrap_small. lia.
Qed.

Lemma field_part n off len mask z :
  in_word n z → 0 ≤ off → 0 ≤ n ≤ len → off + len ≤ 32 → mask = Z.shiftl (Z.ones len) off →
  Z.land (u32 (Z.shiftl z off)) mask = Z.shiftl z off.
Proof.
  intros Hz Ho Hn Hl ->. word_bits.
  destruct (Z.ltb_spec i 32), (Z.leb_spec 0 (i - off)), (Z.ltb_spec (i - off) len); cbn [andb]; rewrite ?andb_true_r, ?andb_false_r;
    try done; symmetry; apply (tb_out n); (lia || done).
Qed.

Lemma prio_part p : in_word 8 p →
  Z.land (u32 (Z.shiftl (Z.shiftr p 3) GICH_LR_PRIO_OFF)) GICH_LR_PRIO_MSK = Z.shiftl (Z.shiftr p 3) 23 ∧ in_word 5 (Z.shiftr p 3).
Proof.
  intros Hp. assert (in_word 5 (Z.shiftr p 3)) as H5.
  { apply in_word_bits; [lia|]. intros b Hb. rewrite testbit_shiftr by lia. apply (tb_out 8); [lia|done|right; lia]. }
  split; [|done]. apply (field_part 5 23 5); [done|lia..|reflexivity].
Qed.

Lemma state_part st : in_word 2 st → Z.land (u32 (Z.shiftl st GICH_LR_STATE_OFF)) GICH_LR_STATE_MSK = Z.shiftl st 28.
Proof. intros Hs. apply (field_part 2 28 2); [done|lia..|reflexivity]. Qed.

Lemma pid_part i : in_word 10 i → Z.land (u32 (Z.shiftl i GICH_LR_PID_OFF)) GICH_LR_PID_MSK = Z.shiftl i 10.
Proof. intros Hs. apply (field_part 10 10 10); [done|lia..|reflexivity]. Qed.

Lemma cpu_part w a : in_word 32 w → in_word 3 a →
  u32 (Z.lor w (Z.land (Z.shiftl a GICH_LR_CPUID_OFF) GICH_LR_CPUID_MSK)) = Z.lor w (Z.shiftl a 10).
Proof.
  intros Hw Ha. unfold GICH_LR_CPUID_OFF. change GICH_LR_CPUID_MSK with (Z.shiftl (Z.ones 3) 10). word_bits.
  destruct (Z.ltb_spec i 32).
  - destruct (Z.leb_spec 0 (i - 10)), (Z.ltb_spec (i - 10) 3); cbn [andb]; rewrite ?andb_true_r, ?andb_false_r; try done;
      by rewrite (tb_out 3 a) by (lia || done).
  - cbn [andb]. by rewrite (tb_out 32 w), (tb_out 3 a) by (lia || done).
Qed.

Ltac tb_zero :=
  repeat match goal with
  | H : in_word ?n ?z |- context [Z.testbit ?z ?b] => rewrite (tb_out n z b) by (lia || exact H)
  end.
Ltac lr_bits :=
  intros b Hb; autorewrite with bits; tb_zero; zcase; cbn [orb andb]; rewrite ?orb_false_r; try done.

(** The part of an interrupt the packing depends on is within its widths. *)
Record int_ok (i : vgic_int) : Prop := {
  ok_id : in_word 10 (id i);
  ok_prio : in_word 8 (prio i);
  ok_act : id i < GIC_MAX_SGIS → in_word 3 (sgi_act i);
  ok_pend : id i < GIC_MAX_SGIS → in_word 8 (sgi_pend i)
}.

Ltac lr_parts i Hok :=
  pose proof (ok_id _ Hok) as Hid; destruct (prio_part (prio i) (ok_prio _ Hok)) as [Eprio Hprio];
  unfold lr_value; rewrite (vid_part (id i)), Eprio by exact Hid;
  change GICH_LR_EOI_BIT with (Z.shiftl 1 19); change GICH_LR_HW_BIT with (Z.shiftl 1 31);
  change GICH_LR_STATE_ACT with (Z.shiftl 2 28); change GICH_LR_STATE_PND with (Z.shiftl 1 28);
  generalize dependent (Z.shiftr (prio i) 3); intros pr Eprio Hprio.

Lemma in_word_1 : in_word 2 1. Proof. unfold in_word. lia. Qed.
Lemma in_word_2 : in_word 2 2. Proof. unfold in_word. lia. Qed.

Lemma lr_value_hw i st :
  int_ok i → vgic_int_is_hw i = true → in_word 2 st →
  lr_image (lr_value i st).1 (id i) (if st =? PENDACT then ACT else st) ∧ (lr_value i st).2 = sgi_pend i.
Proof.
  intros Hok Hhw Hst. lr_parts i Hok. rewrite Hhw. cbv zeta. rewrite pid_part by exact Hid.
  pose proof in_word_2 as H2. destruct (Z.eqb_spec st PENDACT) as [->|]; (split; [|reflexivity]); cbn [fst].
  - apply lr_image_intro; [exact Hid|exact in_word_2|..]; unfold ACT; lr_bits.
  - rewrite state_part by done. apply lr_image_intro; [exact Hid|exact Hst|..]; lr_bits.
Qed.

Lemma lr_value_plain i st :
  int_ok i → vgic_int_is_hw i = false → GIC_MAX_SGIS ≤ id i → in_word 2 st →
  lr_image (lr_value i st).1 (id i) st ∧ (lr_value i st).2 = sgi_pend i.
Proof.
  intros Hok Hhw Hge Hst. lr_parts i Hok. rewrite Hhw. destruct (Z.ltb_spec (id i) GIC_MAX_SGIS); [lia|]. cbv zeta.
  rewrite state_part by done. split; [|reflexivity]. cbn [fst].
  destruct (_ && _); (apply lr_image_intro; [exact Hid|exact Hst|..]; lr_bits).
Qed.

Lemma cpuid_intro w a :
  in_word 3 a → (∀ b, 10 ≤ b < 13 → Z.testbit w b = Z.testbit a (b - 10)) → GICH_LR_CPUID w = a.
Proof.
  intros Ha Hw. apply Z.bits_inj'. intros b Hb. unfold GICH_LR_CPUID, GICH_LR_CPUID_OFF, GICH_LR_CPUID_LEN.
  rewrite testbit_bit_extract by lia. destruct (Z.ltb_spec b 3); cbn [andb].
  - rewrite Hw by lia. f_equal. lia.
  - symmetry. apply (tb_out 3); [lia|done|by right].
Qed.

Lemma base_word i pr : in_word 10 i → in_word 5 pr → in_word 32 (Z.lor i (Z.shiftl pr 23)).
Proof. intros Hi Hp. apply in_word_bits; [lia|]. lr_bits. Qed.

(** The sending CPU, the state and the EOI bit of a software-generated interrupt. *)
Lemma sgi_image i pr a st (e : bool) :
  in_word 10 i → in_word 5 pr → in_word 3 a → in_word 2 st →
  let w := Z.lor (Z.lor (Z.lor i (Z.shiftl pr 23)) (Z.shiftl a 10)) (Z.shiftl st 28) in
  let w := if e then Z.lor w (Z.shiftl 1 19) else w in
  lr_image w i st ∧ GICH_LR_CPUID w = a.
Proof.
  intros Hi Hp Ha Hs. cbv zeta.
  destruct e; (split; [apply lr_image_intro; [done|done|..]|apply cpuid_intro; [done|]]); lr_bits.
Qed.

Lemma not_hw_sgi i : id i < GIC_MAX_SGIS → vgic_int_is_hw i = false.
Proof. intros H. unfold vgic_int_is_hw. by destruct (Z.ltb_spec (id i) GIC_MAX_SGIS); [|lia]. Qed.

Lemma lr_value_act i st :
  int_ok i → id i < GIC_MAX_SGIS → Z.land st ACT ≠ 0 →
  lr_image (lr_value i st).1 (id i) ACT ∧ GICH_LR_CPUID (lr_value i st).1 = sgi_act i ∧ (lr_value i st).2 = sgi_pend i.
Proof.
  intros Hok Hsgi Hact. pose proof (ok_act _ Hok Hsgi) as Ha. lr_parts i Hok. rewrite (not_hw_sgi _ Hsgi).
  destruct (Z.ltb_spec (id i) GIC_MAX_SGIS); [|lia]. destruct (Z.eqb_spec (Z.land st ACT) 0); [done|]. cbn [negb]. cbv zeta.
  rewrite cpu_part by (done || by apply base_word).
  destruct (sgi_image (id i) pr (sgi_act i) ACT (negb (sgi_pend i =? 0)) Hid Hprio Ha in_word_2) as [Hi Hc].
  cbn [fst snd]. split; [exact Hi|]. split; [exact Hc|reflexivity].
Qed.

Lemma highest_source_some pend i n :
  highest_source pend i n = None → 0 ≤ i - Z.of_nat n + 1 → ∀ b, i - Z.of_nat n < b ≤ i → Z.testbit pend b = false.
Proof.
  revert i. induction n as [|n IH]; intros i; cbn [highest_source]; [intros; lia|].
  destruct (Z.eqb_spec (Z.land pend (Z.shiftl 1 i)) 0) as [E|E]; cbn [negb]; [|done]. intros Hn Hi b Hb.
  destruct (decide (b = i)) as [->|]; [|apply (IH (i - 1)); [done|lia..]].
  assert (Z.testbit (Z.land pend (Z.shiftl 1 i)) i = false) as Ht by (rewrite E; apply Z.testbit_0_l).
  rewrite Z.land_spec, testbit_shiftl, Z.sub_diag, testbit_1 in Ht by lia. by rewrite andb_true_r in Ht.
Qed.

Lemma highest_source_found pend i n b :
  highest_source pend i n = Some b → 0 ≤ i - Z.of_nat n + 1 → i - Z.of_nat n < b ≤ i ∧ Z.testbit pend b = true.
Proof.
  revert i. induction n as [|n IH]; intros i; cbn [highest_source]; [done|].
  destruct (Z.eqb_spec (Z.land pend (Z.shiftl 1 i)) 0) as [E|E]; cbn [negb].
  - intros Hn Hi. destruct (IH (i - 1)) as [??]; [done|lia|]. split; [lia|done].
  - intros [= ->] Hi. split; [lia|]. destruct (Z.testbit pend b) eqn:Hb; [done|]. exfalso. apply E.
    apply Z.bits_inj'. intros c Hc. rewrite Z.land_spec, testbit_shiftl, testbit_1, Z.testbit_0_l by done.
    destruct (Z.eqb_spec (c - b) 0); [|apply andb_false_r]. replace c with b by lia. by rewrite Hb.
Qed.

(** The source whose request is in the register, and the requests that stay. *)
Lemma lr_value_pend i st :
  int_ok i → id i < GIC_MAX_SGIS → Z.land st ACT = 0 → sgi_pend i ≠ 0 →
  lr_image (lr_value i st).1 (id i) PEND ∧
  u8 (Z.lor (lr_value i st).2 (Z.shiftl 1 (GICH_LR_CPUID (lr_value i st).1))) = sgi_pend i.
Proof.
  intros Hok Hsgi Hact Hne. pose proof (ok_pend _ Hok Hsgi) as Hp. lr_parts i Hok. rewrite (not_hw_sgi _ Hsgi).
  destruct (Z.ltb_spec (id i) GIC_MAX_SGIS); [|lia]. rewrite Hact. cbn [Z.eqb negb].
  change (GIC_MAX_TARGETS - 1) with 7. change (Z.to_nat GIC_MAX_TARGETS) with 8%nat.
  destruct (highest_source (sgi_pend i) 7 8) as [c|] eqn:Eh.
  - destruct (highest_source_found _ _ _ _ Eh ltac:(lia)) as [Hc Hbit].
    assert (in_word 3 c) as Hc3 by (unfold in_word; lia).
    rewrite cpu_part by (done || by apply base_word). set (rest := Z.land _ _).
    destruct (sgi_image (id i) pr c PEND (negb (rest =? 0)) Hid Hprio Hc3 in_word_1) as [Hi Hcpu].
    cbn [fst snd]. split; [exact Hi|]. etransitivity; [apply (f_equal (λ z, u8 (Z.lor rest (Z.shiftl 1 z)))), Hcpu|].
    unfold rest. word_bits. destruct (Z.eqb_spec (i0 - c) 0).
    + replace i0 with c by lia. rewrite Hbit. destruct (Z.ltb_spec c 8); [|lia]. by rewrite orb_true_r.
    + cbn [negb]. rewrite orb_false_r, andb_true_r. destruct (Z.ltb_spec i0 8); cbn [andb].
      * by rewrite andb_true_r.
      * symmetry. apply (tb_out 8); [lia|done|by right].
  - exfalso. apply Hne. apply Z.bits_inj'. intros b Hb. rewrite Z.testbit_0_l.
    destruct (decide (b ≤ 7)); [|apply (tb_out 8); [lia|done|right; lia]].
    apply (highest_source_some _ _ _ Eh); lia.
Qed.

(** ** Execution on a device that behaves as documented *)

Section lr.
Context {D : GicDevice} {L : GicLaws}.
Variable lay : layout.
#[local] Set Default Proof Using "All".

Implicit Types s : vgic.

(** What a register reads as. *)
Definition reg_val (s : vgic) (r : gic_reg) : Z := (read_reg r (dev (cpu_gic s))).1.
Definition wr_reg (r : gic_reg) (v : Z) (s : vgic) : vgic := s <| cpu_gic ::= λ g, g <| dev ::= write_reg r (u32 v) |> |>.

Lemma on_gic_rd r s : pure_reg r = true → on_gic (rd r) s = Done (reg_val s r, s).
Proof.
  intros Hp. unfold on_gic, lift_prog, rd, reg_val. pose proof (read_pure r (dev (cpu_gic s)) Hp) as E.
  destruct (read_reg r (dev (cpu_gic s))) as [v d]. cbn [fst snd] in *. subst d. destruct s as [g]. destruct g. reflexivity.
Qed.

Lemma on_gic_bind {A B} (m : prog gic A) (f : A → prog gic B) s :
  on_gic (m ≫= f) s = (on_gic m ≫= λ a, on_gic (f a)) s.
Proof.
  unfold on_gic, lift_prog, mbind, prog_bind. destruct (m (cpu_gic s)) as [[a g]|]; [|done].
  change (cpu_gic (s <| cpu_gic := g |>)) with g. destruct (f a g) as [[b g']|]; reflexivity.
Qed.

Lemma on_gic_gets {A} (f : gic → A) s : on_gic (gets f) s = Done (f (cpu_gic s), s).
Proof. destruct s. reflexivity. Qed.

Lemma gich_read_lr_run k s : k < NUM_LRS (cpu_gic s) → on_gic (gich_read_lr k) s = Done (reg_val s (GICH_LR k), s).
Proof.
  intros Hk. unfold gich_read_lr. rewrite on_gic_bind. erewrite prog_bind_done by apply on_gic_gets.
  destruct (Z.ltb_spec k (NUM_LRS (cpu_gic s))); [|lia]. apply on_gic_rd. reflexivity.
Qed.

Lemma gich_write_lr_run k v s : k < NUM_LRS (cpu_gic s) → on_gic (gich_write_lr k v) s = Done (tt, wr_reg (GICH_LR k) v s).
Proof.
  intros Hk. unfold gich_write_lr, on_gic, lift_prog, mbind, prog_bind. cbn.
  destruct (Z.ltb_spec k (NUM_LRS (cpu_gic s))); [|lia]. reflexivity.
Qed.

(** ** The state of an interrupt outside the list registers *)

Definition eff (i : vgic_int) : Z :=
  if (id i <? GIC_MAX_SGIS) && negb (sgi_pend i =? 0) then Z.lor (state i) PEND else state i.

Lemma gich_get_lr_out p s : in_lr (ints s p) = false → gich_get_lr p s = Done (None, s).
Proof. intros Hp. unfold gich_get_lr, geti, my_cpu. psteps. by rewrite Hp. Qed.

Lemma vgic_get_state_out p s : in_lr (ints s p) = false → vgic_get_state p s = Done (eff (ints s p), s).
Proof.
  intros Hp. unfold vgic_get_state. erewrite prog_bind_done by (by apply gich_get_lr_out).
  unfold geti. psteps. reflexivity.
Qed.

(** [vgic_yield_ownership] on an interrupt that is in no list register. *)
Definition yielded (v : Z) (i : vgic_int) : vgic_int :=
  if gic_is_priv (id i) || negb (vgic_owns v i) || negb (Z.land (eff i) ACT =? 0) then i else i <| owner := None |>.

(** Two states that differ in the interrupts only, where [f] gives them. *)
Definition with_ints (s : vgic) (f : Z → vgic_int) (s' : vgic) : Prop := ∃ g, s' = s <| ints := g |> ∧ ∀ q, g q = f q.

Lemma with_ints_refl s f : (∀ q, ints s q = f q) → with_ints s f s.
Proof. intros Hf. exists (ints s). split; [by destruct s|exact Hf]. Qed.

Lemma with_ints_val s f s' q : with_ints s f s' → ints s' q = f q.
Proof. intros (g & -> & Hg). rsimpl. apply Hg. Qed.

Ltac wval W q H := pose proof (with_ints_val _ _ _ q W) as H; cbv beta in H; rewrite ?Z.eqb_refl in H.

Lemma with_ints_ext s f g s' : with_ints s f s' → (∀ q, f q = g q) → with_ints s g s'.
Proof. intros (h & -> & Hh) Hfg. exists h. split; [reflexivity|]. intros q. by rewrite Hh. Qed.

Lemma with_ints_trans s f s1 g s2 : with_ints s f s1 → with_ints s1 g s2 → with_ints s g s2.
Proof. intros (h & -> & _) (k & -> & Hk). exists k. split; [reflexivity|exact Hk]. Qed.

Lemma with_ints_alter s f h p : (∀ q, (if q =? p then h (ints s p) else ints s q) = f q) → with_ints s f (s <| ints ::= alter h p |>).
Proof.
  intros Hf. eexists. split; [reflexivity|]. intros q. rewrite <-Hf.
  destruct (Z.eqb_spec q p) as [->|]; [apply alter_eq|by apply alter_ne].
Qed.

Lemma vgic_yield_run v p s :
  in_lr (ints s p) = false →
  ∃ s', vgic_yield_ownership v p s = Done (tt, s') ∧ with_ints s (λ q, if q =? p then yielded v (ints s p) else ints s q) s'.
Proof.
  intros Hp. unfold vgic_yield_ownership, geti. psteps. rewrite Hp, orb_false_r. unfold yielded.
  assert (with_ints s (λ q, if q =? p then ints s p else ints s q) s) as Hsame.
  { apply with_ints_refl. intros q. by destruct (Z.eqb_spec q p) as [->|]. }
  destruct (gic_is_priv (id (ints s p)) || negb (vgic_owns v (ints s p))); cbn [orb]; [eexists; split; [reflexivity|exact Hsame]|].
  erewrite prog_bind_done by (by apply vgic_get_state_out).
  destruct (negb (Z.land (eff (ints s p)) ACT =? 0)); [eexists; split; [reflexivity|exact Hsame]|].
  eexists. split; [reflexivity|]. by apply with_ints_alter.
Qed.

Lemma lock_int_run p s :
  lock_free (ilock (ints s p)) →
  ∃ s', lock_int p s = Done (tt, s') ∧
    with_ints s (λ q, if q =? p then ints s p <| ilock := lock_taken (ilock (ints s p)) |> else ints s q) s'.
Proof. intros Hl. unfold lock_int. rewrite spin_lock_free by done. eexists. split; [reflexivity|]. by apply with_ints_alter. Qed.

(** ** Writing a register *)

(** [evict_lr] for the interrupt that was in register [k]. *)
Definition evicted (v k : Z) (j : vgic_int) : vgic_int :=
  let j := j <| ilock := lock_taken (ilock j) |> in
  let j := if vgic_owns v j && in_lr j && (lr j =? k) then yielded v (j <| in_lr := false |>) else j in
  j <| ilock ::= spin_unlock |>.

Definition after_evict (s : vgic) (v k prev : Z) (q : Z) : vgic_int :=
  if bool_decide (int_addr lay s v prev = Some q) then evicted v k (ints s q) else ints s q.

Lemma evict_lr_run v k prev s :
  (∀ q, int_addr lay s v prev = Some q → lock_free (ilock (ints s q))) →
  ∃ s', evict_lr lay v k prev s = Done (tt, s') ∧ with_ints s (after_evict s v k prev) s'.
Proof.
  intros Hl. unfold evict_lr. psteps. erewrite prog_bind_done by apply vgic_get_int_own.
  unfold after_evict. destruct (int_addr lay s v prev) as [q|] eqn:Eq.
  2: { eexists. split; [reflexivity|]. apply with_ints_refl. intros q. by rewrite bool_decide_false. }
  destruct (lock_int_run q s) as (s1 & E1 & W1); [by apply Hl|]. erewrite prog_bind_done by exact E1.
  unfold geti. psteps. wval W1 q E2. rewrite E2.
  assert (∀ r, r ≠ q → ints s1 r = ints s r) as E3.
  { intros r Hr. wval W1 r E. rewrite E. by destruct (Z.eqb_spec r q). }
  destruct (vgic_owns _ _ && in_lr _ && (lr _ =? k)) eqn:Ec.
  - unfold updi at 1. psteps. set (s2 := s1 <| ints ::= _ |>).
    assert (with_ints s1 (λ r, if r =? q then ints s1 q <| in_lr := false |> else ints s1 r) s2) as W2 by by apply with_ints_alter.
    clearbody s2. wval W2 q E4.
    destruct (vgic_yield_run v q s2) as (s3 & E5 & W3); [by rewrite E4|].
    erewrite prog_bind_done by exact E5. eexists. split; [reflexivity|].
    eapply with_ints_trans; [eapply with_ints_trans; [eapply with_ints_trans; [exact W1|exact W2]|exact W3]|].
    apply with_ints_alter. intros r. wval W3 q E5q. wval W3 r E5r. wval W2 r E2r.
    rewrite E5q, E5r, E4, E2. destruct (Z.eqb_spec r q) as [->|Hr].
    + rewrite bool_decide_true by done. unfold evicted. by rewrite Ec.
    + rewrite bool_decide_false, E2r by congruence. by apply E3.
  - psteps. eexists. split; [reflexivity|]. eapply with_ints_trans; [exact W1|].
    apply with_ints_alter. intros r. rewrite E2. destruct (Z.eqb_spec r q) as [->|Hr].
    + rewrite bool_decide_true by done. unfold evicted. by rewrite Ec.
    + rewrite bool_decide_false by congruence. by apply E3.
Qed.

(** The interrupt after it was put in register [k]. *)
Definition wrote (k : Z) (i : vgic_int) : vgic_int :=
  i <| u1 := (lr_value i (eff i)).2 |> <| state := 0 |> <| in_lr := true |> <| lr := u8 k |>.

Definition evicts (s : vgic) (v p k : Z) : bool :=
  negb (curr_lrs s v k =? id (ints s p)) && negb (gic_is_priv (curr_lrs s v k)).

Lemma evicts_shared s v p k : evicts s v p k = true → curr_lrs s v k ≠ id (ints s p) ∧ 0 ≤ curr_lrs s v k.
Proof.
  unfold evicts, gic_is_priv, GIC_CPU_PRIV, GIC_MAX_SGIS, GIC_MAX_PPIS. intros [H1 H2]%andb_true_iff.
  apply negb_true_iff, Z.eqb_neq in H1. apply negb_true_iff, Z.ltb_ge in H2. split; [done|lia].
Qed.

Definition after_write (s : vgic) (v p k : Z) (q : Z) : vgic_int :=
  if q =? p then wrote k (ints s p)
  else if evicts s v p k then after_evict s v k (curr_lrs s v k) q else ints s q.

(** What the tables of interrupts satisfy: an interrupt's structure holds its number, and no lock
    but that of [x] is held. *)
Record ints_ok (s : vgic) (v : Z) (x : option Z) : Prop := {
  io_id n q : 0 ≤ n → int_addr lay s v n = Some q → id (ints s q) = n;
  io_lock n q : 0 ≤ n → int_addr lay s v n = Some q → x ≠ Some q → lock_free (ilock (ints s q))
}.

Lemma vgic_write_lr_run v p k s :
  ints_ok s v (Some p) → in_lr (ints s p) = false → k < NUM_LRS (cpu_gic s) →
  ∃ f, vgic_write_lr lay v p k s = Done (tt, wr_reg (GICH_LR k) (lr_value (ints s p) (eff (ints s p))).1
         (s <| ints := f |> <| curr_lrs ::= λ c, <[v := <[k := id (ints s p)]> (c v)]> c |>)) ∧
    ∀ q, f q = after_write s v p k q.
Proof.
  intros Hok Hp Hk. unfold vgic_write_lr, geti. psteps.
  set (i := ints s p) in *. set (prev := curr_lrs s v k).
  assert (∃ s1, (if negb (prev =? id i) && negb (gic_is_priv prev) then evict_lr lay v k prev else mret tt) s = Done (tt, s1) ∧
    with_ints s (λ q, if evicts s v p k then after_evict s v k prev q else ints s q) s1) as (s1 & E1 & W1).
  { change (negb (prev =? id i) && negb (gic_is_priv prev)) with (evicts s v p k). destruct (evicts s v p k) eqn:Eev.
    - destruct (evicts_shared _ _ _ _ Eev) as [Hprev Hpos]. apply evict_lr_run. intros q Hq.
      apply (io_lock _ _ _ Hok prev); [done|done|]. intros [= <-]. apply Hprev. symmetry. by apply (io_id _ _ _ Hok).
    - eexists. split; [reflexivity|]. by apply with_ints_refl. }
  erewrite prog_bind_done by exact E1. wval W1 p E2.
  assert (ints s1 p = i) as E3.
  { rewrite E2. destruct (evicts s v p k) eqn:Eev; [|done]. unfold after_evict. rewrite bool_decide_false; [done|].
    destruct (evicts_shared _ _ _ _ Eev) as [Hprev Hpos]. intros Hq. apply Hprev. symmetry. by apply (io_id _ _ _ Hok). }
  erewrite prog_bind_done by (apply vgic_get_state_out; by rewrite E3). psteps. rewrite E3.
  destruct (lr_value i (eff i)) as [w pend] eqn:Elr. unfold updi. psteps.
  destruct W1 as (g & -> & Hg). rewrite gich_write_lr_run by exact Hk.
  eexists. split; [f_equal; f_equal; reflexivity|]. intros q. unfold after_write. fold i prev.
  destruct (Z.eqb_spec q p) as [->|Hq].
  - rewrite alter_eq. unfold wrote. rewrite Elr. rsimpl_in E3. rsimpl. by rewrite alter_eq, E3.
  - rewrite alter_ne by done. rsimpl. rewrite alter_ne by done. apply Hg.
Qed.

(** ** Removing from a register *)

Definition removed (w : Z) (i : vgic_int) : vgic_int :=
  let i := i <| in_lr := false |> <| state := GICH_LR_STATE w |> in
  if id i <? GIC_MAX_SGIS then
    if negb (Z.land (state i) ACT =? 0) then i <| u0 := GICH_LR_CPUID w |>
    else if negb (Z.land (state i) PEND =? 0) then i <| u1 ::= λ b, u8 (Z.lor b (Z.shiftl 1 (GICH_LR_CPUID w))) |> else i
  else i.

Lemma on_gic_wr r v s : on_gic (wr r v) s = Done (tt, wr_reg r v s).
Proof. reflexivity. Qed.

Lemma reg_val_write k v s : in_word 32 v → Z.land v lr_reserved = 0 → reg_val (wr_reg (GICH_LR k) v s) (GICH_LR k) = v.
Proof.
  intros Hv Hr. unfold reg_val, wr_reg. rsimpl. rewrite (wrap_small 32) by exact Hv. by apply lr_written.
Qed.

Lemma reg_val_hcr k v s : reg_val (wr_reg GICH_HCR v s) (GICH_LR k) = reg_val s (GICH_LR k).
Proof. unfold reg_val, wr_reg. rsimpl. apply lr_hcr. Qed.

Lemma vgic_remove_lr_state v p s k w st :
  owner (ints s p) = Some v → in_lr (ints s p) = true → p_id (vcpu_tbl s v) = this_cpu (cpu_gic s) →
  lr (ints s p) = k → k < NUM_LRS (cpu_gic s) → reg_val s (GICH_LR k) = w → lr_image w (id (ints s p)) st → st ≠ INV →
  ∃ h s2, vgic_remove_lr v p s = Done (true, wr_reg GICH_HCR h s2) ∧
    with_ints (wr_reg (GICH_LR k) 0 s) (λ q, if q =? p then removed w (ints s p) else ints s q) s2.
Proof.
  intros Ho Hin Hcpu Hk Hlt Hw Hi Hst. unfold vgic_remove_lr, geti. psteps.
  assert (vgic_owns v (ints s p) = true) as -> by (unfold vgic_owns; by apply bool_decide_true).
  rewrite Hin. cbn [negb orb].
  assert (gich_get_lr p s = Done (Some (k, w), s)) as E.
  { unfold gich_get_lr, geti, my_cpu. psteps. rewrite Hin. cbn [negb]. rewrite Ho. psteps. rewrite Hk, Hcpu, Z.eqb_refl. cbn [negb].
    erewrite prog_bind_done by (by apply gich_read_lr_run). rewrite Hw, (li_vid _ _ _ Hi), (li_state _ _ _ Hi), Z.eqb_refl.
    by destruct (Z.eqb_spec st INV). }
  erewrite prog_bind_done by exact E. cbv beta iota.
  erewrite prog_bind_done by (by apply gich_write_lr_run). unfold updi. psteps.
  rewrite (li_state _ _ _ Hi). destruct (Z.eqb_spec st INV); [done|]. cbn [negb]. psteps.
  rewrite !alter_eq. change (ints (wr_reg (GICH_LR k) 0 s)) with (ints s). rsimpl.
  lazymatch goal with |- ∃ h s2, (?m ≫= ?f) ?st1 = _ ∧ _ =>
    assert (∃ s2, m st1 = Done (tt, s2) ∧ with_ints (wr_reg (GICH_LR k) 0 s) (λ q, if q =? p then removed w (ints s p) else ints s q) s2)
      as (s2 & E2 & W) end.
  { unfold removed. rsimpl. rewrite (li_state _ _ _ Hi).
    repeat case_match; (eexists; split; [reflexivity|]; eexists; split; [reflexivity|]; intros q;
      destruct (Z.eqb_spec q p) as [->|]; repeat first [rewrite alter_eq | rewrite alter_ne by done | progress rsimpl]; reflexivity). }
  erewrite prog_bind_done by exact E2. unfold gich_get_hcr, gich_set_hcr.
  erewrite prog_bind_done by (apply on_gic_rd; reflexivity). erewrite prog_bind_done by apply on_gic_wr.
  eexists _, s2. split; [reflexivity|exact W].
Qed.

Lemma vgic_remove_lr_run v p s k w st :
  owner (ints s p) = Some v → in_lr (ints s p) = true → p_id (vcpu_tbl s v) = this_cpu (cpu_gic s) →
  lr (ints s p) = k → k < NUM_LRS (cpu_gic s) → reg_val s (GICH_LR k) = w → lr_image w (id (ints s p)) st → st ≠ INV →
  ∃ s', vgic_remove_lr v p s = Done (true, s') ∧ ints s' p = removed w (ints s p) ∧
    (∀ q, q ≠ p → ints s' q = ints s q) ∧ reg_val s' (GICH_LR k) = 0.
Proof.
  intros Ho Hin Hcpu Hk Hlt Hw Hi Hst.
  destruct (vgic_remove_lr_state v p s k w st Ho Hin Hcpu Hk Hlt Hw Hi Hst) as (h & s2 & E & g & -> & Hg).
  eexists. split; [exact E|]. split; [|split].
  - etransitivity; [apply Hg|]. by rewrite Z.eqb_refl.
  - intros q Hq. etransitivity; [apply Hg|]. by destruct (Z.eqb_spec q p).
  - rewrite reg_val_hcr. change (reg_val (wr_reg (GICH_LR k) 0 s) (GICH_LR k) = 0). apply reg_val_write; [unfold in_word; lia|reflexivity].
Qed.

(** ** No request is lost *)

(** An interrupt the code could hold: a software-generated one is pending only when some CPU's
    request is recorded. *)
Record held (i : vgic_int) : Prop := {
  h_ok : int_ok i;
  h_state : in_word 2 (state i);
  h_sgi : id i < GIC_MAX_SGIS → Z.land (state i) PEND ≠ 0 → sgi_pend i ≠ 0
}.

Lemma state_cases st : in_word 2 st → st = INV ∨ st = PEND ∨ st = ACT ∨ st = PENDACT.
Proof. unfold in_word, INV, PEND, ACT, PENDACT. lia. Qed.

Lemma eff_word i : in_word 2 (state i) → in_word 2 (eff i).
Proof. intros Hs. unfold eff. destruct (_ && _); [|done]. by destruct (state_cases _ Hs) as [-> | [-> | [-> | ->]]]. Qed.

(** The state the register shows, and what [removed] makes of it. *)
Lemma lr_value_trip k i :
  held i → eff i ≠ INV →
  ∃ st, st ≠ INV ∧ lr_image (lr_value i (eff i)).1 (id i) st ∧
    let j := removed (lr_value i (eff i)).1 (wrote k i) in
    eff j = (if vgic_int_is_hw i && (eff i =? PENDACT) then ACT else eff i) ∧ sgi_pend j = sgi_pend i ∧
    (id i < GIC_MAX_SGIS → Z.land (eff i) ACT ≠ 0 → sgi_act j = sgi_act i).
Proof.
  intros [Hok Hst Hsgi] Hne. pose proof (eff_word _ Hst) as Hw. cbv zeta. unfold removed, wrote. rsimpl.
  destruct (decide (id i < GIC_MAX_SGIS)) as [Hlt|Hge].
  - rewrite (not_hw_sgi _ Hlt). cbn [andb]. destruct (Z.ltb_spec (id i) GIC_MAX_SGIS); [|lia].
    destruct (decide (Z.land (eff i) ACT = 0)) as [Ha|Ha].
    + assert (sgi_pend i ≠ 0 ∧ eff i = PEND) as [Hp He].
      { unfold eff in *. destruct (Z.ltb_spec (id i) GIC_MAX_SGIS); [|lia]. cbn [andb] in *.
        destruct (Z.eqb_spec (sgi_pend i) 0) as [E|E]; cbn [negb] in *;
          destruct (state_cases _ Hst) as [E2 | [E2 | [E2 | E2]]]; rewrite E2 in *; try done.
        exfalso. by apply (Hsgi Hlt). }
      destruct (lr_value_pend i (eff i) Hok Hlt Ha Hp) as [Hi Hu]. exists PEND. split; [done|]. split; [exact Hi|].
      rewrite (li_state _ _ _ Hi). change (Z.land PEND ACT =? 0) with true. change (Z.land PEND PEND =? 0) with false.
      cbn [negb]. unfold eff at 1. rsimpl. rewrite Hu. split_and!; [|reflexivity|done].
      destruct (Z.ltb_spec (id i) GIC_MAX_SGIS); [|lia]. destruct (Z.eqb_spec (sgi_pend i) 0); [done|]. by rewrite He.
    + destruct (lr_value_act i (eff i) Hok Hlt Ha) as (Hi & Hc & Hu). exists ACT. split; [done|]. split; [exact Hi|].
      rewrite (li_state _ _ _ Hi), Hc. change (Z.land ACT ACT =? 0) with false. cbn [negb]. unfold eff at 1. rsimpl. rewrite Hu.
      split_and!; [|reflexivity|done]. unfold eff in *. destruct (Z.ltb_spec (id i) GIC_MAX_SGIS); [|lia]. cbn [andb] in *.
      destruct (Z.eqb_spec (sgi_pend i) 0) as [E|E]; cbn [negb] in *;
        destruct (state_cases _ Hst) as [E2 | [E2 | [E2 | E2]]]; rewrite E2 in *; try done.
      exfalso. by apply (Hsgi Hlt).
  - destruct (Z.ltb_spec (id i) GIC_MAX_SGIS); [lia|]. destruct (vgic_int_is_hw i) eqn:Ehw.
    + destruct (lr_value_hw i (eff i) Hok Ehw Hw) as [Hi Hu]. eexists. split; [|split; [exact Hi|]].
      * by destruct (Z.eqb_spec (eff i) PENDACT).
      * rewrite (li_state _ _ _ Hi). unfold eff at 1. rsimpl. rewrite Hu. destruct (Z.ltb_spec (id i) GIC_MAX_SGIS); [lia|].
        split_and!; [reflexivity|reflexivity|lia].
    + destruct (lr_value_plain i (eff i) Hok Ehw ltac:(lia) Hw) as [Hi Hu]. exists (eff i). split; [done|]. split; [exact Hi|].
      rewrite (li_state _ _ _ Hi). unfold eff at 1. rsimpl. rewrite Hu. destruct (Z.ltb_spec (id i) GIC_MAX_SGIS); [lia|].
      split_and!; [reflexivity|reflexivity|lia].
Qed.



(** ** Choosing a spilled interrupt *)

(** Priority first, then number: the smaller goes first. *)
Definition rank (i : vgic_int) : Z := prio i * GIC_MAX_INTERUPTS + id i.
Definition best_rank (s : vgic) (best : option (Z * Z)) : Z :=
  match best with Some (b, _) => rank (ints s b) | None => GIC_LOWEST_PRIO * GIC_MAX_INTERUPTS + GIC_MAX_VALID_INTERRUPTS end.
Definition wanted (s : vgic) (flags q : Z) : Prop := Z.land (eff (ints s q)) flags ≠ 0.

(** An interrupt of a spilled list. *)
Record spilled_int (i : vgic_int) : Prop := {
  sp_out : in_lr i = false;
  sp_prio : in_word 8 (prio i);
  sp_id : 0 ≤ id i < GIC_MAX_VALID_INTERRUPTS
}.

Lemma rank_lt p1 i1 p2 i2 :
  0 ≤ i1 < 1024 → 0 ≤ i2 < 1024 → (p1 <? p2) || (p1 =? p2) && (i1 <? i2) = (p1 * 1024 + i1 <? p2 * 1024 + i2).
Proof.
  intros. destruct (Z.ltb_spec p1 p2), (Z.eqb_spec p1 p2), (Z.ltb_spec i1 i2), (Z.ltb_spec (p1 * 1024 + i1) (p2 * 1024 + i2));
    cbn [orb andb]; try done; lia.
Qed.

(** The best of [best] and the wanted interrupts of [l]. *)
Definition best_of (s : vgic) (flags head : Z) (l : list Z) (best r : option (Z * Z)) : Prop :=
  (r = best ∨ ∃ p, p ∈ l ∧ r = Some (p, head) ∧ wanted s flags p) ∧ best_rank s r ≤ best_rank s best ∧
  (r ≠ best → best_rank s r < best_rank s best) ∧ (∀ q, q ∈ l → wanted s flags q → best_rank s r ≤ rank (ints s q)).

Definition best_ok (s : vgic) (best : option (Z * Z)) : Prop :=
  match best with Some (b, _) => spilled_int (ints s b) | None => True end.

Lemma scan_spilled_run s flags head l pos best fuel :
  linked (links s) (l ++ [head]) → head ∉ l → pos = hd head l → (length l < fuel)%nat →
  Forall (λ q, spilled_int (ints s q)) l → best_ok s best →
  ∃ r, scan_spilled flags pos head best fuel s = Done (r, s) ∧ best_of s flags head l best r ∧ best_ok s r.
Proof.
  revert pos best fuel. induction l as [|p l IH]; intros pos best [|fuel] Hl Hh -> Hf Hall Hb; cbn [length] in Hf; try lia; cbn [scan_spilled hd].
  { rewrite Z.eqb_refl. exists best. split; [done|]. split; [|done]. split_and!; [by left|lia|done|].
    intros q Hq. by apply elem_of_nil in Hq. }
  apply not_elem_of_cons in Hh as [Hne Hh]. apply Forall_cons in Hall as [Hp Hall].
  destruct (Z.eqb_spec p head); [done|]. erewrite prog_bind_done by (apply vgic_get_state_out, (sp_out _ Hp)).
  unfold geti. psteps. set (best1 := if _ && _ then Some (p, head) else best).
  assert (linked (links s) (l ++ [head]) ∧ ListHead.next (links s p) = hd head l) as [Hl' Hnx].
  { destruct l as [|q l]; simpl in Hl; [by split; [|apply Hl]|]. split; [apply Hl|apply Hl]. }
  assert (best1 = if negb (Z.land (eff (ints s p)) flags =? 0) && (rank (ints s p) <? best_rank s best) then Some (p, head) else best) as Eb.
  { unfold best1, rank, best_rank. pose proof (sp_id _ Hp) as Hid. unfold GIC_MAX_VALID_INTERRUPTS, GIC_FIRST_SPECIAL_INTID in *.
    destruct best as [[b h]|]; cbn [fst snd].
    - pose proof (sp_id _ Hb). unfold GIC_MAX_VALID_INTERRUPTS, GIC_FIRST_SPECIAL_INTID, GIC_MAX_INTERUPTS in *. by rewrite rank_lt by lia.
    - unfold GIC_MAX_INTERUPTS. by rewrite rank_lt by lia. }
  clearbody best1.
  assert (best_ok s best1) as Hb1 by (rewrite Eb; by destruct (_ && _)).
  destruct (IH (ListHead.next (links s p)) best1 fuel) as (r & E & (H1 & H2 & H3 & H4) & Hr); [done..|lia|done|done|].
  exists r. split; [exact E|]. split; [|done].
  destruct (Z.eqb_spec (Z.land (eff (ints s p)) flags) 0) as [E0|E0]; cbn [negb andb] in Eb.
  { subst best1. split_and!; [|done..|].
    - destruct H1 as [->|(q & Hq & Hr' & Hw)]; [by left|right; exists q; split; [by apply list_elem_of_further|done]].
    - intros q [->|Hq]%elem_of_cons Hw; [by destruct Hw|by apply H4]. }
  destruct (Z.ltb_spec (rank (ints s p)) (best_rank s best)); subst best1; cbn [best_rank] in *.
  - split_and!.
    + destruct H1 as [->|(q & Hq & Hr' & Hw)]; right; [exists p|exists q]; (split; [|done]);
        [apply list_elem_of_here|by apply list_elem_of_further].
    + lia.
    + lia.
    + intros q [->|Hq]%elem_of_cons Hw; [done|by apply H4].
  - split_and!; [|done..|].
    + destruct H1 as [->|(q & Hq & Hr' & Hw)]; [by left|right; exists q; split; [by apply list_elem_of_further|done]].
    + intros q [->|Hq]%elem_of_cons Hw; [lia|by apply H4].
Qed.

Lemma highest_run v flags s l1 l2 fuel :
  circular (links s) (vcpu_spilled lay v) l1 → circular (links s) (vm_spilled lay) l2 →
  Forall (λ q, spilled_int (ints s q)) (l1 ++ l2) → (length l1 < fuel)%nat → (length l2 < fuel)%nat →
  ∃ r, vgic_highest_prio_spilled lay v flags fuel s = Done (r, s) ∧
    match r with
    | Some (p, h) => (p ∈ l1 ∧ h = vcpu_spilled lay v ∨ p ∈ l2 ∧ h = vm_spilled lay) ∧ wanted s flags p ∧
        ∀ q, q ∈ l1 ++ l2 → wanted s flags q → rank (ints s p) ≤ rank (ints s q)
    | None => ∀ q, q ∈ l1 ++ l2 → ¬ wanted s flags q
    end.
Proof.
  intros C1 C2 Hall F1 F2. unfold vgic_highest_prio_spilled. psteps. pose proof Hall as Hall'. apply Forall_app in Hall as [A1 A2].
  assert (∀ h l, circular (links s) h l → linked (links s) (l ++ [h]) ∧ h ∉ l) as Hc.
  { intros h l [Hl Hn]. apply NoDup_cons in Hn as [Hn _]. split; [|done].
    destruct (cons_snoc h l) as (q & l' & E). rewrite E in *. simpl in Hl. tauto. }
  destruct (Hc _ _ C1) as [L1 N1], (Hc _ _ C2) as [L2 N2].
  destruct (scan_spilled_run s flags _ l1 _ None fuel L1 N1 (circular_head_next _ _ _ C1) F1 A1 I) as (r1 & E1 & (H1 & H2 & H3 & H4) & B1).
  erewrite prog_bind_done by exact E1. psteps.
  destruct (scan_spilled_run s flags _ l2 _ r1 fuel L2 N2 (circular_head_next _ _ _ C2) F2 A2 B1) as (r & E & (G1 & G2 & G3 & G4) & B).
  exists r. split; [exact E|].
  assert (∀ q, q ∈ l1 ++ l2 → wanted s flags q → best_rank s r ≤ rank (ints s q)) as Hmin.
  { intros q [Hq|Hq]%elem_of_app Hw; [specialize (H4 q Hq Hw); lia|by apply G4]. }
  destruct r as [[p h]|].
  - split; [|split; [|exact Hmin]]; (destruct G1 as [Er|(p' & Hp & [= -> ->] & Hw)];
      [subst r1; destruct H1 as [H1|(p' & Hp & [= -> ->] & Hw)]; [done|]|]); [by left|by right|done..].
  - intros q Hq Hw. specialize (Hmin q Hq Hw). rewrite Forall_forall in Hall'. destruct (Hall' q Hq) as [_ Hpr Hid].
    cbn [best_rank] in Hmin. unfold rank, in_word, GIC_LOWEST_PRIO, GIC_MAX_INTERUPTS in *. lia.
Qed.

(** The search for a spilled interrupt comes back and finds, among the interrupts of the
    vcpu's and the VM's list whose state is one of the asked for, one that no other precedes in
    priority or, at equal priority, in number, and tells which list it is in; it finds none only
    if there is none. *)
Theorem vgic_highest_prio_spilled_least v flags s l1 l2 fuel :
  circular (links s) (vcpu_spilled lay v) l1 → circular (links s) (vm_spilled lay) l2 →
  Forall (λ q, spilled_int (ints s q)) (l1 ++ l2) → (length l1 < fuel)%nat → (length l2 < fuel)%nat →
  ∃ r, vgic_highest_prio_spilled lay v flags fuel s = Done (r, s) ∧
    match r with
    | Some (p, h) => (p ∈ l1 ∧ h = vcpu_spilled lay v ∨ p ∈ l2 ∧ h = vm_spilled lay) ∧ wanted s flags p ∧
        ∀ q, q ∈ l1 ++ l2 → wanted s flags q → rank (ints s p) ≤ rank (ints s q)
    | None => ∀ q, q ∈ l1 ++ l2 → ¬ wanted s flags q
    end.
Proof. apply highest_run. Qed.

(** ** Refilling the list registers *)

Lemma first_set_cases reg n :
  in_word 64 reg → 0 ≤ n ≤ GIC_NUM_LIST_REGS →
  first_set reg n = -1 ∨ 0 ≤ first_set reg n < n ∧ Z.testbit reg (first_set reg n) = true.
Proof.
  intros Hr Hn. unfold GIC_NUM_LIST_REGS in Hn. unfold first_set. set (m := λ k, _).
  destruct (bitmap_find_first m n 0 true ltac:(lia) ltac:(lia)) as [[-> _]|(Hb & Hbit & _)]; [by left|right].
  set (r := bitmap_find_nth m n 1 0 true) in *. assert (signed 64 r = r) as -> by (unfold signed; zcase).
  split; [done|]. unfold bit_at, BITMAP_GRANULE_LEN, m in Hbit. destruct (Z.eqb_spec (r / 32) 0) as [E|E].
  - rewrite testbit_wrap in Hbit by lia. apply andb_true_iff in Hbit as [_ Hbit].
    by rewrite (Z.mod_small r 32) in Hbit by dlia.
  - rewrite testbit_wrap, testbit_shiftr in Hbit by dlia. apply andb_true_iff in Hbit as [_ Hbit].
    by replace (r mod 32 + 32) with r in Hbit by dlia.
Qed.

(** The empty list registers, as read. *)
Definition elrsr (s : vgic) : Z :=
  if 32 <? NUM_LRS (cpu_gic s) then Z.lor (reg_val s (GICH_ELSR 0)) (u64 (Z.shiftl (reg_val s (GICH_ELSR 1)) 32))
  else reg_val s (GICH_ELSR 0).

Lemma reg_val_word s r : pure_reg r = true → in_word 32 (reg_val s r).
Proof. intros Hr. apply read_word, Hr. Qed.

Lemma gich_get_elrsr_run s : on_gic gich_get_elrsr s = Done (elrsr s, s).
Proof.
  unfold gich_get_elrsr, elrsr. rewrite on_gic_bind. erewrite prog_bind_done by (by apply on_gic_rd).
  rewrite on_gic_bind. erewrite prog_bind_done by apply on_gic_gets.
  destruct (32 <? NUM_LRS (cpu_gic s)); [|by destruct s].
  rewrite on_gic_bind. erewrite prog_bind_done by (by apply on_gic_rd). by destruct s.
Qed.

Lemma elrsr_word s : in_word 64 (elrsr s).
Proof.
  assert (∀ z, in_word 32 z → in_word 64 z) as Hw by (unfold in_word; intros; lia).
  unfold elrsr. destruct (32 <? _); [apply in_word_lor; [lia|apply Hw, reg_val_word; done|apply wrap_in_word; lia]|].
  by apply Hw, reg_val_word.
Qed.

Lemma elrsr_empty s b :
  0 ≤ b < NUM_LRS (cpu_gic s) → NUM_LRS (cpu_gic s) ≤ GIC_NUM_LIST_REGS → Z.testbit (elrsr s) b = true →
  GICH_LR_STATE (reg_val s (GICH_LR b)) = INV.
Proof.
  intros Hb Hn Ht. unfold GIC_NUM_LIST_REGS in Hn. apply elsr_empty; [lia|]. fold (reg_val s (GICH_ELSR (b / 32))).
  unfold elrsr in Ht. destruct (Z.ltb_spec 32 (NUM_LRS (cpu_gic s))).
  - rewrite Z.lor_spec, testbit_wrap, testbit_shiftl in Ht by lia. destruct (decide (b < 32)).
    + rewrite (Z.testbit_neg_r _ (b - 32)), andb_false_r, orb_false_r in Ht by lia.
      rewrite (Z.div_small b 32), (Z.mod_small b 32) by lia. exact Ht.
    + rewrite (tb_out 32 (reg_val s (GICH_ELSR 0))) in Ht; [|lia|by apply reg_val_word|by right; lia].
      cbn [orb] in Ht. apply andb_true_iff in Ht as [_ Ht].
      assert (b / 32 = 1) as -> by dlia. assert (b mod 32 = b - 32) as -> by dlia. exact Ht.
  - rewrite (Z.div_small b 32), (Z.mod_small b 32) by lia. exact Ht.
Qed.

(** What an eviction leaves of an interrupt. *)
Record keeps (i j : vgic_int) : Prop := {
  k_id : id j = id i;
  k_prio : prio j = prio i;
  k_state : state j = state i;
  k_u0 : u0 j = u0 i;
  k_u1 : u1 j = u1 i;
  k_lr : lr j = lr i;
  k_lock : lock_free (ilock i) → lock_free (ilock j);
  k_in : in_lr i = false → in_lr j = false;
  k_owner : owner j = owner i ∨ owner j = None
}.

Lemma keeps_refl i : keeps i i.
Proof. split; try done. by left. Qed.

Lemma evicted_keeps v k i : lock_free (ilock i) → keeps i (evicted v k i) ∧ (lr i ≠ k → in_lr (evicted v k i) = in_lr i).
Proof.
  intros Hl. assert (lock_free (spin_unlock (lock_taken (ilock i)))) as E by exact (lock_cycle_free (ilock i)).
  unfold evicted. set (j := i <| ilock := _ |>). destruct (vgic_owns v j && in_lr j && (lr j =? k)) eqn:Ec.
  2: { split; [|done]. split; unfold j; rsimpl; try done. by left. }
  apply andb_true_iff in Ec as [_ Ec]. apply Z.eqb_eq in Ec. split; [|done].
  unfold yielded. destruct (_ || _ || _); (split; unfold j; rsimpl; try done); [by left|by right].
Qed.

(** Spilled interrupts [l1] of the vcpu and [l2] of the VM, free for vcpu [v] to take, and the
    interrupts [moved] that are in registers. *)
Record refill_inv (v : Z) (s : vgic) (l1 l2 moved : list Z) : Prop := {
  ri_vcpu : circular (links s) (vcpu_spilled lay v) l1;
  ri_vm : circular (links s) (vm_spilled lay) l2;
  ri_sep : ∀ x, x ∈ vcpu_spilled lay v :: l1 → x ∉ vm_spilled lay :: l2;
  ri_int q : q ∈ l1 ++ l2 →
    spilled_int (ints s q) ∧ held (ints s q) ∧ (owner (ints s q) = None ∨ owner (ints s q) = Some v);
  ri_ok : ints_ok s v None;
  ri_addr q : q ∈ l1 ++ l2 → ∃ n, 0 ≤ n ∧ int_addr lay s v n = Some q;
  ri_moved q : q ∈ moved → in_lr (ints s q) = true ∧ GICH_LR_STATE (reg_val s (GICH_LR (lr (ints s q)))) ≠ INV
}.

(** The interrupt taken from a list and put in register [k]. *)
Definition got (v : Z) (i : vgic_int) : vgic_int := match owner i with None => i <| owner := Some v |> | Some _ => i end.

Lemma vgic_get_ownership_run v p s :
  owner (ints s p) = None ∨ owner (ints s p) = Some v →
  ∃ s', vgic_get_ownership v p s = Done (true, s') ∧ with_ints s (λ q, if q =? p then got v (ints s p) else ints s q) s'.
Proof.
  intros [Ho|Ho]; unfold vgic_get_ownership, geti, got; psteps; rewrite Ho.
  - unfold updi. psteps. eexists. split; [reflexivity|]. by apply with_ints_alter.
  - rewrite Z.eqb_refl. eexists. split; [reflexivity|]. apply with_ints_refl. intros q. by destruct (Z.eqb_spec q p) as [->|].
Qed.

Lemma refill_one_run v p k s :
  ints_ok s v None → in_lr (ints s p) = false → (∃ n, 0 ≤ n ∧ int_addr lay s v n = Some p) →
  owner (ints s p) = None ∨ owner (ints s p) = Some v → k < NUM_LRS (cpu_gic s) →
  held (ints s p) → eff (ints s p) ≠ INV → 0 ≤ k < 256 →
  ∃ s', refill_one lay v p k s = Done (true, s') ∧ links s' = list_del p (links s) ∧
    (NUM_LRS (cpu_gic s') = NUM_LRS (cpu_gic s) ∧ spilled_lock s' = spilled_lock s) ∧ (∀ n, int_addr lay s' v n = int_addr lay s v n) ∧
    (id (ints s' p) = id (ints s p) ∧ in_lr (ints s' p) = true ∧ lr (ints s' p) = k ∧ lock_free (ilock (ints s' p))) ∧
    GICH_LR_STATE (reg_val s' (GICH_LR k)) ≠ INV ∧ (∀ j, j ≠ k → reg_val s' (GICH_LR j) = reg_val s (GICH_LR j)) ∧
    (∀ q, q ≠ p → (ints s' q = ints s q ∨ keeps (ints s q) (ints s' q) ∧ (lr (ints s q) ≠ k → in_lr (ints s' q) = in_lr (ints s q)))).
Proof.
  intros Hok Hin (n & Hn0 & Hn) Ho Hk Hh Hne Hk8. pose proof (io_lock _ _ _ Hok n p Hn0 Hn ltac:(done)) as Hl. unfold refill_one.
  destruct (lock_int_run p s Hl) as (s1 & E1 & W1). erewrite prog_bind_done by exact E1. wval W1 p V1.
  destruct (vgic_get_ownership_run v p s1) as (s2 & E2 & W2); [by rewrite V1|]. erewrite prog_bind_done by exact E2. wval W2 p V2.
  cbv beta iota. psteps. pose proof (with_ints_trans _ _ _ _ _ W1 W2) as W. destruct W as (g & -> & Hg). clear E1 E2.
  set (s3 := s <| ints := g |> <| links ::= list_del p |>).
  assert (∀ q, ints s3 q = if q =? p then got v (ints s p <| ilock := lock_taken (ilock (ints s p)) |>) else ints s q) as V3.
  { intros q. unfold s3. rsimpl. rewrite Hg. rewrite V1. destruct (Z.eqb_spec q p) as [->|Hq]; [done|].
    wval W1 q Vq. rewrite Vq. by destruct (Z.eqb_spec q p). }
  clear V1 V2 W1 W2 Hg s1. pose proof (V3 p) as V3p. rewrite Z.eqb_refl in V3p.
  assert (∀ i, id (got v i) = id i ∧ in_lr (got v i) = in_lr i ∧ ilock (got v i) = ilock i ∧ eff (got v i) = eff i ∧ (held i → held (got v i))) as Hgot.
  { intros i. unfold got. destruct (owner i); [done|]. split_and!; try done. intros [[????] ??]. by split; [split|..]. }
  destruct (Hgot (ints s p <| ilock := lock_taken (ilock (ints s p)) |>)) as (G1 & G2 & G3 & G4 & G5). rewrite <-V3p in G1, G2, G3, G4, G5. rsimpl_in G1. rsimpl_in G2. rsimpl_in G3.
  clear Hgot V3p. assert (ints_ok s3 v (Some p)) as Hok3.
  { split.
    - intros m q Hm Hq. change (int_addr lay s3 v m) with (int_addr lay s v m) in Hq. destruct (decide (q = p)) as [->|Hqp].
      + rewrite G1. by apply (io_id _ _ _ Hok).
      + rewrite V3. destruct (Z.eqb_spec q p); [done|]. by apply (io_id _ _ _ Hok).
    - intros m q Hm Hq Hqp. change (int_addr lay s3 v m) with (int_addr lay s v m) in Hq.
      rewrite V3. destruct (Z.eqb_spec q p) as [->|]; [done|]. by apply (io_lock _ _ _ Hok m). }
  destruct (vgic_write_lr_run v p k s3 Hok3) as (f & E & Hf); [by rewrite G2|exact Hk|].
  erewrite prog_bind_done by exact E. unfold unlock_int, updi. psteps. eexists. split; [reflexivity|].
  specialize (G5 ltac:(by destruct Hh as [[????] ??]; split; [split|..])).
  change (eff (ints s p <| ilock := lock_taken (ilock (ints s p)) |>)) with (eff (ints s p)) in G4. rewrite <-G4 in Hne.
  destruct (lr_value_trip k (ints s3 p) G5 Hne) as (st & Hst & Hi & _). pose proof (Hf p) as Hfp.
  unfold after_write in Hfp. rewrite Z.eqb_refl in Hfp.
  set (s4 := wr_reg _ _ _). assert (∀ q, ints s4 q = f q) as V4 by (intros q; unfold s4, wr_reg; by rsimpl).
  assert ((NUM_LRS (cpu_gic s4) = NUM_LRS (cpu_gic s) ∧ spilled_lock s4 = spilled_lock s) ∧ links s4 = list_del p (links s)) as [V5 V6] by done.
  assert (∀ m, int_addr lay s4 v m = int_addr lay s v m) as V7 by done.
  assert (reg_val s4 (GICH_LR k) = (lr_value (ints s3 p) (eff (ints s3 p))).1) as V8
    by (apply reg_val_write; [apply (li_word _ _ _ Hi)|apply (li_res _ _ _ Hi)]).
  assert (∀ j, j ≠ k → reg_val s4 (GICH_LR j) = reg_val s (GICH_LR j)) as V9.
  { intros j Hj. unfold s4, reg_val, wr_reg. rsimpl. by apply lr_other. }
  clearbody s4. set (s5 := s4 <| ints ::= _ |>).
  assert (ints s5 p = ints s4 p <| ilock ::= spin_unlock |>) as V10 by (unfold s5; rsimpl; apply alter_eq).
  assert (∀ q, q ≠ p → ints s5 q = ints s4 q) as V11 by (intros q Hq; unfold s5; rsimpl; by apply alter_ne).
  split; [exact V6|]. split; [exact V5|]. split; [exact V7|]. split; [|split; [|split; [exact V9|]]].
  - rewrite V10, V4, Hfp. unfold wrote. rsimpl. rewrite G1, G3. split_and!; [done|done|apply wrap_small; lia|].
    exact (lock_cycle_free (ilock (ints s p))).
  - change (GICH_LR_STATE (reg_val s4 (GICH_LR k)) ≠ INV). by rewrite V8, (li_state _ _ _ Hi).
  - intros q Hq. rewrite (V11 q Hq), V4, Hf. unfold after_write. destruct (Z.eqb_spec q p); [done|].
    assert (ints s3 q = ints s q) as V3q by (rewrite V3; by destruct (Z.eqb_spec q p)).
    destruct (evicts s3 v p k) eqn:Eev; [|by left]. destruct (evicts_shared _ _ _ _ Eev) as [_ Hpos]. unfold after_evict. case_bool_decide as Hqe; [|by left]. rewrite V3q. right.
    apply evicted_keeps. apply (io_lock _ _ _ Hok _ q Hpos Hqe). done.
Qed.


Lemma keeps_listed v i j :
  keeps i j → spilled_int i ∧ held i ∧ (owner i = None ∨ owner i = Some v) →
  spilled_int j ∧ held j ∧ (owner j = None ∨ owner j = Some v).
Proof.
  intros [Kid Kpr Kst Ku0 Ku1 Klr Klk Kin Ko] ([So Sp Sid] & [[Hid Hp Ha Hpe] Hs Hsgi] & Ho). split_and!.
  - split; [by apply Kin|congruence|by rewrite Kid].
  - split; [split|..]; rewrite ?Kid, ?Kpr, ?Kst, ?Ku0, ?Ku1; done.
  - destruct Ko as [->| ->]; [done|by left].
Qed.

(** Taking [p] off the ring it is in. *)
Lemma unlink_rings m h1 h2 l1 l2 p :
  circular m h1 l1 → circular m h2 l2 → (∀ x, x ∈ h1 :: l1 → x ∉ h2 :: l2) → p ∈ l1 ++ l2 →
  ∃ l1' l2', circular (list_del p m) h1 l1' ∧ circular (list_del p m) h2 l2' ∧
    (∀ x, x ∈ h1 :: l1' → x ∉ h2 :: l2') ∧ (length (l1 ++ l2) = S (length (l1' ++ l2')))%nat ∧
    (length l1' ≤ length l1)%nat ∧ (length l2' ≤ length l2)%nat ∧
    (∀ q, q ∈ l1' ++ l2' → q ∈ l1 ++ l2 ∧ q ≠ p) ∧ (∀ q, q ∈ l1 ++ l2 → q = p ∨ q ∈ l1' ++ l2').
Proof.
  clear L lay. intros C1 C2 Hsep Hp. pose proof (NoDup_of_circular _ _ _ C1) as [N1 D1]. pose proof (NoDup_of_circular _ _ _ C2) as [N2 D2].
  apply elem_of_app in Hp as [Hp|Hp]; apply list_elem_of_split in Hp as (la & lb & E).
  - subst l1. destruct (list_del_ok _ _ _ _ _ C1) as [C1' O]. exists (la ++ lb), l2. rewrite NoDup_mid in D1.
    split_and!; [exact C1'| | |rewrite !length_app; simpl; lia|rewrite !length_app; simpl; lia|done| |].
    + eapply circular_frame; [exact C2|exact O|]. intros x Hx. specialize (Hsep x). set_solver.
    + intros x Hx. apply Hsep. set_solver.
    + intros q Hq. split; [set_solver|]. intros ->. apply elem_of_app in Hq as [Hq|Hq]; [set_solver|].
      apply (Hsep p); set_solver.
    + intros q. set_solver.
  - subst l2. destruct (list_del_ok _ _ _ _ _ C2) as [C2' O]. exists l1, (la ++ lb). rewrite NoDup_mid in D2.
    split_and!; [|exact C2'| |rewrite !length_app; simpl; lia|done|rewrite !length_app; simpl; lia| |].
    + eapply circular_frame; [exact C1|exact O|]. intros x Hx. specialize (Hsep x Hx). set_solver.
    + intros x Hx. specialize (Hsep x Hx). set_solver.
    + intros q Hq. split; [set_solver|]. intros ->. apply elem_of_app in Hq as [Hq|Hq]; [|set_solver].
      apply (Hsep p); set_solver.
    + intros q. set_solver.
Qed.

Lemma refill_round v s l1 l2 moved p k :
  refill_inv v s l1 l2 moved → p ∈ l1 ++ l2 → eff (ints s p) ≠ INV →
  0 ≤ k < NUM_LRS (cpu_gic s) → NUM_LRS (cpu_gic s) ≤ GIC_NUM_LIST_REGS → GICH_LR_STATE (reg_val s (GICH_LR k)) = INV →
  ∃ s' l1' l2', refill_one lay v p k s = Done (true, s') ∧ refill_inv v s' l1' l2' (p :: moved) ∧
    (NUM_LRS (cpu_gic s') = NUM_LRS (cpu_gic s) ∧ spilled_lock s' = spilled_lock s) ∧ (length (l1 ++ l2) = S (length (l1' ++ l2')))%nat ∧
    (length l1' ≤ length l1)%nat ∧ (length l2' ≤ length l2)%nat ∧ (∀ q, q ∈ l1 ++ l2 → q = p ∨ q ∈ l1' ++ l2').
Proof.
  intros [C1 C2 Hsep Hint Hok Haddr Hmv] Hp Hne Hk Hn Hinv. destruct (Hint p Hp) as (Sp & Hh & Ho). unfold GIC_NUM_LIST_REGS in Hn.
  destruct (refill_one_run v p k s Hok (sp_out _ Sp) (Haddr p Hp) Ho) as (s' & E & El & En & Ea & (Pi & Pin & Plr & Plk) & Pst & Preg & Pq); [lia|done|done|lia|].
  destruct (unlink_rings _ _ _ _ _ _ C1 C2 Hsep Hp) as (l1' & l2' & C1' & C2' & Hsep' & Hlen & Hle1 & Hle2 & Hsub & Hsup).
  exists s', l1', l2'. split; [exact E|]. split; [|done].
  assert (∀ q, q ≠ p → lock_free (ilock (ints s q)) → lock_free (ilock (ints s' q)) ∧ id (ints s' q) = id (ints s q)) as Hlk.
  { intros q Hq Hl. destruct (Pq q Hq) as [->|[K _]]; [done|]. split; [by apply (k_lock _ _ K)|apply (k_id _ _ K)]. }
  split; rewrite ?El; try done.
  - intros q Hq. destruct (Hsub q Hq) as [Hq' Hqp]. destruct (Pq q Hqp) as [->|[K _]]; [by apply Hint|].
    eapply keeps_listed; [exact K|by apply Hint].
  - split; intros n q Hn0; rewrite Ea; intros Hq.
    + destruct (decide (q = p)) as [->|Hqp]; [rewrite Pi; by apply (io_id _ _ _ Hok)|].
      rewrite (proj2 (Hlk q Hqp ltac:(by apply (io_lock _ _ _ Hok n)))). by apply (io_id _ _ _ Hok).
    + intros _. destruct (decide (q = p)) as [->|Hqp]; [done|]. apply Hlk; [done|]. by apply (io_lock _ _ _ Hok n).
  - intros q Hq. destruct (Hsub q Hq) as [Hq' _]. destruct (Haddr q Hq') as (n & Hn0 & Hn'). exists n. by rewrite Ea.
  - intros q [->|Hq]%elem_of_cons; [by rewrite Plr|]. destruct (Hmv q Hq) as [Hi Hs].
    assert (lr (ints s q) ≠ k) as Hlrq by congruence. assert (q ≠ p) as Hqp by (intros ->; rewrite (sp_out _ Sp) in Hi; done).
    destruct (Pq q Hqp) as [->|[K Kin]]; [by rewrite Preg|]. rewrite Kin, (k_lr _ _ K), Preg by done. done.
Qed.

Lemma refill_inv_hcr v s l1 l2 moved w : refill_inv v s l1 l2 moved → refill_inv v (wr_reg GICH_HCR w s) l1 l2 moved.
Proof.
  intros [C1 C2 Hsep Hint [Hid Hlk] Haddr Hmv]. split; try done. intros q Hq. rewrite reg_val_hcr. by apply Hmv.
Qed.

Lemma refill_inv_lock v s l1 l2 moved k : refill_inv v s l1 l2 moved → refill_inv v (s <| spilled_lock := k |>) l1 l2 moved.
Proof. intros [C1 C2 Hsep Hint [Hid Hlk] Haddr Hmv]. by split. Qed.

(** No register is free, or no spilled interrupt asked for is left. *)
Definition refilled (flags : Z) (s : vgic) (l1 l2 : list Z) : Prop :=
  first_set (elrsr s) (NUM_LRS (cpu_gic s)) = -1 ∨
  ∃ flags', (flags' = flags ∨ flags' = Z.lor ACT PEND) ∧ ∀ q, q ∈ l1 ++ l2 → ¬ wanted s flags' q.

Lemma refill_loop_run v len fuel flags s l1 l2 moved :
  refill_inv v s l1 l2 moved → 0 ≤ NUM_LRS (cpu_gic s) ≤ GIC_NUM_LIST_REGS →
  (length l1 < len)%nat → (length l2 < len)%nat → (length (l1 ++ l2) < fuel)%nat →
  ∃ s' l1' l2' moved',
    refill_loop lay v flags (first_set (elrsr s) (NUM_LRS (cpu_gic s))) len fuel s = Done (tt, s') ∧
    refill_inv v s' l1' l2' moved' ∧ (∀ q, q ∈ moved → q ∈ moved') ∧
    (∀ q, q ∈ l1 ++ l2 → q ∈ l1' ++ l2' ∨ q ∈ moved') ∧ refilled flags s' l1' l2' ∧ spilled_lock s' = spilled_lock s.
Proof.
  revert flags s l1 l2 moved. induction fuel as [|fuel IH]; intros flags s l1 l2 moved Hinv Hn L1 L2 Hf; [lia|].
  cbn [refill_loop]. pose proof (first_set_cases (elrsr s) (NUM_LRS (cpu_gic s)) (elrsr_word s) Hn) as Hc.
  unfold refilled at 1. remember (first_set (elrsr s) (NUM_LRS (cpu_gic s))) as k eqn:Ek'. destruct Hc as [Ek|[Hk Hbit]].
  { rewrite Ek. cbn [Z.leb Z.compare]. exists s, l1, l2, moved. split_and!; [done|done|done|by left|left; congruence|done]. }
  destruct (Z.leb_spec 0 k); [|lia]. pose proof (elrsr_empty s k Hk (proj2 Hn) Hbit) as Hst.
  destruct (highest_run v flags s l1 l2 len (ri_vcpu _ _ _ _ _ Hinv) (ri_vm _ _ _ _ _ Hinv)) as (r & E & Hr); [|done|done|].
  { apply Forall_forall. intros q Hq. by apply (ri_int _ _ _ _ _ Hinv). }
  erewrite prog_bind_done by exact E. destruct r as [[p h]|].
  - destruct Hr as (Hp & Hw & _). assert (p ∈ l1 ++ l2) as Hp' by (apply elem_of_app; destruct Hp as [[? _]|[? _]]; auto).
    assert (eff (ints s p) ≠ INV) as Hne by (intros Hz; apply Hw; by rewrite Hz).
    destruct (refill_round v s l1 l2 moved p k Hinv Hp' Hne Hk (proj2 Hn) Hst) as (s1 & m1 & m2 & E1 & Hinv1 & [En Es] & Hlen & Le1 & Le2 & Hsup).
    erewrite prog_bind_done by exact E1. cbn [negb]. erewrite prog_bind_done by apply gich_get_elrsr_run.
    unfold num_lrs. psteps.
    destruct (IH (Z.lor ACT PEND) s1 m1 m2 (p :: moved) Hinv1) as (s2 & n1 & n2 & mv & E2 & Hinv2 & Hmv & Hall & Hend & Hsp); [by rewrite En|lia..|].
    exists s2, n1, n2, mv. split; [exact E2|]. split; [exact Hinv2|]. split_and!.
    + intros q Hq. apply Hmv. by apply list_elem_of_further.
    + intros q Hq. destruct (Hsup q Hq) as [->|Hq']; [right; apply Hmv, list_elem_of_here|by apply Hall].
    + destruct Hend as [Hend|(fl & [->| ->] & Hend)]; [by left|right; exists (Z.lor ACT PEND); auto..].
    + by rewrite Hsp.
  - unfold gich_get_hcr, gich_set_hcr. erewrite prog_bind_done by (apply on_gic_rd; reflexivity). rewrite on_gic_wr.
    eexists _, l1, l2, moved. split; [reflexivity|]. split; [by apply refill_inv_hcr|]. split_and!; [done|by left| |done].
    right. exists flags. split; [by left|exact Hr].
Qed.

(** C9: refilling the list registers comes back: each round moves one spilled interrupt into a
    register the hardware shows empty, so the number of spilled interrupts bounds the rounds.
    In the end no register is free or no spilled interrupt of the states asked for is left, and
    none was lost: each is still in its list or marked as being in a register that holds a valid
    interrupt. *)
Theorem vgic_refill_lrs_ends v (npie : bool) s l1 l2 len fuel :
  refill_inv v s l1 l2 [] → lock_free (spilled_lock s) → 0 ≤ NUM_LRS (cpu_gic s) ≤ GIC_NUM_LIST_REGS →
  (length l1 < len)%nat → (length l2 < len)%nat → (length (l1 ++ l2) < fuel)%nat →
  ∃ s' l1' l2' moved,
    vgic_refill_lrs lay v npie len fuel s = Done (tt, s') ∧ refill_inv v s' l1' l2' moved ∧
    (∀ q, q ∈ l1 ++ l2 → q ∈ l1' ++ l2' ∨ q ∈ moved) ∧ refilled (if npie then PEND else Z.lor ACT PEND) s' l1' l2' ∧
    lock_free (spilled_lock s').
Proof.
  intros Hinv Hl Hn L1 L2 Hf. unfold vgic_refill_lrs. erewrite prog_bind_done by apply gich_get_elrsr_run.
  unfold num_lrs, lock_spilled, unlock_spilled. psteps. rewrite bind_acquire by done.
  set (s1 := s <| spilled_lock := _ |>). set (flags := if npie then _ else _).
  destruct (refill_loop_run v len fuel flags s1 l1 l2 []) as (s2 & m1 & m2 & mv & E & Hinv2 & _ & Hall & Hend & Hsp); [by apply refill_inv_lock|done..|].
  change (elrsr s1) with (elrsr s) in E. change (NUM_LRS (cpu_gic s1)) with (NUM_LRS (cpu_gic s)) in E.
  erewrite prog_bind_done by exact E. unfold release. rewrite run_modify. eexists _, m1, m2, mv. split; [reflexivity|].
  split; [by apply (refill_inv_lock _ _ _ _ _ (spin_unlock (spilled_lock s2)))|]. split; [exact Hall|]. split; [exact Hend|].
  rsimpl. rewrite Hsp. exact (lock_cycle_free (spilled_lock s)).
Qed.

(** ** An interrupt that cannot be owned *)

Lemma refill_one_denied v p k s o :
  lock_free (ilock (ints s p)) → owner (ints s p) = Some o → o ≠ v →
  ∃ s', refill_one lay v p k s = Done (false, s') ∧
    with_ints s (λ q, if q =? p then ints s p <| ilock := lock_cycle (ilock (ints s p)) |> else ints s q) s'.
Proof.
  intros Hl Ho Hne. unfold refill_one. destruct (lock_int_run p s Hl) as (s1 & E1 & W1). erewrite prog_bind_done by exact E1.
  wval W1 p V1. assert (vgic_get_ownership v p s1 = Done (false, s1)) as E2.
  { unfold vgic_get_ownership, geti. psteps. rewrite V1. rsimpl. rewrite Ho. by destruct (Z.eqb_spec o v). }
  erewrite prog_bind_done by exact E2. cbv beta iota. psteps. unfold unlock_int, updi. psteps.
  eexists. split; [reflexivity|]. eapply with_ints_trans; [exact W1|]. apply with_ints_alter. intros q. rewrite V1.
  wval W1 q Vq. rewrite Vq. by destruct (Z.eqb_spec q p).
Qed.

Lemma refill_loop_stuck v len fuel flags s l1 l2 k :
  circular (links s) (vcpu_spilled lay v) l1 → circular (links s) (vm_spilled lay) l2 →
  (∀ q, q ∈ l1 ++ l2 → spilled_int (ints s q) ∧ lock_free (ilock (ints s q))) →
  (∀ q, q ∈ l1 ++ l2 → wanted s flags q → ∃ o, owner (ints s q) = Some o ∧ o ≠ v) →
  (∃ q, q ∈ l1 ++ l2 ∧ wanted s flags q) → (length l1 < len)%nat → (length l2 < len)%nat → 0 ≤ k →
  refill_loop lay v flags k len fuel s = Halt FSpin.
Proof.
  intros C1 C2 Hl Ho Hw L1 L2 Hk. revert s C1 C2 Hl Ho Hw. induction fuel as [|fuel IH]; intros s C1 C2 Hl Ho Hw; [done|].
  cbn [refill_loop]. destruct (Z.leb_spec 0 k); [|lia].
  destruct (highest_run v flags s l1 l2 len C1 C2) as (r & E & Hr); [|done|done|].
  { apply Forall_forall. intros q Hq. by apply Hl. }
  erewrite prog_bind_done by exact E. destruct r as [[p h]|]; [|destruct Hw as (q & Hq & Hw); by destruct (Hr q Hq)].
  destruct Hr as (Hp & Hwp & _). assert (p ∈ l1 ++ l2) as Hp' by (apply elem_of_app; destruct Hp as [[? _]|[? _]]; auto).
  destruct (Ho p Hp' Hwp) as (o & Eo & Hne), (Hl p Hp') as [_ Hlp].
  destruct (refill_one_denied v p k s o Hlp Eo Hne) as (s1 & E1 & W). erewrite prog_bind_done by exact E1. cbn [negb].
  assert (∀ q, ∃ x, lock_free (ilock (ints s q)) → ints s1 q = ints s q <| ilock := x |> ∧ lock_free x) as Hq.
  { intros q0. wval W q0 Vq. destruct (Z.eqb_spec q0 p) as [E0|E0]; [subst q0; exists (lock_cycle (ilock (ints s p)))|exists (ilock (ints s q0))]; intros Hlq; rewrite Vq.
    - split; [reflexivity|apply lock_cycle_free].
    - split; [by destruct (ints s q0)|exact Hlq]. }
  assert (links s1 = links s) as El by (by destruct W as (g & -> & _)).
  assert (∀ q, q ∈ l1 ++ l2 → ∃ x, ints s1 q = ints s q <| ilock := x |> ∧ lock_free x) as Hq'.
  { intros q Hin. destruct (Hq q) as [x Hx]. exists x. apply Hx, Hl, Hin. }
  apply IH; rewrite ?El; try done.
  - intros q Hin. destruct (Hq' q Hin) as (x & -> & Hx). split; [|done]. destruct (proj1 (Hl q Hin)). by split.
  - intros q Hin Hwq. destruct (Hq' q Hin) as (x & Ex & Hx). unfold wanted in Hwq. rewrite Ex in Hwq |- *. by apply (Ho q).
  - destruct Hw as (q & Hin & Hwq). exists q. split; [done|]. destruct (Hq' q Hin) as (x & Ex & Hx). unfold wanted. by rewrite Ex.
Qed.

(** With a list register free and every spilled interrupt of the asked states owned by another
    vcpu, as an active shared interrupt that was spilled there is, [vgic_refill_lrs] never comes
    back: it finds the same interrupt again and again, and holds the VM's spilled lock. *)
Theorem vgic_refill_lrs_spins v (npie : bool) s l1 l2 len fuel :
  let flags := if npie then PEND else Z.lor ACT PEND in
  circular (links s) (vcpu_spilled lay v) l1 → circular (links s) (vm_spilled lay) l2 →
  (∀ q, q ∈ l1 ++ l2 → spilled_int (ints s q) ∧ lock_free (ilock (ints s q))) →
  (∀ q, q ∈ l1 ++ l2 → wanted s flags q → ∃ o, owner (ints s q) = Some o ∧ o ≠ v) →
  (∃ q, q ∈ l1 ++ l2 ∧ wanted s flags q) → (length l1 < len)%nat → (length l2 < len)%nat →
  lock_free (spilled_lock s) → 0 ≤ first_set (elrsr s) (NUM_LRS (cpu_gic s)) →
  vgic_refill_lrs lay v npie len fuel s = Halt FSpin.
Proof.
  intros flags C1 C2 Hl Ho Hw L1 L2 Hlk Hk. unfold vgic_refill_lrs. erewrite prog_bind_done by apply gich_get_elrsr_run.
  unfold num_lrs, lock_spilled. psteps. rewrite bind_acquire by done. fold flags.
  unfold mbind, prog_bind. erewrite refill_loop_stuck; [reflexivity|exact C1|exact C2|exact Hl|exact Ho|exact Hw|done..].
Qed.

End lr.

(** ** Examples *)

(** A pending shared interrupt of vcpu [o]; all others as in [sample_vgic]. *)
Definition sample_pending (st o : Z) : @vgic RegisterFile :=
  sample_vgic <| ints ::= alter (λ i, i <| state := st |> <| owner := Some o |>) 0x40000 |>.

Lemma sample_pending_at st o q :
  ints (sample_pending st o) q = if q =? 0x40000 then sample_int q <| state := st |> <| owner := Some o |> else sample_int q.
Proof.
  change (ints (sample_pending st o)) with (alter (λ i, i <| state := st |> <| owner := Some o |>) 0x40000 sample_int).
  destruct (Z.eqb_spec q 0x40000) as [->|]; [by rewrite alter_eq|by rewrite alter_ne].
Qed.

Lemma sample_ids v n q : 0 ≤ v < 16 → 0 ≤ n → int_addr sample_layout sample_vgic v n = Some q → id (sample_int q) = n.
Proof.
  unfold int_addr, sample_int, sizeof_vgic_int, GIC_CPU_PRIV, GIC_MAX_SGIS, GIC_MAX_PPIS. cbn [id int_num interrupts sample_vgic priv_interrupts sample_layout].
  intros Hv Hn. destruct (Z.ltb_spec n (16 + 16)).
  - intros [= <-]. zcase; dlia.
  - destruct (Z.ltb_spec n 64); [|done]. intros [= <-]. zcase; dlia.
Qed.

Lemma sample_ints_ok st o x : ints_ok sample_layout (sample_pending st o) 0 x.
Proof.
  split; intros n q Hn Hq; change (int_addr sample_layout (sample_pending st o) 0 n) with (int_addr sample_layout sample_vgic 0 n) in Hq;
    rewrite sample_pending_at.
  - apply sample_ids in Hq; [|done|done]. by destruct (q =? 0x40000).
  - intros _. by destruct (q =? 0x40000).
Qed.

Lemma sample_rings :
  circular (links sample_vgic) (vcpu_spilled sample_layout 0) [] ∧ circular (links sample_vgic) (vm_spilled sample_layout) [0x40000].
Proof. split; (split; [vm_compute; repeat split|apply NoDup_ListNoDup; repeat constructor; simpl; lia]). Qed.

Lemma sample_held st o : in_word 2 st → held (sample_int 0x40000 <| state := st |> <| owner := Some o |>).
Proof. intros Hs. split; [split|exact Hs|]; vm_compute; try split; try discriminate; done. Qed.


Lemma sample_spilled st o : spilled_int (ints (sample_pending st o) 0x40000).
Proof. rewrite sample_pending_at. split; vm_compute; try split; done. Qed.

Lemma sample_in q : q ∈ [] ++ [0x40000] → q = 0x40000.
Proof. intros Hq. by apply list_elem_of_singleton in Hq. Qed.

Lemma vgic_highest_prio_spilled_least_witness :
  vgic_highest_prio_spilled sample_layout 0 PEND 2 (sample_pending PEND 0) = Done (Some (0x40000, 0x30000), sample_pending PEND 0).
Proof.
  destruct sample_rings as [C1 C2].
  destruct (@vgic_highest_prio_spilled_least RegisterFile RegisterFile_laws sample_layout 0 PEND (sample_pending PEND 0) [] [0x40000] 2)
    as (r & E & Hr); [exact C1|exact C2|apply Forall_singleton, sample_spilled|simpl; lia|simpl; lia|].
  destruct r as [[p h]|].
  - destruct Hr as ([[Hp _]|[Hp Hh]] & _); [by apply elem_of_nil in Hp|]. apply list_elem_of_singleton in Hp. subst p h. exact E.
  - exfalso. apply (Hr 0x40000); [apply list_elem_of_here|]. unfold wanted. rewrite sample_pending_at. vm_compute. discriminate.
Defined.

Lemma sample_refill_inv : refill_inv sample_layout 0 (sample_pending PEND 0) [] [0x40000] [].
Proof.
  destruct sample_rings as [C1 C2]. split; [exact C1|exact C2| | |apply sample_ints_ok| |].
  - intros q Hq. apply list_elem_of_singleton in Hq as ->. intros [Hq|Hq%list_elem_of_singleton]%elem_of_cons; vm_compute in Hq; discriminate.
  - intros q ->%sample_in. split; [apply sample_spilled|]. rewrite sample_pending_at. split; [by apply sample_held|by right].
  - intros q ->%sample_in. exists 32. split; [lia|reflexivity].
  - intros q Hq. by apply elem_of_nil in Hq.
Qed.

Lemma vgic_refill_lrs_ends_witness :
  ∃ s', vgic_refill_lrs sample_layout 0 true 2 2 (sample_pending PEND 0) = Done (tt, s').
Proof.
  destruct (@vgic_refill_lrs_ends RegisterFile RegisterFile_laws sample_layout 0 true (sample_pending PEND 0) [] [0x40000] 2 2)
    as (s' & _ & _ & _ & E & _); [apply sample_refill_inv| | |simpl; lia..|].
  - split; [reflexivity|]. vm_compute. split; [discriminate|reflexivity].
  - vm_compute. split; discriminate.
  - exists s'. exact E.
Defined.

(** An active interrupt that vcpu 1 owns. *)
Lemma vgic_refill_lrs_spins_witness :
  vgic_refill_lrs sample_layout 0 false 2 1000 (sample_pending ACT 1) = Halt FSpin.
Proof.
  destruct sample_rings as [C1 C2].
  apply (@vgic_refill_lrs_spins RegisterFile RegisterFile_laws sample_layout 0 false (sample_pending ACT 1) [] [0x40000] 2 1000).
  - exact C1.
  - exact C2.
  - intros q ->%sample_in. split; [apply sample_spilled|]. rewrite sample_pending_at. split; [reflexivity|]. vm_compute. split; [discriminate|reflexivity].
  - intros q ->%sample_in _. exists 1. rewrite sample_pending_at. split; [reflexivity|lia].
  - exists 0x40000. split; [apply list_elem_of_here|]. unfold wanted. rewrite sample_pending_at. vm_compute. discriminate.
  - simpl. lia.
  - simpl. lia.
  - split; [reflexivity|]. vm_compute. split; [discriminate|reflexivity].
  - vm_compute. discriminate.
Defined.
