(* ===== verification/VgicInject.v ===== *)
(** * Virtual interrupts: injecting a hardware interrupt

    [vgic_inject_hw] puts the interrupt in an empty list register, or in that of an interrupt of
    lower priority, which it spills, or in a spilled list: no interrupt is lost. *)
From S2P Require Import Prelude Util Bits Bitmap Spinlock ListHead Emul Cpu Ipi Vcpu Gic Vgic VgicLr.

(** ** The search for a victim *)

Lemma lr_bit_state w b :
  28 ≤ b < 30 → Z.testbit w b = true → GICH_LR_STATE w ≠ INV.
Proof.
  intros Hb Ht He. assert (Z.testbit (GICH_LR_STATE w) (b - 28) = true) as H.
  { unfold GICH_LR_STATE, GICH_LR_STATE_OFF, GICH_LR_STATE_LEN. rewrite testbit_bit_extract by lia.
    replace (b - 28 + 28) with b by lia. rewrite Ht. by destruct (Z.ltb_spec (b - 28) 2); [|lia]. }
  rewrite He, Z.testbit_0_l in H. done.
Qed.

(** The test of one bit of the state, as the code writes it. *)
Lemma lr_state_bit w b m :
  28 ≤ b < 30 → m = Z.shiftl 1 b → negb (Z.land (u32 (Z.land w GICH_LR_STATE_MSK)) m =? 0) = true → Z.testbit w b = true.
Proof.
  intros Hb -> H. destruct (Z.testbit w b) eqn:E; [done|]. exfalso.
  apply negb_true_iff, Z.eqb_neq in H. apply H. rewrite Z.shiftl_1_l. rewrite Z.land_comm.
  apply Z.eqb_eq. rewrite land_single_zero, testbit_wrap, Z.land_spec, E by lia. by rewrite andb_false_r.
Qed.

Definition lr_prio (w : Z) : Z := Z.shiftl (Z.shiftr (Z.land w GICH_LR_PRIO_MSK) GICH_LR_PRIO_OFF) 3.

(** Interrupt [n] of priority [pr] goes before what register value [w] holds. *)
Definition before (pr n w : Z) : Prop := pr < lr_prio w ∨ pr = lr_prio w ∧ n < u32 (GICH_LR_VID w).

Section inject.
Context {D : GicDevice} {L : GicLaws}.
Variable lay : layout.
#[local] Set Default Proof Using "All".

Implicit Types s : vgic.

Ltac wval W q H := pose proof (with_ints_val lay _ _ _ q W) as H; cbv beta in H; rewrite ?Z.eqb_refl in H.

(** What the search keeps: nothing found, or a register with a valid interrupt that the new one
    goes before. *)
Definition victim_ok (s : vgic) (pr n : Z) (w : victim) : Prop :=
  (pr < v_prio w ∨ pr = v_prio w ∧ n ≤ v_id w) ∧
  ∀ k, v_ind w = Some k → 0 ≤ k < NUM_LRS (cpu_gic s) ∧ GICH_LR_STATE (reg_val s (GICH_LR k)) ≠ INV ∧
    before pr n (reg_val s (GICH_LR k)).

Lemma consider_ok s pr n k w :
  victim_ok s pr n w → 0 ≤ k < NUM_LRS (cpu_gic s) → GICH_LR_STATE (reg_val s (GICH_LR k)) ≠ INV →
  victim_ok s pr n (consider (lr_prio (reg_val s (GICH_LR k))) (u32 (GICH_LR_VID (reg_val s (GICH_LR k)))) k w).
Proof.
  intros [Hr Hi] Hk Hst. unfold consider, worse. set (lp := lr_prio _). set (li := u32 _).
  destruct (_ || _) eqn:Ew; [|by split].
  assert (pr < lp ∨ pr = lp ∧ n < li) as Hb.
  { apply orb_true_iff in Ew as [Ew|[E1 E2]%andb_true_iff]; [apply Z.ltb_lt in Ew; lia|].
    apply Z.eqb_eq in E1. apply Z.ltb_lt in E2. lia. }
  split; cbn [v_prio v_id v_ind]; [lia|]. intros k' [= <-]. split; [exact Hk|]. split; [exact Hst|exact Hb].
Qed.

Lemma find_victims_run pr n s m : ∀ act pend i,
  victim_ok s pr n act → victim_ok s pr n pend → 0 ≤ i → i + Z.of_nat m ≤ NUM_LRS (cpu_gic s) →
  ∃ a b, find_victims act pend i m s = Done ((a, b), s) ∧ victim_ok s pr n a ∧ victim_ok s pr n b.
Proof.
  induction m as [|m IH]; intros act pend i Ha Hp Hi Hm; cbn [find_victims]; [by exists act, pend|].
  rewrite (prog_bind_done _ _ _ _ _ (gich_read_lr_run lay i s ltac:(lia))).
  set (w := reg_val s (GICH_LR i)). destruct (negb (Z.land _ GICH_LR_STATE_ACT =? 0)) eqn:Ea.
  { apply IH; try done; [|lia|lia]. apply consider_ok; [done|lia|].
    apply (lr_bit_state w 29); [lia|]. apply (lr_state_bit w 29 _ ltac:(lia) eq_refl Ea). }
  destruct (negb (Z.land _ GICH_LR_STATE_PND =? 0)) eqn:Ep.
  { apply IH; try done; [|lia|lia]. apply consider_ok; [done|lia|].
    apply (lr_bit_state w 28); [lia|]. apply (lr_state_bit w 28 _ ltac:(lia) eq_refl Ep). }
  apply IH; try done; lia.
Qed.

Lemma free_lr_some e m : ∀ i k, free_lr e i m = Some k → 0 ≤ i → i + Z.of_nat m ≤ 64 → i ≤ k < i + Z.of_nat m ∧ Z.testbit e k = true.
Proof.
  clear L lay. induction m as [|m IH]; intros i k; cbn [free_lr]; [done|]. intros Hf Hi Hm.
  rewrite bit_get_spec, negb_involutive in Hf by lia. destruct (Z.testbit e i) eqn:E; [injection Hf as <-; split; [lia|done]|].
  destruct (IH (i + 1) k Hf) as [? ?]; [lia|lia|]. split; [lia|done].
Qed.

(** ** Where an interrupt is *)

(** Interrupt [n], whose structure is at [q], is in register [k] in state [st]. *)
Record in_register (s : vgic) (v k q n st : Z) : Prop := {
  ir_addr : int_addr lay s v n = Some q;
  ir_num : 0 ≤ n;
  ir_owner : owner (ints s q) = Some v;
  ir_in : in_lr (ints s q) = true;
  ir_lr : lr (ints s q) = k;
  ir_image : lr_image (reg_val s (GICH_LR k)) n st;
  ir_valid : st ≠ INV
}.

(** The head of the list an interrupt is spilled to. *)
Definition spilled_head (v n : Z) : Z := if gic_is_priv n then vcpu_spilled lay v else vm_spilled lay.

(** The state the proofs work in: every register with a valid interrupt has its structure. *)
Record inject_inv (v : Z) (s : vgic) : Prop := {
  ii_ok : ints_ok lay s v None;
  ii_nlr : 0 ≤ NUM_LRS (cpu_gic s) ≤ GIC_NUM_LIST_REGS;
  ii_cpu : p_id (vcpu_tbl s v) = this_cpu (cpu_gic s);
  ii_lock : lock_free (spilled_lock s);
  ii_regs k : 0 ≤ k < NUM_LRS (cpu_gic s) → GICH_LR_STATE (reg_val s (GICH_LR k)) ≠ INV →
    ∃ q n st, in_register s v k q n st ∧ id (ints s q) = n
}.

(** The interrupt at [p] waits in register [k] to be taken. *)
Definition waits_in (s : vgic) (k p : Z) : Prop :=
  in_lr (ints s p) = true ∧ lr (ints s p) = k ∧ lr_image (reg_val s (GICH_LR k)) (id (ints s p)) PEND.

(** It was put at the end of the list [h]. *)
Definition spilled_to (s s' : vgic) (h p : Z) : Prop := in_lr (ints s' p) = false ∧ links s' = list_add_tail p h (links s).

(** The interrupts in registers other than [k] stay there. *)
Definition others_stay (v k p : Z) (s s' : vgic) : Prop :=
  ∀ j r n st, j ≠ k → r ≠ p → in_register s v j r n st → in_register s' v j r n st.

(** Where the interrupt at [p], to be taken, goes: to an empty register; to the register of an
    interrupt that it goes before, which is spilled with its state; or to a spilled list. *)
Inductive placed (v p : Z) (s s' : vgic) : Prop :=
| placed_empty k :
    0 ≤ k < NUM_LRS (cpu_gic s) → GICH_LR_STATE (reg_val s (GICH_LR k)) = INV →
    waits_in s' k p → links s' = links s → others_stay v k p s s' → placed v p s s'
| placed_spilling k q n st :
    in_register s v k q n st → before (prio (ints s p)) (u32 (id (ints s p))) (reg_val s (GICH_LR k)) →
    waits_in s' k p → spilled_to s s' (spilled_head v n) q → state (ints s' q) = st → others_stay v k p s s' → placed v p s s'
| placed_spilled :
    spilled_to s s' (spilled_head v (id (ints s p))) p → state (ints s' p) = PEND → others_stay v (-1) p s s' → placed v p s s'.

(** ** Steps *)

Lemma vgic_add_spilled_run v p s :
  lock_free (spilled_lock s) →
  ∃ h, vgic_add_spilled lay v p s = Done (tt, wr_reg GICH_HCR h (s <| links ::= list_add_tail p (spilled_head v (id (ints s p))) |>
    <| spilled_lock := lock_cycle (spilled_lock s) |>)).
Proof.
  intros Hl. unfold vgic_add_spilled, lock_spilled, unlock_spilled, geti. rewrite bind_acquire by done. psteps.
  unfold release. psteps. unfold gich_get_hcr, gich_set_hcr. erewrite prog_bind_done by (apply (on_gic_rd lay); reflexivity).
  rewrite (on_gic_wr lay). eexists. reflexivity.
Qed.

(** [vgic_spill_lr] on a register with an interrupt. *)
Lemma vgic_spill_lr_run v k q n st s :
  in_register s v k q n st → id (ints s q) = n → lock_free (ilock (ints s q)) → lock_free (spilled_lock s) →
  p_id (vcpu_tbl s v) = this_cpu (cpu_gic s) → k < NUM_LRS (cpu_gic s) →
  ∃ h h2 g, vgic_spill_lr lay v k s = Done (tt, wr_reg GICH_HCR h2 (wr_reg GICH_HCR h (wr_reg (GICH_LR k) 0 s))
      <| ints := g |> <| links ::= list_add_tail q (spilled_head v n) |> <| spilled_lock := lock_cycle (spilled_lock s) |>) ∧
    (∀ r, r ≠ q → g r = ints s r) ∧
    g q = yielded v (removed (reg_val s (GICH_LR k)) (ints s q <| ilock := lock_taken (ilock (ints s q)) |>)) <| ilock ::= spin_unlock |>.
Proof.
  intros [Ha Hn Ho Hin Hk Hi Hst] Hid Hl Hsl Hcpu Hlt. unfold vgic_spill_lr.
  erewrite prog_bind_done by (by apply (gich_read_lr_run lay)). rewrite (li_vid _ _ _ Hi). psteps.
  erewrite prog_bind_done by apply vgic_get_int_own. rewrite Ha.
  destruct (lock_int_run lay q s Hl) as (s1 & E1 & W1). erewrite prog_bind_done by exact E1. wval W1 q V1.
  destruct W1 as (g1 & -> & Hg1). set (s1 := s <| ints := g1 |>) in *.
  destruct (vgic_remove_lr_state lay v q s1 k (reg_val s (GICH_LR k)) st) as (h & s2 & E2 & W2);
    [by rewrite V1|by rewrite V1|exact Hcpu|rewrite V1; exact Hk|exact Hlt|done|rewrite V1; rsimpl; by rewrite Hid|done|].
  erewrite prog_bind_done by exact E2. clear E1 E2.
  wval W2 q V2. rewrite V1 in V2. destruct W2 as (g2 & -> & Hg2).
  set (s2 := wr_reg GICH_HCR h _).
  assert (ints s2 q = removed (reg_val s (GICH_LR k)) (ints s q <| ilock := lock_taken (ilock (ints s q)) |>)) as V2' by exact V2.
  destruct (vgic_add_spilled_run v q s2) as (h2 & E3); [exact Hsl|]. erewrite prog_bind_done by exact E3. clear E3.
  rewrite V2'. assert (∀ w i, id (removed w i) = id i ∧ in_lr (removed w i) = false) as Hrm
    by (intros w i; unfold removed; repeat case_match; split; reflexivity).
  destruct (Hrm (reg_val s (GICH_LR k)) (ints s q <| ilock := lock_taken (ilock (ints s q)) |>)) as [R1 R2].
  rewrite R1. rsimpl. rewrite Hid. set (s3 := wr_reg GICH_HCR h2 _).
  assert (ints s3 = ints s2) as V3 by reflexivity.
  destruct (vgic_yield_run lay v q s3) as (s4 & E4 & W4); [by rewrite V3, V2'|]. erewrite prog_bind_done by exact E4.
  wval W4 q V4. rewrite V3, V2' in V4. destruct W4 as (g4 & -> & Hg4).
  unfold unlock_int, updi. rewrite run_modify. exists h, h2, (alter (λ i, i <| ilock ::= spin_unlock |>) q g4). split; [reflexivity|].
  rsimpl. split.
  - intros r Hr. rewrite alter_ne by done. rewrite Hg4. destruct (Z.eqb_spec r q); [done|].
    rewrite V3. etransitivity; [apply Hg2|]. destruct (Z.eqb_spec r q); [done|].
    etransitivity; [apply Hg1|]. by destruct (Z.eqb_spec r q).
  - rewrite alter_eq, Hg4, Z.eqb_refl. by rewrite V3, V2'.
Qed.

Lemma in_register_ext v j r n st s s' :
  in_register s v j r n st → int_addr lay s' v n = int_addr lay s v n → owner (ints s' r) = owner (ints s r) →
  in_lr (ints s' r) = in_lr (ints s r) → lr (ints s' r) = lr (ints s r) → reg_val s' (GICH_LR j) = reg_val s (GICH_LR j) →
  in_register s' v j r n st.
Proof. intros [????? Hi ?] Ha Ho Hin Hl Hr. split; congruence. Qed.

Lemma evicted_other v k i : lr i ≠ k ∨ in_lr i = false → evicted v k i = i <| ilock ::= λ l, spin_unlock (lock_taken l) |>.
Proof.
  clear L lay. intros H. unfold evicted. set (j := i <| ilock := _ |>). assert (vgic_owns v j && in_lr j && (lr j =? k) = false) as ->.
  { unfold j. rsimpl. destruct H as [H|H]; [apply Z.eqb_neq in H|]; rewrite H; [by rewrite andb_false_r|by rewrite andb_false_r]. }
  reflexivity.
Qed.

(** What a write of [p] leaves of an interrupt that is not in register [k]. *)
Lemma after_write_other v p k s r :
  r ≠ p → lr (ints s r) ≠ k ∨ in_lr (ints s r) = false →
  ∃ l, after_write lay s v p k r = ints s r <| ilock := l |>.
Proof.
  intros Hr H. unfold after_write. destruct (Z.eqb_spec r p); [done|]. destruct (evicts s v p k).
  2: { exists (ilock (ints s r)). by destruct (ints s r). }
  unfold after_evict. case_bool_decide; [|exists (ilock (ints s r)); by destruct (ints s r)].
  rewrite evicted_other by done. eexists. reflexivity.
Qed.

(** The value written for a pending interrupt. *)
Lemma lr_value_pending i :
  int_ok i → GIC_MAX_SGIS ≤ id i → state i = PEND → lr_image (lr_value i (eff i)).1 (id i) PEND.
Proof.
  clear L lay. intros Hok Hid Hst. assert (eff i = PEND) as E.
  { unfold eff. rewrite Hst. by destruct (Z.ltb_spec (id i) GIC_MAX_SGIS); [lia|]. }
  rewrite E. destruct (vgic_int_is_hw i) eqn:Eh.
  - by apply (lr_value_hw i PEND Hok Eh in_word_1).
  - by apply (lr_value_plain i PEND Hok Eh Hid in_word_1).
Qed.

(** Writing the pending interrupt at [p] to register [k]. *)
Lemma write_pending v p k s :
  ints_ok lay s v (Some p) → int_ok (ints s p) → GIC_MAX_SGIS ≤ id (ints s p) → state (ints s p) = PEND →
  in_lr (ints s p) = false → 0 ≤ k < NUM_LRS (cpu_gic s) → NUM_LRS (cpu_gic s) ≤ GIC_NUM_LIST_REGS →
  ∃ s', vgic_write_lr lay v p k s = Done (tt, s') ∧ waits_in s' k p ∧ links s' = links s ∧ spilled_lock s' = spilled_lock s ∧
    ilock (ints s' p) = ilock (ints s p) ∧ id (ints s' p) = id (ints s p) ∧ owner (ints s' p) = owner (ints s p) ∧
    (∀ n, int_addr lay s' v n = int_addr lay s v n) ∧ (∀ j, j ≠ k → reg_val s' (GICH_LR j) = reg_val s (GICH_LR j)) ∧
    ∀ r, r ≠ p → lr (ints s r) ≠ k ∨ in_lr (ints s r) = false → ∃ l, ints s' r = ints s r <| ilock := l |>.
Proof.
  intros Hok Hi Hid Hst Hin Hk Hn. unfold GIC_NUM_LIST_REGS in Hn.
  destruct (vgic_write_lr_run lay v p k s Hok Hin (proj2 Hk)) as (f & E & Hf). pose proof (lr_value_pending _ Hi Hid Hst) as Hv.
  pose proof (Hf p) as Hp. unfold after_write in Hp. rewrite Z.eqb_refl in Hp.
  eexists. split; [exact E|]. set (s' := wr_reg _ _ _). assert (ints s' = f) as V by reflexivity.
  split. { unfold waits_in. rewrite V, Hp. unfold wrote. rsimpl. split; [done|]. split; [apply wrap_small; lia|].
    unfold s'. rewrite (reg_val_write lay); [exact Hv|apply (li_word _ _ _ Hv)|apply (li_res _ _ _ Hv)]. }
  split; [done|]. split; [done|]. rewrite V, Hp. unfold wrote. rsimpl. do 3 (split; [done|]). split; [done|]. split.
  - intros j Hj. unfold s', reg_val, wr_reg. rsimpl. by apply lr_other.
  - intros r Hr H. rewrite Hf. by apply after_write_other.
Qed.

(** A pending interrupt that is in no register, with its lock held. *)
Record addable (v p : Z) (s : vgic) : Prop := {
  ad_ok : ints_ok lay s v (Some p);
  ad_nlr : 0 ≤ NUM_LRS (cpu_gic s) ≤ GIC_NUM_LIST_REGS;
  ad_cpu : p_id (vcpu_tbl s v) = this_cpu (cpu_gic s);
  ad_lock : lock_free (spilled_lock s);
  ad_regs k : 0 ≤ k < NUM_LRS (cpu_gic s) → GICH_LR_STATE (reg_val s (GICH_LR k)) ≠ INV →
    ∃ q n st, in_register s v k q n st ∧ id (ints s q) = n;
  ad_int : int_ok (ints s p);
  ad_id : GIC_MAX_SGIS ≤ id (ints s p);
  ad_state : state (ints s p) = PEND;
  ad_out : in_lr (ints s p) = false;
  ad_enabled : enabled (ints s p) = true
}.

Definition same_owner (s s' : vgic) (p : Z) : Prop :=
  ilock (ints s' p) = ilock (ints s p) ∧ owner (ints s' p) = owner (ints s p).

Lemma stay_of_ints v k p s s' :
  (∀ n, int_addr lay s' v n = int_addr lay s v n) → (∀ j, j ≠ k → reg_val s' (GICH_LR j) = reg_val s (GICH_LR j)) →
  (∀ r, r ≠ p → in_lr (ints s r) = true → lr (ints s r) ≠ k → ∃ l, ints s' r = ints s r <| ilock := l |>) → others_stay v k p s s'.
Proof.
  intros Ha Hr Hq j r n st Hj Hrp Hin. destruct (Hq r Hrp (ir_in _ _ _ _ _ _ Hin)) as (l & E).
  { rewrite (ir_lr _ _ _ _ _ _ Hin). done. }
  apply (in_register_ext _ _ _ _ _ s s' Hin); [apply Ha|rewrite E; reflexivity..|by apply Hr].
Qed.

Lemma add_to_empty v p s k :
  addable v p s → 0 ≤ k < NUM_LRS (cpu_gic s) → GICH_LR_STATE (reg_val s (GICH_LR k)) = INV →
  ∃ s', vgic_write_lr lay v p k s = Done (tt, s') ∧ placed v p s s' ∧ same_owner s s' p.
Proof.
  intros [Hok Hn _ _ _ Hi Hid Hst Hout _] Hk He.
  destruct (write_pending v p k s Hok Hi Hid Hst Hout Hk (proj2 Hn)) as (s' & E & Hw & Hl & _ & Hlk & _ & Ho & Ha & Hr & Hq).
  exists s'. split; [exact E|]. split; [|by split]. apply (placed_empty _ _ _ _ k Hk He Hw Hl).
  apply stay_of_ints; [exact Ha|exact Hr|]. intros r Hrp _ Hlr. apply Hq; [done|by left].
Qed.

Lemma removed_fields w i :
  id (removed w i) = id i ∧ in_lr (removed w i) = false ∧ state (removed w i) = GICH_LR_STATE w ∧ ilock (removed w i) = ilock i.
Proof. clear L lay. unfold removed. repeat case_match; split_and!; reflexivity. Qed.

Lemma yielded_fields v i :
  id (yielded v i) = id i ∧ in_lr (yielded v i) = in_lr i ∧ state (yielded v i) = state i ∧ ilock (yielded v i) = ilock i.
Proof. clear L lay. unfold yielded. case_match; split_and!; reflexivity. Qed.

Lemma add_spilling v p s k :
  addable v p s → 0 ≤ k < NUM_LRS (cpu_gic s) → GICH_LR_STATE (reg_val s (GICH_LR k)) ≠ INV →
  before (prio (ints s p)) (u32 (id (ints s p))) (reg_val s (GICH_LR k)) →
  ∃ s1 s', vgic_spill_lr lay v k s = Done (tt, s1) ∧ vgic_write_lr lay v p k s1 = Done (tt, s') ∧ placed v p s s' ∧ same_owner s s' p.
Proof.
  intros [Hok Hn Hcpu Hsl Hregs Hi Hid Hst Hout _] Hk Hv Hb. destruct (Hregs k Hk Hv) as (q & n & st & Hq & Hqn).
  assert (q ≠ p) as Hqp by (intros ->; pose proof (ir_in _ _ _ _ _ _ Hq); congruence).
  pose proof (io_lock _ _ _ _ Hok n q (ir_num _ _ _ _ _ _ Hq) (ir_addr _ _ _ _ _ _ Hq) ltac:(congruence)) as Hlq.
  destruct (vgic_spill_lr_run v k q n st s Hq Hqn Hlq Hsl Hcpu (proj2 Hk)) as (h & h2 & g & E1 & Hg & Hgq).
  set (s1 := _ <| spilled_lock := _ |>) in E1. assert (ints s1 = g) as V by reflexivity.
  set (w := reg_val s (GICH_LR k)) in *. set (i := ints s q <| ilock := lock_taken (ilock (ints s q)) |>) in *.
  destruct (removed_fields w i) as (R1 & R2 & R3 & R4), (yielded_fields v (removed w i)) as (Y1 & Y2 & Y3 & Y4).
  assert (ints_ok lay s1 v (Some p)) as Hok1.
  { split; intros m r Hm Hr; change (int_addr lay s1 v m) with (int_addr lay s v m) in Hr; rewrite V.
    - destruct (decide (r = q)) as [->|Hrq]; [|rewrite Hg by done; by apply (io_id _ _ _ _ Hok)].
      rewrite Hgq. rsimpl. rewrite Y1, R1. unfold i. rsimpl. by apply (io_id _ _ _ _ Hok).
    - intros Hrp. destruct (decide (r = q)) as [->|Hrq]; [|rewrite Hg by done; by apply (io_lock _ _ _ _ Hok m)].
      rewrite Hgq. rsimpl. rewrite Y4, R4. unfold i. rsimpl. exact (lock_cycle_free (ilock (ints s q))). }
  assert (ints s1 p = ints s p) as Vp by (rewrite V; by apply Hg).
  destruct (write_pending v p k s1) as (s' & E2 & Hw & Hl & _ & Hlk & _ & Ho & Ha & Hr & Ht); rewrite ?Vp; try done; [apply Hn|].
  exists s1, s'. split; [exact E1|]. split; [exact E2|]. split; [|split; by rewrite ?Hlk, ?Ho, Vp].
  destruct (Ht q Hqp) as (l & Eq).
  { right. rewrite V, Hgq. rsimpl. by rewrite Y2. }
  rewrite V, Hgq in Eq. apply (placed_spilling _ _ _ _ k q n st Hq Hb Hw).
  - split; [rewrite Eq; rsimpl; by rewrite Y2|]. by rewrite Hl.
  - rewrite Eq. rsimpl. rewrite Y3, R3. apply (li_state _ _ _ (ir_image _ _ _ _ _ _ Hq)).
  - apply stay_of_ints; [exact Ha| |].
    + intros j Hj. rewrite (Hr j Hj). change (reg_val s1 (GICH_LR j)) with
        (reg_val (wr_reg GICH_HCR h2 (wr_reg GICH_HCR h (wr_reg (GICH_LR k) 0 s))) (GICH_LR j)).
      rewrite !(reg_val_hcr lay). unfold reg_val, wr_reg. rsimpl. by apply lr_other.
    + intros r Hrp Hin Hlr. assert (r ≠ q) as Hrq by (intros ->; apply Hlr, (ir_lr _ _ _ _ _ _ Hq)).
      assert (ints s1 r = ints s r) as Vr by (rewrite V; by apply Hg).
      destruct (Ht r Hrp) as (l' & El); [rewrite Vr; by left|]. exists l'. by rewrite El, Vr.
Qed.

Lemma vgic_add_lr_run v p s :
  addable v p s → ∃ b s', vgic_add_lr lay v p s = Done (b, s') ∧ placed v p s s' ∧ same_owner s s' p.
Proof.
  intros Had. pose proof Had as [_ Hn _ Hsl _ _ _ Hst Hout Hen]. unfold vgic_add_lr, geti, num_lrs. psteps. rewrite Hen, Hout. cbn [negb orb].
  rewrite (prog_bind_done _ _ _ _ _ (gich_get_elrsr_run lay s)). psteps.
  assert (Z.of_nat (Z.to_nat (NUM_LRS (cpu_gic s))) = NUM_LRS (cpu_gic s)) as Hz by (apply Z2Nat.id; lia).
  unfold GIC_NUM_LIST_REGS in Hn.
  destruct (free_lr (elrsr s) 0 _) as [k|] eqn:Ef.
  - destruct (free_lr_some _ _ _ _ Ef) as [Hk Hbit]; [lia|lia|].
    destruct (add_to_empty v p s k Had) as (s' & E & Hp & Ho); [lia|apply (elrsr_empty lay); unfold GIC_NUM_LIST_REGS; lia || done|].
    psteps. rewrite (prog_bind_done _ _ _ _ _ E). by exists true, s'.
  - set (w := {| v_prio := _; v_id := _; v_ind := None; v_found := 0 |}).
    assert (victim_ok s (prio (ints s p)) (u32 (id (ints s p))) w) as Hw by (split; [right; split; [done|cbn; lia]|done]).
    destruct (find_victims_run (prio (ints s p)) (u32 (id (ints s p))) s (Z.to_nat (NUM_LRS (cpu_gic s))) w w 0 Hw Hw)
      as (a & b & E & [_ Ha] & [_ Hb]); [lia|lia|].
    rewrite bind_bind, (prog_bind_done _ _ _ _ _ E). cbv beta iota zeta.
    assert (∀ k, (if 1 <? v_found b then v_ind b else v_ind a) = Some k → 0 ≤ k < NUM_LRS (cpu_gic s) ∧
      GICH_LR_STATE (reg_val s (GICH_LR k)) ≠ INV ∧ before (prio (ints s p)) (u32 (id (ints s p))) (reg_val s (GICH_LR k))) as Hk
      by (intros k; destruct (1 <? v_found b); [apply Hb|apply Ha]).
    destruct (if 1 <? v_found b then v_ind b else v_ind a) as [k|].
    + destruct (Hk k eq_refl) as (H1 & H2 & H3). destruct (add_spilling v p s k Had H1 H2 H3) as (s1 & s' & E1 & E2 & Hp & Ho).
      rewrite bind_bind, (prog_bind_done _ _ _ _ _ E1). psteps. rewrite (prog_bind_done _ _ _ _ _ E2). by exists true, s'.
    + psteps. destruct (vgic_add_spilled_run v p s Hsl) as (h & E1). rewrite (prog_bind_done _ _ _ _ _ E1).
      eexists false, _. split; [reflexivity|]. split; [|by split]. apply placed_spilled; [by split|exact Hst|].
      apply stay_of_ints; [done| |].
      * intros j _. exact (reg_val_hcr lay j h s).
      * intros r _ _ _. exists (ilock (ints s r)). change (ints s r = ints s r <| ilock := ilock (ints s r) |>). by destruct (ints s r).
Qed.

(** ** Injection *)

(** The interrupt at [p] as [vgic_inject_hw] makes it. *)
Definition raised (v : Z) (i : vgic_int) : vgic_int :=
  i <| ilock := lock_taken (ilock i) |> <| owner := Some v |> <| state := PEND |> <| in_lr := false |>.

Lemma raise_run v n p s :
  int_addr lay s v n = Some p → lock_free (ilock (ints s p)) →
  ∃ g, (∀ r, g r = if r =? p then raised v (ints s p) else ints s r) ∧
    ∀ b s', vgic_add_lr lay v p (s <| ints := g |>) = Done (b, s') →
      vgic_inject_hw lay v n s = Done (tt, s' <| ints ::= alter (λ i, i <| ilock ::= spin_unlock |>) p |>).
Proof.
  intros Ha Hl. destruct (lock_int_run lay p s Hl) as (s1 & E1 & W1). destruct W1 as (g1 & -> & Hg1).
  exists (alter (λ i, i <| in_lr := false |>) p (alter (λ i, i <| state := PEND |>) p (alter (λ i, i <| owner := Some v |>) p g1))).
  split.
  - intros r. destruct (Z.eqb_spec r p) as [->|Hr].
    + rewrite !alter_eq, Hg1, Z.eqb_refl. reflexivity.
    + rewrite !alter_ne by done. rewrite Hg1. by destruct (Z.eqb_spec r p).
  - intros b s' E. unfold vgic_inject_hw. psteps. erewrite prog_bind_done by apply vgic_get_int_own. rewrite Ha. psteps.
    rewrite (prog_bind_done _ _ _ _ _ E1). unfold updi. psteps.
    change (s <| ints := g1 |> <| ints ::= alter (λ i, i <| owner := Some v |>) p |> <| ints ::= alter (λ i, i <| state := PEND |>) p |>
      <| ints ::= alter (λ i, i <| in_lr := false |>) p |>) with (s <| ints := alter (λ i, i <| in_lr := false |>) p
        (alter (λ i, i <| state := PEND |>) p (alter (λ i, i <| owner := Some v |>) p g1)) |>).
    rewrite (prog_bind_done _ _ _ _ _ E). reflexivity.
Qed.

(** [placed] in terms of the states before the locks are taken and after they are released. *)
Lemma placed_ext v p s s1 s2 s3 :
  placed v p s1 s2 → NUM_LRS (cpu_gic s1) = NUM_LRS (cpu_gic s) → links s1 = links s → links s3 = links s2 →
  (∀ k, reg_val s1 (GICH_LR k) = reg_val s (GICH_LR k)) → (∀ k, reg_val s3 (GICH_LR k) = reg_val s2 (GICH_LR k)) →
  (∀ n, int_addr lay s1 v n = int_addr lay s v n) → (∀ n, int_addr lay s3 v n = int_addr lay s2 v n) →
  (∀ r, r ≠ p → ints s1 r = ints s r) → prio (ints s1 p) = prio (ints s p) → id (ints s1 p) = id (ints s p) →
  in_lr (ints s p) = false → in_lr (ints s1 p) = false → (∀ r, ∃ l, ints s3 r = ints s2 r <| ilock := l |>) → placed v p s s3.
Proof.
  intros Hp En El El3 Er Er3 Ea Ea3 Ei Epr Eid Hout Hout1 E3.
  assert (∀ k, waits_in s2 k p → waits_in s3 k p) as Hw.
  { intros k (H1 & H2 & H3). destruct (E3 p) as (l & E). unfold waits_in. rewrite E, Er3. rsimpl. by split_and!. }
  assert (∀ h r, spilled_to s1 s2 h r → spilled_to s s3 h r) as Hs.
  { intros h r [H1 H2]. destruct (E3 r) as (l & E). split; [by rewrite E|]. by rewrite El3, H2, El. }
  assert (∀ k q n st, in_register s v k q n st → q ≠ p → in_register s1 v k q n st) as Hf.
  { intros k q n st H Hq. apply (in_register_ext _ _ _ _ _ s s1 H); rewrite ?Ei by done; auto. }
  assert (∀ k, others_stay v k p s1 s2 → others_stay v k p s s3) as Ho.
  { intros k H j r n st Hj Hr Hin. specialize (H j r n st Hj Hr (Hf _ _ _ _ Hin Hr)). destruct (E3 r) as (l & E).
    apply (in_register_ext _ _ _ _ _ s2 s3 H); rewrite ?E; auto. }
  destruct Hp as [k Hk He Hwt Hl Hst|k q n st Hq Hb Hwt Hsp Hs2 Hst|Hsp Hs2 Hst].
  - apply (placed_empty _ _ _ _ k); [by rewrite <-En|by rewrite <-Er|by apply Hw|by rewrite El3, Hl|by apply Ho].
  - assert (q ≠ p) as Hqp by (intros ->; pose proof (ir_in _ _ _ _ _ _ Hq); congruence).
    assert (in_register s v k q n st) as Hq'.
    { apply (in_register_ext _ _ _ _ _ s1 s Hq); rewrite ?Ei by done; auto. }
    apply (placed_spilling _ _ _ _ k q n st Hq'); [by rewrite <-Epr, <-Eid, <-Er|by apply Hw|by apply Hs| |by apply Ho].
    destruct (E3 q) as (l & ->). exact Hs2.
  - apply placed_spilled; [rewrite <-Eid; by apply Hs| |by apply Ho]. destruct (E3 p) as (l & ->). exact Hs2.
Qed.

Lemma inject_run v n p s :
  inject_inv v s → int_addr lay s v n = Some p → GIC_MAX_SGIS ≤ n → int_ok (ints s p) →
  enabled (ints s p) = true → in_lr (ints s p) = false →
  ∃ s', vgic_inject_hw lay v n s = Done (tt, s') ∧ placed v p s s' ∧ owner (ints s' p) = Some v ∧ lock_free (ilock (ints s' p)).
Proof.
  intros [Hok Hn Hcpu Hsl Hregs] Ha Hid Hi Hen Hout. unfold GIC_MAX_SGIS in Hid. assert (0 ≤ n) as Hn0 by lia.
  pose proof (io_id _ _ _ _ Hok n p Hn0 Ha) as Eid. pose proof (io_lock _ _ _ _ Hok n p Hn0 Ha ltac:(done)) as Hlp.
  destruct (raise_run v n p s Ha Hlp) as (g & Hg & Hrun). set (s1 := s <| ints := g |>) in *.
  pose proof (Hg p) as Hgp. rewrite Z.eqb_refl in Hgp.
  assert (∀ r, r ≠ p → ints s1 r = ints s r) as Hgr.
  { intros r Hr. etransitivity; [exact (Hg r)|]. by destruct (Z.eqb_spec r p). }
  assert (ints s1 p = raised v (ints s p)) as Vp by exact Hgp.
  assert (addable v p s1) as Had.
  { split; try done; rewrite ?Vp; try done.
    - split; intros m r Hm Hr; change (int_addr lay s1 v m) with (int_addr lay s v m) in Hr.
      + destruct (decide (r = p)) as [->|Hrp]; [rewrite Vp|rewrite Hgr by done]; by apply (io_id _ _ _ _ Hok).
      + intros Hrp. assert (r ≠ p) by congruence. rewrite Hgr by done. by apply (io_lock _ _ _ _ Hok m).
    - intros k Hk Hv. destruct (Hregs k Hk Hv) as (q & m & st & Hq & Eq). exists q, m, st.
      assert (q ≠ p) by (intros ->; pose proof (ir_in _ _ _ _ _ _ Hq); congruence).
      rewrite Hgr by done. split; [|done]. apply (in_register_ext _ _ _ _ _ s s1 Hq); rewrite ?Hgr by done; reflexivity.
    - destruct Hi. by split.
    - unfold raised. rsimpl. unfold GIC_MAX_SGIS. lia. }
  destruct (vgic_add_lr_run v p s1 Had) as (b & s2 & E & Hp & Hlk & Ho). rewrite (Hrun b s2 E). eexists. split; [reflexivity|].
  set (s3 := s2 <| ints ::= _ |>). assert (ints s3 p = ints s2 p <| ilock ::= spin_unlock |>) as V3 by (unfold s3; rsimpl; apply alter_eq).
  split; [|rewrite V3; rsimpl; rewrite Hlk, Ho, Vp; split; [reflexivity|exact (lock_cycle_free (ilock (ints s p)))]].
  apply (placed_ext v p s s1 s2 s3 Hp); rewrite ?Vp; try done.
  intros r. destruct (decide (r = p)) as [->|Hr].
  - eexists. rewrite V3. reflexivity.
  - exists (ilock (ints s2 r)). unfold s3. rsimpl. rewrite alter_ne by done. by destruct (ints s2 r).
Qed.

(** C23: a hardware interrupt that is enabled is never lost, nor does it make another one be: the
    injection comes back with the interrupt owned by the vcpu and pending in a list register that
    was empty; or in the register of an interrupt of lower priority, which is moved to the end of
    its spilled list in the state the register held; or, with no such register, at the end of its
    own spilled list.  The interrupts in the other registers stay there. *)
Theorem vgic_inject_hw_delivers v n p s :
  inject_inv v s → int_addr lay s v n = Some p → GIC_MAX_SGIS ≤ n → int_ok (ints s p) →
  enabled (ints s p) = true → in_lr (ints s p) = false →
  ∃ s', vgic_inject_hw lay v n s = Done (tt, s') ∧ placed v p s s' ∧ owner (ints s' p) = Some v ∧ lock_free (ilock (ints s' p)).
Proof. apply inject_run. Qed.

End inject.

(** One list register, with interrupt 33 active at a lower priority in it: interrupt 32 takes its
    place. *)
Definition sample_active (i : vgic_int) : vgic_int := i <| Vgic.prio := 0xf0 |> <| owner := Some 0 |> <| in_lr := true |>.

Definition sample_full : @vgic RegisterFile :=
  let w := (lr_value (sample_int 0x40038 <| Vgic.prio := 0xf0 |>) ACT).1 in
  sample_vgic <| ints ::= alter sample_active 0x40038 |>
    <| cpu_gic ::= λ g, g <| NUM_LRS := 1 |> <| dev ::= λ d : @device RegisterFile, <[GICH_LR 0 := w]> d |> |>.

Lemma sample_full_at q : ints sample_full q = if q =? 0x40038 then sample_active (sample_int q) else sample_int q.
Proof.
  change (ints sample_full) with (alter sample_active 0x40038 sample_int).
  destruct (Z.eqb_spec q 0x40038) as [->|]; [by rewrite alter_eq|by rewrite alter_ne].
Qed.

Lemma sample_full_inv : inject_inv sample_layout 0 sample_full.
Proof.
  split.
  - split; intros n q Hn Hq; change (int_addr sample_layout sample_full 0 n) with (int_addr sample_layout sample_vgic 0 n) in Hq;
      rewrite sample_full_at.
    + apply sample_ids in Hq; [|done|done]. by destruct (q =? 0x40038).
    + intros _. by destruct (q =? 0x40038).
  - vm_compute. split; discriminate.
  - reflexivity.
  - split; [reflexivity|]. vm_compute. split; [discriminate|reflexivity].
  - intros k Hk _. assert (k = 0) as -> by (change (NUM_LRS (cpu_gic sample_full)) with 1 in Hk; lia).
    exists 0x40038, 33, ACT. split; [|reflexivity]. split; try reflexivity; [lia| |discriminate].
    split; [reflexivity..| |reflexivity]. vm_compute. split; [discriminate|reflexivity].
Qed.

Lemma vgic_inject_hw_delivers_witness :
  ∃ s', vgic_inject_hw sample_layout 0 32 sample_full = Done (tt, s') ∧
    in_lr (ints s' 0x40000) = true ∧ in_lr (ints s' 0x40038) = false ∧ Vgic.state (ints s' 0x40038) = ACT ∧
    prev (links s' 0x30000) = 0x40038.
Proof.
  destruct (@vgic_inject_hw_delivers RegisterFile RegisterFile_laws sample_layout 0 32 0x40000 sample_full) as (s' & E & _ & Ho & _).
  - exact sample_full_inv.
  - reflexivity.
  - vm_compute. discriminate.
  - split; vm_compute; try split; try discriminate; done.
  - reflexivity.
  - reflexivity.
  - exists s'. split; [exact E|].
    assert (match vgic_inject_hw sample_layout 0 32 sample_full with
            | Done (_, t) => in_lr (ints t 0x40000) = true ∧ in_lr (ints t 0x40038) = false ∧ Vgic.state (ints t 0x40038) = ACT ∧
                prev (links t 0x30000) = 0x40038
            | Halt _ => False end) as H by (vm_compute; repeat split).
    rewrite E in H. exact H.
Defined.
