(* ===== verification/VgicEmul.v ===== *)
(** * Virtual interrupts: the emulated distributor, src/arch/aarch64/vgic.c and
    src/arch/aarch64/vgicv2.c

    What a guest reads and writes in the registers of its distributor, the messages of the other
    CPUs, injection and initialisation.  [cpu()->vcpu] is the field [cur_vcpu] of the state. *)
From S2P Require Import Prelude Util Bits Bitmap Spinlock ListHead Emul Cpu Ipi Vcpu Gic Vgic.

(** Offsets in [struct gicd_hw], and the sizes of the arrays that are compared with. *)
Definition off_CTLR : Z := 0.
Definition off_TYPER : Z := 4.
Definition off_IIDR : Z := 8.
Definition off_ISENABLER : Z := 0x100.
Definition off_ICENABLER : Z := 0x180.
Definition off_ISPENDR : Z := 0x200.
Definition off_ICPENDR : Z := 0x280.
Definition off_ISACTIVER : Z := 0x300.
Definition off_ICACTIVER : Z := 0x380.
Definition off_IPRIORITYR : Z := 0x400.
Definition off_ITARGETSR : Z := 0x800.
Definition off_ICFGR : Z := 0xC00.
Definition off_SGIR : Z := 0xF00.
Definition off_IROUTER : Z := 0x6000.
Definition off_ID : Z := 0xFFD0.
Definition size_IPRIORITYR : Z := 4 * GIC_NUM_PRIO_REGS GIC_MAX_INTERUPTS.
Definition size_ITARGETSR : Z := 4 * GIC_NUM_TARGET_REGS GIC_MAX_INTERUPTS.
Definition size_IROUTER : Z := 8 * GIC_MAX_INTERUPTS.
Definition size_ID : Z := 0x10000 - off_ID.
Definition sizeof_gicd_hw : Z := 0x10000.

Definition GICD_IS_REG (base len offset : Z) : bool := (base <=? offset) && (offset <? base + len).
Definition GICD_REG_GROUP (offset : Z) : Z := Z.shiftr (Z.land offset 0xff80) 7.
Definition GICD_REG_MASK (a : Z) : Z := Z.land a 0xfff.
Definition GICD_REG_IND (offset : Z) : Z := Z.land offset 0x7f.

(** [enum vgic_reg_handler_info_id]. *)
Definition VGIC_ISENABLER_ID : Z := 0.
Definition VGIC_ISPENDR_ID : Z := 1.
Definition VGIC_ISACTIVER_ID : Z := 2.
Definition VGIC_ICENABLER_ID : Z := 3.
Definition VGIC_ICPENDR_ID : Z := 4.
Definition VGIC_ICACTIVER_ID : Z := 5.
Definition VGIC_ICFGR_ID : Z := 6.
Definition VGIC_IROUTER_ID : Z := 7.
Definition VGIC_IPRIORITYR_ID : Z := 8.
Definition VGIC_ITARGETSR_ID : Z := 9.
Definition VGIC_REG_HANDLER_ID_NUM : Z := 10.

Definition VGIC_ENABLE_MASK : Z := GICD_CTLR_EN_BIT.

(** The functions a [reg_access] field points to. *)
Inductive access_fn := vgic_emul_generic_access_id | vgicd_emul_misc_access_id | vgicd_emul_pidr_access_id
  | vgic_emul_razwi_id | vgicd_emul_sgiregs_access_id.
#[export] Instance access_fn_eq_dec : EqDecision access_fn.
Proof. solve_decision. Defined.

Record vgic_dscrp := { gicd_addr : Z; gicc_addr : Z; interrupt_num : Z }.

Section emulation.
Context `{GicDevice}.
Variable lay : layout.

(** ** The fields of an interrupt *)

Definition vgic_int_update_enable (p : Z) (enable : bool) : prog vgic bool :=
  i ← geti p (λ i, i);
  if gic_is_sgi (id i) then mret false
  else if negb (eqb enable (enabled i)) then updi p (λ i, i <| enabled := enable |>);; mret true
  else mret false.

Definition vgic_int_enable_hw (v p : Z) : prog vgic unit :=
  i ← geti p (λ i, i); on_gic (gic_set_enable (id i) (enabled i)).

Definition vgic_int_clear_enable (v p data : Z) : prog vgic bool :=
  if data =? 0 then mret false else vgic_int_update_enable p false.
Definition vgic_int_set_enable (v p data : Z) : prog vgic bool :=
  if data =? 0 then mret false else vgic_int_update_enable p true.
Definition vgic_int_get_enable (v p : Z) : prog vgic Z := i ← geti p enabled; mret (Z.b2z i).

(** Set or clear one bit of the state; whether it changed. *)
Definition update_state (p bit : Z) (b : bool) : prog vgic bool :=
  st ← geti p state;
  if xorb b (negb (Z.land st bit =? 0)) then
    updi p (λ i, i <| state := if b then Z.lor st bit else Z.land st (u8 (Z.lnot bit)) |>);; mret true
  else mret false.

Definition vgic_int_update_pend (p : Z) (pend : bool) : prog vgic bool :=
  i ← geti p id; if gic_is_sgi i then mret false else update_state p PEND pend.

Definition vgic_int_state_hw (v p : Z) : prog vgic unit :=
  i ← geti p (λ i, i);
  let st := if state i =? PEND then ACT else state i in
  on_gic (gicd_set_act (id i) (negb (Z.land st ACT =? 0)));;
  on_gic (gicd_set_pend (id i) (negb (Z.land st PEND =? 0))).

Definition vgic_int_clear_pend (v p data : Z) : prog vgic bool :=
  if data =? 0 then mret false else vgic_int_update_pend p false.
Definition vgic_int_set_pend (v p data : Z) : prog vgic bool :=
  if data =? 0 then mret false else vgic_int_update_pend p true.
Definition vgic_int_get_pend (v p : Z) : prog vgic Z :=
  st ← geti p state; mret (if negb (Z.land st PEND =? 0) then 1 else 0).

Definition vgic_int_update_act (p : Z) (act : bool) : prog vgic bool := update_state p ACT act.
Definition vgic_int_clear_act (v p data : Z) : prog vgic bool :=
  if data =? 0 then mret false else vgic_int_update_act p false.
Definition vgic_int_set_act (v p data : Z) : prog vgic bool :=
  if data =? 0 then mret false else vgic_int_update_act p true.
Definition vgic_int_get_act (v p : Z) : prog vgic Z :=
  st ← geti p state; mret (if negb (Z.land st ACT =? 0) then 1 else 0).

Definition vgic_int_set_cfg (v p c : Z) : prog vgic bool :=
  prev_cfg ← geti p cfg;
  updi p (λ i, i <| cfg := u8 c |>);;
  mret (negb (prev_cfg =? c)).
Definition vgic_int_get_cfg (v p : Z) : prog vgic Z := geti p cfg.
Definition vgic_int_set_cfg_hw (v p : Z) : prog vgic unit :=
  i ← geti p (λ i, i); on_gic (gic_set_icfgr (id i) (cfg i)).

Definition vgic_int_set_prio (v p pr : Z) : prog vgic bool :=
  prev_prio ← geti p prio;
  updi p (λ i, i <| prio := Z.land (u8 pr) (BIT_MASK 64 (8 - GICH_LR_PRIO_LEN) GICH_LR_PRIO_LEN) |>);;
  mret (negb (prev_prio =? pr)).
Definition vgic_int_get_prio (v p : Z) : prog vgic Z := geti p prio.
Definition vgic_int_set_prio_hw (v p : Z) : prog vgic unit :=
  i ← geti p (λ i, i); on_gic (gic_set_prio (id i) (prio i)).

(** The targets of vgicv2.c. *)
Definition vgicd_set_trgt (v p trgts : Z) : prog vgic bool :=
  i ← geti p (λ i, i);
  if gic_is_priv (id i) then mret false
  else
    prev_targets ← mret (targets i);
    s ← gets (λ s, s);
    let t := vm_translate_to_pcpu_mask (vcpu_tbl s) (the_vm s) trgts GIC_TARGET_BITS in
    updi p (λ i, i <| u0 := u8 t |>);;
    mret (negb (prev_targets =? t)).
Definition vgicd_set_trgt_hw (v p : Z) : prog vgic unit :=
  i ← geti p (λ i, i); on_gic (gicd_set_trgt (id i) (targets i)).
Definition vgicd_get_trgt (v p : Z) : prog vgic Z :=
  i ← geti p (λ i, i);
  s ← gets (λ s, s);
  if gic_is_priv (id i) then mret (u64 (Z.shiftl 1 (vcpu_id (vcpu_tbl s v))))
  else mret (vm_translate_to_vcpu_mask (the_vm s) (targets i) GIC_TARGET_BITS).

(** ** Handler descriptions *)

Record vgic_reg_handler_info := {
  reg_access : access_fn;
  alignment : Z;
  regid : Z;
  regroup_base : Z;
  field_width : Z;
  read_field : Z → Z → prog vgic Z;
  update_field : Z → Z → Z → prog vgic bool;
  update_hw : Z → Z → prog vgic unit
}.

(** A description with only its first two fields: the rest is zero, and to call one of its
    functions is to jump to address 0. *)
Definition bare_info (f : access_fn) (al : Z) : vgic_reg_handler_info :=
  Build_vgic_reg_handler_info f al 0 0 0 (λ _ _, halt FNull) (λ _ _ _, halt FNull) (λ _ _, halt FNull).

Definition isenabler_info := Build_vgic_reg_handler_info vgic_emul_generic_access_id 4 VGIC_ISENABLER_ID off_ISENABLER 1
  vgic_int_get_enable vgic_int_set_enable vgic_int_enable_hw.
Definition ispendr_info := Build_vgic_reg_handler_info vgic_emul_generic_access_id 4 VGIC_ISPENDR_ID off_ISPENDR 1
  vgic_int_get_pend vgic_int_set_pend vgic_int_state_hw.
Definition isactiver_info := Build_vgic_reg_handler_info vgic_emul_generic_access_id 4 VGIC_ISACTIVER_ID off_ISACTIVER 1
  vgic_int_get_act vgic_int_set_act vgic_int_state_hw.
Definition icenabler_info := Build_vgic_reg_handler_info vgic_emul_generic_access_id 4 VGIC_ICENABLER_ID off_ICENABLER 1
  vgic_int_get_enable vgic_int_clear_enable vgic_int_enable_hw.
Definition icpendr_info := Build_vgic_reg_handler_info vgic_emul_generic_access_id 4 VGIC_ICPENDR_ID off_ICPENDR 1
  vgic_int_get_pend vgic_int_clear_pend vgic_int_state_hw.
Definition iactiver_info := Build_vgic_reg_handler_info vgic_emul_generic_access_id 4 VGIC_ICACTIVER_ID off_ICACTIVER 1
  vgic_int_get_act vgic_int_clear_act vgic_int_state_hw.
Definition icfgr_info := Build_vgic_reg_handler_info vgic_emul_generic_access_id 4 VGIC_ICFGR_ID off_ICFGR 2
  vgic_int_get_cfg vgic_int_set_cfg vgic_int_set_cfg_hw.
Definition ipriorityr_info := Build_vgic_reg_handler_info vgic_emul_generic_access_id 5 VGIC_IPRIORITYR_ID off_IPRIORITYR 8
  vgic_int_get_prio vgic_int_set_prio vgic_int_set_prio_hw.
Definition vgicd_misc_info := bare_info vgicd_emul_misc_access_id 4.
Definition vgicd_pidr_info := bare_info vgicd_emul_pidr_access_id 4.
Definition razwi_info := bare_info vgic_emul_razwi_id 4.
Definition irouter_info := bare_info vgic_emul_razwi_id 4.
(** vgicv2.c overrides the weak definitions of these two. *)
Definition itargetr_info := Build_vgic_reg_handler_info vgic_emul_generic_access_id 5 VGIC_ITARGETSR_ID off_ITARGETSR 8
  vgicd_get_trgt vgicd_set_trgt vgicd_set_trgt_hw.
Definition sgir_info := bare_info vgicd_emul_sgiregs_access_id 4.

(** [reg_handler_info_table]. *)
Definition vgic_get_reg_handler_info (k : Z) : option vgic_reg_handler_info :=
  if k <? VGIC_REG_HANDLER_ID_NUM then
    [isenabler_info; ispendr_info; isactiver_info; icenabler_info; icpendr_info; iactiver_info; icfgr_info;
     irouter_info; ipriorityr_info; itargetr_info] !! Z.to_nat k
  else None.

(** ** Accesses *)

Definition my_vcpu : prog vgic vcpu := gets (λ s, vcpu_tbl s (cur_vcpu s)).
Definition writereg (r val : Z) : prog vgic unit :=
  modify (λ s, s <| vcpu_tbl ::= alter (λ v, vcpu_writereg v r val) (cur_vcpu s) |>).

Definition vgic_update_enable : prog vgic unit :=
  c ← gets vCTLR;
  hcr ← on_gic gich_get_hcr;
  if negb (Z.land c VGIC_ENABLE_MASK =? 0) then on_gic (gich_set_hcr (Z.lor hcr GICH_HCR_En_BIT))
  else on_gic (gich_set_hcr (Z.land hcr (u32 (Z.lnot GICH_HCR_En_BIT)))).

Definition vm_msg_broadcast (msg : cpu_msg) : prog vgic unit := m ← gets (λ s, master (the_vm s)); send_msg m msg.

Definition vgicd_emul_misc_access (acc : emul_access) : prog vgic unit :=
  let r := Z.land (addr acc) 0x7F in
  if r =? GICD_REG_IND off_CTLR then
    if write acc then
      prev_ctrl ← gets vCTLR;
      me ← my_vcpu;
      modify (λ s, s <| vCTLR := u32 (Z.land (vcpu_readreg me (reg acc)) VGIC_ENABLE_MASK) |>);;
      c ← gets vCTLR;
      if negb (Z.lxor prev_ctrl c =? 0) then
        vgic_update_enable;;
        vmid ← gets (λ s, vm_id (the_vm s));
        vm_msg_broadcast {| handler := VGIC_IPI_ID; event := VGIC_UPDATE_ENABLE; data := VGIC_MSG_DATA vmid 0 0 0 0 |}
      else mret tt
    else c ← gets vCTLR; writereg (reg acc) (Z.lor c GICD_CTLR_ARE_NS_BIT)
  else if r =? GICD_REG_IND off_TYPER then
    if negb (write acc) then t ← gets vTYPER; writereg (reg acc) t else mret tt
  else if r =? GICD_REG_IND off_IIDR then
    if negb (write acc) then t ← gets vIIDR; writereg (reg acc) t else mret tt
  else mret tt.

Definition vgicd_emul_pidr_access (acc : emul_access) : prog vgic unit :=
  if negb (write acc) then
    v ← on_gic (rd (GICD_ID ((Z.land (addr acc) 0xff -64 0xd0) / 4)));
    writereg (reg acc) v
  else mret tt.

Definition vgic_emul_razwi (acc : emul_access) : prog vgic unit :=
  if negb (write acc) then writereg (reg acc) 0 else mret tt.

Definition vgic_int_set_field (h : vgic_reg_handler_info) (v p data : Z) : prog vgic unit :=
  lock_int p;;
  own ← vgic_get_ownership v p;
  (if (own : bool) then
     _ ← vgic_remove_lr v p;
     changed ← update_field h v p data;
     i ← geti p (λ i, i);
     (if changed && vgic_int_is_hw i then update_hw h v p else mret tt);;
     vgic_route lay v p;;
     vgic_yield_ownership v p
   else
     vmid ← gets (λ s, vm_id (the_vm s));
     i ← geti p (λ i, i);
     o ← deref (owner i);
     pid ← gets (λ s, p_id (vcpu_tbl s o));
     send_msg pid {| handler := VGIC_IPI_ID; event := VGIC_SET_REG; data := VGIC_MSG_DATA vmid 0 (id i) (regid h) data |});;
  unlock_int p.

(** The rounds [i, i + n) of the loop of [vgic_emul_generic_access]; the value read so far. *)
Fixpoint access_loop (acc : emul_access) (h : vgic_reg_handler_info) (first_int vgicr_id i val : Z) (n : nat) : prog vgic Z :=
  match n with
  | O => mret val
  | S n =>
      v ← gets cur_vcpu;
      interrupt ← vgic_get_int lay v (first_int +64 i) vgicr_id;
      match interrupt with
      | None => mret val
      | Some p =>
          if write acc then
            vgic_int_set_field h v p (bit_extract 64 val (i * field_width h) (field_width h));;
            access_loop acc h first_int vgicr_id (i + 1) val n
          else
            f ← read_field h v p;
            let mask := u64 (Z.shiftl 1 (field_width h)) -64 1 in
            access_loop acc h first_int vgicr_id (i + 1)
              (Z.lor val (u64 (Z.shiftl (Z.land f mask) (i * field_width h)))) n
      end
  end.

Definition vgic_emul_generic_access (acc : emul_access) (h : vgic_reg_handler_info) (vgicr_id : Z) : prog vgic unit :=
  let first_int := ((GICD_REG_MASK (addr acc) -64 regroup_base h) *64 8) / field_width h in
  me ← my_vcpu;
  let val := if write acc then vcpu_readreg me (reg acc) else 0 in
  val ← access_loop acc h first_int vgicr_id 0 val (Z.to_nat (width acc * 8 / field_width h));
  if negb (write acc) then writereg (reg acc) val else mret tt.

Definition vgicd_emul_sgiregs_access (acc : emul_access) : prog vgic unit :=
  me ← my_vcpu;
  let val := if write acc then vcpu_readreg me (reg acc) else 0 in
  if Z.land (addr acc) 0xfff =? off_SGIR then
    if write acc then
      let int_id := GICD_SGIR_SGIINTID (u32 val) in
      s ← gets (λ s, s);
      match GICD_SGIR_TRGLSTFLT (u32 val) with
      | 0 => vgic_send_sgi_msg (vm_translate_to_pcpu_mask (vcpu_tbl s) (the_vm s) (GICD_SGIR_CPUTRGLST (u32 val)) GIC_TARGET_BITS) int_id
      | 1 => vgic_send_sgi_msg (Z.land (Vcpu.cpus (the_vm s)) (u32 (Z.lnot (u32 (Z.shiftl 1 (p_id me)))))) int_id
      | 2 => c ← my_cpu; vgic_send_sgi_msg (u32 (Z.shiftl 1 c)) int_id
      | _ => mret tt
      end
    else mret tt
  else mret tt.

Definition run_access (acc : emul_access) (h : vgic_reg_handler_info) (vgicr_id : Z) : prog vgic unit :=
  match reg_access h with
  | vgic_emul_generic_access_id => vgic_emul_generic_access acc h vgicr_id
  | vgicd_emul_misc_access_id => vgicd_emul_misc_access acc
  | vgicd_emul_pidr_access_id => vgicd_emul_pidr_access acc
  | vgic_emul_razwi_id => vgic_emul_razwi acc
  | vgicd_emul_sgiregs_access_id => vgicd_emul_sgiregs_access acc
  end.

Definition vgic_check_reg_alignment (acc : emul_access) (h : vgic_reg_handler_info) : bool :=
  negb ((Z.land (alignment h) (width acc) =? 0) || negb (Z.land (addr acc) (width acc -64 1) =? 0)).

(** The description [vgicd_emul_handler] chooses for an address. *)
Definition vgicd_reg_info (a : Z) : vgic_reg_handler_info :=
  let g := Z.shiftr (GICD_REG_MASK a) 7 in
  if g =? GICD_REG_GROUP off_CTLR then vgicd_misc_info
  else if g =? GICD_REG_GROUP off_ISENABLER then isenabler_info
  else if g =? GICD_REG_GROUP off_ISPENDR then ispendr_info
  else if g =? GICD_REG_GROUP off_ISACTIVER then isactiver_info
  else if g =? GICD_REG_GROUP off_ICENABLER then icenabler_info
  else if g =? GICD_REG_GROUP off_ICPENDR then icpendr_info
  else if g =? GICD_REG_GROUP off_ICACTIVER then iactiver_info
  else if g =? GICD_REG_GROUP off_ICFGR then icfgr_info
  else if g =? GICD_REG_GROUP off_SGIR then sgir_info
  else
    let acc_off := GICD_REG_MASK a in
    if GICD_IS_REG off_IPRIORITYR size_IPRIORITYR acc_off then ipriorityr_info
    else if GICD_IS_REG off_ITARGETSR size_ITARGETSR acc_off then itargetr_info
    else if GICD_IS_REG off_IROUTER size_IROUTER acc_off then irouter_info
    else if GICD_IS_REG off_ID size_ID acc_off then vgicd_pidr_info
    else razwi_info.

Definition vgicd_emul_handler (acc : emul_access) : prog vgic bool :=
  let handler_info := vgicd_reg_info (addr acc) in
  if vgic_check_reg_alignment acc handler_info then
    acquire vgicd_lock;;
    me ← my_vcpu;
    run_access acc handler_info (vcpu_id me);;
    release vgicd_lock;;
    mret true
  else mret false.

(** ** Injection and messages *)

Definition vgic_inject (v int_id source : Z) : prog vgic unit :=
  vid ← gets (λ s, vcpu_id (vcpu_tbl s v));
  interrupt ← vgic_get_int lay v int_id vid;
  match interrupt with
  | None => mret tt
  | Some p =>
      i ← geti p (λ i, i);
      if vgic_int_is_hw i then vgic_inject_hw lay v int_id
      else if gic_is_sgi int_id then vgic_inject_sgi lay v p source
      else vgic_int_set_field ispendr_info v p 1
  end.

(** [vcpu_inject_hw_irq] and [vcpu_inject_irq] of arch_vm.h. *)
Definition vcpu_arch_inject_hw_irq (v int_id : Z) : prog vgic unit := vgic_inject_hw lay v int_id.
Definition vcpu_arch_inject_irq (v int_id : Z) : prog vgic unit := vgic_inject v int_id 0.

Definition vgic_ipi_handler (ev dat : Z) : prog vgic unit :=
  let vmid := u16 (VGIC_MSG_VM dat) in
  let vgicr_id := u16 (VGIC_MSG_VGICRID dat) in
  let int_id := VGIC_MSG_INTID dat in
  let val := VGIC_MSG_VAL dat in
  mine ← gets (λ s, vm_id (the_vm s));
  v ← gets cur_vcpu;
  if negb (vmid =? mine) then halt FError
  else if ev =? VGIC_UPDATE_ENABLE then vgic_update_enable
  else if ev =? VGIC_ROUTE then
    me ← my_vcpu;
    interrupt ← vgic_get_int lay v int_id (vcpu_id me);
    match interrupt with
    | None => mret tt
    | Some p =>
        lock_int p;;
        own ← vgic_get_ownership v p;
        (if (own : bool) then
           target ← vgic_int_vcpu_is_target v p;
           (if (target : bool) then _ ← vgic_add_lr lay v p; mret tt else mret tt);;
           vgic_yield_ownership v p
         else mret tt);;
        unlock_int p
    end
  else if ev =? VGIC_INJECT then vgic_inject v int_id val
  else if ev =? VGIC_SET_REG then
    interrupt ← vgic_get_int lay v int_id vgicr_id;
    match vgic_get_reg_handler_info (VGIC_MSG_REG dat), interrupt with
    | Some h, Some p => vgic_int_set_field h v p val
    | _, _ => mret tt
    end
  else mret tt.

(** ** Initialisation *)

Definition vgic_get_itln (dscrp : vgic_dscrp) : prog vgic Z :=
  t ← on_gic (rd GICD_TYPER);
  if GIC_MAX_PPIS <? interrupt_num dscrp
  then mret (Z.land (ALIGN 64 (interrupt_num dscrp) 32 / 32 -64 1) (BIT32_MASK 0 GICD_TYPER_ITLN_LEN))
  else mret (bit_extract 32 t GICD_TYPER_ITLN_OFF GICD_TYPER_ITLN_LEN).

Definition set_hw (p : Z) : prog vgic unit :=
  lock_int p;; updi p (λ i, i <| hw := true |>);; unlock_int p.

Fixpoint set_hw_loop (int_id vcpuid : Z) (n : nat) : prog vgic unit :=
  match n with
  | O => mret tt
  | S n =>
      v ← gets (λ s, vm_get_vcpu (the_vm s) vcpuid);
      v ← deref v;
      interrupt ← vgic_get_int lay v int_id vcpuid;
      (match interrupt with Some p => set_hw p | None => mret tt end);;
      set_hw_loop int_id (vcpuid + 1) n
  end.

Definition vgic_set_hw (int_id : Z) : prog vgic unit :=
  if int_id <? GIC_MAX_SGIS then mret tt
  else if int_id <? GIC_CPU_PRIV then
    nr ← gets (λ s, nr_cpus (the_vm s));
    set_hw_loop int_id 0 (Z.to_nat nr)
  else
    v ← gets (λ s, vm_get_vcpu (the_vm s) 0);
    v ← deref v;
    interrupt ← vgic_get_int lay v int_id 0;
    match interrupt with Some p => set_hw p | None => mret tt end.

(** The entries [k, k + n) of an array of interrupts at [base], each set by [f]. *)
Fixpoint init_ints (base : Z) (f : Z → vgic_int → vgic_int) (k : Z) (n : nat) : prog vgic unit :=
  match n with
  | O => mret tt
  | S n => updi (base + k * sizeof_vgic_int) (f k);; init_ints base f (k + 1) n
  end.

Definition init_shared (k : Z) (i : vgic_int) : vgic_int :=
  i <| owner := None |> <| ilock := SPINLOCK_INITVAL |> <| id := k + GIC_CPU_PRIV |> <| state := INV |>
    <| prio := GIC_LOWEST_PRIO |> <| cfg := 0 |> <| u0 := 0 |> <| hw := false |> <| in_lr := false |> <| enabled := false |>.

Definition init_private (v k : Z) (i : vgic_int) : vgic_int :=
  i <| owner := Some v |> <| ilock := SPINLOCK_INITVAL |> <| id := k |> <| state := INV |>
    <| prio := GIC_LOWEST_PRIO |> <| cfg := 0 |> <| u0 := 0 |> <| u1 := 0 |> <| hw := false |> <| in_lr := false |>
    <| enabled := false |>.

(** [vgic_init] of the whole machine is in [Vmm]; here are its two stretches that only touch the
    controller, before and after the interface is mapped and the array [a] of the interrupts is
    allocated. *)
Definition vgic_init_regs (dscrp : vgic_dscrp) : prog vgic unit :=
  modify (λ s, s <| vCTLR := 0 |>);;
  vtyper_itln ← vgic_get_itln dscrp;
  modify (λ s, s <| int_num := 32 * (vtyper_itln + 1) |>);;
  modify (λ s, s <| vTYPER :=
    Z.lor (Z.land (u32 (Z.shiftl vtyper_itln GICD_TYPER_ITLN_OFF)) GICD_TYPER_ITLN_MSK)
          (Z.land (u32 (Z.shiftl (nr_cpus (the_vm s) -64 1) GICD_TYPER_CPUNUM_OFF)) GICD_TYPER_CPUNUM_MSK) |>);;
  iidr ← on_gic (rd GICD_IIDR);
  modify (λ s, s <| vIIDR := iidr |>).

Definition vgic_init_ints (dscrp : vgic_dscrp) (a : Z) : prog vgic unit :=
  modify (λ s, s <| interrupts := a |>);;
  (if a =? 0 then halt FError else mret tt);;
  num ← gets int_num;
  init_ints a init_shared 0 (Z.to_nat num);;
  modify (λ s, s <| emul_mems ::= <[vgicd_emul_node lay := {| va_base := gicd_addr dscrp;
    size := ALIGN 64 sizeof_gicd_hw PAGE_SIZE; mem_handler := vgicd_emul_handler_id |}]> |>);;
  modify (λ s, s <| links ::= INIT_LIST_HEAD (vgicd_emul_node lay) |>);;
  modify (λ s, s <| links ::= vm_emul_add_mem (vgicd_emul_node lay) (emul_mem_list lay) |>);;
  modify (λ s, s <| links ::= INIT_LIST_HEAD (vm_spilled lay) |>);;
  modify (λ s, s <| spilled_lock := SPINLOCK_INITVAL |>).

Definition vgic_cpu_init (v : Z) : prog vgic unit :=
  init_ints (priv_interrupts lay v) (init_private v) 0 (Z.to_nat GIC_CPU_PRIV);;
  init_ints (priv_interrupts lay v) (λ _ i, i <| enabled := true |>) 0 (Z.to_nat GIC_MAX_SGIS);;
  modify (λ s, s <| links ::= INIT_LIST_HEAD (vcpu_spilled lay v) |>).

(** ** Decoding an address *)

(** The distributor's registers as the guest should see them: first and last offset, and how an
    access is emulated: function, access widths, register number, first register, bits per
    interrupt. *)
Definition gicd_map : list (Z * Z * (access_fn * Z * Z * Z * Z)) := [
  (0x000, 0x07f, (vgicd_emul_misc_access_id, 4, 0, 0, 0));
  (0x100, 0x17f, (vgic_emul_generic_access_id, 4, VGIC_ISENABLER_ID, 0x100, 1));
  (0x180, 0x1ff, (vgic_emul_generic_access_id, 4, VGIC_ICENABLER_ID, 0x180, 1));
  (0x200, 0x27f, (vgic_emul_generic_access_id, 4, VGIC_ISPENDR_ID, 0x200, 1));
  (0x280, 0x2ff, (vgic_emul_generic_access_id, 4, VGIC_ICPENDR_ID, 0x280, 1));
  (0x300, 0x37f, (vgic_emul_generic_access_id, 4, VGIC_ISACTIVER_ID, 0x300, 1));
  (0x380, 0x3ff, (vgic_emul_generic_access_id, 4, VGIC_ICACTIVER_ID, 0x380, 1));
  (0x400, 0x7ff, (vgic_emul_generic_access_id, 5, VGIC_IPRIORITYR_ID, 0x400, 8));
  (0x800, 0xbff, (vgic_emul_generic_access_id, 5, VGIC_ITARGETSR_ID, 0x800, 8));
  (0xc00, 0xc7f, (vgic_emul_generic_access_id, 4, VGIC_ICFGR_ID, 0xc00, 2));
  (0xf00, 0xf7f, (vgicd_emul_sgiregs_access_id, 4, 0, 0, 0))].

Definition decode (o : Z) : access_fn * Z * Z * Z * Z :=
  match List.find (λ e, (e.1.1 <=? o) && (o <=? e.1.2)) gicd_map with
  | Some e => e.2
  | None => (vgic_emul_razwi_id, 4, 0, 0, 0)
  end.

Definition described (h : vgic_reg_handler_info) : access_fn * Z * Z * Z * Z :=
  (reg_access h, alignment h, regid h, regroup_base h, field_width h).

Lemma reg_info_decodes a : described (vgicd_reg_info a) = decode (a mod 0x1000).
Proof.
  assert (vgicd_reg_info a = vgicd_reg_info (a mod 0x1000)) as ->.
  { unfold vgicd_reg_info, GICD_REG_MASK. change 0xfff with (Z.ones 12). rewrite !Z.land_ones by lia.
    change (2 ^ 12) with 0x1000. by rewrite Zmod_mod. }
  assert (forallb (λ o, bool_decide (described (vgicd_reg_info o) = decode o)) (seqZ 0 0x1000) = true) as Hall
    by (vm_compute; reflexivity).
  rewrite forallb_forall in Hall. apply (bool_decide_eq_true_1 _), Hall, list_elem_of_In, elem_of_seqZ.
  pose proof (Z.mod_pos_bound a 0x1000). lia.
Qed.

(** The switch and comparisons of [vgicd_emul_handler] agree with the register map of the
    distributor at every address: the frame's registers repeat every 4 KB, and what the map does
    not list reads as zero and ignores writes. *)
Theorem vgicd_reg_info_decodes a : described (vgicd_reg_info a) = decode (a mod 0x1000).
Proof. apply reg_info_decodes. Qed.

(** ** Reading a register of fields *)

(** What a field of register [rid] shows of the interrupt at [p]. *)
Definition field_of (rid : Z) (s : vgic) (v p : Z) : Z :=
  let i := ints s p in
  if (rid =? VGIC_ISENABLER_ID) || (rid =? VGIC_ICENABLER_ID) then Z.b2z (enabled i)
  else if (rid =? VGIC_ISPENDR_ID) || (rid =? VGIC_ICPENDR_ID) then if negb (Z.land (state i) PEND =? 0) then 1 else 0
  else if (rid =? VGIC_ISACTIVER_ID) || (rid =? VGIC_ICACTIVER_ID) then if negb (Z.land (state i) ACT =? 0) then 1 else 0
  else if rid =? VGIC_ICFGR_ID then cfg i
  else if rid =? VGIC_IPRIORITYR_ID then prio i
  else if gic_is_priv (id i) then u64 (Z.shiftl 1 (vcpu_id (vcpu_tbl s v)))
  else vm_translate_to_vcpu_mask (the_vm s) (targets i) GIC_TARGET_BITS.

Lemma read_field_run a v p s :
  reg_access (vgicd_reg_info a) = vgic_emul_generic_access_id →
  read_field (vgicd_reg_info a) v p s = Done (field_of (regid (vgicd_reg_info a)) s v p, s).
Proof.
  unfold vgicd_reg_info. repeat case_match; try discriminate; intros _; try reflexivity.
  cbn [read_field itargetr_info]. unfold vgicd_get_trgt, geti. psteps. unfold field_of. cbn [regid itargetr_info].
  cbn [Z.eqb Pos.eqb orb VGIC_ITARGETSR_ID VGIC_ISENABLER_ID]. by destruct (gic_is_priv _).
Qed.

(** Field [n] of a register, or 0 past the last interrupt. *)
Definition field_at (rid : Z) (s : vgic) (v n : Z) : Z :=
  match int_addr lay s v n with Some p => field_of rid s v p | None => 0 end.

Lemma access_loop_read acc h first i val n s :
  0 < field_width h < 64 → 0 ≤ i → (i + Z.of_nat n) * field_width h ≤ 64 →
  0 ≤ first → first + i + Z.of_nat n ≤ 2 ^ 64 →
  write acc = false →
  (∀ p, read_field h (cur_vcpu s) p s = Done (field_of (regid h) s (cur_vcpu s) p, s)) →
  (∀ b, i * field_width h ≤ b → Z.testbit val b = false) →
  ∃ r, access_loop acc h first (vcpu_id (vcpu_tbl s (cur_vcpu s))) i val n s = Done (r, s) ∧
    ∀ b, 0 ≤ b → Z.testbit r b =
      if (i * field_width h <=? b) && (b <? (i + Z.of_nat n) * field_width h)
      then Z.testbit (field_at (regid h) s (cur_vcpu s) (first + b / field_width h)) (b mod field_width h)
      else Z.testbit val b.
Proof.
  intros Hw Hi Hn Hf Hfn Hr Hrd. revert i val Hi Hn Hfn.
  induction n as [|n IH]; intros i val Hi Hn Hfn Hv; cbn [access_loop].
  { exists val. split; [done|]. intros b Hb. replace (i + Z.of_nat 0) with i by lia.
    by destruct (Z.leb_spec (i * field_width h) b), (Z.ltb_spec b (i * field_width h)); try lia. }
  set (fw := field_width h) in *. assert (0 ≤ i * fw ∧ 0 ≤ Z.of_nat n * fw) by nia. psteps. rewrite (wrap_small 64 (first + i)) by lia.
  unfold mbind at 1, prog_bind at 1. rewrite vgic_get_int_own.
  destruct (int_addr lay s (cur_vcpu s) (first + i)) as [p|] eqn:Ep.
  - rewrite Hr. unfold mbind at 1, prog_bind at 1. rewrite Hrd.
    set (x := field_of _ _ _ _). set (val' := Z.lor val _).
    assert (∀ b, 0 ≤ b → Z.testbit val' b =
      if (i * fw <=? b) && (b <? (i + 1) * fw) then Z.testbit x (b - i * fw) else Z.testbit val b) as Hv'.
    { intros b Hb. unfold val'. assert (2 ^ fw < 2 ^ 64) by (apply Z.pow_lt_mono_r; lia).
      assert (1 < 2 ^ fw) by (apply Z.pow_gt_1; lia).
      rewrite Z.shiftl_1_l, (wrap_small 64 (2 ^ fw)), (wrap_small 64 (2 ^ fw - 1)) by lia.
      replace (2 ^ fw - 1) with (Z.ones fw) by (rewrite Z.ones_equiv; lia).
      autorewrite with bits.
      destruct (Z.leb_spec (i * fw) b).
      - rewrite Hv by lia. cbn [orb andb].
        destruct (Z.ltb_spec b ((i + 1) * fw)), (Z.leb_spec 0 (b - i * fw)), (Z.ltb_spec (b - i * fw) fw), (Z.ltb_spec b 64);
          try (exfalso; lia); cbn [andb]; by rewrite ?andb_true_r, ?andb_false_r.
      - rewrite (Z.testbit_neg_r x) by lia. cbn [andb]. by rewrite andb_false_r, orb_false_r. }
    destruct (IH (i + 1) val') as (r & E & Hbits); [lia..| |].
    + intros b Hb. rewrite Hv', Hv by lia. by zcase.
    + exists r. split; [done|]. intros b Hb. rewrite Hbits, Hv' by done. unfold field_at.
      replace (i + 1 + Z.of_nat n) with (i + Z.of_nat (S n)) by lia.
      destruct (Z.leb_spec (i * fw) b), (Z.ltb_spec b ((i + 1) * fw)), (Z.leb_spec ((i + 1) * fw) b),
        (Z.ltb_spec b ((i + Z.of_nat (S n)) * fw)); try (exfalso; lia); cbn [andb]; try done.
      assert (b / fw = i) as -> by (symmetry; apply (Z.div_unique_pos b fw i (b - i * fw)); lia).
      rewrite Ep. f_equal. apply (Z.mod_unique_pos b fw i); lia.
  - exists val. split; [done|]. intros b Hb.
    destruct (Z.leb_spec (i * fw) b); cbn [andb]; [|done]. rewrite Hv by done.
    destruct (b <? _); [|done]. unfold field_at. rewrite (int_addr_none lay _ _ (first + i)); [by rewrite Z.testbit_0_l|done|].
    assert (i ≤ b / fw) by (apply Z.div_le_lower_bound; nia). lia.
Qed.

Lemma decode_generic o al rid base fw :
  0 ≤ o < 0x1000 → decode o = (vgic_emul_generic_access_id, al, rid, base, fw) → 0 < fw < 9 ∧ 0 ≤ base ≤ o.
Proof.
  intros Ho. unfold decode. destruct (List.find _ _) as [e|] eqn:E; [|done].
  apply find_some in E as [He [Hlo Hhi]%andb_true_iff]. apply Z.leb_le in Hlo.
  intros H2. cbn [gicd_map In] in He. repeat destruct He as [<-|He]; try done; injection H2 as ? ? <- <-; simpl in Hlo; lia.
Qed.

(** C14: a guest's read of a register of fields through [vgicd_emul_handler] takes and releases the
    distributor's lock and puts in the guest's register the fields of the consecutive interrupts
    the register stands for, each in its place, the places past the last interrupt and the
    bits above zero; nothing else changes. *)
Theorem vgicd_read_fields acc s al rid base fw :
  decode (addr acc mod 0x1000) = (vgic_emul_generic_access_id, al, rid, base, fw) →
  write acc = false → 1 ≤ width acc ≤ 8 →
  vgic_check_reg_alignment acc (vgicd_reg_info (addr acc)) = true →
  lock_free (vgicd_lock s) →
  ∃ r, vgicd_emul_handler acc s = Done (true, s <| vgicd_lock := lock_cycle (vgicd_lock s) |>
         <| vcpu_tbl ::= alter (λ v, vcpu_writereg v (reg acc) r) (cur_vcpu s) |>) ∧
    ∀ b, 0 ≤ b → Z.testbit r b =
      (b <? width acc * 8 / fw * fw) &&
      Z.testbit (field_at rid s (cur_vcpu s) ((addr acc mod 0x1000 - base) * 8 / fw + b / fw)) (b mod fw).
Proof.
  intros Hd Hr Hwd Hal Hl. pose proof (reg_info_decodes (addr acc)) as Hdec. rewrite Hd in Hdec.
  destruct (decode_generic _ _ _ _ _ (Z.mod_pos_bound _ 0x1000 ltac:(lia)) Hd) as [Hfw Hbase].
  pose proof (read_field_run (addr acc)) as Hrd. unfold vgicd_emul_handler. rewrite Hal.
  set (h := vgicd_reg_info (addr acc)) in *. unfold described in Hdec. injection Hdec as Hf Ha Hi Hb Hw.
  rewrite bind_acquire by done. psteps. unfold my_vcpu. psteps. unfold run_access. rewrite Hf.
  unfold vgic_emul_generic_access, my_vcpu. psteps. rewrite Hr. cbn [negb].
  assert (GICD_REG_MASK (addr acc) = addr acc mod 0x1000) as ->.
  { unfold GICD_REG_MASK. change 0xfff with (Z.ones 12). by rewrite Z.land_ones by lia. }
  pose proof (Z.mod_pos_bound (addr acc) 0x1000 ltac:(lia)) as Ho. set (o := addr acc mod 0x1000) in *.
  rewrite Hb, Hw, (wrap_small 64 (o - base)), (wrap_small 64 ((o - base) * 8)) by lia.
  assert (0 ≤ (o - base) * 8 / fw ≤ (o - base) * 8) as Hq.
  { split; [apply Z.div_pos; lia|]. apply Z.div_le_upper_bound; nia. }
  assert (0 ≤ width acc * 8 / fw ∧ width acc * 8 / fw * fw ≤ 64) as Hn.
  { split; [apply Z.div_pos; lia|]. pose proof (Z.mul_div_le (width acc * 8) fw). lia. }
  set (s1 := s <| vgicd_lock := _ |>).
  destruct (access_loop_read acc h ((o - base) * 8 / fw) 0 0 (Z.to_nat (width acc * 8 / fw)) s1) as (r & E & Hbits);
    rewrite ?Hw, ?Z2Nat.id by lia; try lia; try done.
  { nia. }
  { intros p. apply Hrd, Hf. }
  { intros b _. apply Z.testbit_0_l. }
  change (vcpu_id (vcpu_tbl s1 (cur_vcpu s1))) with (vcpu_id (vcpu_tbl s (cur_vcpu s))) in E.
  exists r. unfold mbind, prog_bind. rewrite E. split; [reflexivity|].
  intros b Hb0. rewrite Hbits, Hw, Z2Nat.id, Z.testbit_0_l by lia. rewrite Hi. clear -Hb0 Hfw.
  destruct (Z.leb_spec (0 * fw) b); [|lia]. cbn [andb Z.add]. by destruct (b <? _).
Qed.

End emulation.

(** A read of GICD_ISENABLER1: every bit of the word is set. *)
Definition sample_read : emul_access :=
  {| addr := 0x8000104; write := false; sign_ext := false; width := 4; reg := 3; reg_high := 0; multi_reg := false; reg_width := 4 |}.

Lemma vgicd_read_fields_witness :
  ∃ r, (∃ s', vgicd_emul_handler sample_layout sample_read sample_vgic = Done (true, s') ∧ r = x (regs (vcpu_tbl s' 0)) 3) ∧
    Z.testbit r 5 = true ∧ Z.testbit r 31 = true ∧ Z.testbit r 32 = false.
Proof.
  destruct (@vgicd_read_fields RegisterFile sample_layout sample_read sample_vgic 4 VGIC_ISENABLER_ID off_ISENABLER 1)
    as (r & E & Hb); [vm_compute; reflexivity|reflexivity|vm_compute; split; discriminate|vm_compute; reflexivity| |].
  { split; [reflexivity|]. vm_compute. split; [discriminate|reflexivity]. }
  exists r. split; [eexists; split; [exact E|vm_compute; reflexivity]|].
  rewrite !Hb by lia. vm_compute. repeat split.
Defined.
