(* ===== verification/Layout.v ===== *)
(** * Register blocks of the hardware: the packed structs of gic.h, smmuv2.h and uart.h

    The code reaches registers as members of packed structs laid over the hardware.  Their offsets
    come from the order and the sizes of the members; a padding is declared as the difference of the
    offset where it ends and the one where it starts.  This file computes where the members really
    are. *)
From Stdlib Require Import String.
From S2P Require Import Prelude Util Gic VgicEmul.
#[local] Open Scope Z_scope.

(** A register or an array of them, with the size of an element in bytes; a padding
    [uint8_t pad\[hi - lo\]]; a member of size zero aligned to [n] bytes, which starts a new frame. *)
Inductive member := Reg (name : string) (size count : Z) | Pad (hi lo : Z) | Aligned (n : Z).
Arguments Reg name%_string_scope size count.

Definition align_up (a n : Z) : Z := (a + n - 1) / n * n.

(** Name, offset and length of the registers. *)
Fixpoint place (cur : Z) (ms : list member) : list (string * Z * Z) :=
  match ms with
  | [] => []
  | Reg name size count :: ms => (name, cur, size * count) :: place (cur + size * count) ms
  | Pad hi lo :: ms => place (cur + (hi - lo)) ms
  | Aligned n :: ms => place (align_up cur n) ms
  end.
Definition registers (s : list member) : list (string * Z * Z) := place 0 s.

Fixpoint end_of (cur : Z) (ms : list member) : Z :=
  match ms with
  | [] => cur
  | Reg _ size count :: ms => end_of (cur + size * count) ms
  | Pad hi lo :: ms => end_of (cur + (hi - lo)) ms
  | Aligned n :: ms => end_of (align_up cur n) ms
  end.

(** [sizeof] of the struct with the alignment of its attribute. *)
Definition sizeof (s : list member) (alignment : Z) : Z := align_up (end_of 0 s) alignment.

Definition offset_of (s : list member) (name : string) : option Z :=
  match List.find (λ r, String.eqb r.1.1 name) (registers s) with Some r => Some r.1.2 | None => None end.

(** Every padding starts, in its frame, at the offset it names. *)
Fixpoint pads_ok (base cur : Z) (ms : list member) : bool :=
  match ms with
  | [] => true
  | Reg _ size count :: ms => pads_ok base (cur + size * count) ms
  | Pad hi lo :: ms => (base + lo =? cur) && (lo <=? hi) && pads_ok base (cur + (hi - lo)) ms
  | Aligned n :: ms => pads_ok (align_up cur n) (align_up cur n) ms
  end.

Definition GIC_CONFIG_REG (n : Z) : Z := (n * GIC_CONFIG_BITS) / 32.
Definition GIC_NUM_CONFIG_REGS (n : Z) : Z := GIC_CONFIG_REG n.
Definition GIC_SEC_BITS : Z := 2.
Definition GIC_NUM_SEC_REGS (n : Z) : Z := (n * GIC_SEC_BITS) / 32.
Definition GIC_NUM_APR_REGS : Z := Z.shiftl 1 (GIC_PRIO_BITS - 1) / 32.

(** ** The structs *)

Definition gicd_hw : list member :=
  [Reg "CTLR" 4 1; Reg "TYPER" 4 1; Reg "IIDR" 4 1; Pad 0x0010 0x000c; Reg "STATUSR" 4 1; Pad 0x0040 0x0014;
   Reg "SETSPI_NSR" 4 1; Pad 0x0048 0x0044; Reg "CLRSPI_NSR" 4 1; Pad 0x0050 0x004c; Reg "SETSPI_SR" 4 1; Pad 0x0058 0x0054;
   Reg "CLRSPI_SR" 4 1; Pad 0x0080 0x005c; Reg "IGROUPR" 4 (GIC_NUM_INT_REGS GIC_MAX_INTERUPTS);
   Reg "ISENABLER" 4 (GIC_NUM_INT_REGS GIC_MAX_INTERUPTS); Reg "ICENABLER" 4 (GIC_NUM_INT_REGS GIC_MAX_INTERUPTS);
   Reg "ISPENDR" 4 (GIC_NUM_INT_REGS GIC_MAX_INTERUPTS); Reg "ICPENDR" 4 (GIC_NUM_INT_REGS GIC_MAX_INTERUPTS);
   Reg "ISACTIVER" 4 (GIC_NUM_INT_REGS GIC_MAX_INTERUPTS); Reg "ICACTIVER" 4 (GIC_NUM_INT_REGS GIC_MAX_INTERUPTS);
   Reg "IPRIORITYR" 4 (GIC_NUM_PRIO_REGS GIC_MAX_INTERUPTS); Reg "ITARGETSR" 4 (GIC_NUM_TARGET_REGS GIC_MAX_INTERUPTS);
   Reg "ICFGR" 4 (GIC_NUM_CONFIG_REGS GIC_MAX_INTERUPTS); Reg "IGPRMODR" 4 (GIC_NUM_INT_REGS GIC_MAX_INTERUPTS);
   Pad 0x0e00 0x0d80; Reg "NSACR" 4 (GIC_NUM_SEC_REGS GIC_MAX_INTERUPTS); Reg "SGIR" 4 1; Pad 0x0f10 0x0f04;
   Reg "CPENDSGIR" 4 GIC_NUM_SGI_REGS; Reg "SPENDSGIR" 4 GIC_NUM_SGI_REGS; Pad 0x6000 0x0f30;
   Reg "IROUTER" 8 GIC_MAX_INTERUPTS; Pad 0xffd0 0x8000; Reg "ID" 4 ((0x10000 - 0xFFD0) / 4)].

Definition gicr_hw : list member :=
  [Reg "CTLR" 4 1; Reg "IIDR" 4 1; Reg "TYPER" 8 1; Reg "STATUSR" 4 1; Reg "WAKER" 4 1; Pad 0x0040 0x0018;
   Reg "SETLPIR" 8 1; Reg "CLRLPIR" 8 1; Pad 0x0070 0x0050; Reg "PROPBASER" 8 1; Reg "PENDBASER" 8 1; Pad 0x00a0 0x0080;
   Reg "INVLPIR" 8 1; Pad 0x00b0 0x00a8; Reg "INVALLR" 8 1; Pad 0x00c0 0x00b8; Reg "SYNCR" 8 1; Pad 0xffd0 0x00c8;
   Reg "ID" 4 ((0x10000 - 0xFFD0) / 4); Aligned 0x10000; Pad 0x0080 0x000; Reg "IGROUPR0" 4 1; Pad 0x0100 0x084;
   Reg "ISENABLER0" 4 1; Pad 0x0180 0x104; Reg "ICENABLER0" 4 1; Pad 0x0200 0x184; Reg "ISPENDR0" 4 1; Pad 0x0280 0x204;
   Reg "ICPENDR0" 4 1; Pad 0x0300 0x284; Reg "ISACTIVER0" 4 1; Pad 0x0380 0x304; Reg "ICACTIVER0" 4 1; Pad 0x0400 0x384;
   Reg "IPRIORITYR" 4 (GIC_NUM_PRIO_REGS GIC_CPU_PRIV); Pad 0x0c00 0x420; Reg "ICFGR0" 4 1; Reg "ICFGR1" 4 1;
   Pad 0x0d00 0xc08; Reg "IGRPMODR0" 4 1; Pad 0x0e00 0xd04; Reg "NSACR" 4 1].

Definition gicc_hw : list member :=
  [Reg "CTLR" 4 1; Reg "PMR" 4 1; Reg "BPR" 4 1; Reg "IAR" 4 1; Reg "EOIR" 4 1; Reg "RPR" 4 1; Reg "HPPIR" 4 1;
   Reg "ABPR" 4 1; Reg "AIAR" 4 1; Reg "AEOIR" 4 1; Reg "AHPPIR" 4 1; Pad 0x00d0 0x002c; Reg "APR" 4 GIC_NUM_APR_REGS;
   Reg "NSAPR" 4 GIC_NUM_APR_REGS; Pad 0x00fc 0x00f0; Reg "IIDR" 4 1; Pad 0x1000 0x0100; Reg "DIR" 4 1].

Definition gich_hw : list member :=
  [Reg "HCR" 4 1; Reg "VTR" 4 1; Reg "VMCR" 4 1; Pad 0x10 0x0c; Reg "MISR" 4 1; Pad 0x20 0x14;
   Reg "EISR" 4 (GIC_NUM_LIST_REGS / 32); Pad 0x30 0x28; Reg "ELSR" 4 (GIC_NUM_LIST_REGS / 32); Pad 0xf0 0x38;
   Reg "APR" 4 1; Pad 0x100 0x0f4; Reg "LR" 4 GIC_NUM_LIST_REGS].

Definition gicv_hw : list member :=
  [Reg "CTLR" 4 1; Reg "PMR" 4 1; Reg "BPR" 4 1; Reg "IAR" 4 1; Reg "EOIR" 4 1; Reg "RPR" 4 1; Reg "HPPIR" 4 1;
   Reg "ABPR" 4 1; Reg "AIAR" 4 1; Reg "AEOIR" 4 1; Reg "AHPPIR" 4 1; Pad 0xd0 0x2c; Reg "APR" 4 GIC_NUM_APR_REGS;
   Pad 0x00fc 0x00e0; Reg "IIDR" 4 1; Pad 0x1000 0x0100; Reg "DIR" 4 1].

Definition smmu_glbl_rs0_hw : list member :=
  [Reg "CR0" 4 1; Reg "SCR1" 4 1; Reg "CR2" 4 1; Pad 0x10 0x0c; Reg "ACR" 4 1; Pad 0x20 0x14; Reg "IDR0" 4 1;
   Reg "IDR1" 4 1; Reg "IDR2" 4 1; Reg "IDR3" 4 1; Reg "IDR4" 4 1; Reg "IDR5" 4 1; Reg "IDR6" 4 1; Reg "IDR7" 4 1;
   Reg "GFAR" 8 1; Reg "GFSR" 4 1; Reg "GFSRRESTORE" 4 1; Reg "GFSYNR0" 4 1; Reg "GFSYNR1" 4 1; Reg "GFSYNR2" 4 1;
   Pad 0x60 0x5c; Reg "STLBIALL" 4 1; Reg "TLBIVMID" 4 1; Reg "TLBIALLNSNH" 4 1; Reg "TLBIALLH" 4 1; Reg "TLBGSYNC" 4 1;
   Reg "TLBGSTATUS" 4 1; Reg "TLBIVAH" 4 1; Reg "pad4" 4 1; Pad 0xa0 0x80; Reg "STLBIVALM" 8 1; Reg "STLBIVAM" 8 1;
   Reg "TLBIVALH64" 8 1; Reg "TLBIVMIDS1" 4 1; Reg "STLBIALLM" 4 1; Reg "TLBIVAH64" 8 1; Pad 0x100 0xc8; Reg "GATS1UR" 8 1;
   Reg "GATS1UW" 8 1; Reg "GATS1PR" 8 1; Reg "GATS1PW" 8 1; Reg "GATS12UR" 8 1; Reg "GATS12UW" 8 1; Reg "GATS12PR" 8 1;
   Reg "GATS12PW" 8 1; Pad 0x180 0x140; Reg "GPAR" 8 1; Reg "GATSR" 4 1; Pad 0x400 0x18c; Reg "NSCR0" 4 1; Reg "pad7" 4 1;
   Reg "NSCR2" 4 1; Reg "pad8" 4 1; Reg "NSACR" 4 1; Pad 0x420 0x414; Pad 0x440 0x420; Reg "NSGFAR" 8 1; Reg "NSGFSR" 4 1;
   Reg "NSGFSRRESTORE" 4 1; Reg "NSGFSYNR0" 4 1; Reg "NSGFSYNR1" 4 1; Reg "NSGFSYNR2" 4 1; Pad 0x470 0x45c;
   Reg "NSTLBGSYNC" 4 1; Reg "NSTLBGSTATUS" 4 1; Pad 0x480 0x478; Pad 0x4a0 0x480; Pad 0x500 0x4a0; Reg "NSGATS1UR" 8 1;
   Reg "NSGATS1UW" 8 1; Reg "NSGATS1PR" 8 1; Reg "NSGATS1PW" 8 1; Reg "NSGATS12UR" 8 1; Reg "NSGATS12UW" 8 1;
   Reg "NSGATS12PR" 8 1; Reg "NSGATS12PW" 8 1; Pad 0x580 0x540; Reg "NSGPAR" 8 1; Reg "NSGATSR" 4 1; Pad 0x800 0x58c;
   Reg "SMR" 4 128; Pad 0xc00 0xa00; Reg "S2CR" 4 128; Pad 0xfd0 0xe00; Pad 0x1000 0xfd0].

Definition smmu_glbl_rs1_hw : list member :=
  [Reg "CBAR" 4 128; Pad 0x400 0x200; Reg "CBFRSYNRA" 4 128; Pad 0x800 0x600; Reg "CBA2R" 4 128; Pad 0x1000 0xa00].

Definition smmu_cntxt_hw : list member :=
  [Reg "SCTLR" 4 1; Reg "ACTLR" 4 1; Reg "RESUME" 4 1; Pad 0x20 0xc; Reg "TTBR0" 8 1; Pad 0x30 0x28; Reg "TCR" 4 1;
   Pad 0x58 0x34; Reg "FSR" 4 1; Reg "FSRRESTORE" 4 1; Reg "FAR" 8 1; Reg "FSYNR0" 4 1; Reg "FSYNR1" 4 1; Reg "IPAFAR" 8 1;
   Pad 0x630 0x78; Reg "TLBIIPAS2" 8 1; Reg "TLBIIPAS2L" 8 1; Pad 0x7f0 0x640; Reg "TLBSYNC" 4 1; Reg "TLBSTATUS" 4 1;
   Pad 0xe00 0x7f8; Reg "PMEVCNTRm" 4 1; Pad 0xe80 0xe3c; Reg "PMEVTYPERm" 4 1; Pad 0xf00 0xebc; Reg "PMCFGR" 4 1;
   Reg "PMCR" 4 1; Pad 0xf20 0xf08; Reg "PMCEID0" 4 1; Reg "PMCEID1" 4 1; Pad 0xf40 0xf28; Reg "PMCNTENSET" 4 1;
   Reg "PMCNTENCLR" 4 1; Reg "PMINTENSET" 4 1; Reg "PMINTENCLR" 4 1; Reg "PMOVSCLR" 4 1; Pad 0xf58 0xf54;
   Reg "PMOVSSET" 4 1; Pad 0xfb8 0xf5c; Reg "PMAUTHSTATUS" 4 1; Reg "res13" 1 0].

Definition PL011_REGS : list member :=
  [Reg "DR" 4 1; Reg "RSRECR" 4 1; Reg "__empty0__" 4 4; Reg "FR" 4 1; Reg "__empty1__" 4 1; Reg "ILPR" 4 1; Reg "IBRD" 4 1;
   Reg "FBRD" 4 1; Reg "LCRH" 4 1; Reg "CR" 4 1; Reg "IFLS" 4 1; Reg "IMSC" 4 1; Reg "RIS" 4 1; Reg "MIS" 4 1;
   Reg "ICR" 4 1].

(** ** Properties *)

Definition member_ok (m : member) : bool :=
  match m with Reg _ size count => (0 <=? size) && (0 <=? count) | Pad hi lo => lo <=? hi | Aligned n => 0 <? n end.

Lemma align_up_ge a n : 0 < n → a ≤ align_up a n.
Proof. intros Hn. unfold align_up. pose proof (Z.div_mod (a + n - 1) n ltac:(lia)). pose proof (Z.mod_pos_bound (a + n - 1) n Hn). lia. Qed.

Lemma place_from cur ms r : Forall (λ m, member_ok m = true) ms → r ∈ place cur ms → cur ≤ r.1.2.
Proof.
  intros Hok. revert cur. induction Hok as [|m ms Hm _ IH]; intros cur Hr; [by apply elem_of_nil in Hr|].
  destruct m as [name size count|hi lo|n]; cbn in Hm, Hr.
  - apply andb_true_iff in Hm as [H1%Z.leb_le H2%Z.leb_le]. apply elem_of_cons in Hr as [->|Hr]; [done|]. specialize (IH _ Hr). nia.
  - apply Z.leb_le in Hm. specialize (IH _ Hr). lia.
  - apply Z.ltb_lt in Hm. specialize (IH _ Hr). pose proof (align_up_ge cur n Hm). lia.
Qed.

(** Registers follow each other without overlap, whatever the members are. *)
Lemma place_apart cur ms : Forall (λ m, member_ok m = true) ms →
  ∀ i j r r', (i < j)%nat → place cur ms !! i = Some r → place cur ms !! j = Some r' → r.1.2 + r.2 ≤ r'.1.2.
Proof.
  intros Hok. revert cur. induction Hok as [|m ms Hm Hms IH]; intros cur i j r r' Hij Hi Hj; [done|].
  destruct m as [name size count|hi lo|n]; cbn in Hi, Hj; [|by eapply IH..].
  destruct j as [|j]; [lia|]. cbn in Hj. destruct i as [|i]; [|cbn in Hi; eapply (IH _ i j); [lia|done..]].
  injection Hi as <-. cbn [fst snd]. apply list_elem_of_lookup_2 in Hj. by apply (place_from _ ms).
Qed.

Definition hw_structs : list (list member) :=
  [gicd_hw; gicr_hw; gicc_hw; gich_hw; gicv_hw; smmu_glbl_rs0_hw; smmu_glbl_rs1_hw; PL011_REGS].

