(* ===== verification/Gicv3.v ===== *)
(** * The interrupt controller, version 3: src/arch/aarch64/gicv3.c, src/arch/aarch64/inc/gicv3.h
    and what gic.c and arch_interrupts.c do in a build with [gic_version := 3]

    The distributor is that of [Gic]; the private interrupts of a CPU are in its redistributor, the
    CPU interface and the virtual interface are system registers.  They are one device: a read of
    one register may change any other. *)
From S2P Require Import Prelude Util Bits Bitmap Spinlock Cpu Vcpu Gic.

(** ** Registers *)

(** [struct gicr_hw], of one CPU. *)
Inductive gicr_reg :=
| GICR_CTLR | GICR_IIDR | GICR_TYPER | GICR_WAKER | GICR_ID (i : Z)
| IGROUPR0 | ISENABLER0 | ICENABLER0 | ISPENDR0 | ICPENDR0 | ISACTIVER0 | ICACTIVER0 | IPRIORITYR (i : Z) | ICFGR0 | ICFGR1.
#[export] Instance gicr_reg_eq_dec : EqDecision gicr_reg.
Proof. solve_decision. Defined.

Inductive gic3_reg :=
| GICR (id : Z) (r : gicr_reg) | GICD_IROUTER (i : Z)
| ICH_HCR_EL2 | ICH_VTR_EL2 | ICH_MISR_EL2 | ICH_EISR_EL2 | ICH_ELRSR_EL2 | ICH_LR_EL2 (i : Z)
| ICC_IAR1_EL1 | ICC_EOIR1_EL1 | ICC_DIR_EL1 | ICC_PMR_EL1 | ICC_BPR1_EL1 | ICC_CTLR_EL1 | ICC_IGRPEN1_EL1 | ICC_SRE_EL2 | ICC_SGI1R_EL1.
#[export] Instance gic3_reg_eq_dec : EqDecision gic3_reg.
Proof. solve_decision. Defined.

Class Gic3Device := {
  gic3_distributor : GicDevice;
  read3 : gic3_reg → @device gic3_distributor → Z * @device gic3_distributor;
  write3 : gic3_reg → Z → @device gic3_distributor → @device gic3_distributor
}.
#[export] Existing Instance gic3_distributor.

Definition GICD_CTLR_ENA_BIT : Z := 0x2.
Definition GICD_IROUTER_INV : Z := u64 (Z.lnot MPIDR_AFF_MSK).
Definition GICD_IROUTER_RES0_MSK : Z := Z.shiftl 1 40 - 1.
Definition GICD_IROUTER_IRM_BIT : Z := Z.shiftl 1 31.
Definition GICD_IROUTER_AFF_MSK : Z := Z.land GICD_IROUTER_RES0_MSK (u64 (Z.lnot GICD_IROUTER_IRM_BIT)).
Definition GICR_WAKER_ProcessorSleep_BIT : Z := 0x2.
Definition GICR_WAKER_ChildrenASleep_BIT : Z := 0x4.
Definition ICC_CTLR_EOIMode_BIT : Z := Z.shiftl 1 1.
Definition ICC_SGIR_SGIINTID_OFF : Z := 24.
Definition ICC_SGIR_AFF1_OFFSET : Z := 16.
Definition ICC_SRE_ENB_BIT : Z := 0x8.
Definition ICC_SRE_SRE_BIT : Z := 0x1.
Definition ICC_IGRPEN_EL1_ENB_BIT : Z := 0x1.
Definition ICH_HCR_LRENPIE_BIT : Z := GICH_HCR_LRENPIE_BIT.
Definition ICH_VTR_OFF : Z := GICH_VTR_OFF.
Definition ICH_VTR_LEN : Z := GICH_VTR_LEN.
Definition ICH_VTR_MSK : Z := GICH_VTR_MSK.
Definition MPIDR_AFF_LVL (mpidr lvl : Z) : Z := Z.land (Z.shiftr mpidr (8 * lvl)) 0xff.

Section gicv3.
Context `{Gic3Device}.

(** The controller as one CPU sees it: the state of [Gic] and the two locks of gicv3.c, of which
    [route_lock] is the one it calls [gicd_lock], a variable of its own. *)
Record gic3 := { dist : gic; route_lock : spinlock_t; gicr_lock : spinlock_t }.
#[export] Instance eta_gic3 : Eta gic3 := λ g, Build_gic3 (dist g) (route_lock g) (gicr_lock g).

(** [platform.cpu_num], the mpidr of this CPU, and how often a CPU looks whether its
    redistributor is awake. *)
Variable cpu_num mpidr : Z.
Variable wake_fuel : nat.

Definition on_dist {A} (m : prog gic A) : prog gic3 A := lift_prog dist (λ d g, g <| dist := d |>) m.

Definition rd3 (r : gic3_reg) : prog gic3 Z := λ g,
  let '(v, d) := read3 r (dev (dist g)) in Done (v, g <| dist ::= λ x, x <| dev := d |> |>).
Definition wr3 (r : gic3_reg) (v : Z) : prog gic3 unit := modify (λ g, g <| dist ::= λ x, x <| dev ::= write3 r v |> |>).

(** A register of 32 bits of redistributor [id], and a system register. *)
Definition rdr (id : Z) (r : gicr_reg) : prog gic3 Z := rd3 (GICR id r).
Definition wrr (id : Z) (r : gicr_reg) (v : Z) : prog gic3 unit := wr3 (GICR id r) (u32 v).
Definition wrs (r : gic3_reg) (v : Z) : prog gic3 unit := wr3 r (u64 v).

Definition cpu_id : prog gic3 Z := gets (λ g, this_cpu (dist g)).
Definition cpu_id_to_mpidr (id : Z) : Z := platform_arch_cpuid_to_mpidr cpu_num id.

(** ** gicv3.h *)

Definition gich_read_lr (i : Z) : prog gic3 Z :=
  n ← gets (λ g, NUM_LRS (dist g));
  if n <=? i then halt FError else if i <? 16 then rd3 (ICH_LR_EL2 i) else mret 0.
Definition gich_write_lr (i val : Z) : prog gic3 unit :=
  n ← gets (λ g, NUM_LRS (dist g));
  if n <=? i then halt FError else if i <? 16 then wrs (ICH_LR_EL2 i) val else mret tt.
Definition gich_get_hcr : prog gic3 Z := v ← rd3 ICH_HCR_EL2; mret (u32 v).
Definition gich_set_hcr (hcr : Z) : prog gic3 unit := wrs ICH_HCR_EL2 (u32 hcr).
Definition gich_get_misr : prog gic3 Z := v ← rd3 ICH_MISR_EL2; mret (u32 v).
Definition gich_get_eisr : prog gic3 Z := rd3 ICH_EISR_EL2.
Definition gich_get_elrsr : prog gic3 Z := rd3 ICH_ELRSR_EL2.
Definition gicc_iar : prog gic3 Z := v ← rd3 ICC_IAR1_EL1; mret (u32 v).
Definition gicc_eoir (eoir : Z) : prog gic3 unit := wrs ICC_EOIR1_EL1 (u32 eoir).
Definition gicc_dir (dir : Z) : prog gic3 unit := wrs ICC_DIR_EL1 (u32 dir).

(** ** gicv3.c *)

Definition gich_num_lrs : prog gic3 Z :=
  v ← rd3 ICH_VTR_EL2; mret (Z.shiftr (Z.land v ICH_VTR_MSK) ICH_VTR_OFF + 1).

(** [for (i = 0; i < gich_num_lrs(); i++)]: the bound is read again every round. *)
Fixpoint for_lrs (body : Z → prog gic3 unit) (i : Z) (fuel : nat) : prog gic3 unit :=
  match fuel with
  | O => halt FSpin
  | S fuel => n ← gich_num_lrs; if i <? n then body i;; for_lrs body (i + 1) fuel else mret tt
  end.

Definition gicc_init : prog gic3 unit :=
  for_lrs (λ i, gich_write_lr i 0) 0 lrs_fuel;;
  wrs ICC_PMR_EL1 GIC_LOWEST_PRIO;;
  wrs ICC_BPR1_EL1 0x0;;
  wrs ICC_CTLR_EL1 ICC_CTLR_EOIMode_BIT;;
  h ← rd3 ICH_HCR_EL2;
  wrs ICH_HCR_EL2 (Z.lor h ICH_HCR_LRENPIE_BIT);;
  wrs ICC_IGRPEN1_EL1 ICC_IGRPEN_EL1_ENB_BIT.

(** [while (gicr[id].WAKER & GICR_WAKER_ChildrenASleep_BIT);]. *)
Fixpoint wake_loop (id : Z) (n : nat) : prog gic3 unit :=
  match n with
  | O => halt FSpin
  | S n => v ← rdr id GICR_WAKER; if negb (Z.land v GICR_WAKER_ChildrenASleep_BIT =? 0) then wake_loop id n else mret tt
  end.

Definition gicr_init : prog gic3 unit :=
  id ← cpu_id;
  v ← rdr id GICR_WAKER;
  wrr id GICR_WAKER (Z.land v (u32 (Z.lnot GICR_WAKER_ProcessorSleep_BIT)));;
  wake_loop id wake_fuel;;
  wrr id IGROUPR0 (-1);;
  wrr id ICENABLER0 (-1);;
  wrr id ICPENDR0 (-1);;
  wrr id ICACTIVER0 (-1);;
  for_range 0 (GIC_NUM_PRIO_REGS GIC_CPU_PRIV) (λ i, wrr id (IPRIORITYR i) (-1)).

Fixpoint read_prios (id : Z) (a : Z → Z) (i : Z) (n : nat) : prog gic3 (Z → Z) :=
  match n with O => mret a | S n => v ← rdr id (IPRIORITYR i); read_prios id (<[i := v]> a) (i + 1) n end.

Fixpoint save_lrs (a : Z → Z) (i : Z) (fuel : nat) : prog gic3 (Z → Z) :=
  match fuel with
  | O => halt FSpin
  | S fuel => n ← gich_num_lrs; if i <? n then v ← gich_read_lr i; save_lrs (<[i := v]> a) (i + 1) fuel else mret a
  end.

Definition gicc_save_state (st : gicc_state) : prog gic3 gicc_state :=
  id ← cpu_id;
  pmr ← rd3 ICC_PMR_EL1;
  bpr ← rd3 ICC_BPR1_EL1;
  en ← rdr id ISENABLER0;
  prios ← read_prios id (priv_IPRIORITYR st) 0 (Z.to_nat (GIC_NUM_PRIO_REGS GIC_CPU_PRIV));
  hcr ← rd3 ICH_HCR_EL2;
  lrs ← save_lrs (st_LR st) 0 lrs_fuel;
  mret (st <| st_PMR := u32 pmr |> <| st_BPR := u32 bpr |> <| priv_ISENABLER := en |> <| priv_IPRIORITYR := prios |>
          <| st_HCR := u32 hcr |> <| st_LR := lrs |>).

Definition gicc_restore_state (st : gicc_state) : prog gic3 unit :=
  id ← cpu_id;
  wrs ICC_SRE_EL2 ICC_SRE_SRE_BIT;;
  wrs ICC_CTLR_EL1 ICC_CTLR_EOIMode_BIT;;
  wrs ICC_IGRPEN1_EL1 ICC_IGRPEN_EL1_ENB_BIT;;
  wrs ICC_PMR_EL1 (st_PMR st);;
  wrs ICC_BPR1_EL1 (st_BPR st);;
  wrr id ISENABLER0 (priv_ISENABLER st);;
  for_range 0 (GIC_NUM_PRIO_REGS GIC_CPU_PRIV) (λ i, wrr id (IPRIORITYR i) (priv_IPRIORITYR st i));;
  wrs ICH_HCR_EL2 (st_HCR st);;
  for_lrs (λ i, gich_write_lr i (st_LR st i)) 0 lrs_fuel.

Definition gic_cpu_init : prog gic3 unit := gicr_init;; gicc_init.

(** *** Redistributors *)

Definition with_gicr_lock {A} (body : prog gic3 A) : prog gic3 A :=
  acquire gicr_lock;; r ← body; release gicr_lock;; mret r.

(** The bits of [mask] of a register become those of [val] at [off]. *)
Definition update_gicr (id : Z) (r : gicr_reg) (mask off val : Z) : prog gic3 unit :=
  v ← rdr id r;
  wrr id r (Z.lor (Z.land v (u32 (Z.lnot mask))) (Z.land (u32 (Z.shiftl val off)) mask)).

Definition gicr_set_prio (int_id prio gicr_id : Z) : prog gic3 unit :=
  let reg_ind := GIC_PRIO_REG int_id in
  let off := GIC_PRIO_OFF int_id in
  let mask := BIT32_MASK off GIC_PRIO_BITS in
  with_gicr_lock (update_gicr gicr_id (IPRIORITYR reg_ind) mask off prio).

Definition gicr_get_prio (int_id gicr_id : Z) : prog gic3 Z :=
  let reg_ind := GIC_PRIO_REG int_id in
  let off := GIC_PRIO_OFF int_id in
  with_gicr_lock (v ← rdr gicr_id (IPRIORITYR reg_ind); mret (u8 (Z.land (Z.shiftr v off) (BIT32_MASK off GIC_PRIO_BITS)))).

Definition gicr_set_icfgr (int_id cfg gicr_id : Z) : prog gic3 unit :=
  let reg_ind := (int_id * GIC_CONFIG_BITS) / 32 in
  let off := (int_id * GIC_CONFIG_BITS) mod 32 in
  let mask := u32 (Z.shiftl (Z.shiftl 1 GIC_CONFIG_BITS - 1) off) in
  with_gicr_lock (if reg_ind =? 0 then update_gicr gicr_id ICFGR0 mask off cfg else update_gicr gicr_id ICFGR1 mask off cfg).

Definition gicr_set_pend (int_id : Z) (pend : bool) (gicr_id : Z) : prog gic3 unit :=
  with_gicr_lock (if pend then wrr gicr_id ISPENDR0 (Z.shiftl 1 int_id) else wrr gicr_id ICPENDR0 (Z.shiftl 1 int_id)).

Definition gicr_get_pend (int_id gicr_id : Z) : prog gic3 bool :=
  if gic_is_priv int_id then v ← rdr gicr_id ISPENDR0; mret (negb (Z.land v (GIC_INT_MASK int_id) =? 0)) else mret false.

Definition gicr_set_act (int_id : Z) (act : bool) (gicr_id : Z) : prog gic3 unit :=
  with_gicr_lock (if act then wrr gicr_id ISACTIVER0 (GIC_INT_MASK int_id) else wrr gicr_id ICACTIVER0 (GIC_INT_MASK int_id)).

Definition gicr_get_act (int_id gicr_id : Z) : prog gic3 bool :=
  if gic_is_priv int_id then v ← rdr gicr_id ISACTIVER0; mret (negb (Z.land v (GIC_INT_MASK int_id) =? 0)) else mret false.

Definition gicr_set_enable (int_id : Z) (en : bool) (gicr_id : Z) : prog gic3 unit :=
  let bit := GIC_INT_MASK int_id in
  with_gicr_lock (if en then wrr gicr_id ISENABLER0 bit else wrr gicr_id ICENABLER0 bit).

Definition gicd_set_route (int_id route : Z) : prog gic3 unit :=
  if gic_is_priv int_id then mret tt
  else
    acquire route_lock;;
    wr3 (GICD_IROUTER int_id) (Z.land route GICD_IROUTER_AFF_MSK);;
    release route_lock.

Definition gic_send_sgi (cpu_target sgi_num : Z) : prog gic3 unit :=
  if sgi_num <? GIC_MAX_SGIS then
    let mpidr := Z.land (cpu_id_to_mpidr cpu_target) MPIDR_AFF_MSK in
    let sgi := Z.lor (Z.lor (Z.shiftl (MPIDR_AFF_LVL mpidr 1) ICC_SGIR_AFF1_OFFSET) (u64 (Z.shiftl 1 (MPIDR_AFF_LVL mpidr 0))))
                 (Z.shiftl sgi_num ICC_SGIR_SGIINTID_OFF) in
    wrs ICC_SGI1R_EL1 sgi
  else mret tt.

(** *** An interrupt, of this CPU or shared *)

Definition gic_set_prio (int_id prio : Z) : prog gic3 unit :=
  if negb (gic_is_priv int_id) then on_dist (gicd_set_prio int_id prio) else id ← cpu_id; gicr_set_prio int_id prio id.
Definition gic_get_prio (int_id : Z) : prog gic3 Z :=
  if negb (gic_is_priv int_id) then on_dist (gicd_get_prio int_id) else id ← cpu_id; gicr_get_prio int_id id.
Definition gic_set_icfgr (int_id cfg : Z) : prog gic3 unit :=
  if negb (gic_is_priv int_id) then on_dist (gicd_set_icfgr int_id cfg) else id ← cpu_id; gicr_set_icfgr int_id cfg id.
Definition gic_set_pend (int_id : Z) (pend : bool) : prog gic3 unit :=
  if negb (gic_is_priv int_id) then on_dist (gicd_set_pend int_id pend) else id ← cpu_id; gicr_set_pend int_id pend id.
Definition gic_get_pend (int_id : Z) : prog gic3 bool :=
  if negb (gic_is_priv int_id) then on_dist (gicd_get_pend int_id) else id ← cpu_id; gicr_get_pend int_id id.
Definition gic_set_act (int_id : Z) (act : bool) : prog gic3 unit :=
  if negb (gic_is_priv int_id) then on_dist (gicd_set_act int_id act) else id ← cpu_id; gicr_set_act int_id act id.
Definition gic_get_act (int_id : Z) : prog gic3 bool :=
  if negb (gic_is_priv int_id) then on_dist (gicd_get_act int_id) else id ← cpu_id; gicr_get_act int_id id.
Definition gic_set_enable (int_id : Z) (en : bool) : prog gic3 unit :=
  if negb (gic_is_priv int_id) then on_dist (gicd_set_enable int_id en) else id ← cpu_id; gicr_set_enable int_id en id.

(** ** gic.c and arch_interrupts.c of this build *)

Definition gicd_init (maintenance_id : Z) : prog gic3 unit :=
  int_num ← on_dist gic_num_irqs;
  on_dist (for_range GIC_NUM_PRIVINT_REGS (GIC_NUM_INT_REGS int_num) (λ i,
    wr (GICD_IGROUPR i) ALL_ONES;;
    wr (GICD_ICENABLER i) ALL_ONES;;
    wr (GICD_ICPENDR i) ALL_ONES;;
    wr (GICD_ICACTIVER i) ALL_ONES));;
  on_dist (for_range (GIC_NUM_PRIO_REGS GIC_CPU_PRIV) (GIC_NUM_PRIO_REGS int_num) (λ i, wr (GICD_IPRIORITYR i) ALL_ONES));;
  for_range GIC_CPU_PRIV GIC_MAX_INTERUPTS (λ i, wr3 (GICD_IROUTER i) GICD_IROUTER_INV);;
  v ← on_dist (rd GICD_CTLR);
  on_dist (wr GICD_CTLR (Z.lor v (Z.lor GICD_CTLR_ARE_NS_BIT GICD_CTLR_ENA_BIT)));;
  on_dist (interrupts_reserve maintenance_id gic_maintenance_handler_id).

(** The two barriers do not change the controller; mapping the registers sets two pointers. *)
Definition gic_init (maintenance_id : Z) : prog gic3 unit :=
  wrs ICC_SRE_EL2 (Z.lor ICC_SRE_SRE_BIT ICC_SRE_ENB_BIT);;
  c ← cpu_id;
  (if c =? CPU_MASTER then
     gicd_init maintenance_id;;
     n ← gich_num_lrs;
     modify (λ g, g <| dist ::= λ x, x <| NUM_LRS := n |> |>)
   else mret tt);;
  gic_cpu_init.

Definition interrupts_arch_enable (int_id : Z) (en : bool) : prog gic3 unit :=
  gic_set_enable int_id en;;
  gic_set_prio int_id 0x01;;
  gicd_set_route int_id mpidr.

Definition interrupts_arch_init (maintenance_id : Z) : prog gic3 unit :=
  gic_init maintenance_id;;
  interrupts_arch_enable maintenance_id true.

Definition interrupts_arch_ipi_send (target_cpu ipi_id : Z) : prog gic3 unit :=
  if ipi_id <? GIC_MAX_SGIS then gic_send_sgi target_cpu ipi_id else mret tt.

Definition interrupts_arch_clear (int_id : Z) : prog gic3 unit :=
  gic_set_act int_id false;; gic_set_pend int_id false.

Definition interrupts_arch_check (int_id : Z) : prog gic3 bool := gic_get_pend int_id.

End gicv3.

(** ** What the hardware makes of it *)

(** The CPUs a write of ICC_SGI1R_EL1 interrupts, by their affinity, and the interrupt it raises. *)
Definition sgi_bits (v off len : Z) : Z := Z.shiftr v off mod 2 ^ len.
Definition sgi_intid (v : Z) : Z := sgi_bits v 24 4.
Definition sgi_hits (v aff3 aff2 aff1 aff0 : Z) : bool :=
  negb (Z.testbit v 40) && (sgi_bits v 48 8 =? aff3) && (sgi_bits v 32 8 =? aff2) && (sgi_bits v 16 8 =? aff1) &&
  (sgi_bits v 44 4 =? aff0 / 16) && Z.testbit v (aff0 mod 16).

Definition sgi_value (aff1 aff0 intid : Z) : Z := Z.lor (Z.lor (Z.shiftl aff1 16) (u64 (Z.shiftl 1 aff0))) (Z.shiftl intid 24).

Lemma sgi_value_bits aff1 aff0 intid i :
  in_word 8 aff1 → 0 ≤ aff0 < 16 → in_word 4 intid → 0 ≤ i →
  Z.testbit (sgi_value aff1 aff0 intid) i = (16 <=? i) && (i <? 24) && Z.testbit aff1 (i - 16) || (i =? aff0) || (24 <=? i) && Z.testbit intid (i - 24).
Proof.
  intros H1 H0 Hi Hi0. unfold sgi_value. rewrite !Z.lor_spec, testbit_wrap, !testbit_shiftl, testbit_1 by lia.
  destruct (Z.leb_spec 24 i); destruct (Z.leb_spec 16 i); destruct (Z.ltb_spec i 24); destruct (Z.ltb_spec i 64); try lia;
    destruct (Z.eqb_spec (i - aff0) 0); destruct (Z.eqb_spec i aff0); try lia; cbn; rewrite ?orb_false_r, ?orb_true_r; try done.
  all: rewrite ?(testbit_small 8 aff1) by (done || lia); rewrite ?(Z.testbit_neg_r intid) by lia; rewrite ?(Z.testbit_neg_r aff1) by lia; rewrite ?orb_false_r; try done.
Qed.

(** A field of bits, read and compared. *)
Lemma sgi_bits_eq v off len x : 0 ≤ off → 0 < len → in_word len x → (∀ i, 0 ≤ i < len → Z.testbit v (i + off) = Z.testbit x i) → sgi_bits v off len = x.
Proof.
  intros Ho Hl Hx Hv. unfold sgi_bits. rewrite <-Z.land_ones by lia. apply Z.bits_inj'. intros i Hi.
  rewrite Z.land_spec, testbit_shiftr, Z.testbit_ones by lia. zcase; rewrite ?andb_true_r, ?andb_false_r; [by apply Hv|].
  by rewrite (testbit_small len x) by (done || lia).
Qed.

Lemma sgi_value_hits aff1 aff0 intid a3 a2 a1 a0 :
  in_word 8 aff1 → 0 ≤ aff0 < 16 → in_word 4 intid → 0 ≤ a0 < 256 →
  sgi_intid (sgi_value aff1 aff0 intid) = intid ∧
  sgi_hits (sgi_value aff1 aff0 intid) a3 a2 a1 a0 = (a3 =? 0) && (a2 =? 0) && (a1 =? aff1) && (a0 =? aff0).
Proof.
  intros H1 H0 Hi Ha. assert (∀ i, 0 ≤ i → Z.testbit (sgi_value aff1 aff0 intid) i = _) as Hb by (intros i Hi0; by apply sgi_value_bits).
  assert (sgi_bits (sgi_value aff1 aff0 intid) 24 4 = intid) as E24.
  { apply sgi_bits_eq; [lia|lia|done|]. intros i Hi0. rewrite Hb by lia. zcase; cbn; try lia. f_equal. lia. }
  assert (∀ off len, 28 ≤ off → 0 < len → sgi_bits (sgi_value aff1 aff0 intid) off len = 0) as E0.
  { intros off len Ho Hl. apply sgi_bits_eq; [lia|lia|split; [lia|]; apply Z.pow_pos_nonneg; lia|]. intros i Hi0. rewrite Hb, Z.testbit_0_l by lia.
    rewrite (testbit_small 4 intid) by (done || lia). zcase; cbn; try lia; done. }
  assert (sgi_bits (sgi_value aff1 aff0 intid) 16 8 = aff1) as E16.
  { apply sgi_bits_eq; [lia|lia|done|]. intros i Hi0. rewrite Hb by lia. zcase; cbn; try lia. rewrite !orb_false_r. f_equal. lia. }
  split; [exact E24|]. unfold sgi_hits. rewrite E16, !E0 by lia. rewrite !Hb by (try lia; apply Z.mod_pos_bound; lia).
  pose proof (Z.mod_pos_bound a0 16 ltac:(lia)) as Hm. pose proof (Z.div_mod a0 16 ltac:(lia)) as Hd.
  replace (Z.testbit intid (40 - 24)) with false by (symmetry; by apply (testbit_small 4)).
  rewrite (Z.eqb_sym 0 a3), (Z.eqb_sym 0 a2), (Z.eqb_sym aff1 a1). 
  destruct (a3 =? 0), (a2 =? 0), (a1 =? aff1); cbn [andb negb orb Z.leb]; zcase; cbn; try done; try lia.
Qed.

(** The affinity of a CPU of the platform is its number, in two levels. *)
Lemma mpidr_levels cpu_num c :
  0 ≤ c ≤ cpu_num → c < 2 ^ 16 →
  let m := cpu_id_to_mpidr cpu_num c in
  MPIDR_AFF_LVL m 0 = c mod 256 ∧ MPIDR_AFF_LVL m 1 = c / 256 ∧ MPIDR_AFF_LVL m 2 = 0 ∧ MPIDR_AFF_LVL m 4 = 0 ∧ Z.land m MPIDR_AFF_MSK = c.
Proof.
  intros Hc Hb m. assert (∃ k, m = Z.lor c k ∧ (k = 0x80000000 ∨ k = 0xc0000000)) as (k & -> & Hk).
  { unfold m, cpu_id_to_mpidr, platform_arch_cpuid_to_mpidr. destruct (Z.ltb_spec cpu_num c); [lia|].
    destruct (cpu_num =? 1); [|by exists 0x80000000; auto]. exists 0xc0000000. split; [|by right]. by rewrite <-Z.lor_assoc. }
  assert (∀ s, 0 ≤ s → Z.land (Z.shiftr (Z.lor c k) s) 0xff = Z.lor (Z.shiftr c s mod 256) (Z.land (Z.shiftr k s) 0xff)) as Hs.
  { intros s Hs. rewrite Z.shiftr_lor, Z.land_lor_distr_l. f_equal. change 0xff with (Z.ones 8). by rewrite Z.land_ones by lia. }
  unfold MPIDR_AFF_LVL. rewrite !Hs, !Z.shiftr_div_pow2 by lia. change (2 ^ (8 * 0)) with 1. change (2 ^ (8 * 1)) with 256. change (2 ^ (8 * 2)) with 0x10000. change (2 ^ (8 * 4)) with 0x100000000.
  rewrite Z.div_1_r, (Z.div_small c 0x10000), (Z.div_small c 0x100000000), (Z.mod_small (c / 256)) by (lia || (split; [apply Z.div_pos; lia|apply Z.div_lt_upper_bound; lia])).
  assert (Z.land (Z.lor c k) MPIDR_AFF_MSK = Z.lor (c mod 2 ^ 16) (Z.land k MPIDR_AFF_MSK)) as ->.
  { rewrite Z.land_lor_distr_l. f_equal. change MPIDR_AFF_MSK with (Z.ones 16). by rewrite Z.land_ones by lia. }
  rewrite (Z.mod_small c (2 ^ 16)) by lia.
  destruct Hk as [-> | ->]; split_and!; try (by vm_compute); match goal with |- Z.lor ?x ?y = _ => change y with 0; apply Z.lor_0_r end.
Qed.

(** Where a register of redistributor [id] keeps the priority of interrupt [int_id]: its byte [int_id mod 4]. *)
Definition prio_byte (v int_id : Z) : Z := sgi_bits v (8 * (int_id mod 4)) 8.

Section laws.
Context `{Gic3Device}.

(** The priority registers are memory. *)
Class Gic3Laws := {
  prio_read id i d : (read3 (GICR id (IPRIORITYR i)) d).2 = d ∧ in_word 32 (read3 (GICR id (IPRIORITYR i)) d).1;
  prio_write id i v d : in_word 32 v → (read3 (GICR id (IPRIORITYR i)) (write3 (GICR id (IPRIORITYR i)) v d)).1 = v
}.

(** What update of a byte leaves in the word. *)
Definition put_byte (v p k : Z) : Z :=
  let mask := BIT32_MASK (8 * k) GIC_PRIO_BITS in Z.lor (Z.land v (u32 (Z.lnot mask))) (Z.land (u32 (Z.shiftl p (8 * k))) mask).

Lemma testbit_put_byte v p k i : 0 ≤ k < 4 → in_word 32 v → 0 ≤ i →
  Z.testbit (put_byte v p k) i = if (8 * k <=? i) && (i <? 8 * k + 8) then Z.testbit p (i - 8 * k) else Z.testbit v i.
Proof using.
  intros Hk Hv Hi. unfold put_byte, GIC_PRIO_BITS. rewrite Z.lor_spec, !Z.land_spec, !testbit_wrap, Z.lnot_spec, testbit_BIT_MASK, testbit_shiftl by lia.
  destruct (Z.ltb_spec i 32); [zcase; cbn; rewrite ?andb_true_r, ?andb_false_r, ?orb_false_r; done|].
  rewrite (testbit_small 32 v) by (done || lia). zcase; cbn; rewrite ?andb_false_r; done.
Qed.

Lemma put_byte_word v p k : 0 ≤ k < 4 → in_word 32 v → in_word 32 (put_byte v p k).
Proof using.
  intros Hk Hv. assert (put_byte v p k = wrap 32 (put_byte v p k)) as ->; [|by apply wrap_in_word].
  apply Z.bits_inj'. intros i Hi. rewrite testbit_wrap, testbit_put_byte by (done || lia).
  destruct (Z.ltb_spec i 32); [done|]. zcase; cbn; try done; try lia; apply (testbit_small 32); (done || lia).
Qed.

Lemma prio_byte_put v p k j : 0 ≤ k < 4 → 0 ≤ j < 4 → in_word 32 v → in_word 8 p →
  sgi_bits (put_byte v p k) (8 * j) 8 = if j =? k then p else sgi_bits v (8 * j) 8.
Proof using.
  intros Hk Hj Hv Hp. unfold sgi_bits. rewrite <-!Z.land_ones by lia. destruct (Z.eqb_spec j k) as [->|]; apply Z.bits_inj'; intros i Hi;
    rewrite ?Z.land_spec, ?testbit_shiftr, ?Z.testbit_ones, testbit_put_byte by (done || lia).
  - destruct (Z.ltb_spec i 8); [|by rewrite (testbit_small 8 p i), !andb_false_r by (done || lia)]. zcase. rewrite andb_true_r. cbn. f_equal. lia.
  - zcase; cbn; rewrite ?andb_false_r; try done; lia.
Qed.

Lemma prio_read_back v k : 0 ≤ k < 4 → in_word 32 v →
  u8 (Z.land (Z.shiftr v (8 * k)) (BIT32_MASK (8 * k) GIC_PRIO_BITS)) = if k =? 0 then sgi_bits v 0 8 else 0.
Proof using.
  intros Hk Hv. unfold sgi_bits, GIC_PRIO_BITS. rewrite <-Z.land_ones by lia. destruct (Z.eqb_spec k 0) as [->|]; apply Z.bits_inj'; intros i Hi;
    rewrite testbit_wrap, Z.land_spec, testbit_BIT_MASK, ?Z.land_spec, ?testbit_shiftr, ?Z.testbit_ones, ?Z.testbit_0_l by lia; zcase; cbn; rewrite ?andb_true_r, ?andb_false_r; try done; lia.
Qed.

(** A critical section of [gicr_lock] that does one access. *)
Definition prio_word (d : @device gic3_distributor) (id j : Z) : Z := (read3 (GICR id (IPRIORITYR (j / 4))) d).1.
Definition prio_of (d : @device gic3_distributor) (id j : Z) : Z := sgi_bits (prio_word d id j) (8 * (j mod 4)) 8.

(** C37: an SGI reaches the CPU it is for.  For CPUs whose number within their cluster is below 16,
    [gic_send_sgi] performs one write, which makes the hardware raise that SGI on exactly
    the CPU asked for. *)
Theorem gic_send_sgi_hits cpu_num g cpu sgi_num :
  0 ≤ sgi_num < GIC_MAX_SGIS → 0 ≤ cpu ≤ cpu_num → cpu < 2 ^ 16 → cpu mod 256 < 16 →
  ∃ v, gic_send_sgi cpu_num cpu sgi_num g = Done (tt, g <| dist ::= λ x, x <| dev ::= write3 ICC_SGI1R_EL1 v |> |>) ∧ sgi_intid v = sgi_num ∧
    ∀ c, 0 ≤ c ≤ cpu_num → c < 2 ^ 16 →
      let m := cpu_id_to_mpidr cpu_num c in
      sgi_hits v (MPIDR_AFF_LVL m 4) (MPIDR_AFF_LVL m 2) (MPIDR_AFF_LVL m 1) (MPIDR_AFF_LVL m 0) = (c =? cpu).
Proof.
  intros Hs Hc Hb Hlow. unfold GIC_MAX_SGIS in Hs. destruct (mpidr_levels cpu_num cpu Hc Hb) as (_ & _ & _ & _ & Hm).
  assert (in_word 8 (cpu / 256)) as W1 by (split; [apply Z.div_pos; lia|apply Z.div_lt_upper_bound; lia]).
  assert (0 ≤ cpu mod 256 < 16) as W0 by (split; [apply Z.mod_pos_bound; lia|done]).
  assert (in_word 4 sgi_num) as Wi by done.
  exists (sgi_value (cpu / 256) (cpu mod 256) sgi_num). split; [|split].
  - unfold gic_send_sgi. destruct (Z.ltb_spec sgi_num GIC_MAX_SGIS); [|unfold GIC_MAX_SGIS in *; lia]. rewrite Hm. unfold MPIDR_AFF_LVL.
    assert (∀ s, Z.land (Z.shiftr cpu s) 0xff = Z.shiftr cpu s mod 256) as Hl by (intros s; change 0xff with (Z.ones 8); by rewrite Z.land_ones by lia).
    rewrite !Hl, !Z.shiftr_div_pow2 by lia. change (2 ^ (8 * 0)) with 1. change (2 ^ (8 * 1)) with 256. rewrite Z.div_1_r, (Z.mod_small (cpu / 256)) by done.
    unfold wrs, wr3. change (Z.lor _ _) with (sgi_value (cpu / 256) (cpu mod 256) sgi_num). rewrite (wrap_small 64 (sgi_value _ _ _)); [done|].
    unfold sgi_value. apply in_word_lor; [lia|apply in_word_lor; [lia| |by apply wrap_in_word]|];
      split; rewrite ?Z.shiftl_mul_pow2 by lia; unfold in_word in *; try lia.
  - by apply sgi_value_hits with (a3 := 0) (a2 := 0) (a1 := 0) (a0 := 0).
  - intros c Hcn Hcb. cbv zeta. destruct (mpidr_levels cpu_num c Hcn Hcb) as (-> & -> & -> & -> & _).
    destruct (sgi_value_hits (cpu / 256) (cpu mod 256) sgi_num 0 0 (c / 256) (c mod 256) W1 W0 Wi ltac:(apply Z.mod_pos_bound; lia)) as [_ ->].
    rewrite !Z.eqb_refl. cbn [andb]. destruct (Z.eqb_spec c cpu) as [->|Hne]; [by rewrite !Z.eqb_refl|].
    destruct (Z.eqb_spec (c / 256) (cpu / 256)); [|done]. destruct (Z.eqb_spec (c mod 256) (cpu mod 256)); [|done]. exfalso. apply Hne.
    rewrite (Z.div_mod c 256), (Z.div_mod cpu 256) by lia. congruence.
Qed.

Lemma prio_split int_id : 0 ≤ int_id → GIC_PRIO_REG int_id = int_id / 4 ∧ GIC_PRIO_OFF int_id = 8 * (int_id mod 4).
Proof using. intros ?. unfold GIC_PRIO_REG, GIC_PRIO_OFF, GIC_PRIO_BITS. dlia. Qed.

Context `{!Gic3Laws}.

Lemma rdr_prio id i (g : gic3) : rdr id (IPRIORITYR i) g = Done ((read3 (GICR id (IPRIORITYR i)) (dev (dist g))).1, g).
Proof using All.
  unfold rdr, rd3. destruct (prio_read id i (dev (dist g))) as [E _]. destruct (read3 _ _) as [v d]. cbn in E. subst d.
  by destruct g as [[] ? ?].
Qed.

Lemma with_gicr_lock_run {A} (m : prog gic3 A) (g g' : gic3) a :
  lock_free (gicr_lock g) → m (g <| gicr_lock := lock_taken (gicr_lock g) |>) = Done (a, g') →
  with_gicr_lock m g = Done (a, g' <| gicr_lock ::= spin_unlock |>).
Proof using.
  intros Hl Hm. unfold with_gicr_lock. rewrite bind_acquire by done. by rewrite (prog_bind_done _ _ _ _ _ Hm).
Qed.

(** [gicr_set_prio] sets the priority of its interrupt and no other of the four of the register; what
    [gicr_get_prio] then returns is that priority for the first interrupt of the register only. *)
Theorem gicr_prio_read_back (g : gic3) int_id p id :
  lock_free (gicr_lock g) → 0 ≤ int_id → in_word 8 p →
  ∃ d g', gicr_set_prio int_id p id g = Done (tt, g <| gicr_lock ::= lock_cycle |> <| dist ::= λ x, x <| dev := d |> |>) ∧
    (∀ j, 0 ≤ j → j / 4 = int_id / 4 → prio_of d id j = if j =? int_id then p else prio_of (dev (dist g)) id j) ∧
    gicr_get_prio int_id id (g <| gicr_lock ::= lock_cycle |> <| dist ::= λ x, x <| dev := d |> |>) =
      Done (if int_id mod 4 =? 0 then p else 0, g').
Proof using All.
  intros Hl Hi Hp. destruct (prio_split int_id Hi) as [Er Eo]. set (w := prio_word (dev (dist g)) id int_id).
  assert (in_word 32 w) as Hw by apply prio_read. assert (0 ≤ int_id mod 4 < 4) as Hm by dlia.
  set (d := write3 (GICR id (IPRIORITYR (int_id / 4))) (put_byte w p (int_id mod 4)) (dev (dist g))).
  assert (∀ j, j / 4 = int_id / 4 → prio_word d id j = put_byte w p (int_id mod 4)) as Hd.
  { intros j Ej. unfold prio_word, d. rewrite Ej. by apply prio_write, put_byte_word. }
  exists d, (g <| gicr_lock ::= λ l, lock_cycle (lock_cycle l) |> <| dist ::= λ x, x <| dev := d |> |>). split; [|split].
  - unfold gicr_set_prio. rewrite Er, Eo. erewrite with_gicr_lock_run; [|done|unfold update_gicr; rewrite (prog_bind_done _ _ _ _ _ (rdr_prio _ _ _)); done].
    rewrite wrap_small by (by apply put_byte_word). by destruct g as [[] ? ?].
  - intros j Hj Ej. unfold prio_of at 1. rewrite (Hd j Ej), prio_byte_put by (done || dlia). unfold prio_of, w, prio_word. rewrite Ej.
    destruct (Z.eqb_spec (j mod 4) (int_id mod 4)); destruct (Z.eqb_spec j int_id); try done; exfalso; dlia.
  - unfold gicr_get_prio. rewrite Er, Eo.
    erewrite with_gicr_lock_run; [|by apply lock_cycle_free|rewrite (prog_bind_done _ _ _ _ _ (rdr_prio _ _ _)); reflexivity].
    change ((read3 _ _).1) with (prio_word d id int_id). rewrite Hd by done. rewrite prio_read_back by (done || by apply put_byte_word).
    assert ((if int_id mod 4 =? 0 then sgi_bits (put_byte w p (int_id mod 4)) 0 8 else 0) = if int_id mod 4 =? 0 then p else 0) as ->; [|by destruct g].
    destruct (Z.eqb_spec (int_id mod 4) 0) as [->|]; [|done]. change 0 with (8 * 0) at 2. by rewrite prio_byte_put by (done || lia).
Qed.
End laws.

(** ** A controller whose registers are memory *)

Definition RegisterFile3 : Gic3Device :=
  let D := {| device := (gic_reg → Z) * (gic3_reg → Z);
              read_reg r d := (u32 (d.1 r), d);
              write_reg r v d := (<[r := v]> d.1, d.2) |} in
  {| gic3_distributor := D; read3 r d := (match r with GICR _ _ => u32 (d.2 r) | _ => u64 (d.2 r) end, d); write3 r v d := (d.1, <[r := v]> d.2) |}.

Definition sample_regs : gic3_reg → Z := λ r, match r with GICR _ (IPRIORITYR i) => 0x80604020 | _ => 0 end.

Definition sample_gic3 (n c : Z) : @gic3 RegisterFile3 := {|
  dist := {| dev := ((λ _, 0), sample_regs) : @device (@gic3_distributor RegisterFile3);
             Gic.gicd_lock := SPINLOCK_INITVAL; gic_cpu_map := λ i, i; NUM_LRS := n; this_cpu := c;
             hyp_interrupt_bitmap := λ _, 0; global_interrupt_bitmap := λ _, 0; interrupt_handlers := λ _, None |};
  route_lock := SPINLOCK_INITVAL; gicr_lock := SPINLOCK_INITVAL |}.

Lemma gic_send_sgi_hits_witness :
  ∃ v, sgi_intid v = 3 ∧ sgi_hits v 0 0 0 2 = true ∧ @gic_send_sgi RegisterFile3 4 2 3 (sample_gic3 4 0) =
    Done (tt, sample_gic3 4 0 <| dist ::= λ x, x <| dev ::= write3 ICC_SGI1R_EL1 v |> |>).
Proof.
  destruct (@gic_send_sgi_hits RegisterFile3 4 (sample_gic3 4 0) 2 3) as (v & E & Hi & Hh); [done|lia|lia|by vm_compute|].
  exists v. split; [exact Hi|]. split; [|exact E]. exact (Hh 2 ltac:(lia) ltac:(lia)).
Defined.

Lemma RegisterFile3_laws : @Gic3Laws RegisterFile3.
Proof.
  constructor.
  - intros id i d. split; [reflexivity|]. apply wrap_in_word. lia.
  - intros id i v d Hv. etransitivity; [|exact (wrap_small 32 v Hv)]. exact (f_equal u32 (fn_lookup_insert (A := gic3_reg) (snd d) (GICR id (IPRIORITYR i)) v)).
Qed.

(** Interrupt 6 of CPU 1: its priority is written next to the others, and reads as 0. *)
Lemma gicr_prio_read_back_witness :
  ∃ d g', @gicr_set_prio RegisterFile3 6 0xa0 1 (sample_gic3 4 0) = Done (tt, sample_gic3 4 0 <| gicr_lock ::= lock_cycle |> <| dist ::= λ x, x <| dev := d |> |>) ∧
    map (prio_of d 1) [4; 5; 6; 7] = [0x20; 0x40; 0xa0; 0x80] ∧
    @gicr_get_prio RegisterFile3 6 1 (sample_gic3 4 0 <| gicr_lock ::= lock_cycle |> <| dist ::= λ x, x <| dev := d |> |>) = Done (0, g').
Proof.
  destruct (@gicr_prio_read_back RegisterFile3 RegisterFile3_laws (sample_gic3 4 0) 6 0xa0 1) as (d & g' & E & Hb & Er); [by split|lia|done|].
  exists d, g'. split; [exact E|]. split; [|exact Er]. cbn [map]. rewrite !Hb by (lia || reflexivity). by vm_compute.
Defined.
