(* ===== verification/Vgic3.v ===== *)
(** * Virtual interrupts with a GICv3: the list registers, src/arch/aarch64/vgic.c,
    src/arch/aarch64/inc/vgic.h, src/arch/aarch64/inc/vgicv3.h and the routes of
    src/arch/aarch64/vgicv3.c

    What [Vgic] is for a build with [gic_version := 2], for one with [gic_version := 3]: an interrupt
    has a route in place of targets, a list register has 64 bits and is a system register, SGIs
    have no sources.  The register emulation is in [Vgic3Emul]. *)
From S2P Require Import Prelude Util Bits Bitmap Spinlock ListHead Emul Cpu Ipi Vcpu Gic Vgic VgicEmul Gicv3.

(** ** The list registers of gic.h in this build *)

Definition GICH_LR_VID_OFF : Z := 0.
Definition GICH_LR_VID_LEN : Z := 32.
Definition GICH_LR_PID_OFF : Z := 32.
Definition GICH_LR_PID_LEN : Z := 10.
Definition GICH_LR_PRIO_OFF : Z := 48.
Definition GICH_LR_PRIO_LEN : Z := 8.
Definition GICH_LR_STATE_OFF : Z := 62.
Definition GICH_LR_STATE_LEN : Z := 2.
Definition GICH_LR_GRP_BIT : Z := Z.shiftl 1 60.
Definition GICH_LR_HW_BIT : Z := Z.shiftl 1 61.
Definition GICH_LR_EOI_BIT : Z := Z.shiftl 1 41.
Definition GICH_LR_PRIO_MSK : Z := BIT64_MASK GICH_LR_PRIO_OFF GICH_LR_PRIO_LEN.
Definition GICH_LR_PID_MSK : Z := BIT64_MASK GICH_LR_PID_OFF GICH_LR_PID_LEN.
Definition GICH_LR_STATE_MSK : Z := BIT64_MASK GICH_LR_STATE_OFF GICH_LR_STATE_LEN.
Definition GICH_LR_STATE (LR : Z) : Z := bit_extract 64 LR GICH_LR_STATE_OFF GICH_LR_STATE_LEN.
Definition GICH_LR_VID_MSK : Z := BIT64_MASK GICH_LR_VID_OFF GICH_LR_VID_LEN.
Definition GICH_LR_VID (LR : Z) : Z := bit_extract 64 LR GICH_LR_VID_OFF GICH_LR_VID_LEN.
Definition GICH_LR_STATE_PND : Z := Z.land (u64 (Z.shiftl 1 GICH_LR_STATE_OFF)) GICH_LR_STATE_MSK.
Definition GICH_LR_STATE_ACT : Z := Z.land (u64 (Z.shiftl 2 GICH_LR_STATE_OFF)) GICH_LR_STATE_MSK.

(** ** Data *)

(** [phys] is the union: [redist] of a private interrupt, [route] of a shared one. *)
Record vgic_int := {
  owner : option Z;
  route : Z;
  phys : Z;
  ilock : spinlock_t;
  id : Z;
  state : Z;
  prio : Z;
  cfg : Z;
  lr : Z;
  hw : bool;
  in_lr : bool;
  enabled : bool
}.
#[export] Instance eta_vgic_int3 : Eta vgic_int := λ i,
  Build_vgic_int (owner i) (route i) (phys i) (ilock i) (id i) (state i) (prio i) (cfg i) (lr i) (hw i) (in_lr i) (enabled i).

Definition sizeof_vgic_int : Z := 64.

Record vgicr := { r_lock : spinlock_t; r_TYPER : Z; r_CTLR : Z; r_IIDR : Z }.
#[export] Instance eta_vgicr : Eta vgicr := λ r, Build_vgicr (r_lock r) (r_TYPER r) (r_CTLR r) (r_IIDR r).

(** The functions an emulated region or register is handled by. *)
Inductive emul_handler3 := vgicd_emul_handler3_id | vgicr_emul_handler_id | vgic_icc_sgir_handler_id | vgic_icc_sre_handler_id.
Record emul_mem3 := { va_base3 : Z; size3 : Z; mem_handler3 : emul_handler3 }.
Record emul_reg3 := { reg_addr3 : Z; reg_handler3 : emul_handler3 }.

(** The places of a VM's structures that this build has besides those of [layout]. *)
Record layout3 := { common : layout; vgicr_emul_node : Z; icc_sgir_emul_node : Z; icc_sre_emul_node : Z }.

Section vgic.
Context `{Gic3Device}.

(** [vgicrs] is the redistributor of each vcpu, [vgicr_addr] where the guest sees the first. *)
Record vgic := {
  cpu_gic : gic3;
  ints : Z → vgic_int;
  links : mem;
  spilled_lock : spinlock_t;
  vgicd_lock : spinlock_t;
  interrupts : Z;
  int_num : Z;
  vCTLR : Z;
  vTYPER : Z;
  vIIDR : Z;
  vgicrs : Z → vgicr;
  vgicr_addr : Z;
  emul_mems : Z → emul_mem3;
  emul_regs : Z → emul_reg3;
  curr_lrs : Z → Z → Z;
  the_vm : vm;
  vcpu_tbl : Z → vcpu;
  cur_vcpu : Z;
  ipis : ipi unit
}.
#[export] Instance eta_vgic3 : Eta vgic := λ s,
  Build_vgic (cpu_gic s) (ints s) (links s) (spilled_lock s) (vgicd_lock s) (interrupts s) (int_num s) (vCTLR s) (vTYPER s)
    (vIIDR s) (vgicrs s) (vgicr_addr s) (emul_mems s) (emul_regs s) (curr_lrs s) (the_vm s) (vcpu_tbl s) (cur_vcpu s) (ipis s).

Variable lay : layout3.
(** [platform.cpu_num] and the mpidr of this CPU. *)
Variable cpu_num mpidr : Z.

(** ** Access *)

Definition on_gic {A} (m : prog gic3 A) : prog vgic A := lift_prog cpu_gic (λ g s, s <| cpu_gic := g |>) m.
Definition send_msg (c : Z) (msg : cpu_msg) : prog vgic unit := lift_prog ipis (λ i s, s <| ipis := i |>) (cpu_send_msg c msg).
Definition geti {A} (p : Z) (f : vgic_int → A) : prog vgic A := gets (λ s, f (ints s p)).
Definition updi (p : Z) (f : vgic_int → vgic_int) : prog vgic unit := modify (λ s, s <| ints ::= alter f p |>).
Definition lock_int (p : Z) : prog vgic unit := λ s,
  match spin_lock (ilock (ints s p)) with
  | Done k => Done (tt, s <| ints ::= alter (λ i, i <| ilock := k |>) p |>)
  | Halt e => Halt e
  end.
Definition unlock_int (p : Z) : prog vgic unit := updi p (λ i, i <| ilock ::= spin_unlock |>).

Definition my_cpu : prog vgic Z := gets (λ s, this_cpu (dist (cpu_gic s))).
Definition num_lrs : prog vgic Z := gets (λ s, NUM_LRS (dist (cpu_gic s))).
Definition my_vcpu : prog vgic vcpu := gets (λ s, vcpu_tbl s (cur_vcpu s)).
Definition writereg (r val : Z) : prog vgic unit :=
  modify (λ s, s <| vcpu_tbl ::= alter (λ v, vcpu_writereg v r val) (cur_vcpu s) |>).

(** ** Finding an interrupt *)

Definition vgic_get_int (v int_id vgicr_id : Z) : prog vgic (option Z) :=
  s ← gets (λ s, s);
  if int_id <? GIC_CPU_PRIV then
    target ← (if vgicr_id =? vcpu_id (vcpu_tbl s v) then mret v else deref (vm_get_vcpu (the_vm s) vgicr_id));
    mret (Some (priv_interrupts (common lay) target + int_id * sizeof_vgic_int))
  else if int_id <? int_num s then mret (Some (interrupts s + (int_id - GIC_CPU_PRIV) * sizeof_vgic_int))
  else mret None.

Definition vgic_int_is_hw (i : vgic_int) : bool := negb (id i <? GIC_MAX_SGIS) && hw i.

Definition gich_get_lr (p : Z) : prog vgic (option (Z * Z)) :=
  i ← geti p (λ i, i);
  c ← my_cpu;
  if negb (in_lr i) then mret None
  else
    o ← deref (owner i);
    pid ← gets (λ s, p_id (vcpu_tbl s o));
    if negb (pid =? c) then mret None
    else
      lr_val ← on_gic (gich_read_lr (lr i));
      if (GICH_LR_VID lr_val =? id i) && negb (GICH_LR_STATE lr_val =? INV)
      then mret (Some (lr i, lr_val)) else mret None.

Definition vgic_get_state (p : Z) : prog vgic Z :=
  r ← gich_get_lr p;
  i ← geti p (λ i, i);
  mret (match r with Some (_, lr_val) => GICH_LR_STATE lr_val | None => state i end).

(** ** Ownership *)

Definition vgic_get_ownership (v p : Z) : prog vgic bool :=
  o ← geti p owner;
  match o with
  | Some o => mret (o =? v)
  | None => updi p (λ i, i <| owner := Some v |>);; mret true
  end.

Definition vgic_owns (v : Z) (i : vgic_int) : bool := bool_decide (owner i = Some v).

(** In this build a private interrupt is yielded too. *)
Definition vgic_yield_ownership (v p : Z) : prog vgic unit :=
  i ← geti p (λ i, i);
  if negb (vgic_owns v i) || in_lr i then mret tt
  else
    st ← vgic_get_state p;
    if negb (Z.land st ACT =? 0) then mret tt
    else updi p (λ i, i <| owner := None |>).

(** ** Routes: vgicv3.h and vgicv3.c *)

Definition vgic_broadcast (i : vgic_int) : bool := negb (Z.land (route i) GICD_IROUTER_IRM_BIT =? 0).

(** Whether a shared interrupt is routed to this CPU. *)
Definition routed_here (i : vgic_int) : bool :=
  negb (gic_is_priv (id i)) && (Z.lxor (phys i) (Z.land mpidr MPIDR_AFF_MSK) =? 0).

Definition vgic_int_vcpu_is_target (v p : Z) : prog vgic bool :=
  i ← geti p (λ i, i);
  pid ← gets (λ s, p_id (vcpu_tbl s v));
  let priv := gic_is_priv (id i) in
  let local := priv && (phys i =? pid) in
  let any := negb priv && vgic_broadcast i in
  mret (local || routed_here i || any).

Definition vgic_int_has_other_target (p : Z) : prog vgic bool :=
  i ← geti p (λ i, i);
  let route_valid := negb (phys i =? GICD_IROUTER_INV) in
  let any := negb (gic_is_priv (id i)) && vgic_broadcast i in
  mret (any || negb (routed_here i) && route_valid).

(** The shift of an [int] by more than its width is undefined. *)
Definition vgic_int_ptarget_mask (p : Z) : prog vgic Z :=
  i ← geti p (λ i, i);
  if vgic_broadcast i then
    me ← my_vcpu;
    v ← gets the_vm;
    mret (u8 (Z.land (Vcpu.cpus v) (u32 (Z.lnot (u32 (Z.shiftl 1 (p_id me)))))))
  else if phys i <? 32 then mret (u8 (Z.shiftl 1 (phys i))) else halt FUndefined.

Definition vgic_int_set_route (v p r : Z) : prog vgic bool :=
  i ← geti p (λ i, i);
  if gic_is_priv (id i) then mret false
  else
    s ← gets (λ s, s);
    let phys_route :=
      if negb (Z.land r GICD_IROUTER_IRM_BIT =? 0) then cpu_id_to_mpidr cpu_num (p_id (vcpu_tbl s v))
      else match vm_get_vcpu_by_mpidr (vcpu_tbl s) (the_vm s) (Z.land r MPIDR_AFF_MSK) with
           | Some tvcpu => Z.land (cpu_id_to_mpidr cpu_num (p_id (vcpu_tbl s tvcpu))) MPIDR_AFF_MSK
           | None => GICD_IROUTER_INV
           end in
    updi p (λ i, i <| phys := phys_route |>);;
    updi p (λ i, i <| route := Z.land r GICD_IROUTER_RES0_MSK |>);;
    mret (negb (route i =? Z.land r GICD_IROUTER_RES0_MSK)).

Definition vgic_int_get_route (v p : Z) : prog vgic Z :=
  i ← geti p (λ i, i); mret (if gic_is_priv (id i) then 0 else route i).

Definition vgic_int_set_route_hw (v p : Z) : prog vgic unit :=
  i ← geti p (λ i, i); on_gic (gicd_set_route (id i) (phys i)).

(** ** List registers *)

(** The value [vgic_write_lr] puts in the register for the interrupt in state [st]. *)
Definition lr_value (i : vgic_int) (st : Z) : Z :=
  let lr := Z.land (u64 (Z.shiftl (id i) GICH_LR_VID_OFF)) GICH_LR_VID_MSK in
  let lr := Z.lor lr (Z.lor (Z.land (u64 (Z.shiftl (prio i) GICH_LR_PRIO_OFF)) GICH_LR_PRIO_MSK) GICH_LR_GRP_BIT) in
  if vgic_int_is_hw i then
    let lr := Z.lor lr GICH_LR_HW_BIT in
    let lr := Z.lor lr (Z.land (u64 (Z.shiftl (id i) GICH_LR_PID_OFF)) GICH_LR_PID_MSK) in
    if st =? PENDACT then Z.lor lr GICH_LR_STATE_ACT
    else Z.lor lr (Z.land (u64 (Z.shiftl st GICH_LR_STATE_OFF)) GICH_LR_STATE_MSK)
  else
    let lr := if negb (gic_is_priv (id i)) && negb (vgic_int_is_hw i) then Z.lor lr GICH_LR_EOI_BIT else lr in
    Z.lor lr (Z.land (u64 (Z.shiftl st GICH_LR_STATE_OFF)) GICH_LR_STATE_MSK).

Definition evict_lr (v lr_ind prev_int_id : Z) : prog vgic unit :=
  vid ← gets (λ s, vcpu_id (vcpu_tbl s v));
  prev ← vgic_get_int v prev_int_id vid;
  match prev with
  | None => mret tt
  | Some q =>
      lock_int q;;
      j ← geti q (λ j, j);
      (if vgic_owns v j && in_lr j && (lr j =? lr_ind) then
         updi q (λ j, j <| in_lr := false |>);;
         vgic_yield_ownership v q
       else mret tt);;
      unlock_int q
  end.

Definition vgic_write_lr (v p lr_ind : Z) : prog vgic unit :=
  prev_int_id ← gets (λ s, curr_lrs s v lr_ind);
  pid ← geti p id;
  (if negb (prev_int_id =? pid) && negb (gic_is_priv prev_int_id) then evict_lr v lr_ind prev_int_id else mret tt);;
  st ← vgic_get_state p;
  i ← geti p (λ i, i);
  updi p (λ i, i <| state := 0 |> <| in_lr := true |> <| lr := u8 lr_ind |>);;
  modify (λ s, s <| curr_lrs ::= λ c, <[v := <[lr_ind := pid]> (c v)]> c |>);;
  on_gic (gich_write_lr lr_ind (lr_value i st)).

Definition vgic_remove_lr (v p : Z) : prog vgic bool :=
  i ← geti p (λ i, i);
  if negb (vgic_owns v i) || negb (in_lr i) then mret false
  else
    r ← gich_get_lr p;
    (match r with Some (lr_ind, _) => on_gic (gich_write_lr lr_ind 0) | None => mret tt end);;
    let lr_val := match r with Some (_, w) => w | None => 0 end in
    updi p (λ i, i <| in_lr := false |>);;
    if negb (GICH_LR_STATE lr_val =? INV) then
      updi p (λ i, i <| state := GICH_LR_STATE lr_val |>);;
      i ← geti p (λ i, i);
      hcr ← on_gic gich_get_hcr;
      let hcr := if negb (Z.land (state i) PEND =? 0) && enabled i then Z.lor hcr GICH_HCR_NPIE_BIT else hcr in
      on_gic (gich_set_hcr (Z.lor hcr GICH_HCR_UIE_BIT));;
      mret true
    else mret false.

Definition lock_spilled : prog vgic unit := acquire spilled_lock.
Definition unlock_spilled : prog vgic unit := release spilled_lock.

Definition vgic_add_spilled (v p : Z) : prog vgic unit :=
  lock_spilled;;
  pid ← geti p id;
  let spilled_list := if gic_is_priv pid then vcpu_spilled (common lay) v else vm_spilled (common lay) in
  modify (λ s, s <| links ::= list_add_tail p spilled_list |>);;
  unlock_spilled;;
  hcr ← on_gic gich_get_hcr;
  on_gic (gich_set_hcr (Z.lor hcr GICH_HCR_NPIE_BIT)).

Definition vgic_spill_lr (v lr_ind : Z) : prog vgic unit :=
  lrv ← on_gic (gich_read_lr lr_ind);
  vid ← gets (λ s, vcpu_id (vcpu_tbl s v));
  spilled ← vgic_get_int v (GICH_LR_VID lrv) vid;
  match spilled with
  | None => mret tt
  | Some q =>
      lock_int q;;
      _ ← vgic_remove_lr v q;
      vgic_add_spilled v q;;
      vgic_yield_ownership v q;;
      unlock_int q
  end.

(** [lr_state] is an [unsigned], the state bits are at the top of a 64-bit register. *)
Fixpoint find_victims (act pend : victim) (i : Z) (n : nat) : prog vgic (victim * victim) :=
  match n with
  | O => mret (act, pend)
  | S n =>
      lrv ← on_gic (gich_read_lr i);
      let lr_id := u32 (GICH_LR_VID lrv) in
      let lr_prio := u32 (Z.shiftr (Z.land lrv GICH_LR_PRIO_MSK) GICH_LR_PRIO_OFF) in
      let lr_state := u32 (Z.land lrv GICH_LR_STATE_MSK) in
      if negb (Z.land lr_state GICH_LR_STATE_ACT =? 0)
      then find_victims (consider lr_prio lr_id i act) pend (i + 1) n
      else if negb (Z.land lr_state GICH_LR_STATE_PND =? 0)
           then find_victims act (consider lr_prio lr_id i pend) (i + 1) n
           else find_victims act pend (i + 1) n
  end.

Definition vgic_add_lr (v p : Z) : prog vgic bool :=
  i ← geti p (λ i, i);
  if negb (enabled i) || in_lr i then mret false
  else
    elrsr ← on_gic gich_get_elrsr;
    n ← num_lrs;
    lr_ind ← match free_lr elrsr 0 (Z.to_nat n) with
             | Some k => mret (Some k)
             | None =>
                 let w := {| v_prio := prio i; v_id := u32 (id i); v_ind := None; v_found := 0 |} in
                 r ← find_victims w w 0 (Z.to_nat n);
                 let '(act, pend) := r in
                 let lr_ind := if 1 <? v_found pend then v_ind pend else v_ind act in
                 (match lr_ind with Some k => vgic_spill_lr v k | None => mret tt end);;
                 mret lr_ind
             end;
    match lr_ind with
    | Some k => vgic_write_lr v p k;; mret true
    | None => vgic_add_spilled v p;; mret false
    end.

(** ** Routing *)

Fixpoint send_to (trgtlist : Z) (msg : cpu_msg) (i : Z) (n : nat) : prog vgic unit :=
  match n with
  | O => mret tt
  | S n =>
      (if negb (Z.land trgtlist (u64 (Z.shiftl 1 i)) =? 0) then send_msg i msg else mret tt);;
      send_to trgtlist msg (i + 1) n
  end.

Definition vgic_send_sgi_msg (pcpu_mask int_id : Z) : prog vgic unit :=
  s ← gets (λ s, s);
  let msg := {| handler := VGIC_IPI_ID; event := VGIC_INJECT;
                data := VGIC_MSG_DATA (vm_id (the_vm s)) 0 int_id 0 (vcpu_id (vcpu_tbl s (cur_vcpu s))) |} in
  send_to pcpu_mask msg 0 (Z.to_nat cpu_num).

Definition vgic_route (v p : Z) : prog vgic unit :=
  i ← geti p (λ i, i);
  if (state i =? INV) || negb (enabled i) then mret tt
  else
    target ← vgic_int_vcpu_is_target v p;
    (if (target : bool) then _ ← vgic_add_lr v p; mret tt else mret tt);;
    inlr ← geti p in_lr;
    other ← vgic_int_has_other_target p;
    if negb inlr && other then
      s ← gets (λ s, s);
      let msg := {| handler := VGIC_IPI_ID; event := VGIC_ROUTE;
                    data := VGIC_MSG_DATA (vm_id (the_vm s)) (vcpu_id (vcpu_tbl s v)) (id i) 0 0 |} in
      vgic_yield_ownership v p;;
      mask ← vgic_int_ptarget_mask p;
      let trgtlist := Z.land mask (u64 (Z.lnot (u64 (Z.shiftl 1 (p_id (vcpu_tbl s v)))))) in
      send_to trgtlist msg 0 (Z.to_nat cpu_num)
    else mret tt.

(** ** Injection *)

Definition vgic_inject_hw (v int_id : Z) : prog vgic unit :=
  vid ← gets (λ s, vcpu_id (vcpu_tbl s v));
  r ← vgic_get_int v int_id vid;
  p ← deref r;
  lock_int p;;
  updi p (λ i, i <| owner := Some v |>);;
  updi p (λ i, i <| state := PEND |>);;
  updi p (λ i, i <| in_lr := false |>);;
  _ ← vgic_add_lr v p;
  unlock_int p.

(** ** Spilled interrupts *)

Fixpoint scan_spilled (flags pos head : Z) (best : option (Z * Z)) (fuel : nat) : prog vgic (option (Z * Z)) :=
  match fuel with
  | O => halt FSpin
  | S fuel =>
      if pos =? head then mret best
      else
        st ← vgic_get_state pos;
        t ← geti pos (λ i, i);
        irq ← gets (λ s, match best with Some (b, _) => (prio (ints s b), id (ints s b)) | None => (GIC_LOWEST_PRIO, GIC_MAX_VALID_INTERRUPTS) end);
        let best :=
          if negb (Z.land st flags =? 0) && ((prio t <? irq.1) || (prio t =? irq.1) && (id t <? irq.2))
          then Some (pos, head) else best in
        nx ← gets (λ s, ListHead.next (links s pos));
        scan_spilled flags nx head best fuel
  end.

Definition vgic_highest_prio_spilled (v flags : Z) (fuel : nat) : prog vgic (option (Z * Z)) :=
  first ← gets (λ s, ListHead.next (links s (vcpu_spilled (common lay) v)));
  best ← scan_spilled flags first (vcpu_spilled (common lay) v) None fuel;
  first ← gets (λ s, ListHead.next (links s (vm_spilled (common lay))));
  scan_spilled flags first (vm_spilled (common lay)) best fuel.

Definition refill_one (v q lr_ind : Z) : prog vgic bool :=
  lock_int q;;
  got ← vgic_get_ownership v q;
  (if (got : bool) then modify (λ s, s <| links ::= list_del q |>);; vgic_write_lr v q lr_ind else mret tt);;
  unlock_int q;;
  mret got.

Fixpoint refill_loop (v flags lr_ind : Z) (len fuel : nat) : prog vgic unit :=
  match fuel with
  | O => halt FSpin
  | S fuel =>
      if 0 <=? lr_ind then
        irq ← vgic_highest_prio_spilled v flags len;
        match irq with
        | Some (q, _) =>
            got ← refill_one v q lr_ind;
            if negb (got : bool) then refill_loop v flags lr_ind len fuel
            else
              elrsr ← on_gic gich_get_elrsr;
              n ← num_lrs;
              refill_loop v (Z.lor ACT PEND) (first_set elrsr n) len fuel
        | None =>
            hcr ← on_gic gich_get_hcr;
            on_gic (gich_set_hcr (Z.land hcr (u32 (Z.lnot (Z.lor GICH_HCR_NPIE_BIT GICH_HCR_UIE_BIT)))))
        end
      else mret tt
  end.

Definition vgic_refill_lrs (v : Z) (npie : bool) (len fuel : nat) : prog vgic unit :=
  elrsr ← on_gic gich_get_elrsr;
  n ← num_lrs;
  let flags := if npie then PEND else Z.lor ACT PEND in
  lock_spilled;;
  refill_loop v flags (first_set elrsr n) len fuel;;
  unlock_spilled.

Definition vgic_eoir_highest_spilled_active (v : Z) (len : nat) : prog vgic unit :=
  irq ← vgic_highest_prio_spilled v ACT len;
  match irq with
  | None => mret tt
  | Some (p, _) =>
      lock_int p;;
      own ← vgic_get_ownership v p;
      (if (own : bool) then
         updi p (λ i, i <| state ::= λ st, Z.land st (u8 (Z.lnot ACT)) |>);;
         i ← geti p (λ i, i);
         if vgic_int_is_hw i then on_gic (gic_set_act (id i) false)
         else if negb (Z.land (state i) PEND =? 0) then _ ← vgic_add_lr v p; mret tt else mret tt
       else mret tt);;
      unlock_int p
  end.

Fixpoint eoir_loop (v lr_ind : Z) (fuel : nat) : prog vgic unit :=
  match fuel with
  | O => halt FSpin
  | S fuel =>
      if 0 <=? lr_ind then
        lr_val ← on_gic (gich_read_lr lr_ind);
        on_gic (gich_write_lr lr_ind 0);;
        vid ← gets (λ s, vcpu_id (vcpu_tbl s v));
        r ← vgic_get_int v (GICH_LR_VID lr_val) vid;
        match r with
        | None => eoir_loop v lr_ind fuel
        | Some p =>
            lock_int p;;
            updi p (λ i, i <| in_lr := false |>);;
            pid ← geti p id;
            (if pid <? GIC_MAX_SGIS then _ ← vgic_add_lr v p; mret tt else vgic_yield_ownership v p);;
            unlock_int p;;
            eisr ← on_gic gich_get_eisr;
            n ← num_lrs;
            eoir_loop v (first_set eisr n) fuel
        end
      else mret tt
  end.

Definition vgic_handle_trapped_eoir (v : Z) (fuel : nat) : prog vgic unit :=
  eisr ← on_gic gich_get_eisr;
  n ← num_lrs;
  eoir_loop v (first_set eisr n) fuel.

Fixpoint eoi_count_loop (hcr : Z) (len fuel : nat) : prog vgic unit :=
  match fuel with
  | O => halt FSpin
  | S fuel =>
      if negb (Z.land hcr GICH_HCR_EOICount_MASK =? 0) then
        v ← gets cur_vcpu;
        vgic_eoir_highest_spilled_active v len;;
        on_gic (gich_set_hcr (u32 (hcr - Z.shiftl 1 GICH_HCR_EOICount_OFF)));;
        hcr ← on_gic gich_get_hcr;
        eoi_count_loop hcr len fuel
      else mret tt
  end.

Definition gic_maintenance_handler (len fuel : nat) : prog vgic unit :=
  misr ← on_gic gich_get_misr;
  v ← gets cur_vcpu;
  (if negb (Z.land misr GICH_MISR_EOI =? 0) then vgic_handle_trapped_eoir v fuel else mret tt);;
  (if negb (Z.land misr (Z.lor GICH_MISR_NP GICH_MISR_U) =? 0)
   then vgic_refill_lrs v (negb (Z.land misr GICH_MISR_NP =? 0)) len fuel else mret tt);;
  (if negb (Z.land misr GICH_MISR_LRPEN =? 0) then hcr ← on_gic gich_get_hcr; eoi_count_loop hcr len fuel else mret tt).

End vgic.

(** ** The virtual interface, as documented *)

(** Reading the list registers, their summary and the control register changes nothing; writing the
    control register does not change a list register. *)
Definition virtual_reg (r : gic3_reg) : bool :=
  match r with ICH_LR_EL2 _ | ICH_ELRSR_EL2 | ICH_HCR_EL2 => true | _ => false end.
Class Gic3VirtLaws `{Gic3Device} := {
  virtual_pure r d : virtual_reg r = true → (read3 r d).2 = d;
  lr_hcr3 i v d : (read3 (ICH_LR_EL2 i) (write3 ICH_HCR_EL2 v d)).1 = (read3 (ICH_LR_EL2 i) d).1
}.

Section running.
Context `{D : Gic3Device} {L : Gic3VirtLaws}.
Variable lay : layout3.
#[local] Set Default Proof Using "All".

(** List register [i]. *)
Definition lr_of (s : vgic) (i : Z) : Z := (read3 (ICH_LR_EL2 i) (dev (dist (cpu_gic s)))).1.
Definition elrsr_of (s : vgic) : Z := (read3 ICH_ELRSR_EL2 (dev (dist (cpu_gic s)))).1.
Definition lrs_count (s : vgic) : Z := NUM_LRS (dist (cpu_gic s)).

Lemma on_gic_pure {A} (m : prog gic3 A) (a : A) (s : vgic) : m (cpu_gic s) = Done (a, cpu_gic s) → on_gic m s = Done (a, s).
Proof using. unfold on_gic, lift_prog. intros ->. by destruct s. Qed.

Lemma rd3_pure r (g : gic3) : virtual_reg r = true → rd3 r g = Done ((read3 r (dev (dist g))).1, g).
Proof.
  intros Hr. unfold rd3. pose proof (virtual_pure r (dev (dist g)) Hr) as E. destruct (read3 _ _) as [v d]. cbn in E. subst d.
  by destruct g as [[] ? ?].
Qed.

Lemma read_lr_run i (s : vgic) : 0 ≤ i < 16 → i < lrs_count s → on_gic (gich_read_lr i) s = Done (lr_of s i, s).
Proof.
  intros Hi Hn. apply on_gic_pure. unfold gich_read_lr. psteps. unfold lrs_count in Hn.
  destruct (Z.leb_spec (NUM_LRS (dist (cpu_gic s))) i); [lia|]. destruct (Z.ltb_spec i 16); [|lia]. by rewrite rd3_pure.
Qed.

Lemma elrsr_run (s : vgic) : on_gic gich_get_elrsr s = Done (elrsr_of s, s).
Proof. apply on_gic_pure. by apply rd3_pure. Qed.

(** The state of a list register is in its two highest bits, of which an [unsigned] keeps none. *)
Lemma state_bits_lost v : u32 (Z.land v GICH_LR_STATE_MSK) = 0.
Proof using.
  apply Z.bits_inj'. intros i Hi. rewrite testbit_wrap, Z.land_spec, Z.testbit_0_l by lia. unfold GICH_LR_STATE_MSK, GICH_LR_STATE_OFF, GICH_LR_STATE_LEN.
  rewrite testbit_BIT_MASK by lia. zcase; cbn; by rewrite ?andb_false_r.
Qed.

Lemma find_victims_none act pend i n (s : vgic) : 0 ≤ i → i + Z.of_nat n ≤ lrs_count s ≤ 16 → find_victims act pend i n s = Done ((act, pend), s).
Proof.
  revert i. induction n as [|n IH]; intros i Hi Hn; cbn [find_victims]; [done|].
  rewrite (prog_bind_done _ _ _ _ _ (read_lr_run i s ltac:(lia) ltac:(lia))). rewrite state_bits_lost. cbn [Z.land Z.eqb negb]. apply IH; lia.
Qed.

Lemma free_lr_none elrsr i n : (∀ k, i ≤ k < i + Z.of_nat n → Z.testbit elrsr k = false) → 0 ≤ i → i + Z.of_nat n ≤ 64 → free_lr elrsr i n = None.
Proof using.
  revert i. induction n as [|n IH]; intros i Hb Hi Hn; cbn [free_lr]; [done|].
  rewrite bit_get_spec by lia. rewrite Hb by lia. cbn [negb]. apply IH; [|lia|lia]. intros k Hk. apply Hb. lia.
Qed.

Lemma add_spilled_run v p (s : vgic) : lock_free (spilled_lock s) →
  ∃ h, vgic_add_spilled lay v p s = Done (tt, s <| spilled_lock ::= lock_cycle |>
    <| links ::= list_add_tail p (if gic_is_priv (id (ints s p)) then vcpu_spilled (common lay) v else vm_spilled (common lay)) |>
    <| cpu_gic ::= λ g, g <| dist ::= λ x, x <| dev ::= write3 ICH_HCR_EL2 h |> |> |>).
Proof.
  intros Hl. unfold vgic_add_spilled, lock_spilled, unlock_spilled, release. rewrite bind_acquire by done. unfold geti. psteps.
  unfold on_gic, lift_prog, mbind, prog_bind, gich_get_hcr. cbn -[rd3 wr3 wrs u32]. unfold mbind, prog_bind. rewrite rd3_pure by done. 
  eexists. unfold gich_set_hcr, wrs, wr3, modify. cbn -[u32 u64]. by destruct s as [[[]] ? ? ? ? ? ? ? ? ? ? ? ? ? ? ? ? ? ?].
Qed.

(** C38: with a GICv3, an interrupt never takes the list register of another.  When every list register is in
    use, [vgic_add_lr] puts the interrupt in a spilled list whatever the priorities are: it looks for a
    register to reuse, but the state bits of each are lost in an [unsigned] and it finds none. *)
Theorem add_lr_never_preempts v p (s : vgic) :
  enabled (ints s p) = true → in_lr (ints s p) = false → lock_free (spilled_lock s) → 0 ≤ lrs_count s ≤ 16 →
  (∀ k, 0 ≤ k < lrs_count s → Z.testbit (elrsr_of s) k = false) →
  ∃ s', vgic_add_lr lay v p s = Done (false, s') ∧ ints s' = ints s ∧ (∀ i, lr_of s' i = lr_of s i) ∧ lock_free (spilled_lock s') ∧
    links s' = list_add_tail p (if gic_is_priv (id (ints s p)) then vcpu_spilled (common lay) v else vm_spilled (common lay)) (links s).
Proof.
  intros He Hin Hl Hn Hfull. destruct (add_spilled_run v p s Hl) as (h & E). eexists. split; [|split; [|split; [|split]]].
  - unfold vgic_add_lr, geti. psteps. rewrite He, Hin. cbn [negb orb]. rewrite (prog_bind_done _ _ _ _ _ (elrsr_run s)). unfold num_lrs. psteps.
    fold (lrs_count s). rewrite free_lr_none by (lia || (intros; apply Hfull; lia)).
    psteps. unshelve erewrite (prog_bind_done _ _ _ _ _ (find_victims_none _ _ 0 _ s _ _)); [lia|fold (lrs_count s); lia|].
    cbn [v_found v_ind Z.ltb Z.compare]. psteps. rewrite (prog_bind_done _ _ _ _ _ E). reflexivity.
  - by rsimpl.
  - intros i. unfold lr_of. rsimpl. apply lr_hcr3.
  - rsimpl. apply lock_cycle_free.
  - by rsimpl.
Qed.

(** ** Where an interrupt goes *)

(** The vcpu a write of [r] to the route of a shared interrupt names. *)
Definition routed_vcpu (s : vgic) (r : Z) : option Z := vm_get_vcpu_by_mpidr (vcpu_tbl s) (the_vm s) (Z.land r MPIDR_AFF_MSK).
Definition any_cpu (r : Z) : bool := Z.testbit r 31.

Lemma irm_bit r : negb (Z.land r GICD_IROUTER_IRM_BIT =? 0) = any_cpu r.
Proof using. unfold GICD_IROUTER_IRM_BIT, any_cpu. rewrite Z.land_comm, Z.shiftl_1_l. by rewrite land_single_zero, negb_involutive by lia. Qed.

Lemma broadcast_res0 r : any_cpu (Z.land r GICD_IROUTER_RES0_MSK) = any_cpu r.
Proof using. unfold any_cpu. rewrite Z.land_spec. by rewrite andb_true_r. Qed.


End running.

(** ** A machine for the examples

    One VM with two vcpus on CPUs 0 and 1; two list registers, both with a pending interrupt of the lowest priority. *)
Definition sample_layout3 : layout3 :=
  {| common := sample_layout; vgicr_emul_node := 0x30400; icc_sgir_emul_node := 0x30500; icc_sre_emul_node := 0x30600 |}.

Definition sample_int3 (p : Z) : vgic_int := {|
  owner := None; route := GICD_IROUTER_INV; phys := GICD_IROUTER_INV; ilock := SPINLOCK_INITVAL;
  id := if p <? 0x40000 then (p mod 0x1000) / sizeof_vgic_int else GIC_CPU_PRIV + (p - 0x40000) / sizeof_vgic_int;
  state := PEND; prio := 0; cfg := 0; lr := 0; hw := false; in_lr := false; enabled := true |}.

Definition low_pending (i : Z) : Z := Z.lor (Z.lor (0x3c + i) (Z.shiftl 0xff 48)) (Z.shiftl 1 62).

Definition sample_vgic3 : @vgic RegisterFile3 := {|
  cpu_gic := sample_gic3 2 0 <| dist ::= λ x, x <| dev := ((λ _, 0), λ r, match r with ICH_LR_EL2 i => low_pending i | _ => 0 end) :
    @device (@gic3_distributor RegisterFile3) |> |>;
  ints := sample_int3;
  links := INIT_LIST_HEAD 0x30000 (INIT_LIST_HEAD 0x20000 (λ _, {| ListHead.next := 0; prev := 0 |}));
  spilled_lock := SPINLOCK_INITVAL; vgicd_lock := SPINLOCK_INITVAL; interrupts := 0x40000; int_num := 64;
  vCTLR := 0; vTYPER := 0; vIIDR := 0; vgicrs := λ _, {| r_lock := SPINLOCK_INITVAL; r_TYPER := 0; r_CTLR := 0; r_IIDR := 0 |};
  vgicr_addr := 0x80a0000; emul_mems := λ _, {| va_base3 := 0; size3 := 0; mem_handler3 := vgicd_emul_handler3_id |};
  emul_regs := λ _, {| reg_addr3 := 0; reg_handler3 := vgic_icc_sre_handler_id |}; curr_lrs := λ _ _, 0;
  the_vm := sample_vm <| vcpus := 0 |> <| nr_cpus := 2 |> <| Vcpu.cpus := 3 |>;
  vcpu_tbl := λ v, sample_vcpu <| vcpu_id := v |> <| p_id := v |> <| vmpidr := Z.lor v MPIDR_RES1 |>; cur_vcpu := 0; ipis := sample_ipis |}.

Lemma RegisterFile3_virtual : @Gic3VirtLaws RegisterFile3.
Proof.
  constructor.
  - intros r d _. reflexivity.
  - intros i v d. cbn [read3 write3 RegisterFile3]. f_equal.
Qed.

Lemma add_lr_never_preempts_witness :
  ∃ s', @vgic_add_lr RegisterFile3 sample_layout3 0 0x40000 sample_vgic3 = Done (false, s') ∧
    ListHead.next (links s' 0x30000) = 0x40000 ∧ GICH_LR_VID (lr_of s' 1) = 0x3d.
Proof.
  destruct (@add_lr_never_preempts RegisterFile3 RegisterFile3_virtual sample_layout3 0 0x40000 sample_vgic3)
    as (s' & E & _ & Hlr & _ & Hk); [reflexivity|reflexivity|by split|by vm_compute|intros k _; apply Z.testbit_0_l|].
  exists s'. split; [exact E|]. rewrite Hk, Hlr. split; vm_compute; reflexivity.
Defined.

