(* ===== verification/Vgic3Emul.v ===== *)
(** * Virtual interrupts with a GICv3: the emulated registers, src/arch/aarch64/vgicv3.c and
    src/arch/aarch64/vgic.c

    What a guest reads and writes in its distributor, in the redistributors of its vcpus and in the two
    system registers that are trapped, the messages of the other CPUs, and initialisation. *)
From Stdlib Require Import String.
From S2P Require Import Prelude Util Bits Bitmap Spinlock ListHead Emul Cpu Ipi Vcpu Gic Vgic VgicEmul Layout Gicv3 Vgic3.

(** ** Constants of this build *)

Definition GICD_REG_MASK (a : Z) : Z := Z.land a 0xffff.
Definition VGIC_ENABLE_MASK : Z := GICD_CTLR_ENA_BIT.
Definition GICD_TYPER_IDBITS_OFF : Z := 19.
Definition GICD_TYPER_IDBITS_LEN : Z := 5.
Definition GICD_TYPER_IDBITS_MSK : Z := BIT32_MASK GICD_TYPER_IDBITS_OFF GICD_TYPER_IDBITS_LEN.
Definition GICR_TYPER_LAST_OFF : Z := 4.
Definition GICR_TYPER_PRCNUM_OFF : Z := 8.
Definition GICR_TYPER_AFFVAL_OFF : Z := 32.
Definition ICC_SGIR_SGIINTID_LEN : Z := 4.
Definition ICC_SGIR_SGIINTID (sgir : Z) : Z := bit_extract 64 sgir ICC_SGIR_SGIINTID_OFF ICC_SGIR_SGIINTID_LEN.
Definition ICC_SGIR_IRM_BIT : Z := Z.shiftl 1 40.
Definition ICC_SGIR_TRGLSTFLT_OFF : Z := 0.
Definition ICC_SGIR_TRGLSTFLT_LEN : Z := 16.
Definition ICC_SGIR_TRGLSTFLT (sgir : Z) : Z := bit_extract 64 sgir ICC_SGIR_TRGLSTFLT_OFF ICC_SGIR_TRGLSTFLT_LEN.

(** Offsets in [struct gicr_hw], whose second frame starts at 0x10000. *)
Definition GICR_REG_MASK (a : Z) : Z := Z.land a 0x1ffff.
Definition r_off_CTLR : Z := 0.
Definition r_off_TYPER : Z := 0x8.
Definition r_off_ID : Z := 0xffd0.
Definition r_off_ISENABLER0 : Z := 0x10100.
Definition r_off_ICENABLER0 : Z := 0x10180.
Definition r_off_ISPENDR0 : Z := 0x10200.
Definition r_off_ICPENDR0 : Z := 0x10280.
Definition r_off_ISACTIVER0 : Z := 0x10300.
Definition r_off_ICACTIVER0 : Z := 0x10380.
Definition r_off_IPRIORITYR : Z := 0x10400.
Definition r_off_ICFGR0 : Z := 0x10c00.
Definition r_off_ICFGR1 : Z := 0x10c04.
Definition sizeof_gicr_hw : Z := 0x20000.
Definition GICR_IS_REG (base len offset : Z) : bool := (base <=? offset) && (offset <? base + len).

(** The number of a system register, as the ISS of a trapped access has it. *)
Definition SYSREG_ENC_ADDR (Op0 Op1 CRn CRm Op2 : Z) : Z :=
  Z.lor (Z.lor (Z.lor (Z.lor (Z.shiftl (Z.land Op0 0x3) 20) (Z.shiftl (Z.land Op2 0x7) 17)) (Z.shiftl (Z.land Op1 0x7) 14))
    (Z.shiftl (Z.land CRn 0xf) 10)) (Z.shiftl (Z.land CRm 0xf) 1).
Definition ICC_SGI1R_ENC : Z := SYSREG_ENC_ADDR 3 0 12 11 5.
Definition ICC_SRE_ENC : Z := SYSREG_ENC_ADDR 3 0 12 12 5.

(** The functions a [reg_access] field points to. *)
Inductive access_fn := vgic_emul_generic_access_id | vgicd_emul_misc_access_id | vgicd_emul_pidr_access_id | vgic_emul_razwi_id
  | vgicd_emul_router_access_id | vgicr_emul_ctrl_access_id | vgicr_emul_typer_access_id | vgicr_emul_pidr_access_id.
#[export] Instance access_fn3_eq_dec : EqDecision access_fn.
Proof. solve_decision. Defined.

Record vgic_dscrp := { gicd_addr : Z; gicc_addr : Z; gicr_addr : Z; interrupt_num : Z }.

Section emulation.
Context `{Gic3Device}.
Variable lay : layout3.
Variable cpu_num mpidr : Z.

(** ** The fields of an interrupt *)

Definition vgic_int_update_enable (p : Z) (enable : bool) : prog vgic bool :=
  i ← geti p (λ i, i);
  if negb (eqb enable (enabled i)) then updi p (λ i, i <| enabled := enable |>);; mret true else mret false.

Definition vgic_int_enable_hw (v p : Z) : prog vgic unit :=
  i ← geti p (λ i, i);
  if gic_is_priv (id i) then on_gic (gicr_set_enable (id i) (enabled i) (phys i))
  else on_gic (on_dist (gicd_set_enable (id i) (enabled i))).

Definition vgic_int_clear_enable (v p data : Z) : prog vgic bool :=
  if data =? 0 then mret false else vgic_int_update_enable p false.
Definition vgic_int_set_enable (v p data : Z) : prog vgic bool :=
  if data =? 0 then mret false else vgic_int_update_enable p true.
Definition vgic_int_get_enable (v p : Z) : prog vgic Z := i ← geti p enabled; mret (Z.b2z i).

Definition update_state (p bit : Z) (b : bool) : prog vgic bool :=
  st ← geti p state;
  if xorb b (negb (Z.land st bit =? 0)) then
    updi p (λ i, i <| state := if b then Z.lor st bit else Z.land st (u8 (Z.lnot bit)) |>);; mret true
  else mret false.
Definition vgic_int_update_pend (p : Z) (pend : bool) : prog vgic bool := update_state p PEND pend.
Definition vgic_int_update_act (p : Z) (act : bool) : prog vgic bool := update_state p ACT act.

Definition vgic_int_state_hw (v p : Z) : prog vgic unit :=
  i ← geti p (λ i, i);
  let st := if state i =? PEND then ACT else state i in
  let pend := negb (Z.land st PEND =? 0) in
  let act := negb (Z.land st ACT =? 0) in
  if gic_is_priv (id i) then
    on_gic (gicr_set_act (id i) act (phys i));;
    on_gic (gicr_set_pend (id i) pend (phys i))
  else
    on_gic (on_dist (gicd_set_act (id i) act));;
    on_gic (on_dist (gicd_set_pend (id i) pend)).

Definition vgic_int_clear_pend (v p data : Z) : prog vgic bool :=
  if data =? 0 then mret false else vgic_int_update_pend p false.
Definition vgic_int_set_pend (v p data : Z) : prog vgic bool :=
  if data =? 0 then mret false else vgic_int_update_pend p true.
Definition vgic_int_get_pend (v p : Z) : prog vgic Z :=
  st ← geti p state; mret (if negb (Z.land st PEND =? 0) then 1 else 0).
Definition vgic_int_clear_act (v p data : Z) : prog vgic bool :=
  if data =? 0 then mret false else vgic_int_update_act p false.
Definition vgic_int_set_act (v p data : Z) : prog vgic bool :=
  if data =? 0 then mret false else vgic_int_update_act p true.
Definition vgic_int_get_act (v p : Z) : prog vgic Z :=
  st ← geti p state; mret (if negb (Z.land st ACT =? 0) then 1 else 0).

Definition vgic_int_set_cfg (v p c : Z) : prog vgic bool :=
  prev_cfg ← geti p cfg;
  updi p (λ i, i <| cfg := u8 c |>);;
  mret (negb (prev_cfg =? c)).
Definition vgic_int_get_cfg (v p : Z) : prog vgic Z := geti p cfg.
Definition vgic_int_set_cfg_hw (v p : Z) : prog vgic unit :=
  i ← geti p (λ i, i);
  if gic_is_priv (id i) then on_gic (gicr_set_icfgr (id i) (cfg i) (phys i))
  else on_gic (on_dist (gicd_set_icfgr (id i) (cfg i))).

Definition vgic_int_set_prio (v p pr : Z) : prog vgic bool :=
  prev_prio ← geti p prio;
  updi p (λ i, i <| prio := Z.land (u8 pr) (BIT_MASK 64 (8 - GICH_LR_PRIO_LEN) GICH_LR_PRIO_LEN) |>);;
  mret (negb (prev_prio =? pr)).
Definition vgic_int_get_prio (v p : Z) : prog vgic Z := geti p prio.
Definition vgic_int_set_prio_hw (v p : Z) : prog vgic unit :=
  i ← geti p (λ i, i);
  if gic_is_priv (id i) then on_gic (gicr_set_prio (id i) (prio i) (phys i))
  else on_gic (on_dist (gicd_set_prio (id i) (prio i))).

(** ** Handler descriptions *)

Record vgic_reg_handler_info := {
  reg_access : access_fn;
  alignment : Z;
  regid : Z;
  regroup_base : Z;
  field_width : Z;
  read_field : Z → Z → prog vgic Z;
  update_field : Z → Z → Z → prog vgic bool;
  update_hw : Z → Z → prog vgic unit
}.

Definition bare_info (f : access_fn) (al : Z) : vgic_reg_handler_info :=
  Build_vgic_reg_handler_info f al 0 0 0 (λ _ _, halt FNull) (λ _ _ _, halt FNull) (λ _ _, halt FNull).

Definition isenabler_info := Build_vgic_reg_handler_info vgic_emul_generic_access_id 4 VGIC_ISENABLER_ID off_ISENABLER 1
  vgic_int_get_enable vgic_int_set_enable vgic_int_enable_hw.
Definition ispendr_info := Build_vgic_reg_handler_info vgic_emul_generic_access_id 4 VGIC_ISPENDR_ID off_ISPENDR 1
  vgic_int_get_pend vgic_int_set_pend vgic_int_state_hw.
Definition isactiver_info := Build_vgic_reg_handler_info vgic_emul_generic_access_id 4 VGIC_ISACTIVER_ID off_ISACTIVER 1
  vgic_int_get_act vgic_int_set_act vgic_int_state_hw.
Definition icenabler_info := Build_vgic_reg_handler_info vgic_emul_generic_access_id 4 VGIC_ICENABLER_ID off_ICENABLER 1
  vgic_int_get_enable vgic_int_clear_enable vgic_int_enable_hw.
Definition icpendr_info := Build_vgic_reg_handler_info vgic_emul_generic_access_id 4 VGIC_ICPENDR_ID off_ICPENDR 1
  vgic_int_get_pend vgic_int_clear_pend vgic_int_state_hw.
Definition iactiver_info := Build_vgic_reg_handler_info vgic_emul_generic_access_id 4 VGIC_ICACTIVER_ID off_ICACTIVER 1
  vgic_int_get_act vgic_int_clear_act vgic_int_state_hw.
Definition icfgr_info := Build_vgic_reg_handler_info vgic_emul_generic_access_id 4 VGIC_ICFGR_ID off_ICFGR 2
  vgic_int_get_cfg vgic_int_set_cfg vgic_int_set_cfg_hw.
Definition ipriorityr_info := Build_vgic_reg_handler_info vgic_emul_generic_access_id 5 VGIC_IPRIORITYR_ID off_IPRIORITYR 8
  vgic_int_get_prio vgic_int_set_prio vgic_int_set_prio_hw.
Definition vgicd_misc_info := bare_info vgicd_emul_misc_access_id 4.
Definition vgicd_pidr_info := bare_info vgicd_emul_pidr_access_id 4.
Definition razwi_info := bare_info vgic_emul_razwi_id 4.
(** The weak definitions of vgic.c. *)
Definition itargetr_info := bare_info vgic_emul_razwi_id 5.
Definition sgir_info := bare_info vgic_emul_razwi_id 4.
(** Those of vgicv3.c. *)
Definition irouter_info := Build_vgic_reg_handler_info vgicd_emul_router_access_id 12 VGIC_IROUTER_ID off_IROUTER 64
  vgic_int_get_route (vgic_int_set_route cpu_num) vgic_int_set_route_hw.
Definition vgicr_ctrl_info := bare_info vgicr_emul_ctrl_access_id 4.
Definition vgicr_typer_info := bare_info vgicr_emul_typer_access_id 12.
Definition vgicr_pidr_info := bare_info vgicr_emul_pidr_access_id 4.

Definition vgic_get_reg_handler_info (k : Z) : option vgic_reg_handler_info :=
  if k <? VGIC_REG_HANDLER_ID_NUM then
    [isenabler_info; ispendr_info; isactiver_info; icenabler_info; icpendr_info; iactiver_info; icfgr_info;
     irouter_info; ipriorityr_info; itargetr_info] !! Z.to_nat k
  else None.

(** ** Accesses *)

Definition vgic_update_enable : prog vgic unit :=
  c ← gets vCTLR;
  hcr ← on_gic gich_get_hcr;
  if negb (Z.land c VGIC_ENABLE_MASK =? 0) then on_gic (gich_set_hcr (Z.lor hcr GICH_HCR_En_BIT))
  else on_gic (gich_set_hcr (Z.land hcr (u32 (Z.lnot GICH_HCR_En_BIT)))).

Definition vm_msg_broadcast (msg : cpu_msg) : prog vgic unit := m ← gets (λ s, master (the_vm s)); send_msg m msg.

Definition vgicd_emul_misc_access (acc : emul_access) : prog vgic unit :=
  let r := Z.land (addr acc) 0x7F in
  if r =? GICD_REG_IND off_CTLR then
    if write acc then
      prev_ctrl ← gets vCTLR;
      me ← my_vcpu;
      modify (λ s, s <| vCTLR := u32 (Z.land (vcpu_readreg me (reg acc)) VGIC_ENABLE_MASK) |>);;
      c ← gets vCTLR;
      if negb (Z.lxor prev_ctrl c =? 0) then
        vgic_update_enable;;
        vmid ← gets (λ s, vm_id (the_vm s));
        vm_msg_broadcast {| handler := VGIC_IPI_ID; event := VGIC_UPDATE_ENABLE; data := VGIC_MSG_DATA vmid 0 0 0 0 |}
      else mret tt
    else c ← gets vCTLR; writereg (reg acc) (Z.lor c GICD_CTLR_ARE_NS_BIT)
  else if r =? GICD_REG_IND off_TYPER then
    if negb (write acc) then t ← gets vTYPER; writereg (reg acc) t else mret tt
  else if r =? GICD_REG_IND off_IIDR then
    if negb (write acc) then t ← gets vIIDR; writereg (reg acc) t else mret tt
  else mret tt.

Definition vgicd_emul_pidr_access (acc : emul_access) : prog vgic unit :=
  if negb (write acc) then
    v ← on_gic (on_dist (rd (GICD_ID ((Z.land (addr acc) 0xff -64 0xd0) / 4))));
    writereg (reg acc) v
  else mret tt.

Definition vgic_emul_razwi (acc : emul_access) : prog vgic unit :=
  if negb (write acc) then writereg (reg acc) 0 else mret tt.

Definition vgic_int_set_field (h : vgic_reg_handler_info) (v p data : Z) : prog vgic unit :=
  lock_int p;;
  own ← vgic_get_ownership v p;
  (if (own : bool) then
     _ ← vgic_remove_lr v p;
     changed ← update_field h v p data;
     i ← geti p (λ i, i);
     (if changed && vgic_int_is_hw i then update_hw h v p else mret tt);;
     vgic_route lay cpu_num mpidr v p;;
     vgic_yield_ownership v p
   else
     vmid ← gets (λ s, vm_id (the_vm s));
     i ← geti p (λ i, i);
     o ← deref (owner i);
     pid ← gets (λ s, p_id (vcpu_tbl s o));
     send_msg pid {| handler := VGIC_IPI_ID; event := VGIC_SET_REG; data := VGIC_MSG_DATA vmid 0 (id i) (regid h) data |});;
  unlock_int p.

Fixpoint access_loop (acc : emul_access) (h : vgic_reg_handler_info) (first_int vgicr_id i val : Z) (n : nat) : prog vgic Z :=
  match n with
  | O => mret val
  | S n =>
      v ← gets cur_vcpu;
      interrupt ← vgic_get_int lay v (first_int +64 i) vgicr_id;
      match interrupt with
      | None => mret val
      | Some p =>
          if write acc then
            vgic_int_set_field h v p (bit_extract 64 val (i * field_width h) (field_width h));;
            access_loop acc h first_int vgicr_id (i + 1) val n
          else
            f ← read_field h v p;
            let mask := u64 (Z.shiftl 1 (field_width h)) -64 1 in
            access_loop acc h first_int vgicr_id (i + 1)
              (Z.lor val (u64 (Z.shiftl (Z.land f mask) (i * field_width h)))) n
      end
  end.

(** The number of the first interrupt a register of fields stands for. *)
Definition first_of (h : vgic_reg_handler_info) (a : Z) : Z := ((GICD_REG_MASK a -64 regroup_base h) *64 8) / field_width h.

(** The registers of private interrupts are those of a redistributor, the others those of the
    distributor; the other way round reads as zero and ignores writes. *)
Definition vgic_emul_generic_access (acc : emul_access) (h : vgic_reg_handler_info) (gicr_access : bool) (vgicr_id : Z) : prog vgic unit :=
  let first_int := first_of h (addr acc) in
  me ← my_vcpu;
  let val := if write acc then vcpu_readreg me (reg acc) else 0 in
  let valid_access := negb (xorb gicr_access (gic_is_priv first_int)) in
  val ← (if valid_access then access_loop acc h first_int vgicr_id 0 val (Z.to_nat (width acc * 8 / field_width h)) else mret val);
  if negb (write acc) then writereg (reg acc) val else mret tt.

(** *** vgicv3.c *)

Definition vgicr_emul_ctrl_access (acc : emul_access) : prog vgic unit :=
  if negb (write acc) then writereg (reg acc) 0 else mret tt.

Definition vgicr_emul_typer_access (acc : emul_access) (vgicr_id : Z) : prog vgic unit :=
  let word_access := width acc =? 4 in
  let top_access := word_access && negb (Z.land (addr acc) 0x4 =? 0) in
  if negb (write acc) then
    v ← gets (λ s, vm_get_vcpu (the_vm s) vgicr_id);
    v ← deref v;
    typer ← gets (λ s, r_TYPER (vgicrs s v));
    let typer := if top_access then Z.shiftr typer 32 else if word_access then Z.land typer (BIT64_MASK 0 32) else typer in
    writereg (reg acc) typer
  else mret tt.

Definition vgicr_emul_pidr_access (acc : emul_access) (vgicr_id : Z) : prog vgic unit :=
  if negb (write acc) then
    pgicr_id ← gets (λ s, vm_translate_to_pcpuid (vcpu_tbl s) (the_vm s) vgicr_id);
    val ← (if negb (pgicr_id =? INVALID_CPUID) then on_gic (rdr pgicr_id (GICR_ID ((Z.land (addr acc) 0xff -64 0xd0) / 4))) else mret 0);
    writereg (reg acc) val
  else mret tt.

(** The route after a write of [v]: of its upper word, its lower one, or all of it. *)
Definition merged_route (word_access top_access : bool) (route v : Z) : Z :=
  if top_access then Z.lor (Z.land route (BIT64_MASK 0 32)) (u64 (Z.shiftl (Z.land v (BIT64_MASK 0 32)) 32))
  else if word_access then Z.lor (Z.land route (BIT64_MASK 32 32)) (Z.land v (BIT64_MASK 0 32))
  else v.

Definition vgicd_emul_router_access (acc : emul_access) (h : vgic_reg_handler_info) : prog vgic unit :=
  let word_access := width acc =? 4 in
  let top_access := word_access && negb (Z.land (addr acc) 0x4 =? 0) in
  let aligned_addr := Z.land (addr acc) (u64 (Z.lnot 0x7)) in
  let irq_id := (GICD_REG_MASK aligned_addr -64 off_IROUTER) / 8 in
  me ← my_vcpu;
  v ← gets cur_vcpu;
  interrupt ← vgic_get_int lay v irq_id (vcpu_id me);
  match interrupt with
  | None => vgic_emul_razwi acc
  | Some p =>
      route ← vgic_int_get_route v p;
      if negb (write acc) then
        if top_access then writereg (reg acc) (u32 (Z.shiftr route 32))
        else if word_access then writereg (reg acc) (u32 route)
        else writereg (reg acc) route
      else
        let reg_value := vcpu_readreg me (reg acc) in
        vgic_int_set_field h v p (merged_route word_access top_access route reg_value)
  end.

Definition run_access (acc : emul_access) (h : vgic_reg_handler_info) (gicr_access : bool) (vgicr_id : Z) : prog vgic unit :=
  match reg_access h with
  | vgic_emul_generic_access_id => vgic_emul_generic_access acc h gicr_access vgicr_id
  | vgicd_emul_misc_access_id => vgicd_emul_misc_access acc
  | vgicd_emul_pidr_access_id => vgicd_emul_pidr_access acc
  | vgic_emul_razwi_id => vgic_emul_razwi acc
  | vgicd_emul_router_access_id => vgicd_emul_router_access acc h
  | vgicr_emul_ctrl_access_id => vgicr_emul_ctrl_access acc
  | vgicr_emul_typer_access_id => vgicr_emul_typer_access acc vgicr_id
  | vgicr_emul_pidr_access_id => vgicr_emul_pidr_access acc vgicr_id
  end.

Definition vgic_check_reg_alignment (acc : emul_access) (h : vgic_reg_handler_info) : bool :=
  negb ((Z.land (alignment h) (width acc) =? 0) || negb (Z.land (addr acc) (width acc -64 1) =? 0)).

(** The description [vgicd_emul_handler] chooses for an address. *)
Definition vgicd_reg_info (a : Z) : vgic_reg_handler_info :=
  let g := Z.shiftr (GICD_REG_MASK a) 7 in
  if g =? GICD_REG_GROUP off_CTLR then vgicd_misc_info
  else if g =? GICD_REG_GROUP off_ISENABLER then isenabler_info
  else if g =? GICD_REG_GROUP off_ISPENDR then ispendr_info
  else if g =? GICD_REG_GROUP off_ISACTIVER then isactiver_info
  else if g =? GICD_REG_GROUP off_ICENABLER then icenabler_info
  else if g =? GICD_REG_GROUP off_ICPENDR then icpendr_info
  else if g =? GICD_REG_GROUP off_ICACTIVER then iactiver_info
  else if g =? GICD_REG_GROUP off_ICFGR then icfgr_info
  else if g =? GICD_REG_GROUP off_SGIR then sgir_info
  else
    let acc_off := GICD_REG_MASK a in
    if GICD_IS_REG off_IPRIORITYR size_IPRIORITYR acc_off then ipriorityr_info
    else if GICD_IS_REG off_ITARGETSR size_ITARGETSR acc_off then itargetr_info
    else if GICD_IS_REG off_IROUTER size_IROUTER acc_off then irouter_info
    else if GICD_IS_REG off_ID size_ID acc_off then vgicd_pidr_info
    else razwi_info.

Definition vgicd_emul_handler (acc : emul_access) : prog vgic bool :=
  let handler_info := vgicd_reg_info (addr acc) in
  if vgic_check_reg_alignment acc handler_info then
    acquire vgicd_lock;;
    me ← my_vcpu;
    run_access acc handler_info false (vcpu_id me);;
    release vgicd_lock;;
    mret true
  else mret false.

Definition vgicr_get_id (a base : Z) : Z := (a -64 base) / sizeof_gicr_hw.

(** The description [vgicr_emul_handler] chooses for an address, with the redistributors at [base]. *)
Definition vgicr_reg_info (a base : Z) : vgic_reg_handler_info :=
  let r := GICR_REG_MASK a in
  if r =? r_off_CTLR then vgicr_ctrl_info
  else if r =? r_off_ISENABLER0 then isenabler_info
  else if r =? r_off_ISPENDR0 then ispendr_info
  else if r =? r_off_ISACTIVER0 then iactiver_info
  else if r =? r_off_ICENABLER0 then icenabler_info
  else if r =? r_off_ICPENDR0 then icpendr_info
  else if r =? r_off_ICACTIVER0 then icfgr_info
  else if (r =? r_off_ICFGR0) || (r =? r_off_ICFGR1) then icfgr_info
  else
    let acc_offset := GICR_REG_MASK (a -64 base) in
    if GICR_IS_REG r_off_TYPER 8 acc_offset then vgicr_typer_info
    else if GICR_IS_REG r_off_IPRIORITYR (4 * GIC_NUM_PRIO_REGS GIC_CPU_PRIV) acc_offset then ipriorityr_info
    else if GICR_IS_REG r_off_ID (0x10000 - r_off_ID) acc_offset then vgicr_pidr_info
    else razwi_info.

Definition lock_vgicr (v : Z) : prog vgic unit := λ s,
  match spin_lock (r_lock (vgicrs s v)) with
  | Done k => Done (tt, s <| vgicrs ::= alter (λ r, r <| r_lock := k |>) v |>)
  | Halt e => Halt e
  end.
Definition unlock_vgicr (v : Z) : prog vgic unit := modify (λ s, s <| vgicrs ::= alter (λ r, r <| r_lock ::= spin_unlock |>) v |>).

Definition vgicr_emul_handler (acc : emul_access) : prog vgic bool :=
  base ← gets vgicr_addr;
  let handler_info := vgicr_reg_info (addr acc) base in
  if vgic_check_reg_alignment acc handler_info then
    let vgicr_id := vgicr_get_id (addr acc) base in
    me ← my_vcpu;
    v ← (if vgicr_id =? vcpu_id me then gets cur_vcpu else v ← gets (λ s, vm_get_vcpu (the_vm s) vgicr_id); deref v);
    lock_vgicr v;;
    run_access acc handler_info true vgicr_id;;
    unlock_vgicr v;;
    mret true
  else mret false.

Definition vgic_icc_sgir_handler (acc : emul_access) : prog vgic bool :=
  (if write acc then
     me ← my_vcpu;
     s ← gets (λ s, s);
     let sgir := vcpu_readreg me (reg acc) in
     let sgir := if multi_reg acc then Z.lor sgir (u64 (Z.shiftl (vcpu_readreg me (reg_high acc)) 32)) else sgir in
     let int_id := ICC_SGIR_SGIINTID sgir in
     let trgtlist :=
       if negb (Z.land sgir ICC_SGIR_IRM_BIT =? 0) then Z.land (Vcpu.cpus (the_vm s)) (u32 (Z.lnot (u32 (Z.shiftl 1 (p_id me)))))
       else vm_translate_to_pcpu_mask (vcpu_tbl s) (the_vm s) (ICC_SGIR_TRGLSTFLT sgir) (nr_cpus (the_vm s)) in
     vgic_send_sgi_msg cpu_num trgtlist int_id
   else mret tt);;
  mret true.

Definition vgic_icc_sre_handler (acc : emul_access) : prog vgic bool :=
  (if negb (write acc) then writereg (reg acc) 0x1 else mret tt);;
  mret true.

(** ** Injection and messages *)

Definition vgic_inject (v int_id source : Z) : prog vgic unit :=
  vid ← gets (λ s, vcpu_id (vcpu_tbl s v));
  interrupt ← vgic_get_int lay v int_id vid;
  match interrupt with
  | None => mret tt
  | Some p =>
      i ← geti p (λ i, i);
      if vgic_int_is_hw i then vgic_inject_hw lay v int_id else vgic_int_set_field ispendr_info v p 1
  end.

Definition vgic_ipi_handler (ev dat : Z) : prog vgic unit :=
  let vmid := u16 (VGIC_MSG_VM dat) in
  let vgicr_id := u16 (VGIC_MSG_VGICRID dat) in
  let int_id := VGIC_MSG_INTID dat in
  let val := VGIC_MSG_VAL dat in
  mine ← gets (λ s, vm_id (the_vm s));
  v ← gets cur_vcpu;
  if negb (vmid =? mine) then halt FError
  else if ev =? VGIC_UPDATE_ENABLE then vgic_update_enable
  else if ev =? VGIC_ROUTE then
    me ← my_vcpu;
    interrupt ← vgic_get_int lay v int_id (vcpu_id me);
    match interrupt with
    | None => mret tt
    | Some p =>
        lock_int p;;
        own ← vgic_get_ownership v p;
        (if (own : bool) then
           target ← vgic_int_vcpu_is_target mpidr v p;
           (if (target : bool) then _ ← vgic_add_lr lay v p; mret tt else mret tt);;
           vgic_yield_ownership v p
         else mret tt);;
        unlock_int p
    end
  else if ev =? VGIC_INJECT then vgic_inject v int_id val
  else if ev =? VGIC_SET_REG then
    interrupt ← vgic_get_int lay v int_id vgicr_id;
    match vgic_get_reg_handler_info (VGIC_MSG_REG dat), interrupt with
    | Some h, Some p => vgic_int_set_field h v p val
    | _, _ => mret tt
    end
  else mret tt.

(** ** Initialisation *)

Definition vgic_get_itln (dscrp : vgic_dscrp) : prog vgic Z :=
  t ← on_gic (on_dist (rd GICD_TYPER));
  if GIC_MAX_PPIS <? interrupt_num dscrp
  then mret (Z.land (ALIGN 64 (interrupt_num dscrp) 32 / 32 -64 1) (BIT32_MASK 0 GICD_TYPER_ITLN_LEN))
  else mret (bit_extract 32 t GICD_TYPER_ITLN_OFF GICD_TYPER_ITLN_LEN).

Definition set_hw (p : Z) : prog vgic unit :=
  lock_int p;; updi p (λ i, i <| hw := true |>);; unlock_int p.

Fixpoint set_hw_loop (int_id vcpuid : Z) (n : nat) : prog vgic unit :=
  match n with
  | O => mret tt
  | S n =>
      v ← gets (λ s, vm_get_vcpu (the_vm s) vcpuid);
      v ← deref v;
      interrupt ← vgic_get_int lay v int_id vcpuid;
      (match interrupt with Some p => set_hw p | None => mret tt end);;
      set_hw_loop int_id (vcpuid + 1) n
  end.

Definition vgic_set_hw (int_id : Z) : prog vgic unit :=
  if int_id <? GIC_MAX_SGIS then mret tt
  else if int_id <? GIC_CPU_PRIV then
    nr ← gets (λ s, nr_cpus (the_vm s));
    set_hw_loop int_id 0 (Z.to_nat nr)
  else
    v ← gets (λ s, vm_get_vcpu (the_vm s) 0);
    v ← deref v;
    interrupt ← vgic_get_int lay v int_id 0;
    match interrupt with Some p => set_hw p | None => mret tt end.

(** The entries [k, k + n) of an array of interrupts at [base], each set by [f]. *)
Fixpoint init_ints (base : Z) (f : Z → vgic_int → vgic_int) (k : Z) (n : nat) : prog vgic unit :=
  match n with
  | O => mret tt
  | S n => updi (base + k * sizeof_vgic_int) (f k);; init_ints base f (k + 1) n
  end.

Definition init_shared (k : Z) (i : vgic_int) : vgic_int :=
  i <| owner := None |> <| ilock := SPINLOCK_INITVAL |> <| id := k + GIC_CPU_PRIV |> <| state := INV |>
    <| prio := GIC_LOWEST_PRIO |> <| cfg := 0 |> <| route := GICD_IROUTER_INV |> <| phys := GICD_IROUTER_INV |>
    <| hw := false |> <| in_lr := false |> <| enabled := false |>.

Definition init_private (pid k : Z) (i : vgic_int) : vgic_int :=
  i <| owner := None |> <| ilock := SPINLOCK_INITVAL |> <| id := k |> <| state := INV |>
    <| prio := GIC_LOWEST_PRIO |> <| cfg := 0 |> <| route := GICD_IROUTER_INV |> <| phys := pid |>
    <| hw := false |> <| in_lr := false |> <| enabled := false |>.

(** The value a guest reads in the TYPER register of a vcpu's redistributor. *)
Definition redist_typer (nr id mp : Z) : Z :=
  Z.lor (Z.lor (u64 (Z.shiftl id GICR_TYPER_PRCNUM_OFF)) (u64 (Z.shiftl (Z.land mp MPIDR_AFF_MSK) GICR_TYPER_AFFVAL_OFF)))
    (Z.shiftl (Z.b2z (id =? nr -64 1)) GICR_TYPER_LAST_OFF).

Fixpoint init_vgicrs (vcpuid : Z) (n : nat) : prog vgic unit :=
  match n with
  | O => mret tt
  | S n =>
      s ← gets (λ s, s);
      v ← deref (vm_get_vcpu (the_vm s) vcpuid);
      let c := vcpu_tbl s v in
      modify (λ s, s <| vgicrs ::= alter (λ r, r <| r_TYPER := redist_typer (nr_cpus (the_vm s)) (vcpu_id c) (vmpidr c) |>) v |>);;
      me ← my_cpu;
      iidr ← on_gic (rdr me GICR_IIDR);
      modify (λ s, s <| vgicrs ::= alter (λ r, r <| r_IIDR := iidr |>) v |>);;
      init_vgicrs (vcpuid + 1) n
  end.

Definition add_emul_mem (node : Z) (e : emul_mem3) : prog vgic unit :=
  modify (λ s, s <| emul_mems ::= <[node := e]> |>);;
  modify (λ s, s <| links ::= INIT_LIST_HEAD node |>);;
  modify (λ s, s <| links ::= vm_emul_add_mem node (emul_mem_list (common lay)) |>).
Definition add_emul_reg (node : Z) (e : emul_reg3) : prog vgic unit :=
  modify (λ s, s <| emul_regs ::= <[node := e]> |>);;
  modify (λ s, s <| links ::= INIT_LIST_HEAD node |>);;
  modify (λ s, s <| links ::= vm_emul_add_reg node (emul_reg_list (common lay)) |>).

(** [alloc n] is [mem_alloc_page] of [n] pages, whose model is in [PagePool]; it gives the address
    of the array or 0. *)
Definition vgic_init (alloc : Z → prog vgic Z) (dscrp : vgic_dscrp) : prog vgic unit :=
  modify (λ s, s <| vgicr_addr := gicr_addr dscrp |>);;
  modify (λ s, s <| vCTLR := 0 |>);;
  vtyper_itln ← vgic_get_itln dscrp;
  modify (λ s, s <| int_num := 32 * (vtyper_itln + 1) |>);;
  modify (λ s, s <| vTYPER :=
    Z.lor (Z.lor (Z.land (u64 (Z.shiftl vtyper_itln GICD_TYPER_ITLN_OFF)) GICD_TYPER_ITLN_MSK)
                 (Z.land (u64 (Z.shiftl (nr_cpus (the_vm s) -64 1) GICD_TYPER_CPUNUM_OFF)) GICD_TYPER_CPUNUM_MSK))
          (Z.land (Z.shiftl (10 - 1) GICD_TYPER_IDBITS_OFF) GICD_TYPER_IDBITS_MSK) |>);;
  iidr ← on_gic (on_dist (rd GICD_IIDR));
  modify (λ s, s <| vIIDR := iidr |>);;
  num ← gets int_num;
  a ← alloc (NUM_PAGES (num *64 sizeof_vgic_int));
  modify (λ s, s <| interrupts := a |>);;
  (if a =? 0 then halt FError else mret tt);;
  init_ints a init_shared 0 (Z.to_nat num);;
  add_emul_mem (vgicd_emul_node (common lay))
    {| va_base3 := gicd_addr dscrp; size3 := ALIGN 64 sizeof_gicd_hw PAGE_SIZE; mem_handler3 := vgicd_emul_handler3_id |};;
  nr ← gets (λ s, nr_cpus (the_vm s));
  init_vgicrs 0 (Z.to_nat nr);;
  add_emul_mem (vgicr_emul_node lay)
    {| va_base3 := gicr_addr dscrp; size3 := ALIGN 64 sizeof_gicr_hw PAGE_SIZE *64 nr; mem_handler3 := vgicr_emul_handler_id |};;
  add_emul_reg (icc_sgir_emul_node lay) {| reg_addr3 := ICC_SGI1R_ENC; reg_handler3 := vgic_icc_sgir_handler_id |};;
  add_emul_reg (icc_sre_emul_node lay) {| reg_addr3 := ICC_SRE_ENC; reg_handler3 := vgic_icc_sre_handler_id |};;
  modify (λ s, s <| links ::= INIT_LIST_HEAD (vm_spilled (common lay)) |>);;
  modify (λ s, s <| spilled_lock := SPINLOCK_INITVAL |>).

Definition vgic_cpu_init (v : Z) : prog vgic unit :=
  pid ← gets (λ s, p_id (vcpu_tbl s v));
  init_ints (priv_interrupts (common lay) v) (init_private pid) 0 (Z.to_nat GIC_CPU_PRIV);;
  init_ints (priv_interrupts (common lay) v) (λ _ i, i <| cfg := 2 |>) 0 (Z.to_nat GIC_MAX_SGIS);;
  modify (λ s, s <| links ::= INIT_LIST_HEAD (vcpu_spilled (common lay) v) |>).

(** ** Decoding an address of a redistributor *)

(** The registers of one redistributor as the guest should see them: first and last offset matched,
    and how an access is emulated: function, access widths, register number, first register,
    bits per interrupt. *)
Definition redist_map : list (Z * Z * (access_fn * Z * Z * Z * Z)) := [
  (0x00000, 0x00000, (vgicr_emul_ctrl_access_id, 4, 0, 0, 0));
  (0x00008, 0x0000f, (vgicr_emul_typer_access_id, 12, 0, 0, 0));
  (0x0ffd0, 0x0ffff, (vgicr_emul_pidr_access_id, 4, 0, 0, 0));
  (0x10100, 0x10100, (vgic_emul_generic_access_id, 4, VGIC_ISENABLER_ID, 0x100, 1));
  (0x10180, 0x10180, (vgic_emul_generic_access_id, 4, VGIC_ICENABLER_ID, 0x180, 1));
  (0x10200, 0x10200, (vgic_emul_generic_access_id, 4, VGIC_ISPENDR_ID, 0x200, 1));
  (0x10280, 0x10280, (vgic_emul_generic_access_id, 4, VGIC_ICPENDR_ID, 0x280, 1));
  (0x10300, 0x10300, (vgic_emul_generic_access_id, 4, VGIC_ISACTIVER_ID, 0x300, 1));
  (0x10380, 0x10380, (vgic_emul_generic_access_id, 4, VGIC_ICACTIVER_ID, 0x380, 1));
  (0x10400, 0x1041f, (vgic_emul_generic_access_id, 5, VGIC_IPRIORITYR_ID, 0x400, 8));
  (0x10c00, 0x10c00, (vgic_emul_generic_access_id, 4, VGIC_ICFGR_ID, 0xc00, 2));
  (0x10c04, 0x10c04, (vgic_emul_generic_access_id, 4, VGIC_ICFGR_ID, 0xc00, 2))].

Definition redist_decode (o : Z) : access_fn * Z * Z * Z * Z :=
  match List.find (λ e, (e.1.1 <=? o) && (o <=? e.1.2)) redist_map with
  | Some e => e.2
  | None => (vgic_emul_razwi_id, 4, 0, 0, 0)
  end.

Definition described (h : vgic_reg_handler_info) : access_fn * Z * Z * Z * Z :=
  (reg_access h, alignment h, regid h, regroup_base h, field_width h).

Lemma redist_offset a : GICR_REG_MASK a = a mod 0x20000.
Proof using. unfold GICR_REG_MASK. change 0x1ffff with (Z.ones 17). by rewrite Z.land_ones by lia. Qed.

Lemma redist_based a base : base mod 0x20000 = 0 → GICR_REG_MASK (a -64 base) = a mod 0x20000.
Proof using.
  intros Hb. rewrite redist_offset. unfold wrap. rewrite Z.mod_mod_divide by (exists (2 ^ 47); reflexivity).
  by rewrite Zminus_mod, Hb, Z.sub_0_r, Zmod_mod.
Qed.

(** The offsets compared with are those of the struct. *)
Lemma redist_offsets :
  map (offset_of gicr_hw) ["CTLR"; "TYPER"; "ID"; "ISENABLER0"; "ICENABLER0"; "ISPENDR0"; "ICPENDR0"; "ISACTIVER0"; "ICACTIVER0"; "IPRIORITYR"; "ICFGR0"; "ICFGR1"]%string =
    map Some [r_off_CTLR; r_off_TYPER; r_off_ID; r_off_ISENABLER0; r_off_ICENABLER0; r_off_ISPENDR0; r_off_ICPENDR0; r_off_ISACTIVER0; r_off_ICACTIVER0;
      r_off_IPRIORITYR; r_off_ICFGR0; r_off_ICFGR1] ∧
  sizeof gicr_hw 0x10000 = sizeof_gicr_hw.
Proof using. split; by vm_compute. Qed.

(** C40: the dispatch of [vgicr_emul_handler] agrees with the register map of the redistributor at every
    address but those of two registers: GICR_ISACTIVER0 is handled as GICR_ICACTIVER0, and that one as GICR_ICFGR. *)
Theorem vgicr_reg_info_decodes a base : base mod 0x20000 = 0 →
  described (vgicr_reg_info a base) =
    let o := a mod 0x20000 in
    if o =? r_off_ISACTIVER0 then redist_decode r_off_ICACTIVER0
    else if o =? r_off_ICACTIVER0 then redist_decode r_off_ICFGR0
    else redist_decode o.
Proof using.
  intros Hb. unfold vgicr_reg_info. rewrite redist_offset, redist_based by done. cbv zeta. set (o := a mod 0x20000). clearbody o.
  repeat match goal with |- context [o =? ?k] => destruct (Z.eqb_spec o k) as [->|?]; [by vm_compute|] end. cbn [orb].
  unfold redist_decode, redist_map, List.find, GICR_IS_REG. cbn [fst snd].
  assert (∀ k, o ≠ k → (k <=? o) && (o <=? k) = false) as Hk by (intros k Hk; zcase; cbn; try done; lia).
  rewrite !Hk by done. unfold r_off_TYPER, r_off_IPRIORITYR, r_off_ID. change (4 * GIC_NUM_PRIO_REGS GIC_CPU_PRIV) with 0x20.
  zcase; cbn [andb]; try done; lia.
Qed.

Lemma active_info a base : GICR_REG_MASK a = r_off_ISACTIVER0 ∨ GICR_REG_MASK a = r_off_ICACTIVER0 →
  let h := vgicr_reg_info a base in
  reg_access h = vgic_emul_generic_access_id ∧ alignment h = 4 ∧ Z.land a 3 = 0 ∧ gic_is_priv (first_of h a) = false.
Proof using.
  intros Ho. assert (∀ m, Z.land 0x1ffff m = m → Z.land a m = Z.land (GICR_REG_MASK a) m) as Hm.
  { intros m Em. unfold GICR_REG_MASK. by rewrite <-Z.land_assoc, Em. }
  unfold vgicr_reg_info, first_of, GICD_REG_MASK. rewrite !Hm by reflexivity. destruct Ho as [-> | ->]; by vm_compute.
Qed.

(** A guest with a GICv3 can neither read nor change which of its private interrupts are active.  A word access to
    GICR_ISACTIVER0 or GICR_ICACTIVER0 succeeds, but a read gives zero and a write changes nothing: the
    handlers chosen subtract a register offset above the one accessed. *)
Theorem vgicr_active_ignored acc (s : vgic) :
  GICR_REG_MASK (addr acc) = r_off_ISACTIVER0 ∨ GICR_REG_MASK (addr acc) = r_off_ICACTIVER0 →
  width acc = 4 → vgicr_get_id (addr acc) (vgicr_addr s) = vcpu_id (vcpu_tbl s (cur_vcpu s)) → lock_free (r_lock (vgicrs s (cur_vcpu s))) →
  ∃ R V, vgicr_emul_handler acc s = Done (true, s <| vgicrs := R |> <| vcpu_tbl := V |>) ∧
    (∀ v, R v = if v =? cur_vcpu s then vgicrs s v <| r_lock ::= lock_cycle |> else vgicrs s v) ∧
    (∀ v, V v = if (v =? cur_vcpu s) && negb (write acc) then vcpu_writereg (vcpu_tbl s v) (reg acc) 0 else vcpu_tbl s v).
Proof using.
  intros Ho Hw Hid Hl. destruct (active_info _ (vgicr_addr s) Ho) as (Ha & Hal & H3 & Hp).
  assert (vgic_check_reg_alignment acc (vgicr_reg_info (addr acc) (vgicr_addr s)) = true) as Hok.
  { unfold vgic_check_reg_alignment. rewrite Hal, Hw. change (4 -64 1) with 3. by rewrite H3. }
  unfold vgicr_emul_handler. psteps. rewrite Hok. unfold my_vcpu. psteps. rewrite Hid, Z.eqb_refl. psteps.
  unfold lock_vgicr, unlock_vgicr. unfold mbind at 1, prog_bind at 1. rewrite spin_lock_free by done. fold (lock_taken (r_lock (vgicrs s (cur_vcpu s)))).
  unfold run_access. rewrite Ha. unfold vgic_emul_generic_access, my_vcpu. psteps. rewrite Hp. cbn [xorb negb]. psteps.
  assert (∀ m v, alter (λ r, r <| r_lock ::= spin_unlock |>) (cur_vcpu s) (alter (λ r, r <| r_lock := lock_taken (r_lock (vgicrs s (cur_vcpu s))) |>) (cur_vcpu s) m) v =
    if v =? cur_vcpu s then m v <| r_lock := lock_cycle (r_lock (vgicrs s (cur_vcpu s))) |> else m v) as HR.
  { intros m v. destruct (Z.eqb_spec v (cur_vcpu s)) as [->|]; [by rewrite !alter_eq|by rewrite !alter_ne by done]. }
  set (R := alter (λ r, r <| r_lock ::= spin_unlock |>) (cur_vcpu s) (alter (λ r, r <| r_lock := lock_taken (r_lock (vgicrs s (cur_vcpu s))) |>) (cur_vcpu s) (vgicrs s))).
  destruct (write acc); cbn [negb]; unfold writereg; psteps.
  - exists R, (vcpu_tbl s). split; [reflexivity|]. split; [|by intros v; rewrite andb_false_r].
    intros v. unfold R. rewrite HR. destruct (Z.eqb_spec v (cur_vcpu s)) as [->|]; done.
  - exists R, (alter (λ v, vcpu_writereg v (reg acc) 0) (cur_vcpu s) (vcpu_tbl s)). split; [reflexivity|]. split; intros v.
    + unfold R. rewrite HR. destruct (Z.eqb_spec v (cur_vcpu s)) as [->|]; done.
    + rewrite andb_true_r. destruct (Z.eqb_spec v (cur_vcpu s)) as [->|]; [by rewrite alter_eq|by rewrite alter_ne].
Qed.

End emulation.

Lemma vgicr_reg_info_decodes_witness :
  described (@vgicr_reg_info RegisterFile3 0x80b0380 0x80a0000) = (vgic_emul_generic_access_id, 4, VGIC_ICFGR_ID, 0xc00, 2) ∧
  described (@vgicr_reg_info RegisterFile3 0x80d0100 0x80a0000) = (vgic_emul_generic_access_id, 4, VGIC_ISENABLER_ID, 0x100, 1).
Proof. split; (etransitivity; [apply (@vgicr_reg_info_decodes RegisterFile3); reflexivity|by vm_compute]). Defined.

(** A write of GICR_ICACTIVER0 of vcpu 0. *)
Definition sample_clear : emul_access :=
  {| addr := 0x80b0380; write := true; sign_ext := false; width := 4; reg := 3; reg_high := 0; multi_reg := false; reg_width := 4 |}.

Lemma vgicr_active_ignored_witness :
  ∃ s', @vgicr_emul_handler RegisterFile3 sample_layout3 2 0 sample_clear sample_vgic3 = Done (true, s') ∧
    ints s' = ints sample_vgic3 ∧ cpu_gic s' = cpu_gic sample_vgic3.
Proof.
  destruct (@vgicr_active_ignored RegisterFile3 sample_layout3 2 0 sample_clear sample_vgic3) as (R & V & E & _);
    [right; reflexivity|reflexivity|reflexivity|by split|].
  eexists. split; [exact E|]. split; reflexivity.
Defined.
