(* ===== verification/Chain.v ===== *)
(** * Singly linked chains

    The run queue and the ready queues are threaded through a [next] field that ends in NULL.
    [chain nx p l]: following [nx] from the pointer [p] visits exactly the nodes of [l]. *)
From S2P Require Import Prelude.

Fixpoint chain (nx : Z → option Z) (p : option Z) (l : list Z) : Prop :=
  match l with
  | [] => p = None
  | r :: l => p = Some r ∧ chain nx (nx r) l
  end.

Lemma chain_head nx p l : chain nx p l → p = head l.
Proof. destruct l; simpl; [done|by intros [-> _]]. Qed.

Lemma chain_lookup nx p l i r : chain nx p l → l !! i = Some r → nx r = l !! S i.
Proof.
  revert p i. induction l as [|y l IH]; intros p i; [done|]. intros [-> Hc].
  destruct i as [|i]; simpl.
  - intros [= ->]. apply chain_head in Hc. rewrite Hc. by destruct l.
  - by apply IH with (nx y).
Qed.

Lemma chain_intro nx p l :
  p = head l → (∀ i r, l !! i = Some r → nx r = l !! S i) → chain nx p l.
Proof.
  revert p. induction l as [|y l IH]; intros p Hp Hn; [done|]. simpl in *.
  split; [done|]. apply IH.
  - rewrite (Hn 0%nat y) by done. simpl. by destruct l.
  - intros i r Hi. apply (Hn (S i) r Hi).
Qed.

Lemma chain_ext nx nx' p l :
  (∀ r, r ∈ l → nx' r = nx r) → chain nx p l → chain nx' p l.
Proof.
  revert p. induction l as [|y l IH]; intros p Hn; [done|]. simpl. intros [-> Hc].
  split; [done|]. rewrite Hn by constructor. apply IH; [|done].
  intros r Hr. apply Hn. by constructor.
Qed.

Lemma chain_unique nx p l1 l2 : chain nx p l1 → chain nx p l2 → l1 = l2.
Proof.
  revert p l2. induction l1 as [|y l1 IH]; intros p [|z l2]; simpl; try done.
  - by intros -> [? _].
  - by intros [-> _] ?.
  - intros [-> H1] [[= ->] H2]. f_equal. eauto.
Qed.

(** Appending a node: the last one points to it and it ends the chain. *)
Lemma chain_snoc nx nx' p l t v :
  NoDup (l ++ [t; v]) →
  chain nx p (l ++ [t]) →
  nx' t = Some v → nx' v = None → (∀ r, r ∈ l → nx' r = nx r) →
  chain nx' p (l ++ [t; v]).
Proof.
  intros Hnd Hc Ht Hv Hl. apply chain_intro.
  { rewrite (chain_head _ _ _ Hc). by destruct l. }
  intros i r Hi. apply lookup_app_Some in Hi as [Hi|[Hle Hi]].
  - rewrite Hl by (eapply list_elem_of_lookup_2; done).
    rewrite (chain_lookup _ _ _ i r Hc) by (by rewrite lookup_app_l; [|eapply lookup_lt_Some]).
    pose proof (lookup_lt_Some _ _ _ Hi).
    destruct (decide (S i < length l)%nat).
    + by rewrite !lookup_app_l by lia.
    + assert (S i = length l) as -> by lia. by rewrite !lookup_app_r, !Nat.sub_diag by lia.
  - rewrite lookup_app_r by lia. destruct (i - length l)%nat as [|[|k]] eqn:E; simplify_eq/=.
    + replace (S i - length l)%nat with 1%nat by lia. done.
    + replace (S i - length l)%nat with 2%nat by lia. done.
Qed.

Lemma chain_singleton nx v : nx v = None → chain nx (Some v) [v].
Proof. done. Qed.

(** Removing an inner node: its predecessor points past it. *)
Lemma chain_remove nx nx' p l1 y r l2 :
  chain nx p (l1 ++ y :: r :: l2) → NoDup (l1 ++ y :: r :: l2) →
  nx' y = nx r → (∀ z, z ∈ l1 ++ l2 → nx' z = nx z) →
  chain nx' p (l1 ++ y :: l2).
Proof.
  intros Hc Hnd Hy Hz. revert p Hc. induction l1 as [|w l1 IH]; intros p; simpl.
  - intros (-> & Hyr & Hc). split; [done|]. rewrite Hy.
    eapply chain_ext, Hc. intros z Hin. apply Hz. set_solver.
  - intros [-> Hc]. split; [done|]. rewrite Hz by set_solver.
    apply IH; [by apply NoDup_cons in Hnd as [_ ?]|set_solver|done].
Qed.
