(* ===== verification/Sched.v ===== *)
(** * The scheduler: src/core/sched.c, src/core/inc/sched.h

    Data and operations of the two-level scheduler.  VMs wait in the run queue, a doubly linked
    list of [runQueueNode]s headed by [rq_ptr], from which BFS takes the earliest virtual
    deadline; the virtual CPUs of a VM wait in the ten FIFO queues of its node, with a bitmap of
    the non-empty ones, from which BMQ takes the highest priority.  Nodes live in two static
    arrays, so a pointer to a node is its index ([None] is NULL), and every operation mutates
    the arrays.  The state gathers the file's globals, the tables of VMs and vcpus and the
    per-CPU structures; [cpu()] is the argument [c].  Messages printed by [INFO] and the
    timestamps read for them are left out. *)
From S2P Require Import Prelude Util Bits Bitmap Spinlock Cpu Vcpu.

(** ** Constants *)

Definition TASK_READY : Z := 0.
Definition TASK_RUNNING : Z := 1.
Definition bfs_default_prio : Z := 5.
Definition bmq_default_prio : Z := 5.
Definition PRIO_WIDTH : Z := 10.
Definition BMQ_BITMAP_SIZE : Z := 10.
Definition MAXPRIO_ADJ : Z := 5.
Definition RNODE_NUM : Z := MAX_VM_NUM + 8.
Definition VNODE_NUM : Z := MAX_VCPU_NUM + 8.

(** ** Data *)

(** [multi_queue] is a pointer into [multi_queue_memory]: its index there. *)
Record runQueueNode := {
  rq_vm : option Z;
  nr_vcpu_ready : Z;
  rq_prio : Z;
  vdeadline_diff : Z;
  vdeadline : Z;
  rq_prev : option Z;
  rq_next : option Z;
  bitmap : Z;
  multi_queue : option Z;
  run_vnode : option Z;
  rq_state : Z;
  rq_time_slice : Z;
  rq_need_resched : Z;
  vq_ptr : option Z
}.
#[export] Instance eta_runQueueNode : Eta runQueueNode := λ n,
  Build_runQueueNode (rq_vm n) (nr_vcpu_ready n) (rq_prio n) (vdeadline_diff n) (vdeadline n)
    (rq_prev n) (rq_next n) (bitmap n) (multi_queue n) (run_vnode n) (rq_state n)
    (rq_time_slice n) (rq_need_resched n) (vq_ptr n).

Record vCpuNode := {
  cur : option Z;
  static_prio : Z;
  prio_adj : Z;
  prio : Z;
  vn_next : option Z;
  vn_state : Z;
  vn_time_slice : Z;
  vn_need_resched : Z
}.
#[export] Instance eta_vCpuNode : Eta vCpuNode := λ v,
  Build_vCpuNode (cur v) (static_prio v) (prio_adj v) (prio v) (vn_next v) (vn_state v)
    (vn_time_slice v) (vn_need_resched v).

Record sched := {
  rqnode_memory : Z → runQueueNode;
  multi_queue_memory : Z → option Z;
  vpnode_memory : Z → vCpuNode;
  rqnode_mem_bitmap : bitmap_t;
  vpnode_mem_bitmap : bitmap_t;
  rqnode_memory_lock : spinlock_t;
  vpnode_memory_lock : spinlock_t;
  rq_spin_lock : spinlock_t;
  rq_ptr : option Z;
  prio_ratios : Z → Z;
  bfs_rr_interval : Z;
  bmq_rr_interval : Z;
  bfs_clock : Z;
  io_sleep_flag : Z;
  sleep_vnode : option Z;
  with_sleep_vnode_rqnode : option Z;
  TIMER_WAIT : Z;
  cpu_glb_sync : cpu_synctoken;
  vm_table : Z → vm;
  vcpu_table : Z → vcpu;
  cpu_table : Z → cpu
}.
#[export] Instance eta_sched : Eta sched := λ s,
  Build_sched (rqnode_memory s) (multi_queue_memory s) (vpnode_memory s) (rqnode_mem_bitmap s)
    (vpnode_mem_bitmap s) (rqnode_memory_lock s) (vpnode_memory_lock s) (rq_spin_lock s)
    (rq_ptr s) (prio_ratios s) (bfs_rr_interval s) (bmq_rr_interval s) (bfs_clock s)
    (io_sleep_flag s) (sleep_vnode s) (with_sleep_vnode_rqnode s) (TIMER_WAIT s)
    (cpu_glb_sync s) (vm_table s) (vcpu_table s) (cpu_table s).

(** Two states are equal when their fields are. *)
Lemma sched_ext s s' :
  rqnode_memory s = rqnode_memory s' → multi_queue_memory s = multi_queue_memory s' → vpnode_memory
  s = vpnode_memory s' → rqnode_mem_bitmap s = rqnode_mem_bitmap s' → vpnode_mem_bitmap s =
  vpnode_mem_bitmap s' → rqnode_memory_lock s = rqnode_memory_lock s' → vpnode_memory_lock s =
  vpnode_memory_lock s' → rq_spin_lock s = rq_spin_lock s' → rq_ptr s = rq_ptr s' → prio_ratios s =
  prio_ratios s' → bfs_rr_interval s = bfs_rr_interval s' → bmq_rr_interval s = bmq_rr_interval s' →
  bfs_clock s = bfs_clock s' → io_sleep_flag s = io_sleep_flag s' → sleep_vnode s = sleep_vnode s' →
  with_sleep_vnode_rqnode s = with_sleep_vnode_rqnode s' → TIMER_WAIT s = TIMER_WAIT s' →
  cpu_glb_sync s = cpu_glb_sync s' → vm_table s = vm_table s' → vcpu_table s = vcpu_table s' →
  cpu_table s = cpu_table s' → s = s'.
Proof. destruct s, s'; simpl. intros. by subst. Qed.

Lemma Done_state {A} (a : A) (s s' : sched) : s = s' → Done (a, s) = Done (a, s').
Proof. by intros ->. Qed.

Ltac sched_eq := try apply Done_state; apply sched_ext; rsimpl; reflexivity.

Definition read_rq (r : Z) : prog sched runQueueNode := gets (λ s, rqnode_memory s r).
Definition read_vn (v : Z) : prog sched vCpuNode := gets (λ s, vpnode_memory s v).
Definition read_cpu (c : Z) : prog sched cpu := gets (λ s, cpu_table s c).
Definition upd_rq (r : Z) (f : runQueueNode → runQueueNode) : prog sched unit :=
  modify (λ s, s <| rqnode_memory ::= alter f r |>).
Definition upd_vn (v : Z) (f : vCpuNode → vCpuNode) : prog sched unit :=
  modify (λ s, s <| vpnode_memory ::= alter f v |>).
Definition upd_cpu (c : Z) (f : cpu → cpu) : prog sched unit :=
  modify (λ s, s <| cpu_table ::= alter f c |>).

(** ** Node memory *)

(** The free slot found, as the [int] the code stores it in: -1 when there is none. *)
Definition free_slot (map : bitmap_t) (size : Z) : Z :=
  s32 (bitmap_find_nth map size 1 0 false).

(** The node's index and [*pos], which are the same number; a full memory is only reported. *)
Definition malloc_rqnode : prog sched Z :=
  acquire rqnode_memory_lock;;
  pos ← gets (λ s, free_slot (rqnode_mem_bitmap s) RNODE_NUM);
  modify (λ s, s <| rqnode_mem_bitmap ::= λ m, bitmap_set m (u64 pos) |>);;
  release rqnode_memory_lock;;
  mret pos.

Definition malloc_vpnode : prog sched Z :=
  acquire vpnode_memory_lock;;
  pos ← gets (λ s, free_slot (vpnode_mem_bitmap s) VNODE_NUM);
  modify (λ s, s <| vpnode_mem_bitmap ::= λ m, bitmap_set m (u64 pos) |>);;
  release vpnode_memory_lock;;
  mret pos.

(** ** BFS *)

Fixpoint init_pr_loop (ratios : Z → Z) (i : Z) (fuel : nat) : Z → Z :=
  match fuel with
  | O => ratios
  | S fuel => init_pr_loop (<[i := (ratios (i - 1) * 11) `quot` 10]> ratios) (i + 1) fuel
  end.

Definition init_pr : prog sched unit :=
  modify (λ s, s <| prio_ratios ::= λ r, init_pr_loop (<[0 := 128]> r) 1 (Z.to_nat (PRIO_WIDTH - 1)) |>).

Definition prio_deadline_diff (s : sched) (user_prio : Z) : Z :=
  u64 ((prio_ratios s user_prio * bfs_rr_interval s) `quot` 128).

(** [for (i = 0; i < BMQ_BITMAP_SIZE; ++i) multi_queue[i] = NULL]. *)
Definition clear_queues (base : Z) : prog sched unit :=
  modify (λ s, s <| multi_queue_memory ::= λ m j,
    if (base <=? j) && (j <? base + BMQ_BITMAP_SIZE) then None else m j |>).

Definition initialize_rqnode (vmp : option Z) (pr : Z) : prog sched Z :=
  r ← malloc_rqnode;
  upd_rq r (λ n, n <| rq_prev := None |> <| rq_next := None |> <| rq_vm := vmp |>);;
  match vmp with
  | Some v => w ← gets (λ s, vm_table s v); upd_rq r (λ n, n <| nr_vcpu_ready := u32 (nr_cpus w) |>)
  | None => mret tt
  end;;
  diff ← gets (λ s, prio_deadline_diff s (s32 pr));
  clock ← gets bfs_clock;
  upd_rq r (λ n, n <| rq_prio := pr |> <| vdeadline_diff := diff |> <| vdeadline := clock +64 diff |>
                   <| bitmap := 0 |> <| multi_queue := Some (r * PRIO_WIDTH) |>);;
  clear_queues (r * PRIO_WIDTH);;
  upd_rq r (λ n, n <| run_vnode := None |> <| rq_state := TASK_READY |> <| rq_time_slice := 0 |>
                   <| rq_need_resched := 1 |>);;
  mret r.

Definition rq_insert (r : Z) : prog sched unit :=
  acquire rq_spin_lock;;
  h ← gets rq_ptr;
  hp ← deref h;
  hn ← read_rq hp;
  upd_rq r (λ n, n <| rq_next := rq_next hn |> <| rq_prev := h |>);;
  hn ← read_rq hp;
  match rq_next hn with
  | Some _ => n ← read_rq r; nx ← deref (rq_next n); upd_rq nx (λ n, n <| rq_prev := Some r |>)
  | None => mret tt
  end;;
  upd_rq hp (λ n, n <| rq_next := Some r |>);;
  release rq_spin_lock.

Definition rq_remove (r : Z) : prog sched unit :=
  n ← read_rq r;
  pv ← deref (rq_prev n);
  upd_rq pv (λ m, m <| rq_next := rq_next n |>);;
  n ← read_rq r;
  match rq_next n with
  | Some nx => upd_rq nx (λ m, m <| rq_prev := rq_prev n |>)
  | None => mret tt
  end;;
  upd_rq r (λ m, m <| rq_prev := None |> <| rq_next := None |>).

Definition p_task_insert (vmp : option Z) (pr : Z) : prog sched unit :=
  r ← initialize_rqnode vmp pr; rq_insert r.

(** The scan of the run queue.  The list has at most [RNODE_NUM] nodes; a scan that is still
    going after that many is on a cyclic list. *)
Fixpoint lookup_loop (rqnode target : option Z) (fuel : nat) : prog sched (option Z) :=
  match rqnode with
  | None => mret target
  | Some r =>
      match fuel with
      | O => halt FSpin
      | S fuel =>
          n ← read_rq r;
          better ← match target with
                   | None => mret true
                   | Some t => tn ← read_rq t; mret (vdeadline n <? vdeadline tn)
                   end;
          lookup_loop (rq_next n) (if (0 <? nr_vcpu_ready n) && better then Some r else target) fuel
      end
  end.

Definition p_task_lookup : prog sched (option Z) :=
  acquire rq_spin_lock;;
  h ← gets rq_ptr;
  hp ← deref h;
  hn ← read_rq hp;
  target ← lookup_loop (rq_next hn) None (Z.to_nat RNODE_NUM);
  match target with
  | Some t =>
      n ← read_rq t;
      _ ← deref (rq_vm n);
      rq_remove t;;
      release rq_spin_lock;;
      mret (Some t)
  | None => release rq_spin_lock;; mret None
  end.

Definition VTTBR_VMID_OFF : Z := 48.
Definition VTTBR_VMID_MSK : Z := BIT64_MASK VTTBR_VMID_OFF 8.

(** The value of VTTBR_EL2 for a VM. *)
Definition vttbr_of (v : vm) : Z :=
  Z.lor (Z.land (u64 (Z.shiftl (vm_id v) VTTBR_VMID_OFF)) VTTBR_VMID_MSK)
        (Z.land (as_root v) (u64 (Z.lnot VTTBR_VMID_MSK))).

Definition prepare_to_switch (c : Z) (vmp : option Z) : prog sched unit :=
  v ← deref vmp;
  w ← gets (λ s, vm_table s v);
  upd_cpu c (λ k, k <| sr_vttbr := vttbr_of w |>).

(** First half of [bfs_scheduler]: the VM that ran goes back to the run queue. *)
Definition bfs_requeue (c : Z) : prog sched unit :=
  k ← read_cpu c;
  match cpu_rqnode k with
  | Some r =>
      n ← read_rq r;
      ASSERT (rq_time_slice n =? 0);;
      clock ← gets bfs_clock;
      upd_rq r (λ n, n <| vdeadline := clock +64 vdeadline_diff n |> <| rq_state := TASK_READY |>
                       <| rq_need_resched := 1 |>);;
      rq_insert r
  | None => mret tt
  end.

(** Second half: pick a VM.  [fuel]: rounds of [while (rqnode == NULL)]. *)
Definition bfs_pick (fuel : nat) (c : Z) : prog sched unit :=
  r ← spin_while_null fuel p_task_lookup;
  slice ← gets (λ s, u64 (bfs_rr_interval s));
  upd_rq r (λ n, n <| rq_state := TASK_RUNNING |> <| rq_time_slice := slice |> <| rq_need_resched := 0 |>);;
  upd_cpu c (λ k, k <| cpu_rqnode := Some r |>);;
  n ← read_rq r;
  v ← deref (rq_vm n);
  id ← gets (λ s, cpu_id (cpu_table s c));
  modify (λ s, s <| vm_table ::= alter (λ w, w <| master := id |>) v |>);;
  prepare_to_switch c (rq_vm n).

Definition bfs_scheduler (fuel : nat) (c : Z) : prog sched unit := bfs_requeue c;; bfs_pick fuel c.

(** ** BMQ *)

Definition initialize_vCpuNode (vp : option Z) (sp : Z) : prog sched Z :=
  v ← malloc_vpnode;
  upd_vn v (λ _, {| cur := vp; static_prio := sp; prio_adj := 0; prio := sp; vn_next := None;
                    vn_state := TASK_READY; vn_time_slice := 0; vn_need_resched := 1 |});;
  mret v.

(** [while (vnptr->next != NULL) vnptr = vnptr->next]: the last node of a FIFO queue. *)
Fixpoint last_loop (vnptr : Z) (fuel : nat) : prog sched Z :=
  v ← read_vn vnptr;
  match vn_next v with
  | None => mret vnptr
  | Some nx => match fuel with O => halt FSpin | S fuel => last_loop nx fuel end
  end.

Definition v_task_insert (vnode r : Z) : prog sched unit :=
  v ← read_vn vnode;
  upd_rq r (λ n, n <| bitmap ::= λ b, Z.lor b (u64 (Z.shiftl 1 (prio v))) |>);;
  n ← read_rq r;
  mq ← deref (multi_queue n);
  vnptr ← gets (λ s, multi_queue_memory s (mq + prio v));
  match vnptr with
  | None =>
      modify (λ s, s <| multi_queue_memory ::= <[mq + prio v := Some vnode]> |>);;
      upd_vn vnode (λ v, v <| vn_next := None |>)
  | Some p =>
      last ← last_loop p (Z.to_nat VNODE_NUM);
      upd_vn last (λ v, v <| vn_next := Some vnode |>);;
      upd_vn vnode (λ v, v <| vn_next := None |>)
  end;;
  upd_rq r (λ n, n <| nr_vcpu_ready ::= λ k, u32 (k + 1) |>).

(** The scan of the bitmap from bit [i] on. *)
Fixpoint v_lookup_loop (r i : Z) (fuel : nat) : prog sched (option Z) :=
  match fuel with
  | O => mret None
  | S fuel =>
      n ← read_rq r;
      if Z.land (Z.shiftr (bitmap n) i) 1 =? 1 then
        mq ← deref (multi_queue n);
        p ← gets (λ s, multi_queue_memory s (mq + i));
        vnode ← deref p;
        v ← read_vn vnode;
        match vn_next v with
        | None => upd_rq r (λ n, n <| bitmap ::= λ b, Z.land b (u64 (Z.lnot (u64 (Z.shiftl 1 i)))) |>)
        | Some _ => mret tt
        end;;
        modify (λ s, s <| multi_queue_memory ::= <[mq + i := vn_next v]> |>);;
        upd_rq r (λ n, n <| nr_vcpu_ready ::= λ k, u32 (k - 1) |>);;
        upd_vn vnode (λ v, v <| vn_next := None |>);;
        cp ← deref (cur v);
        k ← gets (λ s, vcpu_table s cp);
        _ ← deref (vcpu_vm k);
        mret (Some vnode)
      else v_lookup_loop r (i + 1) fuel
  end.

Definition v_task_lookup (r : Z) : prog sched (option Z) :=
  v_lookup_loop r 0 (Z.to_nat BMQ_BITMAP_SIZE).

(** [prio_manage(vnode, up_or_down)] on the node itself. *)
Definition prio_manage_node (up_or_down : Z) (v : vCpuNode) : vCpuNode :=
  let v := if (up_or_down =? 1) && (- MAXPRIO_ADJ <? prio_adj v) then v <| prio_adj ::= λ a, a - 1 |>
           else if prio_adj v <? MAXPRIO_ADJ then v <| prio_adj ::= λ a, a + 1 |>
           else v in
  let temp_prio := s32 (static_prio v + prio_adj v) in
  if (temp_prio <=? PRIO_WIDTH - 1) && (0 <=? temp_prio) then v <| prio := temp_prio |> else v.

Definition prio_manage (vnode up_or_down : Z) : prog sched unit :=
  upd_vn vnode (prio_manage_node up_or_down).

Definition switch_to (c vnode : Z) : prog sched unit :=
  v ← read_vn vnode;
  upd_cpu c (λ k, k <| cpu_vcpu := cur v |>);;
  cp ← deref (cur v);
  id ← gets (λ s, cpu_id (cpu_table s c));
  modify (λ s, s <| vcpu_table ::= alter (λ u, u <| p_id := id |>) cp |>);;
  u ← gets (λ s, vcpu_table s cp);
  upd_cpu c (λ k, k <| sr_vmpidr := vmpidr u |>).

(** First half of [bmq_scheduler]: the vcpu that ran, unless it sleeps, is demoted and goes back
    to its queue. *)
Definition bmq_requeue (r : Z) : prog sched unit :=
  n ← read_rq r;
  match run_vnode n with
  | Some vnode =>
      v ← read_vn vnode;
      ASSERT (vn_time_slice v =? 0);;
      sl ← gets sleep_vnode;
      if bool_decide (sl = None ∨ sl ≠ Some vnode) then
        prio_manage vnode 0;;
        upd_vn vnode (λ v, v <| vn_state := TASK_READY |> <| vn_need_resched := 1 |>);;
        v_task_insert vnode r
      else mret tt
  | None => mret tt
  end.

(** Second half: pick a vcpu. *)
Definition bmq_pick (fuel : nat) (c r : Z) : prog sched unit :=
  vnode ← spin_while_null fuel (v_task_lookup r);
  slice ← gets (λ s, u64 (bmq_rr_interval s));
  upd_vn vnode (λ v, v <| vn_state := TASK_RUNNING |> <| vn_time_slice := slice |>
                       <| vn_need_resched := 0 |>);;
  upd_rq r (λ n, n <| run_vnode := Some vnode |>);;
  switch_to c vnode.

Definition bmq_scheduler (fuel : nat) (c r : Z) : prog sched unit :=
  bmq_requeue r;; bmq_pick fuel c r.

(** ** The entry points *)

(** The pointers the final message of [try_reschedule] follows. *)
Definition resched_report (c : Z) : prog sched unit :=
  k ← read_cpu c;
  r ← deref (cpu_rqnode k);
  n ← read_rq r;
  _ ← deref (rq_vm n);
  _ ← deref (cpu_vcpu k);
  mret tt.

Definition try_reschedule (fuel : nat) (c : Z) : prog sched unit :=
  k ← read_cpu c;
  if flag k =? 1 then mret tt else
  upd_cpu c (λ k, k <| flag := 1 |>);;
  match cpu_rqnode k with
  | None =>
      bfs_scheduler fuel c;;
      k ← read_cpu c;
      r ← deref (cpu_rqnode k);
      bmq_scheduler fuel c r
  | Some r =>
      n ← read_rq r;
      if rq_need_resched n =? 1 then
        bfs_scheduler fuel c;;
        k ← read_cpu c;
        r ← deref (cpu_rqnode k);
        bmq_scheduler fuel c r
      else
        match run_vnode n with
        | None => bmq_scheduler fuel c r
        | Some vnode =>
            v ← read_vn vnode;
            if vn_need_resched v =? 1 then bmq_scheduler fuel c r else mret tt
        end
  end;;
  upd_cpu c (λ k, k <| flag := 0 |>);;
  resched_report c.

(** [update_task_times] up to the barrier: CPU 0 advances the clock and wakes the sleeper. *)
Definition update_clock (c : Z) : prog sched unit :=
  k ← read_cpu c;
  if cpu_id k =? 0 then
    modify (λ s, s <| bfs_clock ::= λ t, t +64 TIMER_WAIT s |>);;
    fl ← gets io_sleep_flag;
    if 0 <? fl then
      modify (λ s, s <| io_sleep_flag := fl - 1 |>);;
      if fl - 1 =? 0 then
        sl ← gets sleep_vnode;
        vnode ← deref sl;
        upd_vn vnode (λ v, v <| vn_need_resched := 1 |>);;
        rp ← gets with_sleep_vnode_rqnode;
        r ← deref rp;
        v_task_insert vnode r;;
        modify (λ s, s <| sleep_vnode := None |> <| with_sleep_vnode_rqnode := None |>)
      else mret tt
    else mret tt
  else mret tt.

(** One expiring or shortened time slice. *)
Definition vn_tick (wait : Z) (v : vCpuNode) : vCpuNode :=
  if vn_time_slice v <=? wait then v <| vn_time_slice := 0 |> <| vn_need_resched := 1 |>
  else v <| vn_time_slice ::= λ t, t -64 wait |>.
Definition rq_tick (wait : Z) (n : runQueueNode) : runQueueNode :=
  if rq_time_slice n <=? wait then n <| rq_time_slice := 0 |> <| rq_need_resched := 1 |>
  else n <| rq_time_slice ::= λ t, t -64 wait |>.

(** [update_task_times] after the barrier, with the pointers it read before it. *)
Definition update_slices (current_vm : Z) (current_vcpu : option Z) : prog sched unit :=
  wait ← gets TIMER_WAIT;
  vnode ← deref current_vcpu;
  upd_vn vnode (vn_tick wait);;
  upd_rq current_vm (rq_tick wait).

Definition barrier : prog sched unit := λ s,
  match cpu_sync_barrier (cpu_glb_sync s) with
  | Done t => Done (tt, s <| cpu_glb_sync := t |>)
  | Halt e => Halt e
  end.

Definition update_task_times (c : Z) : prog sched unit :=
  k ← read_cpu c;
  r ← deref (cpu_rqnode k);
  n ← read_rq r;
  update_clock c;;
  barrier;;
  update_slices r (run_vnode n).

(** What follows the barrier on CPU [c] when the timer interrupts the guest it runs: the rest of
    [update_task_times], with the pointers it read, and [try_reschedule] on the way out. *)
Definition timer_resched (fuel : nat) (c : Z) : prog sched unit :=
  k ← read_cpu c;
  r ← deref (cpu_rqnode k);
  n ← read_rq r;
  update_slices r (run_vnode n);;
  try_reschedule fuel c.

(** ** Hypercalls *)

Definition sched_start_handler (c arg0 arg1 : Z) : prog sched unit :=
  k ← read_cpu c;
  r ← deref (cpu_rqnode k);
  n ← read_rq r;
  v ← deref (rq_vm n);
  w ← gets (λ s, vm_table s v);
  me ← deref (cpu_vcpu k);
  rg ← gets (λ s, regs (vcpu_table s me));
  modify (λ s, s <| vcpu_table ::=
    alter (λ u, vcpu_writepc (u <| regs := rg |>) arg1) (vcpus w + arg0) |>);;
  vnode ← initialize_vCpuNode (Some (vcpus w + arg0)) bmq_default_prio;
  v_task_insert vnode r.

Definition sched_io_handler (c : Z) : prog sched unit :=
  k ← read_cpu c;
  modify (λ s, s <| with_sleep_vnode_rqnode := cpu_rqnode k |>);;
  r ← deref (cpu_rqnode k);
  n ← read_rq r;
  modify (λ s, s <| sleep_vnode := run_vnode n |>);;
  vnode ← deref (run_vnode n);
  upd_vn vnode (λ v, v <| vn_need_resched := 0 |>);;
  prio_manage vnode 1;;
  modify (λ s, s <| io_sleep_flag := 4 |>).

(** The scheduling part of [vm_init]: create the head of the run queue if there is none, then a
    node for the VM with its vcpu 0 ready, and insert it. *)
Definition vm_init_sched (vmp : Z) : prog sched unit :=
  acquire rq_spin_lock;;
  h ← gets rq_ptr;
  match h with
  | None => init_pr;; r ← initialize_rqnode None 0; modify (λ s, s <| rq_ptr := Some r |>)
  | Some _ => mret tt
  end;;
  release rq_spin_lock;;
  r ← initialize_rqnode (Some vmp) bfs_default_prio;
  w ← gets (λ s, vm_table s vmp);
  vnode ← initialize_vCpuNode (Some (vcpus w)) bmq_default_prio;
  v_task_insert vnode r;;
  rq_insert r.

(** ** Self check

    [transfer_rq] walks every queue; its assertions are that each node has its queues and that
    an empty queue has a clear bit. *)
Fixpoint walk_vnodes (vnode : option Z) (fuel : nat) : prog sched unit :=
  match vnode with
  | None => mret tt
  | Some v =>
      match fuel with
      | O => halt FSpin
      | S fuel => n ← read_vn v; _ ← deref (cur n); walk_vnodes (vn_next n) fuel
      end
  end.

Fixpoint walk_queues (r i : Z) (fuel : nat) : prog sched unit :=
  match fuel with
  | O => mret tt
  | S fuel =>
      n ← read_rq r;
      ASSERT (bool_decide (multi_queue n ≠ None));;
      mq ← deref (multi_queue n);
      q ← gets (λ s, multi_queue_memory s (mq + i));
      match q with
      | None => ASSERT (Z.land (Z.shiftr (bitmap n) i) 1 =? 0)
      | Some v => walk_vnodes (Some v) (Z.to_nat VNODE_NUM)
      end;;
      walk_queues r (i + 1) fuel
  end.

Fixpoint walk_rq (ptr : option Z) (fuel : nat) : prog sched unit :=
  match ptr with
  | None => mret tt
  | Some r =>
      match fuel with
      | O => halt FSpin
      | S fuel =>
          n ← read_rq r;
          _ ← deref (rq_vm n);
          walk_queues r 0 (Z.to_nat BMQ_BITMAP_SIZE);;
          n ← read_rq r;
          walk_rq (rq_next n) fuel
      end
  end.

Definition transfer_rq : prog sched unit :=
  h ← gets rq_ptr;
  match h with
  | None => mret tt
  | Some hp => hn ← read_rq hp; walk_rq (rq_next hn) (Z.to_nat RNODE_NUM)
  end.

(** ** The round-robin scheduler kept for comparison *)

Definition rr_vm_lookup : prog sched (option Z) :=
  acquire rq_spin_lock;;
  h ← gets rq_ptr;
  hp ← deref h;
  hn ← read_rq hp;
  target ← match rq_next hn with
           | None => mret None
           | Some t => tn ← read_rq t; upd_rq hp (λ n, n <| rq_next := rq_next tn |>);; mret (Some t)
           end;
  release rq_spin_lock;;
  mret target.

(** [while (ptr) { ptr = ptr->next; prev = prev->next; }] from [prev]: the last node. *)
Fixpoint rr_last_rq (prev : Z) (fuel : nat) : prog sched Z :=
  n ← read_rq prev;
  match rq_next n with
  | None => mret prev
  | Some nx => match fuel with O => halt FSpin | S fuel => rr_last_rq nx fuel end
  end.

Definition rr_rq_insert (r : Z) : prog sched unit :=
  acquire rq_spin_lock;;
  h ← gets rq_ptr;
  hp ← deref h;
  prev ← rr_last_rq hp (Z.to_nat RNODE_NUM);
  pn ← read_rq prev;
  upd_rq r (λ n, n <| rq_next := rq_next pn |>);;
  upd_rq prev (λ n, n <| rq_next := Some r |>);;
  release rq_spin_lock.

Definition rr_scheduler_vm (fuel : nat) (c : Z) : prog sched unit :=
  k ← read_cpu c;
  match cpu_rqnode k with
  | Some r => n ← read_rq r; ASSERT (rq_time_slice n =? 0);; rr_rq_insert r
  | None => mret tt
  end;;
  r ← spin_while_null fuel rr_vm_lookup;
  slice ← gets (λ s, u64 (bfs_rr_interval s));
  upd_rq r (λ n, n <| rq_state := TASK_RUNNING |> <| rq_time_slice := slice |> <| rq_need_resched := 0 |>);;
  upd_cpu c (λ k, k <| cpu_rqnode := Some r |>);;
  n ← read_rq r;
  prepare_to_switch c (rq_vm n).

Definition rr_vcpu_lookup (r : Z) : prog sched (option Z) :=
  n ← read_rq r;
  q ← deref (vq_ptr n);
  qn ← read_vn q;
  match vn_next qn with
  | None => mret None
  | Some t => tn ← read_vn t; upd_vn q (λ v, v <| vn_next := vn_next tn |>);; mret (Some t)
  end.

Definition rr_vnode_insert (vnode r : Z) : prog sched unit :=
  n ← read_rq r;
  q ← deref (vq_ptr n);
  prev ← last_loop q (Z.to_nat VNODE_NUM);
  pn ← read_vn prev;
  upd_vn vnode (λ v, v <| vn_next := vn_next pn |>);;
  upd_vn prev (λ v, v <| vn_next := Some vnode |>);;
  upd_rq r (λ n, n <| nr_vcpu_ready ::= λ k, u32 (k + 1) |>).

Definition rr_scheduler_vcpu (fuel : nat) (c r : Z) : prog sched unit :=
  n ← read_rq r;
  match run_vnode n with
  | Some vnode =>
      v ← read_vn vnode;
      ASSERT (vn_time_slice v =? 0);;
      sl ← gets sleep_vnode;
      if bool_decide (sl = None ∨ sl ≠ Some vnode) then rr_vnode_insert vnode r else mret tt
  | None => mret tt
  end;;
  vnode ← spin_while_null fuel (rr_vcpu_lookup r);
  slice ← gets (λ s, u64 (bmq_rr_interval s));
  upd_vn vnode (λ v, v <| vn_state := TASK_RUNNING |> <| vn_time_slice := slice |>
                       <| vn_need_resched := 0 |>);;
  upd_rq r (λ n, n <| run_vnode := Some vnode |>);;
  switch_to c vnode.

Definition rr_try_reschedule (fuel : nat) (c vm_reschedule vcpu_reschedule : Z) : prog sched unit :=
  if vm_reschedule =? 1 then
    rr_scheduler_vm fuel c;;
    k ← read_cpu c;
    r ← deref (cpu_rqnode k);
    rr_scheduler_vcpu fuel c r
  else if vcpu_reschedule =? 1 then
    k ← read_cpu c;
    r ← deref (cpu_rqnode k);
    rr_scheduler_vcpu fuel c r
  else mret tt.
