(* ===== verification/RunQueue.v ===== *)
(** * The BFS run queue

    [dll m h q]: in the node array [m] the nodes of [q], in this order, are linked behind the
    head node [h].  The lemmas give [rq_insert], [rq_remove] and [p_task_lookup] as functions on
    the array, and those functions as operations on the list [q]: insertion at the front, and
    removal of the node with the earliest virtual deadline. *)
From S2P Require Import Prelude Util Bits Bitmap Spinlock Cpu Vcpu Chain Sched.

Record dll (m : Z → runQueueNode) (h : Z) (q : list Z) : Prop := {
  dll_nodup : NoDup (h :: q);
  dll_next : ∀ i r, (h :: q) !! i = Some r → rq_next (m r) = (h :: q) !! S i;
  dll_prev : ∀ i r, q !! i = Some r → rq_prev (m r) = (h :: q) !! i
}.

(** What a node holds besides its links. *)
Definition rq_data (n : runQueueNode) : runQueueNode := n <| rq_prev := None |> <| rq_next := None |>.

(** ** Insertion at the front *)

Definition link_front (h r : Z) (m : Z → runQueueNode) : Z → runQueueNode :=
  let m1 := alter (λ n, n <| rq_next := rq_next (m h) |> <| rq_prev := Some h |>) r m in
  let m2 := match rq_next (m h) with
            | Some y => alter (λ n, n <| rq_prev := Some r |>) y m1
            | None => m1
            end in
  alter (λ n, n <| rq_next := Some r |>) h m2.

Lemma rq_insert_run s h r :
  rq_ptr s = Some h → r ≠ h → lock_free (rq_spin_lock s) →
  rq_insert r s =
    Done (tt, s <| rqnode_memory ::= link_front h r |> <| rq_spin_lock ::= lock_cycle |>).
Proof.
  intros Hh Hne Hl. unfold rq_insert, read_rq, upd_rq, release.
  rewrite bind_acquire by done. rsimpl.
  repeat pstep. rewrite Hh. repeat pstep. rewrite alter_ne by done. unfold link_front.
  destruct (rq_next (rqnode_memory s h)) as [y|] eqn:Hy.
  - repeat pstep. rewrite alter_eq. rsimpl. repeat pstep. rewrite run_modify.
    unfold setter. simpl. by rewrite Hy.
  - repeat pstep. rewrite run_modify. unfold setter. simpl. by rewrite Hy.
Qed.

Lemma link_front_data h r m x : rq_data (link_front h r m x) = rq_data (m x).
Proof.
  unfold link_front.
  destruct (rq_next (m h)) as [y|]; unfold alter, fn_alter; repeat case_decide; subst; done.
Qed.

Lemma link_front_dll m h q r :
  dll m h q → r ∉ h :: q → dll (link_front h r m) h (r :: q).
Proof.
  intros [Hnd Hn Hp] Hr. rewrite not_elem_of_cons in Hr. destruct Hr as [Hrh Hrq].
  apply NoDup_cons in Hnd as [Hhq Hq].
  assert (rq_next (m h) = q !! 0%nat) as Hh by (by apply (Hn 0%nat)).
  assert (∀ x, rq_next (link_front h r m x) =
    if decide (x = h) then Some r else if decide (x = r) then rq_next (m h) else rq_next (m x)) as Hnext.
  { intros x. unfold link_front. destruct (rq_next (m h)) as [y|];
      unfold alter, fn_alter; repeat case_decide; subst; try done. }
  assert (∀ x, rq_prev (link_front h r m x) =
    if decide (x = r) then (if decide (rq_next (m h) = Some r) then Some r else Some h)
    else if decide (rq_next (m h) = Some x) then Some r else rq_prev (m x)) as Hprev.
  { intros x. unfold link_front. destruct (rq_next (m h)) as [y|];
      unfold alter, fn_alter; repeat case_decide; simplify_eq; try done; congruence. }
  constructor.
  - apply NoDup_cons. split; [set_solver|]. by apply NoDup_cons.
  - intros [|[|i]] x Hi; simpl in Hi; rewrite Hnext.
    + injection Hi as <-. by rewrite decide_True.
    + injection Hi as <-. rewrite decide_False, decide_True by done. by rewrite Hh.
    + assert (x ∈ q) by (by eapply list_elem_of_lookup_2).
      rewrite !decide_False by (intros ->; done). apply (Hn (S i)). done.
  - intros [|i] x Hi; simpl in Hi; rewrite Hprev.
    + injection Hi as <-. rewrite decide_True by done. rewrite decide_False; [done|].
      rewrite Hh. intros Hl. apply Hrq. by eapply list_elem_of_lookup_2.
    + assert (x ∈ q) by (by eapply list_elem_of_lookup_2).
      rewrite decide_False by (intros ->; done). rewrite Hh. destruct i as [|i].
      * by rewrite decide_True.
      * rewrite decide_False; [by rewrite (Hp (S i) x Hi)|]. intros Hl.
        by pose proof (NoDup_lookup _ _ _ _ Hq Hl Hi).
Qed.

(** ** Removal *)

Definition unlink (r : Z) (m : Z → runQueueNode) : Z → runQueueNode :=
  match rq_prev (m r) with
  | None => m
  | Some y =>
      let m1 := alter (λ n, n <| rq_next := rq_next (m r) |>) y m in
      let m2 := match rq_next (m r) with
                | Some z => alter (λ n, n <| rq_prev := rq_prev (m r) |>) z m1
                | None => m1
                end in
      alter (λ n, n <| rq_prev := None |> <| rq_next := None |>) r m2
  end.

Lemma rq_remove_run s r y :
  rq_prev (rqnode_memory s r) = Some y → y ≠ r →
  rq_remove r s = Done (tt, s <| rqnode_memory ::= unlink r |>).
Proof.
  intros Hy Hne. unfold rq_remove, read_rq, upd_rq, unlink.
  repeat pstep. rewrite Hy. repeat pstep. rewrite alter_ne by done.
  destruct (rq_next (rqnode_memory s r)) as [z|] eqn:Hz; repeat pstep; rewrite run_modify;
    unfold setter; simpl; by rewrite Hy, Hz.
Qed.

Lemma unlink_data r m x : rq_data (unlink r m x) = rq_data (m x).
Proof.
  unfold unlink. destruct (rq_prev (m r)) as [y|]; [|done].
  destruct (rq_next (m r)) as [z|]; unfold alter, fn_alter; repeat case_decide; subst; done.
Qed.

Lemma unlink_dll m h l1 r l2 :
  dll m h (l1 ++ r :: l2) → dll (unlink r m) h (l1 ++ l2).
Proof.
  intros [Hnd Hn Hp].
  set (L := h :: l1 ++ r :: l2) in *. set (k := length l1).
  assert (L !! S k = Some r) as Hr by (unfold L, k; simpl; by rewrite lookup_app_r, Nat.sub_diag).
  assert (delete (S k) L = h :: l1 ++ l2) as HL by (unfold L, k; simpl; by rewrite delete_middle).
  destruct (lookup_lt_is_Some_2 L k) as [y Hy].
  { unfold L, k. simpl. rewrite length_app. simpl. lia. }
  assert (rq_prev (m r) = Some y) as Hpr by (rewrite (Hp k r); [done|exact Hr]).
  pose proof (Hn _ _ Hr) as Hnr.
  assert (y ≠ r) as Hyr by (intros ->; pose proof (NoDup_lookup _ _ _ _ Hnd Hy Hr); lia).
  assert (∀ x, x ≠ r → rq_next (unlink r m x) = if decide (x = y) then rq_next (m r) else rq_next (m x)) as Hnext.
  { intros x Hx. unfold unlink. rewrite Hpr. destruct (rq_next (m r)) as [z|] eqn:Hz;
      unfold alter, fn_alter; repeat case_decide; subst; try done. }
  assert (∀ x, x ≠ r → rq_prev (unlink r m x) =
    if decide (rq_next (m r) = Some x) then Some y else rq_prev (m x)) as Hprev.
  { intros x Hx. unfold unlink. rewrite Hpr. destruct (rq_next (m r)) as [z|] eqn:Hz;
      unfold alter, fn_alter; repeat case_decide; simplify_eq; try done. }
  assert (NoDup (h :: l1 ++ l2)) as Hnd'.
  { rewrite <-HL. eapply sublist_NoDup; [exact Hnd|apply sublist_delete]. }
  assert (∀ i x, (h :: l1 ++ l2) !! i = Some x → x ≠ r) as Hne.
  { intros i x Hi ->. rewrite <-HL in Hi.
    destruct (decide (i < S k)%nat); [rewrite list_lookup_delete_lt in Hi by lia|rewrite list_lookup_delete_ge in Hi by lia];
      pose proof (NoDup_lookup _ _ _ _ Hnd Hi Hr); lia. }
  constructor; [done| |].
  - intros i x Hi. rewrite Hnext by eauto. rewrite <-HL in *.
    destruct (decide (i < S k)%nat) as [Hlt|Hge].
    + rewrite list_lookup_delete_lt in Hi by lia. case_decide as Hd.
      * subst x. pose proof (NoDup_lookup _ _ _ _ Hnd Hi Hy) as ->.
        rewrite list_lookup_delete_ge by lia. done.
      * rewrite (Hn i x Hi). assert (i ≠ k) by congruence.
        rewrite list_lookup_delete_lt by lia. done.
    + rewrite list_lookup_delete_ge in Hi by lia. rewrite decide_False.
      * rewrite (Hn _ x Hi). rewrite list_lookup_delete_ge by lia. done.
      * intros ->. pose proof (NoDup_lookup _ _ _ _ Hnd Hi Hy). lia.
  - intros i x Hi. assert ((h :: l1 ++ l2) !! S i = Some x) as Hi' by done.
    rewrite Hprev by eauto. rewrite <-HL in *. rewrite Hnr.
    destruct (decide (S i < S k)%nat) as [Hlt|Hge].
    + rewrite list_lookup_delete_lt in Hi' by lia. rewrite list_lookup_delete_lt by lia.
      rewrite decide_False; [by apply Hp|].
      intros Hl. pose proof (NoDup_lookup _ _ _ _ Hnd Hi' Hl). lia.
    + rewrite list_lookup_delete_ge in Hi' by lia.
      case_decide as Hd.
      * pose proof (NoDup_lookup _ _ _ _ Hnd Hi' Hd). replace i with k by lia.
        by rewrite list_lookup_delete_lt by lia.
      * rewrite (Hp (S i) x Hi'). fold L. assert (i ≠ k) by (intros ->; congruence).
        rewrite list_lookup_delete_ge by lia. done.
Qed.

(** ** The scan *)

(** The target after scanning [q] with [target] so far. *)
Fixpoint earliest (m : Z → runQueueNode) (q : list Z) (target : option Z) : option Z :=
  match q with
  | [] => target
  | r :: q =>
      let better := match target with None => true | Some t => vdeadline (m r) <? vdeadline (m t) end in
      earliest m q (if (0 <? nr_vcpu_ready (m r)) && better then Some r else target)
  end.

Lemma lookup_loop_run s p q t fuel :
  chain (λ r, rq_next (rqnode_memory s r)) p q → (length q ≤ fuel)%nat →
  lookup_loop p t fuel s = Done (earliest (rqnode_memory s) q t, s).
Proof.
  revert p t fuel. induction q as [|r q IH]; intros p t fuel; simpl.
  { intros -> _. by destruct fuel. }
  intros [-> Hc] Hf. destruct fuel as [|fuel]; [lia|]. cbn [lookup_loop].
  unfold read_rq. repeat pstep. destruct t as [t|]; repeat pstep; apply IH; done || lia.
Qed.

Definition ready_node (n : runQueueNode) : Prop := 0 < nr_vcpu_ready n.

(** What the scan finds: the first of the ready nodes with the least virtual deadline. *)
Lemma earliest_spec m q t :
  match earliest m q t with
  | Some w =>
      (t = Some w ∧ ∀ x, x ∈ q → ready_node (m x) → vdeadline (m w) ≤ vdeadline (m x)) ∨
      (∃ l1 l2, q = l1 ++ w :: l2 ∧ ready_node (m w) ∧
        (∀ x, x ∈ l1 → ready_node (m x) → vdeadline (m w) < vdeadline (m x)) ∧
        (∀ x, t = Some x → vdeadline (m w) < vdeadline (m x)) ∧
        ∀ x, x ∈ l2 → ready_node (m x) → vdeadline (m w) ≤ vdeadline (m x))
  | None => t = None ∧ ∀ x, x ∈ q → ¬ ready_node (m x)
  end.
Proof.
  revert t. induction q as [|r q IH]; intros t; simpl.
  { destruct t as [w|]; [left|]; split; done || (intros x Hx; by apply not_elem_of_nil in Hx). }
  set (better := match t with Some w => _ | None => _ end).
  destruct (Z.ltb_spec 0 (nr_vcpu_ready (m r))) as [Hrd|Hrd]; simpl.
  2:{ specialize (IH t). destruct (earliest m q t) as [w|].
      - destruct IH as [[-> Hx]|(l1 & l2 & -> & Hw & H1 & H2 & H3)].
        + left. split; [done|]. intros x [->|Hi]%elem_of_cons Hrx; [unfold ready_node in *; lia|auto].
        + right. exists (r :: l1), l2. split_and!; try done.
          intros x [->|Hi]%elem_of_cons Hrx; [unfold ready_node in *; lia|auto].
      - destruct IH as [-> Hx]. split; [done|].
        intros x [->|Hi]%elem_of_cons Hrx; [unfold ready_node in *; lia|by apply (Hx x)]. }
  destruct better eqn:Hb.
  - specialize (IH (Some r)). destruct (earliest m q (Some r)) as [w|]; [|by destruct IH].
    destruct IH as [[[= ->] Hx]|(l1 & l2 & -> & Hw & H1 & H2 & H3)].
    + right. exists [], q. split_and!; try done.
      * intros x Hx0. by apply not_elem_of_nil in Hx0.
      * intros x ->. unfold better in Hb. by apply Z.ltb_lt in Hb.
    + right. exists (r :: l1), l2. split_and!; try done.
      * intros x [->|Hi]%elem_of_cons Hrx; [by apply H2|auto].
      * intros x ->. unfold better in Hb. apply Z.ltb_lt in Hb. specialize (H2 r eq_refl). lia.
  - destruct t as [w0|]; [|done]. unfold better in Hb. apply Z.ltb_ge in Hb.
    specialize (IH (Some w0)). destruct (earliest m q (Some w0)) as [w|]; [|by destruct IH].
    destruct IH as [[[= ->] Hx]|(l1 & l2 & -> & Hw & H1 & H2 & H3)].
    + left. split; [done|]. intros x [->|Hi]%elem_of_cons Hrx; [done|auto].
    + right. exists (r :: l1), l2. split_and!; try done.
      intros x [->|Hi]%elem_of_cons Hrx; [|auto]. specialize (H2 w0 eq_refl). lia.
Qed.

(** ** The run queue as a list *)

Record run_queue (s : sched) (h : Z) (q : list Z) : Prop := {
  rqq_ptr : rq_ptr s = Some h;
  rqq_dll : dll (rqnode_memory s) h q;
  rqq_lock : lock_free (rq_spin_lock s);
  rqq_range : Forall (λ r, 0 ≤ r < RNODE_NUM) (h :: q);
  rqq_vm : ∀ r, r ∈ q → rq_vm (rqnode_memory s r) ≠ None
}.

Lemma rq_data_field {A} (f : runQueueNode → A) n n' :
  (∀ n, f (rq_data n) = f n) → rq_data n = rq_data n' → f n = f n'.
Proof. intros Hf Hd. by rewrite <-(Hf n), Hd, Hf. Qed.

Lemma dll_chain m h q : dll m h q → chain (λ r, rq_next (m r)) (rq_next (m h)) q.
Proof.
  intros [_ Hn _]. apply chain_intro.
  - rewrite (Hn 0%nat h) by done. by destruct q.
  - intros i r Hi. apply (Hn (S i) r Hi).
Qed.

Lemma dll_prev_ne m h q r : dll m h q → r ∈ q → ∃ y, rq_prev (m r) = Some y ∧ y ≠ r.
Proof.
  intros [Hnd Hn Hp] [i Hi]%list_elem_of_lookup.
  destruct (lookup_lt_is_Some_2 (h :: q) i) as [y Hy].
  { simpl. pose proof (lookup_lt_Some _ _ _ Hi). lia. }
  exists y. split; [by rewrite (Hp i r Hi)|]. intros ->.
  pose proof (NoDup_lookup _ _ _ _ Hnd Hy (Hi : (h :: q) !! S i = Some r)). lia.
Qed.

Lemma run_queue_length s h q : run_queue s h q → (length q ≤ Z.to_nat RNODE_NUM)%nat.
Proof.
  intros [_ [Hnd _ _] _ Hr _]. pose proof (NoDup_range_length _ _ Hnd Hr). simpl in *. lia.
Qed.

Lemma p_task_lookup_run s h q :
  run_queue s h q →
  p_task_lookup s =
    match earliest (rqnode_memory s) q None with
    | Some t => Done (Some t, s <| rqnode_memory ::= unlink t |> <| rq_spin_lock ::= lock_cycle |>)
    | None => Done (None, s <| rq_spin_lock ::= lock_cycle |>)
    end.
Proof.
  intros Hq. pose proof (run_queue_length _ _ _ Hq) as Hlen. destruct Hq as [Hp Hd Hl Hr Hv].
  unfold p_task_lookup. rewrite bind_acquire by done. rsimpl.
  unfold read_rq. repeat pstep. rewrite Hp. repeat pstep.
  pose proof (earliest_spec (rqnode_memory s) q None) as He.
  set (s1 := s <| rq_spin_lock := lock_taken (rq_spin_lock s) |>).
  rewrite (prog_bind_done _ _ s1 (earliest (rqnode_memory s) q None) s1).
  2:{ apply (lookup_loop_run s1); [by apply dll_chain|done]. }
  destruct (earliest (rqnode_memory s) q None) as [t|].
  - destruct He as [[? _]|(l1 & l2 & Hq & Hrd & _)]; [done|].
    assert (t ∈ q) as Ht by (rewrite Hq; set_solver).
    destruct (rq_vm (rqnode_memory s t)) as [v|] eqn:Hvm; [|by destruct (Hv t Ht)].
    destruct (dll_prev_ne _ _ _ _ Hd Ht) as (y & Hy & Hyt).
    unfold s1, release. repeat pstep. rewrite Hvm. repeat pstep.
    erewrite prog_bind_done by (apply (rq_remove_run _ _ y); rsimpl; done).
    repeat pstep. by rewrite run_ret.
  - unfold s1, release. repeat pstep. by rewrite run_ret.
Qed.

Lemma run_queue_insert s h q r :
  run_queue s h q → r ∉ h :: q → 0 ≤ r < RNODE_NUM → rq_vm (rqnode_memory s r) ≠ None →
  run_queue (s <| rqnode_memory ::= link_front h r |> <| rq_spin_lock ::= lock_cycle |>) h (r :: q).
Proof.
  intros [Hp Hd Hl Hr Hv] Hn Hrr Hvm. constructor; rsimpl; try done.
  - by apply link_front_dll.
  - apply lock_cycle_free.
  - apply Forall_cons in Hr as [??]. constructor; [done|]. by constructor.
  - intros x Hx. rewrite (rq_data_field rq_vm _ (rqnode_memory s x)) by (done || apply link_front_data).
    apply elem_of_cons in Hx as [->|Hx]; auto.
Qed.

Lemma run_queue_remove s h l1 r l2 :
  run_queue s h (l1 ++ r :: l2) →
  run_queue (s <| rqnode_memory ::= unlink r |> <| rq_spin_lock ::= lock_cycle |>) h (l1 ++ l2).
Proof.
  intros [Hp Hd Hl Hr Hv]. constructor; rsimpl; try done.
  - by apply unlink_dll.
  - apply lock_cycle_free.
  - apply Forall_cons in Hr as [? [? [??]%Forall_cons]%Forall_app]. constructor; [done|].
    by apply Forall_app.
  - intros x Hx. rewrite (rq_data_field rq_vm _ (rqnode_memory s x)) by (done || apply unlink_data).
    apply Hv. set_solver.
Qed.

(** A run queue with head node 0 and the nodes 2 and 1, where node 2 has the later deadline. *)
Definition sample_rqnode : runQueueNode :=
  {| rq_vm := Some 1; nr_vcpu_ready := 1; rq_prio := 5; vdeadline_diff := 6187; vdeadline := 6187;
     rq_prev := None; rq_next := None; bitmap := 0; multi_queue := None; run_vnode := None;
     rq_state := 0; rq_time_slice := 0; rq_need_resched := 1; vq_ptr := None |}.
Definition sample_sched : sched :=
  {| rqnode_memory :=
       <[0 := sample_rqnode <| rq_next := Some 2 |> <| nr_vcpu_ready := 0 |>]>
       (<[2 := sample_rqnode <| rq_prev := Some 0 |> <| rq_next := Some 1 |> <| vdeadline := 9000 |>]>
       (<[1 := sample_rqnode <| rq_prev := Some 2 |>]> (λ _, sample_rqnode)));
     multi_queue_memory := λ _, None;
     vpnode_memory := λ _, {| cur := None; static_prio := 5; prio_adj := 0; prio := 5; vn_next := None;
                              vn_state := 0; vn_time_slice := 0; vn_need_resched := 1 |};
     rqnode_mem_bitmap := λ _, 0; vpnode_mem_bitmap := λ _, 0;
     rqnode_memory_lock := SPINLOCK_INITVAL; vpnode_memory_lock := SPINLOCK_INITVAL;
     rq_spin_lock := SPINLOCK_INITVAL; rq_ptr := Some 0; prio_ratios := λ _, 0;
     bfs_rr_interval := 4000; bmq_rr_interval := 1000; bfs_clock := 0; io_sleep_flag := 0;
     sleep_vnode := None; with_sleep_vnode_rqnode := None; TIMER_WAIT := 1000;
     cpu_glb_sync := {| ready := true; n := 1; count := 0 |};
     vm_table := λ _, sample_vm; vcpu_table := λ _, sample_vcpu;
     cpu_table := λ c, {| cpu_id := c; handling_msgs := false; cpu_vcpu := None; cpu_mpidr := 0;
                          cpu_rqnode := None; flag := 0; sr_vttbr := 0; sr_vmpidr := 0 |} |}.

Lemma sample_run_queue : run_queue sample_sched 0 [2; 1].
Proof.
  constructor; [done| |by split|by repeat constructor|].
  - constructor; [by repeat constructor; set_solver| |].
    + intros [|[|[|i]]] r; simpl; intros [= <-]; done.
    + intros [|[|i]] r; simpl; intros [= <-]; done.
  - intros r Hr. assert (r = 2 ∨ r = 1) as [-> | ->] by set_solver; done.
Qed.

(** [rq_insert] puts a node that is not queued in front of the run queue: it returns with the
    lock released, the queue is the old one behind the new node, every node keeps all its data
    besides the links, and nothing else of the state changes. *)
Theorem rq_insert_spec s h q r :
  run_queue s h q → r ∉ h :: q → 0 ≤ r < RNODE_NUM → rq_vm (rqnode_memory s r) ≠ None →
  ∃ s', rq_insert r s = Done (tt, s') ∧ run_queue s' h (r :: q) ∧
    (∀ x, rq_data (rqnode_memory s' x) = rq_data (rqnode_memory s x)) ∧
    s' = s <| rqnode_memory := rqnode_memory s' |> <| rq_spin_lock := rq_spin_lock s' |>.
Proof.
  intros Hq Hn Hr Hv. eexists. split_and!.
  - apply (rq_insert_run _ h); [apply Hq|set_solver|apply Hq].
  - by apply run_queue_insert.
  - intros x. rsimpl. apply link_front_data.
  - done.
Qed.

Lemma rq_insert_spec_witness :
  ∃ s', rq_insert 3 sample_sched = Done (tt, s') ∧ run_queue s' 0 [3; 2; 1].
Proof.
  destruct (rq_insert_spec sample_sched 0 [2; 1] 3 sample_run_queue) as (s' & He & Hq & _);
    [set_solver|done|done|]. by exists s'.
Defined.

(** C13: [p_task_lookup] is earliest-virtual-deadline-first.  On a run queue [q] it returns with the
    lock released; either no node of [q] has a ready vcpu, and it returns NULL and leaves the queue
    alone; or it returns the node [t] of least virtual deadline among those that have (the first
    of them in queue order), and exactly [t] leaves the queue. *)
Theorem p_task_lookup_earliest s h q :
  run_queue s h q →
  ∃ t s', p_task_lookup s = Done (t, s') ∧
    (∀ x, rq_data (rqnode_memory s' x) = rq_data (rqnode_memory s x)) ∧
    s' = s <| rqnode_memory := rqnode_memory s' |> <| rq_spin_lock := rq_spin_lock s' |> ∧
    match t with
    | None => run_queue s' h q ∧ ∀ x, x ∈ q → nr_vcpu_ready (rqnode_memory s x) ≤ 0
    | Some t => ∃ l1 l2, q = l1 ++ t :: l2 ∧ run_queue s' h (l1 ++ l2) ∧
        0 < nr_vcpu_ready (rqnode_memory s t) ∧
        (∀ x, x ∈ l1 → 0 < nr_vcpu_ready (rqnode_memory s x) →
          vdeadline (rqnode_memory s t) < vdeadline (rqnode_memory s x)) ∧
        (∀ x, x ∈ l2 → 0 < nr_vcpu_ready (rqnode_memory s x) →
          vdeadline (rqnode_memory s t) ≤ vdeadline (rqnode_memory s x))
    end.
Proof.
  intros Hq. pose proof (earliest_spec (rqnode_memory s) q None) as He.
  rewrite (p_task_lookup_run s h q Hq).
  destruct (earliest (rqnode_memory s) q None) as [t|].
  - destruct He as [[? _]|(l1 & l2 & -> & Hrd & H1 & _ & H2)]; [done|].
    eexists (Some t), _. split_and!; [done|intros x; rsimpl; apply unlink_data|done|].
    exists l1, l2. split_and!; try done. by apply run_queue_remove.
  - eexists None, _. split_and!; [done|done|done| |].
    + destruct Hq. constructor; rsimpl; try done. apply lock_cycle_free.
    + intros x Hx. apply Z.nlt_ge, He, Hx.
Qed.

Lemma p_task_lookup_earliest_witness :
  ∃ s', p_task_lookup sample_sched = Done (Some 1, s') ∧ run_queue s' 0 [2].
Proof.
  destruct (p_task_lookup_earliest sample_sched 0 [2; 1] sample_run_queue) as (t & s' & He & _ & _ & Ht).
  destruct t as [t|].
  - destruct Ht as (l1 & l2 & Hl & Hq & _ & H1 & H2).
    destruct l1 as [|y [|z l1]].
    + injection Hl as <- <-. assert (9000 ≤ 6187) by (apply (H2 1); [set_solver|done]). lia.
    + injection Hl as <- <- <-. by exists s'.
    + by destruct l1.
  - destruct Ht as [_ Ht]. assert (1 ≤ 0) by (apply (Ht 1); set_solver). lia.
Defined.
