(* ===== verification/MultiQueue.v ===== *)
(** * The BMQ ready queues of a VM

    [ready_queues n mqm vnm base qs]: the node [n] owns the ten queues at [base] of the queue
    array [mqm]; queue [i] links exactly the vcpu nodes [qs i], in this order, through the node
    array [vnm]; bit [i] of the bitmap is set exactly when [qs i] is not empty.  The lemmas give
    [v_task_insert] and [v_task_lookup] as operations on [qs]: append to the queue of the vcpu's
    priority, and take the head of the first non-empty queue. *)
From S2P Require Import Prelude Util Bits Bitmap Spinlock Cpu Vcpu Chain Sched RunQueue.

Definition is_prio (i : Z) : Prop := 0 ≤ i < PRIO_WIDTH.

Record ready_queues (n : runQueueNode) (mqm : Z → option Z) (vnm : Z → vCpuNode) (base : Z)
    (qs : Z → list Z) : Prop := {
  mq_base : multi_queue n = Some base;
  mq_chain : ∀ i, is_prio i → chain (λ v, vn_next (vnm v)) (mqm (base + i)) (qs i);
  mq_nodup : ∀ i, is_prio i → NoDup (qs i);
  mq_disj : ∀ i j v, is_prio i → is_prio j → v ∈ qs i → v ∈ qs j → i = j;
  mq_bits : ∀ i, 0 ≤ i → Z.testbit (bitmap n) i = bool_decide (i < PRIO_WIDTH ∧ qs i ≠ []);
  mq_word : in_word 64 (bitmap n);
  mq_range : ∀ i v, is_prio i → v ∈ qs i → 0 ≤ v < VNODE_NUM
}.

Definition queued (qs : Z → list Z) (v : Z) : Prop := ∃ i, is_prio i ∧ v ∈ qs i.

(** ** Insertion *)

Definition enqueue_mq (slot v : Z) (mqm : Z → option Z) : Z → option Z :=
  match mqm slot with None => <[slot := Some v]> mqm | Some _ => mqm end.

Definition enqueue_vn (v : Z) (q : list Z) (vnm : Z → vCpuNode) : Z → vCpuNode :=
  alter (λ n, n <| vn_next := None |>) v
    match last q with None => vnm | Some t => alter (λ n, n <| vn_next := Some v |>) t vnm end.

Definition enqueue_rq (r p : Z) (m : Z → runQueueNode) : Z → runQueueNode :=
  alter (λ n, n <| nr_vcpu_ready ::= λ k, u32 (k + 1) |>) r
    (alter (λ n, n <| bitmap ::= λ b, Z.lor b (u64 (Z.shiftl 1 p)) |>) r m).

Lemma last_loop_run s p q fuel :
  chain (λ v, vn_next (vpnode_memory s v)) (Some p) (p :: q) → (length q ≤ fuel)%nat →
  ∃ t, last (p :: q) = Some t ∧ last_loop p fuel s = Done (t, s).
Proof.
  revert p fuel. induction q as [|y q IH]; intros p fuel [_ Hc] Hf.
  - simpl in Hc. exists p. split; [done|]. destruct fuel; cbn [last_loop]; unfold read_vn; pstep; by rewrite Hc.
  - destruct Hc as [Hy Hc]. destruct fuel as [|fuel]; simpl in Hf; [lia|].
    destruct (IH y fuel) as (t & Ht & He); [by split|lia|].
    exists t. split; [by rewrite last_cons_cons|]. cbn [last_loop]. unfold read_vn. pstep. by rewrite Hy.
Qed.

Lemma queue_short n mqm vnm base qs i :
  ready_queues n mqm vnm base qs → is_prio i → (length (qs i) ≤ Z.to_nat VNODE_NUM)%nat.
Proof.
  intros H Hi. pose proof (NoDup_range_length (qs i) VNODE_NUM (mq_nodup _ _ _ _ _ H i Hi)) as Hl.
  cut (Z.of_nat (length (qs i)) ≤ Z.max 0 VNODE_NUM); [lia|]. apply Hl.
  apply Forall_forall. intros v Hv. by apply (mq_range _ _ _ _ _ H i).
Qed.

Lemma v_task_insert_run s r v base qs :
  ready_queues (rqnode_memory s r) (multi_queue_memory s) (vpnode_memory s) base qs →
  is_prio (prio (vpnode_memory s v)) →
  v_task_insert v r s =
    Done (tt, s <| rqnode_memory ::= enqueue_rq r (prio (vpnode_memory s v)) |>
                <| multi_queue_memory ::= enqueue_mq (base + prio (vpnode_memory s v)) v |>
                <| vpnode_memory ::= enqueue_vn v (qs (prio (vpnode_memory s v))) |>).
Proof.
  intros H Hp. set (p := prio (vpnode_memory s v)) in *.
  pose proof (mq_chain _ _ _ _ _ H p Hp) as Hc. pose proof (queue_short _ _ _ _ _ p H Hp) as Hs.
  unfold v_task_insert, read_vn, read_rq, upd_rq, upd_vn. repeat pstep. fold p.
  rewrite alter_eq. rsimpl. rewrite (mq_base _ _ _ _ _ H). repeat pstep.
  unfold enqueue_rq, enqueue_mq, enqueue_vn.
  destruct (qs p) as [|y q] eqn:Hq; simpl in Hc.
  - rewrite Hc. repeat pstep. rewrite run_modify. unfold setter. simpl. by rewrite Hc.
  - destruct Hc as [Hy Hc]. rewrite Hy. simpl in Hs.
    match goal with |- context [(last_loop y ?f ≫= _) ≫= _] => set (fuel := f) end.
    repeat pstep.
    match goal with |- (_ ≫= _) ?st = _ => destruct (last_loop_run st y q fuel) as (t & Ht & He) end;
      [by split|unfold fuel; lia|].
    rewrite (prog_bind_done _ _ _ _ _ He). repeat pstep. rewrite run_modify.
    rewrite Ht. unfold setter. simpl. by rewrite Hy.
Qed.

Lemma testbit_one_shift i k : 0 ≤ i < 64 → 0 ≤ k → Z.testbit (u64 (Z.shiftl 1 i)) k = (k =? i).
Proof.
  intros Hi Hk. rewrite testbit_wrap, testbit_shiftl, testbit_1 by lia. zcase; done.
Qed.

(** What a vcpu node holds besides its link. *)
Definition vn_data (v : vCpuNode) : vCpuNode := v <| vn_next := None |>.

Lemma enqueue_vn_data v q vnm x : vn_data (enqueue_vn v q vnm x) = vn_data (vnm x).
Proof.
  unfold enqueue_vn. destruct (last q) as [t|]; unfold alter, fn_alter; repeat case_decide; subst; done.
Qed.

Lemma enqueue_vn_other v q vnm x : x ≠ v → x ∉ q → enqueue_vn v q vnm x = vnm x.
Proof.
  intros Hv Hq. unfold enqueue_vn. rewrite alter_ne by done. destruct (last q) as [t|] eqn:Ht; [|done].
  apply alter_ne. intros ->. apply Hq. apply last_Some in Ht as [l ->]. set_solver.
Qed.

Lemma queued_insert qs p v x : is_prio p → queued (<[p := qs p ++ [v]]> qs) x ↔ queued qs x ∨ x = v.
Proof.
  intros Hp. unfold queued. split.
  - intros (i & Hi & Hx). destruct (decide (i = p)) as [->|Hne].
    + rewrite upd_eq in Hx. apply elem_of_app in Hx as [?|?]; [left; eauto|right; set_solver].
    + rewrite upd_ne in Hx by done. eauto.
  - intros [(i & Hi & Hx)| ->].
    + exists i. split; [done|]. destruct (decide (i = p)) as [->|]; [rewrite upd_eq; set_solver|by rewrite upd_ne].
    + exists p. split; [done|]. rewrite upd_eq. set_solver.
Qed.

Lemma ready_queues_enqueue n n' mqm vnm base qs v p :
  ready_queues n mqm vnm base qs → is_prio p → ¬ queued qs v → 0 ≤ v < VNODE_NUM →
  multi_queue n' = multi_queue n → bitmap n' = Z.lor (bitmap n) (u64 (Z.shiftl 1 p)) →
  ready_queues n' (enqueue_mq (base + p) v mqm) (enqueue_vn v (qs p) vnm) base (<[p := qs p ++ [v]]> qs).
Proof.
  intros H Hp Hv Hr Hm Hb. pose proof H as [Hbase Hc Hnd Hdj Hbits Hw Hrg]. unfold is_prio, PRIO_WIDTH in *.
  assert (∀ i, 0 ≤ i < 10 → v ∉ qs i) as Hvi by (intros i Hi Hvi; apply Hv; by exists i).
  constructor.
  - by rewrite Hm.
  - intros i Hi. destruct (decide (i = p)) as [->|Hne].
    + rewrite upd_eq. specialize (Hc p Hp). unfold enqueue_mq.
      assert (qs p = [] ∨ ∃ l t, qs p = l ++ [t]) as [Hq|(l & t & Hq)].
      { destruct (last (qs p)) as [t|] eqn:Hl; [right|left; by apply last_None].
        apply last_Some in Hl as [l Hl]. eauto. }
      all: rewrite Hq in *; simpl in Hc.
      * rewrite Hc, upd_eq. simpl. split; [done|]. unfold enqueue_vn. by rewrite alter_eq.
      * assert (mqm (base + p) ≠ None) as Hmq.
        { rewrite (chain_head _ _ _ Hc). by destruct l. }
        destruct (mqm (base + p)) as [y|] eqn:Hy; [|done]. rewrite Hy.
        rewrite <-app_assoc. simpl.
        assert (v ∉ l ++ [t]) as Hvl by (rewrite <-Hq; apply Hvi; done).
        assert (NoDup (l ++ [t])) as Hndl by (rewrite <-Hq; by apply Hnd).
        assert (v ≠ t) as Hvt by set_solver.
        eapply chain_snoc; [|exact Hc|..].
        -- rewrite (app_assoc l [t] [v] : l ++ [t; v] = _). apply NoDup_app. split_and!; [done|set_solver|apply NoDup_singleton].
        -- unfold enqueue_vn. rewrite last_snoc, alter_ne, alter_eq by done. done.
        -- unfold enqueue_vn. by rewrite alter_eq.
        -- intros x Hx. unfold enqueue_vn. rewrite last_snoc. rewrite !alter_ne; [done| |set_solver].
           intros ->. apply NoDup_app in Hndl as (_ & Hd & _). apply (Hd x Hx). set_solver.
    + rewrite upd_ne by done.
      assert (enqueue_mq (base + p) v mqm (base + i) = mqm (base + i)) as ->.
      { unfold enqueue_mq. destruct (mqm (base + p)); [done|]. apply upd_ne. lia. }
      eapply chain_ext, Hc; [|done]. intros x Hx. rewrite enqueue_vn_other; [done| |].
      * intros ->. by apply (Hvi i).
      * intros Hxp. by pose proof (Hdj i p x Hi Hp Hx Hxp).
  - intros i Hi. destruct (decide (i = p)) as [->|]; [|rewrite upd_ne by done; auto].
    rewrite upd_eq. apply NoDup_app. split_and!; [by apply Hnd| |apply NoDup_singleton].
    intros x Hx ->%list_elem_of_singleton. by apply (Hvi p).
  - intros i j x Hi Hj. destruct (decide (i = p)) as [->|], (decide (j = p)) as [->|];
      rewrite ?upd_eq, ?upd_ne by done; try done.
    + intros [Hx| ->%list_elem_of_singleton]%elem_of_app Hxj; [by apply (Hdj p j x)|by destruct (Hvi j)].
    + intros Hxi [Hx| ->%list_elem_of_singleton]%elem_of_app; [by apply (Hdj i p x)|by destruct (Hvi i)].
    + by apply Hdj.
  - intros i Hi. rewrite Hb, Z.lor_spec, Hbits, testbit_one_shift by lia.
    destruct (Z.eqb_spec i p) as [->|].
    + rewrite orb_true_r. symmetry. apply bool_decide_eq_true. rewrite upd_eq. split; [unfold PRIO_WIDTH; lia|].
      by destruct (qs p).
    + rewrite orb_false_r. by rewrite upd_ne by done.
  - rewrite Hb. auto with words lia.
  - intros i x Hi. destruct (decide (i = p)) as [->|]; [|rewrite upd_ne by done; by apply Hrg].
    rewrite upd_eq. intros [Hx| ->%list_elem_of_singleton]%elem_of_app; [by apply (Hrg p)|done].
Qed.

(** ** Removal *)

Definition dequeue_mq (slot v : Z) (vnm : Z → vCpuNode) (mqm : Z → option Z) : Z → option Z :=
  <[slot := vn_next (vnm v)]> mqm.

Definition dequeue_vn (v : Z) (vnm : Z → vCpuNode) : Z → vCpuNode :=
  alter (λ n, n <| vn_next := None |>) v vnm.

Definition dequeue_rq (r i v : Z) (vnm : Z → vCpuNode) (m : Z → runQueueNode) : Z → runQueueNode :=
  alter (λ n, n <| nr_vcpu_ready ::= λ k, u32 (k - 1) |>) r
    match vn_next (vnm v) with
    | None => alter (λ n, n <| bitmap ::= λ b, Z.land b (u64 (Z.lnot (u64 (Z.shiftl 1 i)))) |>) r m
    | Some _ => m
    end.

Definition dequeue (r base i v : Z) (s : sched) : sched :=
  s <| rqnode_memory ::= dequeue_rq r i v (vpnode_memory s) |>
    <| multi_queue_memory ::= dequeue_mq (base + i) v (vpnode_memory s) |>
    <| vpnode_memory ::= dequeue_vn v |>.

Lemma bit_extract_one b i : 0 ≤ i → Z.land (Z.shiftr b i) 1 = Z.b2z (Z.testbit b i).
Proof.
  intros Hi. change 1 with (Z.ones 1). rewrite Z.land_ones by lia.
  change (2 ^ 1) with 2. rewrite <-Z.bit0_mod. by rewrite Z.shiftr_spec.
Qed.

(** A vcpu node refers to a vcpu that has a VM. *)
Definition vnode_valid (s : sched) (v : Z) : Prop :=
  ∃ cp, cur (vpnode_memory s v) = Some cp ∧ vcpu_vm (vcpu_table s cp) ≠ None.

Lemma v_lookup_loop_run s r base qs i fuel :
  ready_queues (rqnode_memory s r) (multi_queue_memory s) (vpnode_memory s) base qs →
  (∀ v, queued qs v → vnode_valid s v) →
  0 ≤ i → i + Z.of_nat fuel = PRIO_WIDTH → (∀ j, 0 ≤ j < i → qs j = []) →
  (v_lookup_loop r i fuel s = Done (None, s) ∧ ∀ j, is_prio j → qs j = []) ∨
  (∃ j v l, is_prio j ∧ (∀ k, 0 ≤ k < j → qs k = []) ∧ qs j = v :: l ∧
    v_lookup_loop r i fuel s = Done (Some v, dequeue r base j v s)).
Proof.
  intros H Hval. revert i. induction fuel as [|fuel IH]; intros i Hi Hf He.
  { left. split; [done|]. intros j Hj. apply He. unfold is_prio in Hj. lia. }
  cbn [v_lookup_loop]. unfold read_rq. pstep.
  rewrite bit_extract_one, (mq_bits _ _ _ _ _ H) by lia.
  destruct (qs i) as [|v l] eqn:Hq.
  - rewrite bool_decide_eq_false_2 by (intros [_ ?]; done). simpl.
    apply IH; [lia|lia|]. intros j Hj. destruct (decide (j = i)) as [->|]; [done|]. apply He. lia.
  - rewrite bool_decide_eq_true_2 by (split; [unfold PRIO_WIDTH in *; lia|done]). cbn [Z.b2z].
    right. exists i, v, l.
    assert (is_prio i) as Hip by (unfold is_prio; lia).
    pose proof (mq_chain _ _ _ _ _ H i Hip) as Hc. rewrite Hq in Hc. destruct Hc as [Hs Hc].
    split_and!; [done|done|done|].
    change ((1 =? 1)) with true. cbv iota.
    rewrite (mq_base _ _ _ _ _ H). repeat pstep. rewrite Hs. repeat pstep. unfold read_vn, upd_rq, upd_vn. pstep.
    destruct (Hval v) as (cp & Hcur & Hvm); [exists i; rewrite Hq; set_solver|].
    destruct (vcpu_vm (vcpu_table s cp)) as [vmp|] eqn:Hvmp; [|done].
    unfold dequeue, dequeue_rq, dequeue_mq, dequeue_vn.
    destruct (vn_next (vpnode_memory s v)) as [y|] eqn:Hy;
      repeat pstep; rewrite Hcur; repeat pstep; rewrite Hvmp; repeat pstep; rewrite run_ret;
      done.
Qed.

Lemma dequeue_vn_data v vnm x : vn_data (dequeue_vn v vnm x) = vn_data (vnm x).
Proof. unfold dequeue_vn, alter, fn_alter. case_decide; by subst. Qed.

Lemma queued_remove qs j v l x :
  is_prio j → qs j = v :: l → NoDup (v :: l) → (∀ i, is_prio i → v ∈ qs i → i = j) →
  queued (<[j := l]> qs) x ↔ queued qs x ∧ x ≠ v.
Proof.
  intros Hj Hq [Hvl Hnd]%NoDup_cons Hu. unfold queued. split.
  - intros (i & Hi & Hx). destruct (decide (i = j)) as [->|].
    + rewrite upd_eq in Hx. split; [|by intros ->]. exists j. rewrite Hq. split; [done|set_solver].
    + rewrite upd_ne in Hx by done. split; [eauto|]. intros ->. by apply Hu in Hx.
  - intros [(i & Hi & Hx) Hne]. exists i. split; [done|]. destruct (decide (i = j)) as [->|].
    + rewrite upd_eq. rewrite Hq in Hx. set_solver.
    + by rewrite upd_ne.
Qed.

Lemma ready_queues_dequeue n n' mqm vnm base qs j v l :
  ready_queues n mqm vnm base qs → is_prio j → qs j = v :: l →
  multi_queue n' = multi_queue n →
  bitmap n' = match vn_next (vnm v) with
              | None => Z.land (bitmap n) (u64 (Z.lnot (u64 (Z.shiftl 1 j))))
              | Some _ => bitmap n
              end →
  ready_queues n' (dequeue_mq (base + j) v vnm mqm) (dequeue_vn v vnm) base (<[j := l]> qs).
Proof.
  intros [Hbase Hc Hnd Hdj Hbits Hw Hrg] Hj Hq Hm Hb. unfold is_prio, PRIO_WIDTH in *.
  pose proof (Hc j Hj) as Hcj. pose proof (Hnd j Hj) as Hndj. rewrite Hq in Hcj, Hndj.
  destruct Hcj as [Hs Hcj]. apply NoDup_cons in Hndj as [Hvl Hndl].
  assert (∀ i, 0 ≤ i < 10 → i ≠ j → v ∉ qs i) as Hvi.
  { intros i Hi Hne Hx. apply Hne. apply (Hdj i j v Hi Hj Hx). rewrite Hq. set_solver. }
  constructor.
  - by rewrite Hm.
  - intros i Hi. unfold dequeue_mq. destruct (decide (i = j)) as [->|Hne].
    + rewrite !upd_eq. eapply chain_ext, Hcj. intros x Hx. unfold dequeue_vn.
      rewrite alter_ne; [done|]. by intros ->.
    + rewrite !upd_ne by (done || lia). eapply chain_ext, Hc; [|done]. intros x Hx. unfold dequeue_vn.
      rewrite alter_ne; [done|]. intros ->. by apply (Hvi i).
  - intros i Hi. destruct (decide (i = j)) as [->|]; [by rewrite upd_eq|rewrite upd_ne by done; auto].
  - assert (∀ i x, x ∈ (<[j := l]> qs : Z → list Z) i → x ∈ qs i) as Hsub.
    { intros i x. destruct (decide (i = j)) as [->|]; [rewrite upd_eq, Hq; set_solver|by rewrite upd_ne]. }
    intros i k x Hi Hk Hxi Hxk. apply (Hdj i k x); auto.
  - intros i Hi. rewrite Hb.
    assert (vn_next (vnm v) = head l) as Hh by (by apply chain_head in Hcj). rewrite Hh.
    destruct l as [|y l]; simpl.
    + rewrite Z.land_spec, testbit_wrap, Z.lnot_spec, testbit_one_shift, Hbits by lia.
      destruct (Z.eqb_spec i j) as [->|].
      * rewrite andb_false_r, andb_false_r. symmetry. apply bool_decide_eq_false. rewrite upd_eq. naive_solver.
      * rewrite upd_ne by done. simpl. rewrite andb_true_r.
        unfold PRIO_WIDTH. case_bool_decide as Hd; [|done]. simpl. zcase; done.
    + rewrite Hbits by done. apply bool_decide_ext. destruct (decide (i = j)) as [->|].
      * rewrite upd_eq, Hq. naive_solver.
      * by rewrite upd_ne.
  - rewrite Hb. destruct (vn_next (vnm v)); auto with words lia.
  - intros i x Hi. destruct (decide (i = j)) as [->|].
    + rewrite upd_eq. intros Hx. apply (Hrg j x Hj). rewrite Hq. set_solver.
    + rewrite upd_ne by done. by apply Hrg.
Qed.

(** ** The operations on the queues *)

(** A node with one ready vcpu (node 3) of priority 5 and an unqueued vcpu node 4. *)
Definition sample_mq_sched : sched :=
  sample_sched <| rqnode_memory ::= alter (λ n, n <| multi_queue := Some 10 |> <| bitmap := 32 |>) 1 |>
    <| multi_queue_memory ::= <[15 := Some 3]> |>
    <| vpnode_memory ::= λ m i, m i <| cur := Some i |> |>
    <| vcpu_table ::= λ t i, t i <| vcpu_vm := Some 1 |> |>.
Definition sample_qs : Z → list Z := <[5 := [3]]> (λ _, []).

Lemma sample_ready_queues :
  ready_queues (rqnode_memory sample_mq_sched 1) (multi_queue_memory sample_mq_sched)
    (vpnode_memory sample_mq_sched) 10 sample_qs.
Proof.
  assert (∀ i, sample_qs i = if decide (5 = i) then [3] else []) as Hq by done.
  constructor.
  - done.
  - intros i Hi. rewrite Hq. unfold sample_mq_sched, is_prio, PRIO_WIDTH in *. rsimpl.
    case_decide; subst; [done|]. rewrite upd_ne by lia. done.
  - intros i Hi. rewrite Hq. case_decide; [apply NoDup_singleton|apply NoDup_nil_2].
  - intros i j v Hi Hj. rewrite !Hq. repeat case_decide; subst; set_solver.
  - intros i Hi. rewrite Hq. change (bitmap (rqnode_memory sample_mq_sched 1)) with (2 ^ 5).
    case_decide; subst; [done|]. rewrite Z.pow2_bits_false by done. symmetry.
    apply bool_decide_eq_false. naive_solver.
  - done.
  - intros i v Hi. rewrite Hq. case_decide; [intros ->%list_elem_of_singleton; done|set_solver].
Qed.

(** [v_task_insert] makes a vcpu ready in FIFO order.  On a node whose queues are [qs] and a vcpu
    node [v] that is in none of them it returns, appends [v] to the queue of [v]'s priority, sets
    the queue's bit, counts one more ready vcpu, and keeps every other node's data. *)
Theorem v_task_insert_fifo s r v base qs :
  ready_queues (rqnode_memory s r) (multi_queue_memory s) (vpnode_memory s) base qs →
  ¬ queued qs v → 0 ≤ v < VNODE_NUM → is_prio (prio (vpnode_memory s v)) →
  let p := prio (vpnode_memory s v) in
  ∃ s', v_task_insert v r s = Done (tt, s') ∧
    ready_queues (rqnode_memory s' r) (multi_queue_memory s') (vpnode_memory s') base
      (<[p := qs p ++ [v]]> qs) ∧
    nr_vcpu_ready (rqnode_memory s' r) = u32 (nr_vcpu_ready (rqnode_memory s r) + 1) ∧
    (∀ x, vn_data (vpnode_memory s' x) = vn_data (vpnode_memory s x)) ∧
    (∀ x, x ≠ r → rqnode_memory s' x = rqnode_memory s x) ∧
    s' = s <| rqnode_memory := rqnode_memory s' |> <| multi_queue_memory := multi_queue_memory s' |>
           <| vpnode_memory := vpnode_memory s' |>.
Proof.
  intros H Hv Hr Hp p. eexists. split_and!.
  - by apply (v_task_insert_run s r v base qs).
  - rsimpl. eapply ready_queues_enqueue; try done; unfold enqueue_rq; rewrite !alter_eq; done.
  - rsimpl. unfold enqueue_rq. by rewrite !alter_eq.
  - intros x. rsimpl. apply enqueue_vn_data.
  - intros x Hx. rsimpl. unfold enqueue_rq. by rewrite !alter_ne.
  - done.
Qed.

Lemma v_task_insert_fifo_witness :
  ∃ s', v_task_insert 4 1 sample_mq_sched = Done (tt, s') ∧
    ready_queues (rqnode_memory s' 1) (multi_queue_memory s') (vpnode_memory s') 10
      (<[5 := [3; 4]]> sample_qs).
Proof.
  destruct (v_task_insert_fifo sample_mq_sched 1 4 10 sample_qs sample_ready_queues) as (s' & He & Hq & _).
  - intros (i & Hi & Hx). unfold sample_qs in Hx. rewrite upd_case in Hx. case_decide; set_solver.
  - done.
  - done.
  - by exists s'.
Defined.

(** C15: [v_task_lookup] is strict priority with FIFO order inside a priority.  Either every queue is
    empty, and it returns NULL and changes nothing; or it returns the head of the first
    non-empty queue [j], removes exactly that vcpu, clears bit [j] exactly when the queue
    becomes empty, counts one ready vcpu less, and keeps every other node's data. *)
Theorem v_task_lookup_priority s r base qs :
  ready_queues (rqnode_memory s r) (multi_queue_memory s) (vpnode_memory s) base qs →
  (∀ v, queued qs v → vnode_valid s v) →
  ∃ w s', v_task_lookup r s = Done (w, s') ∧
    match w with
    | None => s' = s ∧ ∀ j, is_prio j → qs j = []
    | Some v => ∃ j l, is_prio j ∧ qs j = v :: l ∧ (∀ k, 0 ≤ k < j → qs k = []) ∧
        ready_queues (rqnode_memory s' r) (multi_queue_memory s') (vpnode_memory s') base (<[j := l]> qs) ∧
        nr_vcpu_ready (rqnode_memory s' r) = u32 (nr_vcpu_ready (rqnode_memory s r) - 1) ∧
        (∀ x, vn_data (vpnode_memory s' x) = vn_data (vpnode_memory s x)) ∧
        (∀ x, x ≠ r → rqnode_memory s' x = rqnode_memory s x) ∧
        s' = s <| rqnode_memory := rqnode_memory s' |> <| multi_queue_memory := multi_queue_memory s' |>
               <| vpnode_memory := vpnode_memory s' |>
    end.
Proof.
  intros H Hval.
  destruct (v_lookup_loop_run s r base qs 0 (Z.to_nat BMQ_BITMAP_SIZE) H Hval) as
    [[He Hn]|(j & v & l & Hj & Hl & Hq & He)]; [lia|done|intros j Hj; lia| |].
  - exists None, s. by split.
  - eexists (Some v), _. split; [exact He|]. exists j, l. unfold dequeue. rsimpl. split_and!; try done.
    + eapply ready_queues_dequeue; try done; unfold dequeue_rq;
        destruct (vn_next (vpnode_memory s v)); rewrite ?alter_eq; done.
    + unfold dequeue_rq. destruct (vn_next (vpnode_memory s v)); rewrite ?alter_eq; done.
    + intros x. apply dequeue_vn_data.
    + intros x Hx. unfold dequeue_rq. destruct (vn_next (vpnode_memory s v)); by rewrite ?alter_ne.
Qed.

Lemma v_task_lookup_priority_witness :
  ∃ s' j l, v_task_lookup 1 sample_mq_sched = Done (Some 3, s') ∧ sample_qs j = 3 :: l ∧
    ready_queues (rqnode_memory s' 1) (multi_queue_memory s') (vpnode_memory s') 10 (<[j := l]> sample_qs).
Proof.
  destruct (v_task_lookup_priority sample_mq_sched 1 10 sample_qs sample_ready_queues) as (w & s' & He & Hw).
  - intros v _. exists v. by split.
  - destruct w as [v|].
    + destruct Hw as (j & l & Hj & Hq & _ & Hr & _). exists s', j, l.
      assert (v = 3 ∧ l = []) as [-> ->].
      { unfold sample_qs in Hq. rewrite upd_case in Hq. by case_decide; simplify_eq. }
      by split_and!.
    + destruct Hw as [_ Hn]. by specialize (Hn 5 ltac:(done)).
Defined.

Lemma prio_manage_node_spec up v :
  is_prio (static_prio v) → is_prio (prio v) → - MAXPRIO_ADJ ≤ prio_adj v ≤ MAXPRIO_ADJ →
  let v' := prio_manage_node up v in
  is_prio (prio v') ∧ - MAXPRIO_ADJ ≤ prio_adj v' ≤ MAXPRIO_ADJ ∧
  static_prio v' = static_prio v ∧ cur v' = cur v ∧
  prio_adj v' = (if up =? 1
                 then if prio_adj v =? - MAXPRIO_ADJ then prio_adj v + 1 else prio_adj v - 1
                 else Z.min MAXPRIO_ADJ (prio_adj v + 1)) ∧
  (is_prio (static_prio v' + prio_adj v') → prio v' = static_prio v' + prio_adj v').
Proof.
  intros Hs Hp Ha. unfold prio_manage_node, is_prio, PRIO_WIDTH, MAXPRIO_ADJ in *.
  assert (∀ a, -5 ≤ a ≤ 5 → s32 (static_prio v + a) = static_prio v + a) as Hs32.
  { intros a Hb. apply s32_small. lia. }
  destruct (Z.eqb_spec up 1), (Z.ltb_spec (- (5)) (prio_adj v)), (Z.ltb_spec (prio_adj v) 5);
    simpl; rsimpl; rewrite ?Hs32 by lia; zcase; simpl; rsimpl; split_and!; try done; try lia.
Qed.

(** C17: the priority of a vcpu stays in the ten queues.  From a static priority in [0, 9] and an
    adjustment in [-5, 5], [prio_manage] keeps the adjustment in [-5, 5] and the priority in
    [0, 9], moves the adjustment by at most one, up (towards 0) when asked to promote and
    otherwise down, except that a promotion at the limit -5 demotes instead. *)
Theorem prio_manage_bounds up v :
  is_prio (static_prio v) → is_prio (prio v) → - MAXPRIO_ADJ ≤ prio_adj v ≤ MAXPRIO_ADJ →
  let v' := prio_manage_node up v in
  is_prio (prio v') ∧ - MAXPRIO_ADJ ≤ prio_adj v' ≤ MAXPRIO_ADJ ∧
  static_prio v' = static_prio v ∧ cur v' = cur v ∧
  prio_adj v' = (if up =? 1
                 then if prio_adj v =? - MAXPRIO_ADJ then prio_adj v + 1 else prio_adj v - 1
                 else Z.min MAXPRIO_ADJ (prio_adj v + 1)) ∧
  (is_prio (static_prio v' + prio_adj v') → prio v' = static_prio v' + prio_adj v').
Proof. apply prio_manage_node_spec. Qed.

Lemma prio_manage_bounds_witness :
  let v := {| cur := Some 0; static_prio := 5; prio_adj := -5; prio := 0; vn_next := None;
              vn_state := 0; vn_time_slice := 0; vn_need_resched := 0 |} in
  prio (prio_manage_node 1 v) = 1.
Proof.
  intros v. destruct (prio_manage_bounds 1 v) as (_ & _ & _ & _ & Ha & Hp); [done|done|done|].
  rewrite Hp by (rewrite Ha; done). by rewrite Ha.
Defined.
