(* ===== verification/SchedSystem.v ===== *)
(** * The scheduler as a whole

    The invariant that ties the run queue, the ready queues and the physical CPUs together,
    and its preservation by the timer interrupt.  A ghost state says where every node is: a run
    queue node is the head, waits in the run queue, or runs on a CPU; a vcpu node is ready in
    one queue of one VM, or is the running vcpu of a VM, or neither.  Because a place is a
    function of the node, no node is in two places. *)
From S2P Require Import Prelude Util Bits Bitmap Spinlock Cpu Vcpu Chain Sched RunQueue MultiQueue.
From Stdlib Require Import FunctionalExtensionality.

Inductive vplace := VFree | VReady (r i : Z) | VRun (r : Z).
Inductive rplace := RFree | RHead | RQueue | RCpu (c : Z).

#[export] Instance vplace_eq_dec : EqDecision vplace.
Proof. solve_decision. Defined.
#[export] Instance rplace_eq_dec : EqDecision rplace.
Proof. solve_decision. Defined.

(** [g_base r] is what [initialize_rqnode] put in [nr_vcpu_ready] before any insertion. *)
Record ghost := {
  g_h : Z;
  g_q : list Z;
  g_qs : Z → Z → list Z;
  g_vp : Z → vplace;
  g_rp : Z → rplace;
  g_base : Z → Z
}.
#[export] Instance eta_ghost : Eta ghost := λ g,
  Build_ghost (g_h g) (g_q g) (g_qs g) (g_vp g) (g_rp g) (g_base g).

Definition live (g : ghost) (r : Z) : Prop := g_rp g r = RQueue ∨ ∃ c, g_rp g r = RCpu c.

(** The vcpus in the ten queues. *)
Definition total (qs : Z → list Z) : Z :=
  Z.of_nat (sum_list_with (λ i, length (qs i)) (seqZ 0 PRIO_WIDTH)).

(** The vcpu of node [v] belongs to the VM of node [r]. *)
Definition owner (s : sched) (v r : Z) : Prop :=
  ∃ cp, cur (vpnode_memory s v) = Some cp ∧ vcpu_vm (vcpu_table s cp) = rq_vm (rqnode_memory s r).

Record node_inv (s : sched) (g : ghost) (r : Z) : Prop := {
  ni_ready : ready_queues (rqnode_memory s r) (multi_queue_memory s) (vpnode_memory s)
               (r * PRIO_WIDTH) (g_qs g r);
  ni_place : ∀ i v, is_prio i → v ∈ g_qs g r i ↔ g_vp g v = VReady r i;
  ni_run : ∀ v, run_vnode (rqnode_memory s r) = Some v ↔ g_vp g v = VRun r;
  ni_base : 1 ≤ g_base g r ≤ 2 ^ 31;
  ni_count : nr_vcpu_ready (rqnode_memory s r) = g_base g r + total (g_qs g r);
  ni_vm : rq_vm (rqnode_memory s r) ≠ None;
  ni_work : run_vnode (rqnode_memory s r) ≠ None ∨ ∃ v, queued (g_qs g r) v
}.

Record vnode_inv (s : sched) (g : ghost) (v : Z) : Prop := {
  vi_range : 0 ≤ v < VNODE_NUM;
  vi_bit : bit_at (vpnode_mem_bitmap s) v = true;
  vi_static : is_prio (static_prio (vpnode_memory s v));
  vi_prio : is_prio (prio (vpnode_memory s v));
  vi_adj : - MAXPRIO_ADJ ≤ prio_adj (vpnode_memory s v) ≤ MAXPRIO_ADJ;
  vi_ready : ∀ r i, g_vp g v = VReady r i → live g r ∧ is_prio i ∧ owner s v r;
  vi_run : ∀ r, g_vp g v = VRun r →
    live g r ∧ owner s v r ∧ (g_rp g r = RQueue → vn_time_slice (vpnode_memory s v) = 0)
}.

Record core_inv (s : sched) (g : ghost) : Prop := {
  ci_rq : run_queue s (g_h g) (g_q g);
  ci_vlock : lock_free (vpnode_memory_lock s);
  ci_head : g_rp g (g_h g) = RHead;
  ci_q : ∀ r, r ∈ g_q g ↔ g_rp g r = RQueue;
  ci_range : ∀ r, live g r → 0 ≤ r < RNODE_NUM;
  ci_sleep : sleep_vnode s = None;
  ci_io : io_sleep_flag s = 0;
  ci_times : 0 ≤ bmq_rr_interval s ≤ TIMER_WAIT s ∧ TIMER_WAIT s < 2 ^ 64;
  ci_node : ∀ r, live g r → node_inv s g r;
  ci_vnode : ∀ v, g_vp g v ≠ VFree → vnode_inv s g v
}.

(** CPU [k] runs the running vcpu of [r] with the VM's translation table and the vcpu's own
    mpidr loaded. *)
Definition running (s : sched) (k : cpu) (r : Z) : Prop :=
  ∃ v cp vmp, run_vnode (rqnode_memory s r) = Some v ∧ cur (vpnode_memory s v) = Some cp ∧
    cpu_vcpu k = Some cp ∧ sr_vmpidr k = vmpidr (vcpu_table s cp) ∧
    rq_vm (rqnode_memory s r) = Some vmp ∧ sr_vttbr k = vttbr_of (vm_table s vmp) ∧
    rq_need_resched (rqnode_memory s r) = 0 ∧
    vn_time_slice (vpnode_memory s v) ≤ bmq_rr_interval s.

Definition cpu_ok (s : sched) (g : ghost) (c : Z) : Prop :=
  cpu_id (cpu_table s c) = c ∧ flag (cpu_table s c) = 0 ∧
  match cpu_rqnode (cpu_table s c) with
  | None => ∀ r, g_rp g r ≠ RCpu c
  | Some r => (∀ r', g_rp g r' = RCpu c ↔ r' = r) ∧ running s (cpu_table s c) r
  end.

(** The invariant of the [N] CPUs between two interrupts. *)
Definition sys_inv (N : Z) (s : sched) (g : ghost) : Prop :=
  core_inv s g ∧ (∀ r c, g_rp g r = RCpu c → 0 ≤ c < N) ∧ ∀ c, 0 ≤ c < N → cpu_ok s g c.

(** ** Counting *)

Lemma total_insert qs p l :
  is_prio p → total (<[p := l]> qs) = total qs - Z.of_nat (length (qs p)) + Z.of_nat (length l).
Proof.
  intros Hp. unfold is_prio, PRIO_WIDTH in Hp. unfold total.
  change (seqZ 0 PRIO_WIDTH) with [0; 1; 2; 3; 4; 5; 6; 7; 8; 9].
  assert (p = 0 ∨ p = 1 ∨ p = 2 ∨ p = 3 ∨ p = 4 ∨ p = 5 ∨ p = 6 ∨ p = 7 ∨ p = 8 ∨ p = 9) as Hc by lia.
  destruct Hc as [->|[->|[->|[->|[->|[->|[->|[->|[->| ->]]]]]]]]]; simpl;
    rewrite upd_eq, !upd_ne by lia; lia.
Qed.

Lemma total_bound n mqm vnm base qs :
  ready_queues n mqm vnm base qs → 0 ≤ total qs ≤ 240.
Proof.
  intros H. assert (∀ i, is_prio i → (length (qs i) ≤ 24)%nat) as Hl by (intros i Hi; by eapply queue_short in H).
  unfold total. change (seqZ 0 PRIO_WIDTH) with [0; 1; 2; 3; 4; 5; 6; 7; 8; 9]. simpl.
  unfold is_prio, PRIO_WIDTH in Hl.
  pose proof (Hl 0 ltac:(lia)). pose proof (Hl 1 ltac:(lia)). pose proof (Hl 2 ltac:(lia)).
  pose proof (Hl 3 ltac:(lia)). pose proof (Hl 4 ltac:(lia)). pose proof (Hl 5 ltac:(lia)).
  pose proof (Hl 6 ltac:(lia)). pose proof (Hl 7 ltac:(lia)). pose proof (Hl 8 ltac:(lia)).
  pose proof (Hl 9 ltac:(lia)). lia.
Qed.

Lemma total_pos qs p v : is_prio p → v ∈ qs p → 1 ≤ total qs.
Proof.
  intros Hp Hv. pose proof (total_insert qs p [] Hp) as Ht. simpl in Ht.
  assert (0 ≤ total (<[p := []]> qs)) by (unfold total; lia).
  destruct (qs p); [by apply not_elem_of_nil in Hv|]. simpl in *. lia.
Qed.

(** ** Frames *)

Lemma ready_queues_frame n n' mqm mqm' vnm vnm' base qs :
  ready_queues n mqm vnm base qs →
  multi_queue n' = multi_queue n → bitmap n' = bitmap n →
  (∀ i, is_prio i → mqm' (base + i) = mqm (base + i)) →
  (∀ v, queued qs v → vn_next (vnm' v) = vn_next (vnm v)) →
  ready_queues n' mqm' vnm' base qs.
Proof.
  intros [Hb Hc Hnd Hdj Hbits Hw Hr] Hm Hbm Hq Hv. constructor; rewrite ?Hm, ?Hbm; try done.
  intros i Hi. rewrite Hq by done. eapply chain_ext, Hc; [|done].
  intros v Hvi. apply Hv. by exists i.
Qed.

(** What the invariant of a node reads of its [runQueueNode]. *)
Definition rq_core (n : runQueueNode) :=
  (rq_vm n, nr_vcpu_ready n, bitmap n, multi_queue n, run_vnode n).

Lemma rq_core_fields n n' :
  rq_core n = rq_core n' →
  rq_vm n = rq_vm n' ∧ nr_vcpu_ready n = nr_vcpu_ready n' ∧ bitmap n = bitmap n' ∧
  multi_queue n = multi_queue n' ∧ run_vnode n = run_vnode n'.
Proof. unfold rq_core. intros [= -> -> -> -> ->]. done. Qed.

Lemma node_inv_frame s g s' g' r :
  node_inv s g r →
  rq_core (rqnode_memory s' r) = rq_core (rqnode_memory s r) →
  (∀ i, is_prio i → multi_queue_memory s' (r * PRIO_WIDTH + i) = multi_queue_memory s (r * PRIO_WIDTH + i)) →
  (∀ v, queued (g_qs g r) v → vn_next (vpnode_memory s' v) = vn_next (vpnode_memory s v)) →
  g_qs g' r = g_qs g r → g_base g' r = g_base g r →
  (∀ v i, g_vp g' v = VReady r i ↔ g_vp g v = VReady r i) → (∀ v, g_vp g' v = VRun r ↔ g_vp g v = VRun r) →
  node_inv s' g' r.
Proof.
  intros [Hr Hp Hrun Hb Hcnt Hvm Hw] Hcore Hmq Hvn Hqs Hbase Hvp Hvr.
  destruct (rq_core_fields _ _ Hcore) as (H1 & H2 & H3 & H4 & H5).
  constructor; rewrite ?Hqs, ?Hbase, ?H1, ?H2, ?H5; try done.
  - by eapply ready_queues_frame.
  - intros i v Hi. by rewrite Hvp, Hp.
  - intros v. by rewrite Hvr, Hrun.
Qed.

Lemma cpu_ok_frame s g s' g' c :
  cpu_table s' c = cpu_table s c →
  (∀ r, g_rp g' r = RCpu c ↔ g_rp g r = RCpu c) →
  (∀ r, g_rp g r = RCpu c →
    run_vnode (rqnode_memory s' r) = run_vnode (rqnode_memory s r) ∧
    rq_vm (rqnode_memory s' r) = rq_vm (rqnode_memory s r) ∧
    rq_need_resched (rqnode_memory s' r) = rq_need_resched (rqnode_memory s r)) →
  (∀ r v, g_rp g r = RCpu c → run_vnode (rqnode_memory s r) = Some v →
    cur (vpnode_memory s' v) = cur (vpnode_memory s v) ∧
    vn_time_slice (vpnode_memory s' v) = vn_time_slice (vpnode_memory s v)) →
  (∀ cp, vmpidr (vcpu_table s' cp) = vmpidr (vcpu_table s cp)) →
  (∀ w, vm_id (vm_table s' w) = vm_id (vm_table s w) ∧ as_root (vm_table s' w) = as_root (vm_table s w)) →
  bmq_rr_interval s' = bmq_rr_interval s →
  cpu_ok s g c → cpu_ok s' g' c.
Proof.
  intros Hk Hrp Hn Hv Hm Hw Hb (Hid & Hf & Hr). unfold cpu_ok. rewrite Hk. split_and!; [done|done|].
  destruct (cpu_rqnode (cpu_table s c)) as [r|].
  - destruct Hr as [Hu (v & cp & vmp & H1 & H2 & H3 & H4 & H5 & H6 & H7 & H8)].
    assert (g_rp g r = RCpu c) as Hrc by (by apply Hu).
    destruct (Hn r Hrc) as (N1 & N2 & N3). destruct (Hv r v Hrc H1) as [V1 V2].
    split; [intros r'; by rewrite Hrp|].
    destruct (Hw vmp) as [W1 W2].
    exists v, cp, vmp. rewrite N1, N2, N3, V1, V2, Hm, Hb. unfold vttbr_of. by rewrite W1, W2.
  - intros r. by rewrite Hrp.
Qed.

Lemma vn_data_fields v v' :
  vn_data v = vn_data v' →
  cur v = cur v' ∧ static_prio v = static_prio v' ∧ prio_adj v = prio_adj v' ∧ prio v = prio v' ∧
  vn_time_slice v = vn_time_slice v'.
Proof.
  intros H. pose proof (f_equal cur H). pose proof (f_equal static_prio H). pose proof (f_equal prio_adj H).
  pose proof (f_equal prio H). pose proof (f_equal vn_time_slice H). done.
Qed.

Lemma vnode_inv_frame s g s' g' v :
  vnode_inv s g v →
  vn_data (vpnode_memory s' v) = vn_data (vpnode_memory s v) → vpnode_mem_bitmap s' = vpnode_mem_bitmap s →
  (∀ cp, vcpu_vm (vcpu_table s' cp) = vcpu_vm (vcpu_table s cp)) →
  (∀ r, rq_vm (rqnode_memory s' r) = rq_vm (rqnode_memory s r)) →
  g_vp g' v = g_vp g v → (∀ x, live g x → live g' x) →
  (∀ r, g_vp g v = VRun r → g_rp g' r = RQueue → g_rp g r = RQueue ∨ vn_time_slice (vpnode_memory s v) = 0) →
  vnode_inv s' g' v.
Proof.
  intros [Hr Hb Hs Hp Ha Hrd Hrun] Hv Hbm Hvm Hrq Hvp Hl Hsl.
  destruct (vn_data_fields _ _ Hv) as (V1 & V2 & V3 & V4 & V5).
  assert (∀ r, owner s v r → owner s' v r) as Ho.
  { intros r (cp & Hc & Hw). exists cp. by rewrite V1, Hvm, Hrq. }
  constructor; rewrite ?V2, ?V3, ?V4, ?V5, ?Hbm, ?Hvp; try done.
  - intros r i Hi. destruct (Hrd r i Hi) as (?&?&?). auto.
  - intros r Hi. destruct (Hrun r Hi) as (?&?&Hz). split_and!; auto.
    intros Hq. destruct (Hsl r Hi Hq); auto.
Qed.

(** Updating fields of a node that are not its links. *)
Lemma run_queue_upd s h q r f :
  (∀ n, rq_next (f n) = rq_next n ∧ rq_prev (f n) = rq_prev n ∧ rq_vm (f n) = rq_vm n) →
  run_queue s h q → run_queue (s <| rqnode_memory ::= alter f r |>) h q.
Proof.
  intros Hf [Hp [Hnd Hn Hpv] Hl Hr Hv].
  assert (∀ x, rq_next (alter f r (rqnode_memory s) x) = rq_next (rqnode_memory s x) ∧
    rq_prev (alter f r (rqnode_memory s) x) = rq_prev (rqnode_memory s x) ∧
    rq_vm (alter f r (rqnode_memory s) x) = rq_vm (rqnode_memory s x)) as Hx.
  { intros x. unfold alter, fn_alter. case_decide; [subst; apply Hf|done]. }
  constructor; rsimpl; try done.
  - constructor; [done| |]; intros i x Hi; destruct (Hx x) as (E1 & E2 & _); rewrite ?E1, ?E2; auto.
  - intros x Hq. destruct (Hx x) as (_ & _ & ->). auto.
Qed.

Lemma live_requeue g r c x :
  g_rp g r = RCpu c →
  live (g <| g_q := r :: g_q g |> <| g_rp := <[r := RQueue]> (g_rp g) |>) x ↔ live g x.
Proof.
  intros Hr. unfold live. rsimpl. rewrite upd_case. case_decide; [subst|done]. split; [|by left].
  intros _. right. eauto.
Qed.

Definition requeue_ghost (r : Z) (g : ghost) : ghost :=
  g <| g_q := r :: g_q g |> <| g_rp := <[r := RQueue]> (g_rp g) |>.

(** Updates of scheduling fields that the invariant of a node does not read. *)
Definition neutral (f : runQueueNode → runQueueNode) : Prop :=
  ∀ n, rq_core (f n) = rq_core n ∧ rq_next (f n) = rq_next n ∧ rq_prev (f n) = rq_prev n.

Lemma neutral_vm f n : neutral f → rq_vm (f n) = rq_vm n.
Proof. intros Hf. destruct (Hf n) as [Hc _]. by injection Hc. Qed.

Lemma core_requeue s g c r f :
  core_inv s g → g_rp g r = RCpu c → neutral f →
  (∀ v, g_vp g v = VRun r → vn_time_slice (vpnode_memory s v) = 0) →
  let s1 := s <| rqnode_memory ::= alter f r |> in
  let s' := s1 <| rqnode_memory ::= link_front (g_h g) r |> <| rq_spin_lock ::= lock_cycle |> in
  rq_insert r s1 = Done (tt, s') ∧ core_inv s' (requeue_ghost r g) ∧
  ∀ c', c' ≠ c → cpu_ok s g c' → cpu_ok s' (requeue_ghost r g) c'.
Proof.
  intros H Hr Hf Hsl s1 s'.
  destruct H as [Hrq Hvl Hh Hq Hrg Hs Hio Ht Hn Hv].
  assert (live g r) as Hlr by (right; eauto).
  assert (r ∉ g_h g :: g_q g) as Hni.
  { rewrite not_elem_of_cons, Hq. split; [intros ->; congruence|congruence]. }
  assert (run_queue s1 (g_h g) (g_q g)) as Hrq1.
  { apply run_queue_upd; [|done]. intros n. destruct (Hf n) as (_ & -> & ->). by rewrite neutral_vm. }
  assert (∀ x, rq_core (rqnode_memory s' x) = rq_core (rqnode_memory s x)) as Hcore.
  { intros x. trans (rq_core (rqnode_memory s1 x)).
    - apply rq_data_field; [done|]. apply link_front_data.
    - unfold s1. rsimpl. unfold alter, fn_alter. case_decide; [subst; apply Hf|done]. }
  assert (∀ x, rq_vm (rqnode_memory s' x) = rq_vm (rqnode_memory s x)) as Hvm.
  { intros x. apply (rq_core_fields _ _ (Hcore x)). }
  assert (∀ x, live (requeue_ghost r g) x ↔ live g x) as Hlive by (intros x; by eapply live_requeue).
  split_and!.
  - apply rq_insert_run; [apply Hrq1|set_solver|apply Hrq1].
  - constructor; try done.
    + apply run_queue_insert; [done|done|by apply Hrg|]. unfold s1. rsimpl.
      rewrite alter_eq, neutral_vm by done. apply Hn. done.
    + unfold requeue_ghost. rsimpl. rewrite upd_ne; [done|]. set_solver.
    + intros x. unfold requeue_ghost. rsimpl. rewrite elem_of_cons, upd_case, Hq.
      case_decide; [subst; split; [done|by left]|]. split; [intros [->|?]; done|by right].
    + intros x Hx%Hlive. by apply Hrg.
    + intros x Hx%Hlive. eapply node_inv_frame; [by apply Hn|apply Hcore|done..].
    + intros v Hvp. eapply vnode_inv_frame; [by apply Hv|done|done|done|apply Hvm|done| |].
      * intros x. apply Hlive.
      * intros x Hx Hxq. unfold requeue_ghost in Hxq. rsimpl_in Hxq. rewrite upd_case in Hxq.
        case_decide; [subst; right; auto|by left].
  - intros c' Hc'. apply cpu_ok_frame; [done| | |done|done|done|done].
    + intros x. unfold requeue_ghost. rsimpl. rewrite upd_case. case_decide; [subst; rewrite Hr; split; congruence|done].
    + intros x Hx. split_and!; [apply (rq_core_fields _ _ (Hcore x))|apply Hvm|].
      trans (rq_need_resched (rqnode_memory s1 x)).
      * apply rq_data_field; [done|]. apply link_front_data.
      * unfold s1. rsimpl. rewrite alter_ne; [done|]. intros ->. congruence.
Qed.

Definition pick_ghost (t : Z) (q : list Z) (c : Z) (g : ghost) : ghost :=
  g <| g_q := q |> <| g_rp := <[t := RCpu c]> (g_rp g) |>.

Lemma live_pick g t q c x : g_rp g t = RQueue → live (pick_ghost t q c g) x ↔ live g x.
Proof.
  intros Hr. unfold live, pick_ghost. rsimpl. rewrite upd_case. case_decide; [subst|done].
  split; intros _; [by left|right; eauto].
Qed.

Lemma live_ready s g r : core_inv s g → live g r → ready_node (rqnode_memory s r).
Proof.
  intros H Hl. destruct (ci_node _ _ H r Hl) as [Hr _ _ Hb Hc _ _]. unfold ready_node. rewrite Hc.
  unfold total. lia.
Qed.

Lemma core_pick s g c t l1 l2 f k k' vs vs' :
  core_inv s g → g_q g = l1 ++ t :: l2 → (∀ r, g_rp g r ≠ RCpu c) → neutral f →
  cpu_table s = k → vm_table s = vs →
  (∀ w, vm_id (vs' w) = vm_id (vs w) ∧ as_root (vs' w) = as_root (vs w)) →
  (∀ c', c' ≠ c → k' c' = k c') →
  let s' := s <| rqnode_memory ::= unlink t |> <| rq_spin_lock ::= lock_cycle |>
              <| rqnode_memory ::= alter f t |> <| cpu_table := k' |> <| vm_table := vs' |> in
  core_inv s' (pick_ghost t (l1 ++ l2) c g) ∧
  ∀ c', c' ≠ c → cpu_ok s g c' → cpu_ok s' (pick_ghost t (l1 ++ l2) c g) c'.
Proof.
  intros H Hql Hnc Hf Hk Hvs Hvs' Hk' s'.
  destruct H as [Hrq Hvl Hh Hq Hrg Hs Hio Ht Hn Hv].
  assert (t ∈ g_q g) as Htq by (rewrite Hql; set_solver).
  assert (g_rp g t = RQueue) as Hrt by (by apply Hq).
  assert (NoDup (l1 ++ t :: l2)) as Hnd.
  { rewrite <-Hql. pose proof (dll_nodup _ _ _ (rqq_dll _ _ _ Hrq)) as Hd. by apply NoDup_cons in Hd as [_ ?]. }
  assert (t ∉ l1 ++ l2) as Hnt.
  { apply NoDup_app in Hnd as (_ & Hd & [? _]%NoDup_cons). rewrite elem_of_app.
    intros [Hx|Hx]; [apply (Hd t Hx); set_solver|done]. }
  assert (∀ x, rq_core (rqnode_memory s' x) = rq_core (rqnode_memory s x)) as Hcore.
  { intros x. trans (rq_core (unlink t (rqnode_memory s) x)).
    - unfold s'. rsimpl. unfold alter, fn_alter. case_decide; [subst; apply Hf|done].
    - apply rq_data_field; [done|]. apply unlink_data. }
  assert (∀ x, rq_vm (rqnode_memory s' x) = rq_vm (rqnode_memory s x)) as Hvm.
  { intros x. apply (rq_core_fields _ _ (Hcore x)). }
  assert (∀ x, live (pick_ghost t (l1 ++ l2) c g) x ↔ live g x) as Hlive by (intros x; by apply live_pick).
  split.
  - constructor; try done.
    + rewrite Hql in Hrq. apply run_queue_remove in Hrq. apply (run_queue_upd _ _ _ t f) in Hrq.
      * destruct Hrq. by constructor.
      * intros n. destruct (Hf n) as (_ & -> & ->). by rewrite neutral_vm.
    + unfold pick_ghost. rsimpl. rewrite upd_ne; [done|]. congruence.
    + intros x. unfold pick_ghost. rsimpl. rewrite upd_case. case_decide as Hx; [subst; done|].
      rewrite <-Hq, Hql. set_solver.
    + intros x Hx%Hlive. by apply Hrg.
    + intros x Hx%Hlive. eapply node_inv_frame; [by apply Hn|apply Hcore|done..].
    + intros v Hvp. eapply vnode_inv_frame; [by apply Hv|done|done|done|apply Hvm|done| |].
      * intros x. apply Hlive.
      * intros x Hx Hxq. unfold pick_ghost in Hxq. rsimpl_in Hxq. rewrite upd_case in Hxq.
        case_decide; [done|by left].
  - intros c' Hc'. apply cpu_ok_frame; [| | |done|done| |done].
    + unfold s'. rsimpl. rewrite Hk' by done. by rewrite Hk.
    + intros x. unfold pick_ghost. rsimpl. rewrite upd_case. case_decide; [subst; rewrite Hrt; split; congruence|done].
    + intros x Hx. split_and!; [apply (rq_core_fields _ _ (Hcore x))|apply Hvm|].
      trans (rq_need_resched (unlink t (rqnode_memory s) x)).
      * unfold s'. rsimpl. rewrite alter_ne; [done|]. intros ->. congruence.
      * apply rq_data_field; [done|]. apply unlink_data.
    + intros w. unfold s'. rsimpl. rewrite Hvs. apply Hvs'.
Qed.

Lemma spin_while_null_run {S A} fuel (m : prog S (option A)) s a s' :
  m s = Done (Some a, s') → spin_while_null (Datatypes.S fuel) m s = Done (a, s').
Proof. intros Hm. cbn [spin_while_null]. by rewrite (prog_bind_done _ _ _ _ _ Hm). Qed.

Definition bfs_run_node (slice : Z) (n : runQueueNode) : runQueueNode :=
  n <| rq_state := TASK_RUNNING |> <| rq_time_slice := slice |> <| rq_need_resched := 0 |>.

Lemma bfs_pick_ok s g c fuel :
  core_inv s g → g_q g ≠ [] → (∀ r, g_rp g r ≠ RCpu c) →
  ∃ s' t q vmp, bfs_pick (Datatypes.S fuel) c s = Done (tt, s') ∧
    g_rp g t = RQueue ∧ core_inv s' (pick_ghost t q c g) ∧
    (∀ c', c' ≠ c → cpu_ok s g c' → cpu_ok s' (pick_ghost t q c g) c') ∧
    rq_vm (rqnode_memory s' t) = Some vmp ∧
    cpu_table s' c = cpu_table s c <| cpu_rqnode := Some t |> <| sr_vttbr := vttbr_of (vm_table s' vmp) |> ∧
    rq_need_resched (rqnode_memory s' t) = 0 ∧
    (∀ v, g_vp g v = VRun t → vn_time_slice (vpnode_memory s' v) = 0).
Proof.
  intros H Hq Hc. pose proof (ci_rq _ _ H) as Hrq.
  pose proof (p_task_lookup_run _ _ _ Hrq) as Hl. pose proof (earliest_spec (rqnode_memory s) (g_q g) None) as He.
  destruct (earliest (rqnode_memory s) (g_q g) None) as [t|].
  2:{ exfalso. destruct He as [_ He]. destruct (g_q g) as [|r q] eqn:Hgq; [done|].
      apply (He r); [set_solver|]. apply (live_ready _ g); [done|]. left. apply (ci_q _ _ H).
      rewrite Hgq. set_solver. }
  destruct He as [[? _]|(l1 & l2 & Hql & _)]; [done|].
  assert (g_rp g t = RQueue) as Hrt by (apply (ci_q _ _ H); rewrite Hql; set_solver).
  assert (live g t) as Hlt by (by left).
  destruct (rq_vm (rqnode_memory s t)) as [vmp|] eqn:Hvmp; [|by destruct (ni_vm _ _ _ (ci_node _ _ H t Hlt))].
  set (slice := u64 (bfs_rr_interval s)).
  assert (neutral (bfs_run_node slice)) as Hf by (by intros n).
  assert (rq_vm (unlink t (rqnode_memory s) t) = Some vmp) as Hvmp'.
  { rewrite <-Hvmp. apply rq_data_field; [done|]. apply unlink_data. }
  set (id := cpu_id (cpu_table s c)).
  set (vs := alter (λ w, w <| master := id |>) vmp (vm_table s)).
  set (k := alter (λ k, k <| sr_vttbr := vttbr_of (vs vmp) |>) c
              (alter (λ k, k <| cpu_rqnode := Some t |>) c (cpu_table s))).
  destruct (core_pick s g c t l1 l2 (bfs_run_node slice) _ k _ vs H Hql Hc Hf eq_refl eq_refl) as [Hci Hfr].
  { intros w. unfold vs, alter, fn_alter. case_decide; by subst. }
  { intros c' Hc'. unfold k. by rewrite !alter_ne. }
  eexists _, t, (l1 ++ l2), vmp. split_and!; [|done|exact Hci|exact Hfr|..].
  - unfold bfs_pick, upd_rq, upd_cpu, read_rq, prepare_to_switch.
    rewrite (prog_bind_done _ _ _ _ _ (spin_while_null_run _ _ _ _ _ Hl)).
    repeat pstep. rewrite alter_eq. rsimpl. rewrite Hvmp'. unfold upd_cpu. repeat pstep. rewrite run_modify.
    rewrite (alter_eq (cpu_table s)). rsimpl. reflexivity.
  - rsimpl. rewrite alter_eq. unfold bfs_run_node. by rsimpl.
  - rsimpl. unfold k. by rewrite !alter_eq.
  - rsimpl. rewrite alter_eq. unfold bfs_run_node. by rsimpl.
  - intros v Hv. rsimpl.
    assert (g_vp g v ≠ VFree) as Hvf by (rewrite Hv; done).
    by apply (vi_run _ _ _ (ci_vnode _ _ H v Hvf) t).
Qed.

(** ** Rescheduling the vcpus of a VM *)

(** The invariant while [run_vnode] of [r] is stale: it holds with that field read as NULL. *)
Definition core_mid (s : sched) (g : ghost) (r : Z) : Prop :=
  core_inv (s <| rqnode_memory ::= alter (λ n, n <| run_vnode := None |>) r |>) g.

Definition enqueue_ghost (r p v : Z) (g : ghost) : ghost :=
  g <| g_qs := <[r := <[p := g_qs g r p ++ [v]]> (g_qs g r)]> (g_qs g) |>
    <| g_vp := <[v := VReady r p]> (g_vp g) |>.

Lemma run_queue_ext s s' h q :
  (∀ x, rq_next (rqnode_memory s' x) = rq_next (rqnode_memory s x) ∧
        rq_prev (rqnode_memory s' x) = rq_prev (rqnode_memory s x) ∧
        rq_vm (rqnode_memory s' x) = rq_vm (rqnode_memory s x)) →
  rq_ptr s' = rq_ptr s → rq_spin_lock s' = rq_spin_lock s →
  run_queue s h q → run_queue s' h q.
Proof.
  intros Hx Hptr Hlk [Hp [Hnd Hn Hpv] Hl Hr Hv]. constructor; rewrite ?Hptr, ?Hlk; try done.
  - constructor; [done| |]; intros i x Hi; destruct (Hx x) as (E1 & E2 & _); rewrite ?E1, ?E2; auto.
  - intros x Hq. destruct (Hx x) as (_ & _ & ->). auto.
Qed.

Lemma node_place_unique s g r v i :
  core_inv s g → live g r → is_prio i → v ∈ g_qs g r i → g_vp g v = VReady r i.
Proof. intros H Hl Hi. apply (ni_place _ _ _ (ci_node _ _ H r Hl) i v Hi). Qed.

(** [v] goes from running on [r], or from nowhere, to the end of queue [p] of [r]: the memories
    after [v_task_insert], with [run_vnode] of [r] cleared in the first case.  [vnm] is the node
    memory before it, where only [v] may have changed since [s]. *)
Definition enqueue_state (r p v : Z) (q : list Z) (vnm : Z → vCpuNode) (h : runQueueNode → runQueueNode)
    (s : sched) : sched :=
  s <| vpnode_memory := vnm |> <| rqnode_memory ::= enqueue_rq r p |>
    <| multi_queue_memory ::= enqueue_mq (r * PRIO_WIDTH + p) v |>
    <| vpnode_memory ::= enqueue_vn v q |> <| rqnode_memory ::= alter h r |>.

Section enqueue.
Context (s : sched) (g : ghost) (r v p : Z) (vnm : Z → vCpuNode) (h : runQueueNode → runQueueNode).
Context (H : core_inv s g) (Hlr : live g r) (Hp : is_prio p).
Context (Hh : (g_vp g v = VRun r ∧ h = (λ n, n <| run_vnode := None |>)) ∨ (g_vp g v = VFree ∧ h = id)).
Context (Hvnm : ∀ x, x ≠ v → vnm x = vpnode_memory s x).

Let s' := enqueue_state r p v (g_qs g r p) vnm h s.
Let g' := enqueue_ghost r p v g.

Lemma enqueue_not_ready x i : live g x → is_prio i → v ∉ g_qs g x i.
Proof using H Hh.
  intros Hl Hi Hv. pose proof (node_place_unique _ _ _ _ _ H Hl Hi Hv). destruct Hh as [[? _]|[? _]]; congruence.
Qed.

Lemma enqueue_other_data x : x ≠ v → vn_data (vpnode_memory s' x) = vn_data (vpnode_memory s x).
Proof using Hvnm.
  intros Hx. unfold s', enqueue_state. rsimpl. rewrite enqueue_vn_data. by rewrite Hvnm.
Qed.

Lemma enqueue_other_node x : x ≠ r → rqnode_memory s' x = rqnode_memory s x.
Proof using Type.
  intros Hx. unfold s', enqueue_state. rsimpl. rewrite alter_ne by done. unfold enqueue_rq. by rewrite !alter_ne.
Qed.

Lemma enqueue_this_node :
  rqnode_memory s' r = h (rqnode_memory s r <| bitmap ::= λ b, Z.lor b (u64 (Z.shiftl 1 p)) |>
                                            <| nr_vcpu_ready ::= λ k, u32 (k + 1) |>).
Proof using Type. unfold s', enqueue_state. rsimpl. rewrite alter_eq. unfold enqueue_rq. by rewrite !alter_eq. Qed.

Lemma enqueue_links x :
  rq_next (rqnode_memory s' x) = rq_next (rqnode_memory s x) ∧
  rq_prev (rqnode_memory s' x) = rq_prev (rqnode_memory s x) ∧
  rq_vm (rqnode_memory s' x) = rq_vm (rqnode_memory s x).
Proof using Hh.
  destruct (decide (x = r)) as [->|Hx]; [|by rewrite enqueue_other_node].
  rewrite enqueue_this_node. destruct Hh as [[_ ->]|[_ ->]]; done.
Qed.

Lemma enqueue_node_other x : live g x → x ≠ r → node_inv s' g' x.
Proof using H Hlr Hp Hh Hvnm.
  intros Hl Hx. eapply node_inv_frame; [by apply (ci_node _ _ H)|by rewrite enqueue_other_node|..].
  - intros i Hi. unfold s', enqueue_state. rsimpl. unfold enqueue_mq.
    destruct (multi_queue_memory s (r * PRIO_WIDTH + p)); [done|]. apply upd_ne.
    unfold is_prio, PRIO_WIDTH in *. lia.
  - intros y (i & Hi & Hy). unfold s', enqueue_state. rsimpl. rewrite enqueue_vn_other.
    + rewrite Hvnm; [done|]. intros ->. by apply (enqueue_not_ready x i).
    + intros ->. by apply (enqueue_not_ready x i).
    + intros Hyp. pose proof (node_place_unique _ _ _ _ _ H Hl Hi Hy).
      pose proof (node_place_unique _ _ _ _ _ H Hlr Hp Hyp). congruence.
  - unfold g', enqueue_ghost. rsimpl. by rewrite upd_ne.
  - done.
  - intros y i. unfold g', enqueue_ghost. rsimpl. rewrite upd_case. case_decide; [subst|done].
    split; [congruence|]. destruct Hh as [[-> _]|[-> _]]; congruence.
  - intros y. unfold g', enqueue_ghost. rsimpl. rewrite upd_case. case_decide; [subst|done].
    split; [congruence|]. destruct Hh as [[-> _]|[-> _]]; congruence.
Qed.

Lemma enqueue_node_this : 0 ≤ v < VNODE_NUM → node_inv s' g' r.
Proof using H Hlr Hp Hh Hvnm.
  intros Hr. pose proof (ci_node _ _ H r Hlr) as [Hrq Hpl Hrun Hb Hcnt Hvm Hwk].
  assert (g_qs g' r = <[p := g_qs g r p ++ [v]]> (g_qs g r)) as Hqs.
  { unfold g', enqueue_ghost. rsimpl. by rewrite upd_eq. }
  assert (∀ y, g_vp g' y = if decide (v = y) then VReady r p else g_vp g y) as Hvp.
  { intros y. unfold g', enqueue_ghost. rsimpl. by rewrite upd_case. }
  pose proof (total_bound _ _ _ _ _ Hrq) as Htb.
  constructor; rewrite ?Hqs.
  - unfold s', enqueue_state. rsimpl.
    eapply ready_queues_enqueue; [|done| |done|..].
    + eapply ready_queues_frame; [exact Hrq|done|done|done|].
      intros y (i & Hi & Hy). rewrite Hvnm; [done|]. intros ->. by apply (enqueue_not_ready r i).
    + intros (i & Hi & Hy). by apply (enqueue_not_ready r i).
    + change (multi_queue (rqnode_memory s' r) = multi_queue (rqnode_memory s r)).
      rewrite enqueue_this_node. destruct Hh as [[_ ->]|[_ ->]]; done.
    + change (bitmap (rqnode_memory s' r) = Z.lor (bitmap (rqnode_memory s r)) (u64 (Z.shiftl 1 p))).
      rewrite enqueue_this_node. destruct Hh as [[_ ->]|[_ ->]]; done.
  - intros i y Hi. rewrite Hvp. destruct (decide (i = p)) as [->|Hne].
    + rewrite upd_eq, elem_of_app, list_elem_of_singleton, Hpl by done.
      case_decide; [subst; naive_solver|]. split; [intros [?| ->]; done|by left].
    + rewrite upd_ne, Hpl by done. case_decide; [subst|done].
      split; [destruct Hh as [[-> _]|[-> _]]; congruence|congruence].
  - intros y. rewrite Hvp. rewrite enqueue_this_node. destruct Hh as [[Hv ->]|[Hv ->]].
    + rsimpl. split; [done|]. case_decide as Hd; [done|]. rewrite <-Hrun. intros Hy.
      rewrite <-Hrun in Hv. congruence.
    + cbv [id]. rsimpl. rewrite Hrun. case_decide; [subst|done]. rewrite Hv. split; congruence.
  - done.
  - rewrite enqueue_this_node, total_insert by done. rewrite length_app. simpl.
    assert (∀ n : runQueueNode, nr_vcpu_ready (h n) = nr_vcpu_ready n) as ->.
    { destruct Hh as [[_ ->]|[_ ->]]; done. }
    rsimpl. change (g_base g' r) with (g_base g r). rewrite wrap_small by lia. lia.
  - by destruct (enqueue_links r) as (_ & _ & ->).
  - right. exists v, p. split; [done|]. rewrite upd_eq. set_solver.
Qed.

Lemma core_enqueue :
  0 ≤ v < VNODE_NUM → bit_at (vpnode_mem_bitmap s) v = true →
  is_prio (static_prio (vnm v)) → prio (vnm v) = p → - MAXPRIO_ADJ ≤ prio_adj (vnm v) ≤ MAXPRIO_ADJ →
  (∃ cp, cur (vnm v) = Some cp ∧ vcpu_vm (vcpu_table s cp) = rq_vm (rqnode_memory s r)) →
  core_inv s' g'.
Proof using H Hlr Hp Hh Hvnm.
  intros Hr Hbit Hst Hpr Hadj (cp & Hcur & Hown).
  pose proof H as [Hrq Hvl Hhd Hq Hrg Hs Hio Ht Hn Hv].
  constructor; try done.
  - eapply run_queue_ext; [apply enqueue_links|done|done|done].
  - intros x Hx. destruct (decide (x = r)) as [->|]; [by apply enqueue_node_this|by apply enqueue_node_other].
  - intros y. assert (g_vp g' y = if decide (v = y) then VReady r p else g_vp g y) as Hvp.
    { unfold g', enqueue_ghost. rsimpl. by rewrite upd_case. }
    destruct (decide (v = y)) as [<-|Hne]; intros Hy.
    + destruct (vn_data_fields (vpnode_memory s' v) (vnm v)) as (V1 & V2 & V3 & V4 & V5).
      { unfold s', enqueue_state. rsimpl. apply enqueue_vn_data. }
      constructor; rewrite ?V2, ?V3, ?V4, ?Hvp; try done; [by rewrite Hpr|].
      intros x i [= <- <-]. split_and!; [done|done|]. exists cp. split; [by rewrite V1|].
      destruct (enqueue_links r) as (_ & _ & ->). done.
    + rewrite Hvp in Hy. eapply vnode_inv_frame; [by apply Hv|apply enqueue_other_data; congruence|done|done|..].
      * intros x. apply enqueue_links.
      * done.
      * done.
      * intros x _ Hx. by left.
Qed.

Lemma cpu_enqueue c c' : g_rp g r = RCpu c → c' ≠ c → cpu_ok s g c' → cpu_ok s' g' c'.
Proof using H Hh Hvnm.
  intros Hc Hne. apply cpu_ok_frame; [done|done| | |done|done|done].
  - intros x Hx. rewrite enqueue_other_node; [done|]. congruence.
  - intros x y Hx Hy.
    assert (g_vp g y = VRun x) as Hyx.
    { apply (ni_run _ _ _ (ci_node _ _ H x ltac:(right; eauto))). done. }
    destruct (vn_data_fields (vpnode_memory s' y) (vpnode_memory s y)) as (-> & _ & _ & _ & ->); [|done].
    apply enqueue_other_data. intros ->. destruct Hh as [[? _]|[? _]]; congruence.
Qed.
End enqueue.

Definition dequeue_ghost (r j w : Z) (l : list Z) (g : ghost) : ghost :=
  g <| g_qs := <[r := <[j := l]> (g_qs g r)]> (g_qs g) |> <| g_vp := <[w := VRun r]> (g_vp g) |>.

(** [w] goes from the head of queue [j] of [r] to running on [r]: the memories after
    [v_task_lookup] and the updates that follow it in [bmq_scheduler]. *)
Definition dequeue_state (r j w : Z) (e : vCpuNode → vCpuNode) (k : Z → cpu) (vt : Z → vcpu) (s : sched) : sched :=
  dequeue r (r * PRIO_WIDTH) j w s <| vpnode_memory ::= alter e w |>
    <| rqnode_memory ::= alter (λ n, n <| run_vnode := Some w |>) r |>
    <| cpu_table := k |> <| vcpu_table := vt |>.

Section dequeue.
Context (s : sched) (g : ghost) (c r j w : Z) (l : list Z) (e : vCpuNode → vCpuNode)
  (k : Z → cpu) (vt : Z → vcpu).
Context (H : core_inv s g) (Hrc : g_rp g r = RCpu c) (Hj : is_prio j) (Hq : g_qs g r j = w :: l).
Context (Hnone : run_vnode (rqnode_memory s r) = None).
Context (He : ∀ n, cur (e n) = cur n ∧ static_prio (e n) = static_prio n ∧ prio_adj (e n) = prio_adj n ∧
                   prio (e n) = prio n ∧ vn_next (e n) = vn_next n).
Context (Hk : ∀ c', c' ≠ c → k c' = cpu_table s c').
Context (Hvt : ∀ cp, vcpu_vm (vt cp) = vcpu_vm (vcpu_table s cp) ∧ vmpidr (vt cp) = vmpidr (vcpu_table s cp)).

Let s' := dequeue_state r j w e k vt s.
Let g' := dequeue_ghost r j w l g.

Lemma dequeue_live : live g r.
Proof using Hrc. right. eauto. Qed.

Lemma dequeue_place : g_vp g w = VReady r j.
Proof using H Hrc Hj Hq.
  apply (node_place_unique s); [done|apply dequeue_live|done|]. rewrite Hq. by left.
Qed.

Lemma dequeue_other_vn x : x ≠ w → vpnode_memory s' x = vpnode_memory s x.
Proof using Type.
  intros Hx. unfold s', dequeue_state, dequeue. rsimpl. rewrite alter_ne by done. unfold dequeue_vn. by rewrite alter_ne.
Qed.

Lemma dequeue_this_vn : vpnode_memory s' w = e (vpnode_memory s w <| vn_next := None |>).
Proof using Type. unfold s', dequeue_state, dequeue. rsimpl. rewrite alter_eq. unfold dequeue_vn. by rewrite alter_eq. Qed.

Lemma dequeue_other_node x : x ≠ r → rqnode_memory s' x = rqnode_memory s x.
Proof using Type.
  intros Hx. unfold s', dequeue_state, dequeue. rsimpl. rewrite alter_ne by done. unfold dequeue_rq.
  destruct (vn_next (vpnode_memory s w)); by rewrite ?alter_ne.
Qed.

Lemma dequeue_this_node :
  let n := rqnode_memory s r in
  rqnode_memory s' r =
    (match vn_next (vpnode_memory s w) with
     | None => n <| bitmap ::= λ b, Z.land b (u64 (Z.lnot (u64 (Z.shiftl 1 j)))) |>
     | Some _ => n end) <| nr_vcpu_ready ::= λ k, u32 (k - 1) |> <| run_vnode := Some w |>.
Proof using Type.
  unfold s', dequeue_state, dequeue. rsimpl. rewrite alter_eq. unfold dequeue_rq.
  destruct (vn_next (vpnode_memory s w)); by rewrite ?alter_eq.
Qed.

Lemma dequeue_links x :
  rq_next (rqnode_memory s' x) = rq_next (rqnode_memory s x) ∧
  rq_prev (rqnode_memory s' x) = rq_prev (rqnode_memory s x) ∧
  rq_vm (rqnode_memory s' x) = rq_vm (rqnode_memory s x).
Proof using Type.
  destruct (decide (x = r)) as [->|Hx]; [|by rewrite dequeue_other_node].
  rewrite dequeue_this_node. by destruct (vn_next (vpnode_memory s w)).
Qed.

Lemma dequeue_vp y : g_vp g' y = if decide (w = y) then VRun r else g_vp g y.
Proof using Type. unfold g', dequeue_ghost. rsimpl. by rewrite upd_case. Qed.

Lemma dequeue_node_other x : live g x → x ≠ r → node_inv s' g' x.
Proof using H Hrc Hj Hq He.
  intros Hl Hx. pose proof dequeue_place as Hpw.
  eapply node_inv_frame; [by apply (ci_node _ _ H)|by rewrite dequeue_other_node|..].
  - intros i Hi. unfold s', dequeue_state, dequeue. rsimpl. unfold dequeue_mq. apply upd_ne.
    unfold is_prio, PRIO_WIDTH in *. lia.
  - intros y (i & Hi & Hy). rewrite dequeue_other_vn; [done|]. intros ->.
    pose proof (node_place_unique _ _ _ _ _ H Hl Hi Hy). congruence.
  - unfold g', dequeue_ghost. rsimpl. by rewrite upd_ne.
  - done.
  - intros y i. rewrite dequeue_vp. case_decide; [subst|done]. split; congruence.
  - intros y. rewrite dequeue_vp. case_decide; [subst|done]. split; congruence.
Qed.

Lemma dequeue_node_this : node_inv s' g' r.
Proof using H Hrc Hj Hq He Hnone Hvt.
  pose proof dequeue_place as Hpw. pose proof dequeue_live as Hlr.
  pose proof (ci_node _ _ H r Hlr) as [Hrq Hpl Hrun Hb Hcnt Hvm Hwk].
  assert (g_qs g' r = <[j := l]> (g_qs g r)) as Hqs.
  { unfold g', dequeue_ghost. rsimpl. by rewrite upd_eq. }
  pose proof (total_bound _ _ _ _ _ Hrq) as Htb.
  assert (1 ≤ total (g_qs g r)) as Htp by (apply (total_pos _ j w); [done|rewrite Hq; by left]).
  pose proof (mq_nodup _ _ _ _ _ Hrq j Hj) as Hnd. rewrite Hq in Hnd. apply NoDup_cons in Hnd as [Hwl _].
  constructor; rewrite ?Hqs.
  - eapply ready_queues_frame with (vnm := dequeue_vn w (vpnode_memory s)) (n := rqnode_memory s' r).
    + eapply ready_queues_dequeue; [exact Hrq|done|exact Hq|..];
        rewrite dequeue_this_node; by destruct (vn_next (vpnode_memory s w)).
    + done.
    + done.
    + done.
    + intros y _. unfold s', dequeue_state, dequeue. rsimpl. unfold alter at 1, fn_alter.
      case_decide; [subst; apply He|done].
  - intros i y Hi. rewrite dequeue_vp. destruct (decide (i = j)) as [->|Hne].
    + rewrite upd_eq. case_decide as Hd; [subst; split; done|].
      rewrite <-Hpl, Hq by done. rewrite elem_of_cons. naive_solver.
    + rewrite upd_ne, Hpl by done. case_decide; [subst|done]. split; congruence.
  - intros y. rewrite dequeue_vp, dequeue_this_node. rsimpl. case_decide as Hd; [by subst|].
    split; [congruence|]. rewrite <-Hrun. congruence.
  - done.
  - rewrite dequeue_this_node, total_insert, Hq by done. rsimpl. simpl.
    assert (nr_vcpu_ready match vn_next (vpnode_memory s w) with
      | Some _ => rqnode_memory s r
      | None => rqnode_memory s r <| bitmap ::= λ b, Z.land b (u64 (Z.lnot (u64 (Z.shiftl 1 j)))) |>
      end = nr_vcpu_ready (rqnode_memory s r)) as -> by (by destruct (vn_next (vpnode_memory s w))).
    change (g_base g' r) with (g_base g r). rewrite wrap_small by lia. lia.
  - by destruct (dequeue_links r) as (_ & _ & ->).
  - left. rewrite dequeue_this_node. done.
Qed.

Lemma dequeue_owner v x : owner s v x → owner s' v x.
Proof using He Hvt.
  intros (cp & Hc & Ho). exists cp. destruct (dequeue_links x) as (_ & _ & ->).
  split; [|unfold s', dequeue_state; rsimpl; destruct (Hvt cp) as [-> _]; done].
  destruct (decide (v = w)) as [->|]; [|by rewrite dequeue_other_vn].
  rewrite dequeue_this_vn. destruct (He (vpnode_memory s w <| vn_next := None |>)) as (-> & _). done.
Qed.

Lemma core_dequeue : core_inv s' g'.
Proof using H Hrc Hj Hq He Hnone Hvt.
  pose proof H as [Hrq Hvl Hhd Hgq Hrg Hs Hio Ht Hn Hv]. pose proof dequeue_place as Hpw.
  constructor; try done.
  - eapply run_queue_ext; [apply dequeue_links|done|done|done].
  - intros x Hx. destruct (decide (x = r)) as [->|]; [apply dequeue_node_this|by apply dequeue_node_other].
  - intros y Hy. rewrite dequeue_vp in Hy. destruct (decide (w = y)) as [<-|Hne].
    + destruct (Hv w ltac:(congruence)) as [V1 V2 V3 V4 V5 V6 V7].
      destruct (He (vpnode_memory s w <| vn_next := None |>)) as (_ & E2 & E3 & E4 & _).
      constructor; rewrite ?dequeue_this_vn, ?dequeue_vp, ?E2, ?E3, ?E4; try done.
      * rewrite decide_True by done. done.
      * rewrite decide_True by done. intros x [= <-]. destruct (V6 r j Hpw) as (Hl & _ & Ho).
        split_and!; [done|by apply dequeue_owner|]. intros Hx. change (g_rp g r = RQueue) in Hx. congruence.
    + destruct (Hv y Hy) as [V1 V2 V3 V4 V5 V6 V7].
      assert (g_vp g' y = g_vp g y) as Hvp by (by rewrite dequeue_vp, decide_False).
      constructor; rewrite ?dequeue_other_vn, ?Hvp by congruence; try done.
      * intros x i Hx. destruct (V6 x i Hx) as (?&?&?). split_and!; [done|done|by apply dequeue_owner].
      * intros x Hx. destruct (V7 x Hx) as (?&?&?). split_and!; [done|by apply dequeue_owner|done].
Qed.

Lemma cpu_dequeue c' : c' ≠ c → cpu_ok s g c' → cpu_ok s' g' c'.
Proof using H Hrc Hj Hq Hk Hvt.
  intros Hne. pose proof dequeue_place as Hpw. apply cpu_ok_frame; [|done| | | |done|done].
  - unfold s', dequeue_state. rsimpl. by apply Hk.
  - intros x Hx. rewrite dequeue_other_node; [done|]. congruence.
  - intros x y Hx Hy. rewrite dequeue_other_vn; [done|]. intros ->.
    assert (g_vp g w = VRun x) by (apply (ni_run _ _ _ (ci_node _ _ H x ltac:(right; eauto))); done).
    congruence.
  - intros cp. unfold s', dequeue_state. rsimpl. apply Hvt.
Qed.
End dequeue.

(** The state with [run_vnode] of [r] read as NULL. *)
Definition no_run (r : Z) (s : sched) : sched :=
  s <| rqnode_memory ::= alter (λ n, n <| run_vnode := None |>) r |>.

Lemma no_run_id r s : run_vnode (rqnode_memory s r) = None → no_run r s = s.
Proof.
  intros Hn. unfold no_run, setter. destruct s as [m]; simpl in *. f_equal.
  apply functional_extensionality. intros x. unfold alter, fn_alter. case_decide; [subst|done].
  destruct (m x); simpl in *. by subst.
Qed.

Lemma dequeue_state_eq r j w e k vt s :
  dequeue_state r j w e k vt s =
    s <| multi_queue_memory ::= dequeue_mq (r * PRIO_WIDTH + j) w (vpnode_memory s) |>
      <| vpnode_memory ::= λ m, alter e w (dequeue_vn w m) |> <| cpu_table := k |> <| vcpu_table := vt |>
      <| rqnode_memory := alter (λ n, n <| run_vnode := Some w |>) r
                            (dequeue_rq r j w (vpnode_memory s) (rqnode_memory s)) |>.
Proof. done. Qed.

Lemma dequeue_rq_no_run r j w vnm m :
  alter (λ n, n <| run_vnode := Some w |>) r
    (dequeue_rq r j w vnm (alter (λ n, n <| run_vnode := None |>) r m)) =
  alter (λ n, n <| run_vnode := Some w |>) r (dequeue_rq r j w vnm m).
Proof.
  apply functional_extensionality. intros x. unfold dequeue_rq.
  destruct (vn_next (vnm w)); unfold alter, fn_alter; repeat case_decide; by subst.
Qed.

Lemma no_run_dequeue r j w e k vt s :
  dequeue_state r j w e k vt (no_run r s) = dequeue_state r j w e k vt s.
Proof. rewrite !dequeue_state_eq. unfold no_run. rsimpl. by rewrite dequeue_rq_no_run. Qed.

Definition requeue_node (v : vCpuNode) : vCpuNode := v <| vn_state := TASK_READY |> <| vn_need_resched := 1 |>.

Lemma bmq_requeue_ok s g c r :
  core_inv s g → g_rp g r = RCpu c →
  (∀ v, g_vp g v = VRun r → vn_time_slice (vpnode_memory s v) = 0) →
  ∃ s' g', bmq_requeue r s = Done (tt, s') ∧ core_inv (no_run r s') g' ∧ g_rp g' = g_rp g ∧
    (∃ v, queued (g_qs g' r) v) ∧
    (∀ c', c' ≠ c → cpu_ok s g c' → cpu_ok (no_run r s') g' c') ∧
    cpu_table s' = cpu_table s ∧ vm_table s' = vm_table s ∧
    rq_vm (rqnode_memory s' r) = rq_vm (rqnode_memory s r) ∧
    rq_need_resched (rqnode_memory s' r) = rq_need_resched (rqnode_memory s r) ∧
    bmq_rr_interval s' = bmq_rr_interval s.
Proof.
  intros H Hrc Hsl. assert (live g r) as Hlr by (right; eauto).
  pose proof (ci_node _ _ H r Hlr) as Hnode. unfold bmq_requeue, read_rq, read_vn, upd_vn, prio_manage, upd_vn.
  destruct (run_vnode (rqnode_memory s r)) as [v|] eqn:Hrun.
  2:{ exists s, g. pstep. rewrite Hrun, no_run_id by done. split_and!; try done.
      destruct (ni_work _ _ _ Hnode) as [?|?]; done. }
  assert (g_vp g v = VRun r) as Hvp by (by apply (ni_run _ _ _ Hnode)).
  destruct (ci_vnode _ _ H v ltac:(congruence)) as [V1 V2 V3 V4 V5 V6 V7].
  destruct (V7 r Hvp) as (_ & (cp & Hcur & Hown) & _).
  destruct (prio_manage_node_spec 0 (vpnode_memory s v) V3 V4 V5) as (P1 & P2 & P3 & P4 & _ & _).
  set (vnm := alter requeue_node v (alter (prio_manage_node 0) v (vpnode_memory s))).
  assert (vnm v = requeue_node (prio_manage_node 0 (vpnode_memory s v))) as Hvv by (unfold vnm; by rewrite !alter_eq).
  assert (∀ x, x ≠ v → vnm x = vpnode_memory s x) as Hvo by (intros x Hx; unfold vnm; by rewrite !alter_ne).
  set (s1 := s <| vpnode_memory ::= alter (prio_manage_node 0) v |> <| vpnode_memory ::= alter requeue_node v |>).
  assert (ready_queues (rqnode_memory s1 r) (multi_queue_memory s1) (vpnode_memory s1) (r * PRIO_WIDTH) (g_qs g r)) as Hrq.
  { eapply ready_queues_frame; [apply (ni_ready _ _ _ Hnode)|done|done|done|].
    intros y (i & Hi & Hy). change (vpnode_memory s1 y) with (vnm y). rewrite Hvo; [done|]. intros ->.
    pose proof (node_place_unique _ _ _ _ _ H Hlr Hi Hy). congruence. }
  assert (prio (vpnode_memory s1 v) = prio (prio_manage_node 0 (vpnode_memory s v))) as Hpr.
  { change (vpnode_memory s1 v) with (vnm v). by rewrite Hvv. }
  pose proof (v_task_insert_run s1 r v _ _ Hrq) as Hins. rewrite Hpr in Hins. specialize (Hins P1).
  set (p := prio (prio_manage_node 0 (vpnode_memory s v))) in *.
  eexists _, (enqueue_ghost r p v g). split; [|split; [|split; [|split; [|split]]]].
  - pstep. rewrite Hrun. repeat pstep. rewrite (Hsl v Hvp). change (0 =? 0) with true. repeat pstep.
    rewrite (ci_sleep _ _ H). rewrite bool_decide_eq_true_2 by (by left). repeat pstep. exact Hins.
  - change (core_inv (enqueue_state r p v (g_qs g r p) vnm (λ n, n <| run_vnode := None |>) s) (enqueue_ghost r p v g)).
    apply core_enqueue; try done; rewrite ?Hvv; try done; [by left| |].
    + change (is_prio (static_prio (prio_manage_node 0 (vpnode_memory s v)))). by rewrite P3.
    + exists cp. split; [|done]. change (cur (prio_manage_node 0 (vpnode_memory s v)) = Some cp). by rewrite P4.
  - done.
  - exists v, p. split; [done|]. unfold enqueue_ghost. rsimpl. rewrite !upd_eq. set_solver.
  - intros c' Hc'.
    change (cpu_ok s g c' → cpu_ok (enqueue_state r p v (g_qs g r p) vnm (λ n, n <| run_vnode := None |>) s) (enqueue_ghost r p v g) c').
    eapply cpu_enqueue; [done|by left|done|done|done].
  - rsimpl. unfold enqueue_rq. rewrite !alter_eq. done.
Qed.

Definition run_node (slice : Z) (v : vCpuNode) : vCpuNode :=
  v <| vn_state := TASK_RUNNING |> <| vn_time_slice := slice |> <| vn_need_resched := 0 |>.

Lemma bmq_pick_ok s g c r fuel :
  core_inv (no_run r s) g → g_rp g r = RCpu c → (∃ v, queued (g_qs g r) v) →
  ∃ s' g' w cp, bmq_pick (Datatypes.S fuel) c r s = Done (tt, s') ∧ core_inv s' g' ∧ g_rp g' = g_rp g ∧
    (∀ c', c' ≠ c → cpu_ok (no_run r s) g c' → cpu_ok s' g' c') ∧
    run_vnode (rqnode_memory s' r) = Some w ∧ cur (vpnode_memory s' w) = Some cp ∧
    vn_time_slice (vpnode_memory s' w) ≤ bmq_rr_interval s' ∧
    cpu_table s' c = cpu_table s c <| cpu_vcpu := Some cp |> <| sr_vmpidr := vmpidr (vcpu_table s' cp) |> ∧
    vm_table s' = vm_table s ∧
    rq_vm (rqnode_memory s' r) = rq_vm (rqnode_memory s r) ∧
    rq_need_resched (rqnode_memory s' r) = rq_need_resched (rqnode_memory s r).
Proof.
  intros H Hrc (v & i & Hi & Hv). assert (live g r) as Hlr by (right; eauto).
  pose proof (ci_node _ _ H r Hlr) as Hnode.
  assert (ready_queues (rqnode_memory s r) (multi_queue_memory s) (vpnode_memory s) (r * PRIO_WIDTH) (g_qs g r)) as Hrq.
  { eapply ready_queues_frame; [apply (ni_ready _ _ _ Hnode)|..]; try done; unfold no_run; rsimpl; by rewrite alter_eq. }
  assert (∀ y, queued (g_qs g r) y → vnode_valid s y) as Hval.
  { intros y (m & Hm & Hy). pose proof (node_place_unique _ _ _ _ _ H Hlr Hm Hy) as Hpy.
    destruct (vi_ready _ _ _ (ci_vnode _ _ H y ltac:(congruence)) r m Hpy) as (_ & _ & cp & Hc & Ho).
    exists cp. split; [exact Hc|]. change (vcpu_vm (vcpu_table s cp) = rq_vm (rqnode_memory (no_run r s) r)) in Ho.
    rewrite Ho. apply (ni_vm _ _ _ Hnode). }
  destruct (v_lookup_loop_run s r _ _ 0 (Z.to_nat BMQ_BITMAP_SIZE) Hrq Hval) as
    [[_ Hn]|(j & w & l & Hj & _ & Hq & Hrun)]; [lia|done|intros m Hm; lia| |].
  { exfalso. rewrite (Hn i Hi) in Hv. by apply not_elem_of_nil in Hv. }
  destruct (Hval w) as (cp & Hcur & Hvm); [exists j; split; [done|]; rewrite Hq; by left|].
  set (slice := u64 (bmq_rr_interval s)).
  set (vt := alter (λ u, u <| p_id := cpu_id (cpu_table s c) |>) cp (vcpu_table s)).
  set (k := alter (λ k, k <| sr_vmpidr := vmpidr (vt cp) |>) c (alter (λ k, k <| cpu_vcpu := Some cp |>) c (cpu_table s))).
  set (s' := dequeue_state r j w (run_node slice) k vt s).
  assert (dequeue_state r j w (run_node slice) k vt (no_run r s) = s') as Heq by apply no_run_dequeue.
  assert (run_vnode (rqnode_memory (no_run r s) r) = None) as Hnone by (unfold no_run; rsimpl; by rewrite alter_eq).
  assert (∀ n, cur (run_node slice n) = cur n ∧ static_prio (run_node slice n) = static_prio n ∧
    prio_adj (run_node slice n) = prio_adj n ∧ prio (run_node slice n) = prio n ∧
    vn_next (run_node slice n) = vn_next n) as He by done.
  assert (∀ c', c' ≠ c → k c' = cpu_table (no_run r s) c') as Hk by (intros c' Hc'; unfold k; by rewrite !alter_ne).
  assert (∀ q, vcpu_vm (vt q) = vcpu_vm (vcpu_table (no_run r s) q) ∧
               vmpidr (vt q) = vmpidr (vcpu_table (no_run r s) q)) as Hvt.
  { intros q. unfold vt, alter, fn_alter. case_decide; by subst. }
  pose proof (dequeue_this_vn s r j w (run_node slice) k vt) as Hw.
  pose proof (dequeue_this_node s r j w (run_node slice) k vt) as Hr. fold s' in Hw, Hr. cbv zeta in Hr.
  exists s', (dequeue_ghost r j w l g), w, cp. split_and!.
  - unfold bmq_pick, v_task_lookup, upd_vn, upd_rq, switch_to, read_vn, upd_cpu.
    rewrite (prog_bind_done _ _ _ _ _ (spin_while_null_run _ _ _ _ _ Hrun)). unfold dequeue.
    repeat pstep. rewrite alter_eq. rsimpl. unfold dequeue_vn. rewrite alter_eq. rsimpl.
    rewrite Hcur. repeat pstep. rewrite run_modify. rewrite (alter_eq (cpu_table s)). rsimpl. reflexivity.
  - rewrite <-Heq. by apply (core_dequeue _ g c).
  - done.
  - intros c' Hc'. rewrite <-Heq. by apply (cpu_dequeue _ g c).
  - by rewrite Hr.
  - rewrite Hw. rsimpl. exact Hcur.
  - rewrite Hw. unfold run_node. rsimpl. unfold slice. destruct (ci_times _ _ H) as [Ht1 Ht2].
    change (bmq_rr_interval (no_run r s)) with (bmq_rr_interval s) in Ht1.
    change (TIMER_WAIT (no_run r s)) with (TIMER_WAIT s) in Ht1, Ht2.
    change (bmq_rr_interval s') with (bmq_rr_interval s). rewrite wrap_small by lia. lia.
  - unfold s', dequeue_state. rsimpl. unfold k. rewrite !alter_eq. rsimpl. reflexivity.
  - done.
  - apply (dequeue_links s r j w (run_node slice) k vt).
  - rewrite Hr. by destruct (vn_next (vpnode_memory s w)).
Qed.

Lemma bmq_scheduler_ok s g c r vmp fuel :
  core_inv s g → g_rp g r = RCpu c →
  (∀ v, g_vp g v = VRun r → vn_time_slice (vpnode_memory s v) = 0) →
  rq_need_resched (rqnode_memory s r) = 0 → rq_vm (rqnode_memory s r) = Some vmp →
  sr_vttbr (cpu_table s c) = vttbr_of (vm_table s vmp) →
  ∃ s' g' cp vm', bmq_scheduler (Datatypes.S fuel) c r s = Done (tt, s') ∧ core_inv s' g' ∧ g_rp g' = g_rp g ∧
    (∀ c', c' ≠ c → cpu_ok s g c' → cpu_ok s' g' c') ∧ running s' (cpu_table s' c) r ∧
    cpu_table s' c = cpu_table s c <| cpu_vcpu := Some cp |> <| sr_vmpidr := vm' |>.
Proof.
  intros H Hrc Hsl Hneed Hvm Hvt.
  destruct (bmq_requeue_ok s g c r H Hrc Hsl) as (s1 & g1 & R1 & C1 & G1 & Q1 & F1 & T1 & V1 & M1 & N1 & B1).
  destruct (bmq_pick_ok s1 g1 c r fuel C1) as (s2 & g2 & w & cp & R2 & C2 & G2 & F2 & Hw & Hc & Hs & T2 & V2 & M2 & N2);
    [by rewrite G1|done|].
  exists s2, g2, cp, (vmpidr (vcpu_table s2 cp)). split_and!.
  - unfold bmq_scheduler. by rewrite (prog_bind_done _ _ _ _ _ R1).
  - done.
  - by rewrite G2, G1.
  - intros c' Hc' Hok. by apply F2, F1.
  - exists w, cp, vmp. rewrite T2, M2, N2, M1, N1, V2, V1, T1. rsimpl. done.
  - by rewrite T2, T1.
Qed.

(** Updates of the running vcpu and VM of CPU [c], and of the CPU itself, that keep what the
    invariant reads. *)
Lemma core_tick s g c r v e f k :
  core_inv s g → g_rp g r = RCpu c → g_vp g v = VRun r → neutral f →
  (∀ n, cur (e n) = cur n ∧ static_prio (e n) = static_prio n ∧ prio_adj (e n) = prio_adj n ∧
        prio (e n) = prio n ∧ vn_next (e n) = vn_next n) →
  (∀ c', c' ≠ c → k c' = cpu_table s c') →
  let s' := s <| vpnode_memory ::= alter e v |> <| rqnode_memory ::= alter f r |> <| cpu_table := k |> in
  core_inv s' g ∧ ∀ c', c' ≠ c → cpu_ok s g c' → cpu_ok s' g c'.
Proof.
  intros [Hrq Hvl Hh Hq Hrg Hs Hio Ht Hn Hv] Hrc Hvp Hf He Hk s'.
  assert (∀ x, rq_core (rqnode_memory s' x) = rq_core (rqnode_memory s x)) as Hcore.
  { intros x. unfold s'. rsimpl. unfold alter, fn_alter. case_decide; [subst; apply Hf|done]. }
  assert (∀ x, rq_vm (rqnode_memory s' x) = rq_vm (rqnode_memory s x)) as Hvm by (intros x; apply (rq_core_fields _ _ (Hcore x))).
  assert (∀ y, y ≠ v → vpnode_memory s' y = vpnode_memory s y) as Hvo by (intros y Hy; unfold s'; rsimpl; by rewrite alter_ne).
  assert (vpnode_memory s' v = e (vpnode_memory s v)) as Hve by (unfold s'; rsimpl; by rewrite alter_eq).
  destruct (He (vpnode_memory s v)) as (E1 & E2 & E3 & E4 & E5).
  assert (∀ y x, owner s y x → owner s' y x) as Ho.
  { intros y x (cp & Hc & Ho). exists cp. rewrite Hvm. split; [|done].
    destruct (decide (y = v)) as [->|]; [by rewrite Hve, E1|by rewrite Hvo]. }
  split.
  - constructor; try done.
    + apply (run_queue_ext s); [|done|done|exact Hrq]. intros x. split_and!; [| |apply Hvm];
        unfold s'; rsimpl; unfold alter, fn_alter; case_decide; try done; subst; apply Hf.
    + intros x Hx. eapply node_inv_frame; [by apply Hn|apply Hcore|done| |done..].
      intros y _. destruct (decide (y = v)) as [->|]; [by rewrite Hve, E5|by rewrite Hvo].
    + intros y Hy. destruct (Hv y Hy) as [V1 V2 V3 V4 V5 V6 V7]. destruct (decide (y = v)) as [->|Hne].
      * constructor; rewrite ?Hve, ?E2, ?E3, ?E4; try done.
        -- intros x i Hx. congruence.
        -- intros x Hx. assert (x = r) as -> by congruence. destruct (V7 r Hx) as (? & ? & _).
           split_and!; [done|by apply Ho|congruence].
      * constructor; rewrite ?Hvo by done; try done.
        -- intros x i Hx. destruct (V6 x i Hx) as (?&?&?). auto.
        -- intros x Hx. destruct (V7 x Hx) as (?&?&?). auto.
  - intros c' Hc'. apply cpu_ok_frame; [by apply Hk|done| | |done|done|done].
    + intros x Hx. split_and!; [apply (rq_core_fields _ _ (Hcore x))|apply Hvm|].
      unfold s'. rsimpl. rewrite alter_ne; [done|]. congruence.
    + intros x y Hx Hy. rewrite Hvo; [done|]. intros ->.
      apply (ni_run _ _ _ (Hn x ltac:(right; eauto))) in Hy. congruence.
Qed.

(** The invariant of the nodes does not read the CPUs or the clock. *)
Lemma core_cpu_table s g k clk :
  core_inv s g → core_inv (s <| cpu_table := k |> <| bfs_clock := clk |>) g.
Proof.
  intros [Hrq Hvl Hh Hq Hrg Hs Hio Ht Hn Hv]. constructor; try done.
  - by apply (run_queue_ext s).
  - intros r Hr. eapply node_inv_frame; [by apply Hn|done..].
  - intros v Hp. eapply vnode_inv_frame; [by apply Hv|done..|]. intros r _ Hr. by left.
Qed.

(** The end of [try_reschedule]. *)
Lemma resched_finish N s g c t :
  core_inv s g → (∀ r c', g_rp g r = RCpu c' → 0 ≤ c' < N) →
  (∀ r, g_rp g r = RCpu c ↔ r = t) → cpu_id (cpu_table s c) = c →
  cpu_rqnode (cpu_table s c) = Some t → running s (cpu_table s c) t →
  (∀ c', 0 ≤ c' < N → c' ≠ c → cpu_ok s g c') →
  ∃ s', (upd_cpu c (λ k, k <| flag := 0 |>);; resched_report c) s = Done (tt, s') ∧ sys_inv N s' g ∧
    cpu_rqnode (cpu_table s' c) = Some t.
Proof.
  intros H HN Hu Hid Hrn Hrun Hok.
  pose proof Hrun as (v & cp & vmp & H1 & H2 & H3 & H4 & H5 & H6 & H7 & H8).
  exists (s <| cpu_table ::= alter (λ k, k <| flag := 0 |>) c |>). split_and!.
  - unfold upd_cpu, resched_report, read_cpu, read_rq. repeat pstep. rewrite alter_eq. rsimpl.
    rewrite Hrn. repeat pstep. rewrite H5. repeat pstep. rewrite H3. repeat pstep. done.
  - assert (∀ c', c' ≠ c → cpu_ok s g c' → cpu_ok (s <| cpu_table ::= alter (λ k, k <| flag := 0 |>) c |>) g c') as Hf.
    { intros c' Hc'. apply cpu_ok_frame; try done. rsimpl. by rewrite alter_ne. }
    split; [|split; [done|]].
    + by apply (core_cpu_table s g _ (bfs_clock s)).
    + intros c' Hc'. destruct (decide (c' = c)) as [->|]; [|by apply Hf, Hok].
      unfold cpu_ok. rsimpl. rewrite alter_eq. rsimpl. rewrite Hrn. split_and!; [done|done|done|].
      exists v, cp, vmp. rsimpl. done.
  - rsimpl. rewrite alter_eq. done.
Qed.

(** ** The timer interrupt *)

Definition expire_node (clock : Z) (n : runQueueNode) : runQueueNode :=
  n <| vdeadline := clock +64 vdeadline_diff n |> <| rq_state := TASK_READY |> <| rq_need_resched := 1 |>.

Lemma bfs_scheduler_ok s g c r fuel :
  core_inv s g → (∀ x, g_rp g x = RCpu c ↔ x = r) → cpu_rqnode (cpu_table s c) = Some r →
  rq_time_slice (rqnode_memory s r) = 0 →
  (∀ v, g_vp g v = VRun r → vn_time_slice (vpnode_memory s v) = 0) →
  ∃ s' g' t vmp, bfs_scheduler (Datatypes.S fuel) c s = Done (tt, s') ∧ core_inv s' g' ∧
    (∀ x, g_rp g' x = RCpu c ↔ x = t) ∧ (∀ x c', c' ≠ c → g_rp g' x = RCpu c' → g_rp g x = RCpu c') ∧
    (∀ c', c' ≠ c → cpu_ok s g c' → cpu_ok s' g' c') ∧
    rq_vm (rqnode_memory s' t) = Some vmp ∧
    cpu_table s' c = cpu_table s c <| cpu_rqnode := Some t |> <| sr_vttbr := vttbr_of (vm_table s' vmp) |> ∧
    rq_need_resched (rqnode_memory s' t) = 0 ∧
    (∀ v, g_vp g' v = VRun t → vn_time_slice (vpnode_memory s' v) = 0).
Proof.
  intros H Hu Hrn Hts Hsl. assert (g_rp g r = RCpu c) as Hrc by (by apply Hu).
  set (f := expire_node (bfs_clock s)).
  destruct (core_requeue s g c r f H Hrc) as (R1 & C1 & F1); [by intros n|done|].
  set (s1 := s <| rqnode_memory ::= alter f r |>) in *.
  set (s2 := s1 <| rqnode_memory ::= link_front (g_h g) r |> <| rq_spin_lock ::= lock_cycle |>) in *.
  assert (∀ x, g_rp (requeue_ghost r g) x = if decide (r = x) then RQueue else g_rp g x) as Hrp2.
  { intros x. unfold requeue_ghost. rsimpl. by rewrite upd_case. }
  destruct (bfs_pick_ok s2 (requeue_ghost r g) c fuel C1) as
    (s3 & t & q & vmp & R2 & Ht & C2 & F2 & M2 & T2 & N2 & S2).
  { done. }
  { intros x. rewrite Hrp2. case_decide as Hd; [done|]. rewrite Hu. congruence. }
  assert (∀ x, g_rp (pick_ghost t q c (requeue_ghost r g)) x =
    if decide (t = x) then RCpu c else if decide (r = x) then RQueue else g_rp g x) as Hrp3.
  { intros x. unfold pick_ghost. rsimpl. by rewrite upd_case, Hrp2. }
  exists s3, (pick_ghost t q c (requeue_ghost r g)), t, vmp. split_and!; try done.
  - unfold bfs_scheduler, bfs_requeue, read_cpu, read_rq, upd_rq. repeat pstep. rewrite Hrn. repeat pstep.
    rewrite Hts. change (0 =? 0) with true. repeat pstep.
    erewrite prog_bind_done by exact R1. exact R2.
  - intros x. rewrite Hrp3. case_decide; [subst; done|]. case_decide; [subst; split; congruence|].
    rewrite Hu. split; congruence.
  - intros x c' Hc'. rewrite Hrp3. case_decide; [congruence|]. case_decide; [congruence|done].
  - intros c' Hc' Hok. by apply F2, F1.
Qed.

Lemma timer_resched_ok N s g c r fuel :
  sys_inv N s g → 0 ≤ c < N → cpu_rqnode (cpu_table s c) = Some r →
  ∃ s' g' t, timer_resched (Datatypes.S fuel) c s = Done (tt, s') ∧ sys_inv N s' g' ∧
    cpu_rqnode (cpu_table s' c) = Some t.
Proof.
  intros (H & HN & Hok) Hc Hrn. pose proof (Hok c Hc) as (Hid & Hfl & Hr). rewrite Hrn in Hr.
  destruct Hr as [Hu (v & cp & vmp & H1 & H2 & H3 & H4 & H5 & H6 & H7 & H8)].
  assert (g_rp g r = RCpu c) as Hrc by (by apply Hu). assert (live g r) as Hlr by (right; eauto).
  assert (g_vp g v = VRun r) as Hvp by (by apply (ni_run _ _ _ (ci_node _ _ H r Hlr))).
  set (wait := TIMER_WAIT s). destruct (ci_times _ _ H) as [Hbw Hw64].
  assert (neutral (rq_tick wait)) as Hnt by (intros n; unfold rq_tick; by destruct (rq_time_slice n <=? wait)).
  assert (vn_tick wait (vpnode_memory s v) = vpnode_memory s v <| vn_time_slice := 0 |> <| vn_need_resched := 1 |>) as Hvt.
  { unfold vn_tick. destruct (Z.leb_spec (vn_time_slice (vpnode_memory s v)) wait); [done|lia]. }
  set (k := alter (λ k, k <| flag := 1 |>) c (cpu_table s)).
  destruct (core_tick s g c r v (vn_tick wait) (rq_tick wait) k H Hrc Hvp Hnt) as [C1 F1].
  { intros n. unfold vn_tick. by destruct (vn_time_slice n <=? wait). }
  { intros c' Hc'. unfold k. by rewrite alter_ne. }
  set (s1 := s <| vpnode_memory ::= alter (vn_tick wait) v |> <| rqnode_memory ::= alter (rq_tick wait) r |>
               <| cpu_table := k |>) in *.
  assert (cpu_table s1 c = cpu_table s c <| flag := 1 |>) as Hk1 by (unfold s1, k; rsimpl; by rewrite alter_eq).
  assert (vpnode_memory s1 v = vpnode_memory s v <| vn_time_slice := 0 |> <| vn_need_resched := 1 |>) as Hv1.
  { unfold s1. rsimpl. by rewrite alter_eq, Hvt. }
  assert (rqnode_memory s1 r = rq_tick wait (rqnode_memory s r)) as Hr1 by (unfold s1; rsimpl; by rewrite alter_eq).
  assert (∀ y, g_vp g y = VRun r → vn_time_slice (vpnode_memory s1 y) = 0) as Hsl1.
  { intros y Hy. apply (ni_run _ _ _ (ci_node _ _ H r Hlr)) in Hy. assert (y = v) as -> by congruence. by rewrite Hv1. }
  assert (timer_resched (Datatypes.S fuel) c s =
    ((if rq_need_resched (rqnode_memory s1 r) =? 1 then
       bfs_scheduler (Datatypes.S fuel) c;; k ← read_cpu c; r ← deref (cpu_rqnode k); bmq_scheduler (Datatypes.S fuel) c r
     else bmq_scheduler (Datatypes.S fuel) c r);; upd_cpu c (λ k, k <| flag := 0 |>);; resched_report c) s1) as ->.
  { unfold timer_resched, read_cpu, read_rq, update_slices, try_reschedule, upd_vn, upd_rq, read_cpu, upd_cpu, read_rq, read_vn.
    repeat pstep. rewrite Hrn. repeat pstep. rewrite H1. repeat pstep. rewrite Hfl.
    change (0 =? 1) with false. cbv iota. repeat pstep. rewrite Hrn. repeat pstep.
    fold wait. rewrite Hr1, alter_eq. destruct (rq_need_resched (rq_tick wait (rqnode_memory s r)) =? 1); [done|].
    assert (run_vnode (rq_tick wait (rqnode_memory s r)) = Some v) as ->.
    { rewrite <-H1. apply (rq_core_fields _ _ (proj1 (Hnt _))). }
    repeat pstep. rewrite alter_eq, Hvt. rsimpl. done. }
  assert (∀ c', 0 ≤ c' < N → c' ≠ c → cpu_ok s1 g c') as Hok1 by (intros c' Hc' Hne; apply F1; [done|by apply Hok]).
  destruct (Z.eqb_spec (rq_need_resched (rqnode_memory s1 r)) 1) as [Hneed|Hneed].
  - destruct (bfs_scheduler_ok s1 g c r fuel C1 Hu) as (s2 & g2 & t & vmp2 & R2 & C2 & U2 & O2 & F2 & M2 & T2 & N2 & S2).
    { by rewrite Hk1. }
    { rewrite Hr1 in Hneed |- *. unfold rq_tick in *. destruct (rq_time_slice (rqnode_memory s r) <=? wait); [done|].
      change (rq_need_resched (rqnode_memory s r) = 1) in Hneed. congruence. }
    { done. }
    destruct (bmq_scheduler_ok s2 g2 c t vmp2 fuel C2) as (s3 & g3 & cp3 & vm3 & R3 & C3 & G3 & F3 & Run3 & T3);
      [by apply U2|done|done|done|by rewrite T2|].
    destruct (resched_finish N s3 g3 c t C3) as (s4 & R4 & I4 & K4).
    { intros x c'. rewrite G3. intros Hx. destruct (decide (c' = c)) as [->|Hne]; [done|].
      apply (HN x). by apply O2. }
    { intros x. rewrite G3. apply U2. }
    { by rewrite T3, T2, Hk1. }
    { by rewrite T3, T2. }
    { done. }
    { intros c' Hc' Hne. apply F3; [done|]. apply F2; [done|]. by apply Hok1. }
    exists s4, g3, t. split_and!; try done.
    rewrite bind_bind. rewrite (prog_bind_done _ _ _ _ _ R2). unfold read_cpu. repeat pstep.
    rewrite T2. rsimpl. repeat pstep. by rewrite (prog_bind_done _ _ _ _ _ R3).
  - assert (rq_need_resched (rqnode_memory s1 r) = 0) as Hn0.
    { rewrite Hr1 in Hneed |- *. unfold rq_tick in *. by destruct (rq_time_slice (rqnode_memory s r) <=? wait). }
    destruct (bmq_scheduler_ok s1 g c r vmp fuel C1 Hrc Hsl1 Hn0) as (s3 & g3 & cp3 & vm3 & R3 & C3 & G3 & F3 & Run3 & T3).
    { rewrite Hr1, <-H5. apply (rq_core_fields _ _ (proj1 (Hnt _))). }
    { rewrite Hk1. exact H6. }
    destruct (resched_finish N s3 g3 c r C3) as (s4 & R4 & I4 & K4).
    { intros x c'. rewrite G3. apply HN. }
    { intros x. rewrite G3. apply Hu. }
    { by rewrite T3, Hk1. }
    { by rewrite T3, Hk1. }
    { done. }
    { intros c' Hc' Hne. apply F3; [done|]. by apply Hok1. }
    exists s4, g3, r. split_and!; try done.
    by rewrite (prog_bind_done _ _ _ _ _ R3).
Qed.
