(* ===== verification/SchedEvents.v ===== *)
(** * Scheduling events

    What happens to the scheduler's invariant at each event: the timer tick, the first
    scheduling of a CPU, and the hypercall that starts another vcpu of the calling VM.  Then
    the theorems over all reachable states, and the two events the invariant does not cover:
    running out of node memory, and the sleep of the I/O hypercall. *)
From S2P Require Import Prelude Util Bits Bitmap Spinlock Cpu Vcpu Chain Sched RunQueue MultiQueue SchedSystem.
From Stdlib Require Import FunctionalExtensionality.

(** ** Node memory *)

Lemma free_slot_cases map size :
  0 ≤ size < 2 ^ 31 →
  (free_slot map size = -1 ∧ ∀ j, 0 ≤ j < size → bit_at map j = true) ∨
  (0 ≤ free_slot map size < size ∧ bit_at map (free_slot map size) = false).
Proof.
  intros Hs. unfold free_slot.
  destruct (bitmap_find_first map size 0 false) as [[-> Hn]|(Hr & Hb & _)]; [lia|lia|left|right].
  - split; [done|]. intros j Hj. by apply Hn.
  - rewrite s32_small by lia. done.
Qed.

#[local] Opaque bitmap_set free_slot.

Lemma malloc_vpnode_run s :
  lock_free (vpnode_memory_lock s) →
  let pos := free_slot (vpnode_mem_bitmap s) VNODE_NUM in
  malloc_vpnode s =
    Done (pos, s <| vpnode_mem_bitmap ::= λ m, bitmap_set m (u64 pos) |> <| vpnode_memory_lock ::= lock_cycle |>).
Proof.
  intros Hl pos. unfold malloc_vpnode, release. rewrite bind_acquire by done. rsimpl.
  repeat pstep. rewrite run_ret. sched_eq.
Qed.

(** Every object of a pool of [size] is in use. *)
Definition pool_full (map : bitmap_t) (size : Z) : Prop := ∀ j, 0 ≤ j < size → bit_at map j = true.

(** Exhausted node memory.  When all [VNODE_NUM] vcpu nodes are taken, [malloc_vpnode] still
    returns: the "node" it returns is number -1, outside the array, and it sets bit 31 of the
    word 2^59 - 1 of the bitmap, which has one word. *)
Theorem malloc_vpnode_full s :
  lock_free (vpnode_memory_lock s) → pool_full (vpnode_mem_bitmap s) VNODE_NUM →
  ∃ s', malloc_vpnode s = Done (-1, s') ∧
    vpnode_mem_bitmap s' (2 ^ 59 - 1) = Z.lor (vpnode_mem_bitmap s (2 ^ 59 - 1)) (2 ^ 31) ∧
    BITMAP_SIZE VNODE_NUM = 1.
Proof.
  intros Hl Hfull. pose proof (malloc_vpnode_run s Hl) as Hrun. cbv zeta in Hrun.
  destruct (free_slot_cases (vpnode_mem_bitmap s) VNODE_NUM) as [[Hp _]|[Hr Hb]]; [by vm_compute| |].
  - rewrite Hp in Hrun. eexists. split; [exact Hrun|]. split; [|done].
    rsimpl. with_strategy transparent [bitmap_set] unfold bitmap_set. change (u64 (-1)) with (2 ^ 64 - 1).
    change ((2 ^ 64 - 1) / BITMAP_GRANULE_LEN) with (2 ^ 59 - 1). rewrite upd_eq. done.
  - rewrite Hfull in Hb by done. done.
Qed.

Lemma malloc_vpnode_full_witness :
  ∃ s', malloc_vpnode (sample_sched <| vpnode_mem_bitmap := λ _, 2 ^ 32 - 1 |>) = Done (-1, s').
Proof.
  destruct (malloc_vpnode_full (sample_sched <| vpnode_mem_bitmap := λ _, 2 ^ 32 - 1 |>)) as (s' & He & _).
  - by split.
  - intros j Hj. unfold bit_at. rsimpl. change (2 ^ 32 - 1) with (Z.ones 32).
    unfold VNODE_NUM, MAX_VCPU_NUM, MAX_VM_NUM, MAX_VCPU_PER_VM in Hj.
    rewrite Z.testbit_ones_nonneg by dlia. zcase; dlia.
  - by exists s'.
Defined.

(** ** Starting a vcpu *)

(** Changes of the vcpu table and of the vcpu node bitmap that the invariant tolerates. *)
Lemma sys_alloc N s g vt bm lk :
  sys_inv N s g →
  (∀ cp, vcpu_vm (vt cp) = vcpu_vm (vcpu_table s cp) ∧ vmpidr (vt cp) = vmpidr (vcpu_table s cp)) →
  (∀ v, 0 ≤ v → bit_at (vpnode_mem_bitmap s) v = true → bit_at bm v = true) → lock_free lk →
  sys_inv N (s <| vcpu_table := vt |> <| vpnode_mem_bitmap := bm |> <| vpnode_memory_lock := lk |>) g.
Proof.
  intros ([Hrq Hvl Hh Hq Hrg Hs Hio Ht Hn Hv] & HN & Hok) Hvt Hbm Hlk.
  set (s' := s <| vcpu_table := vt |> <| vpnode_mem_bitmap := bm |> <| vpnode_memory_lock := lk |>).
  split; [|split; [done|]].
  - constructor; try done.
    + by apply (run_queue_ext s).
    + intros r Hr. eapply node_inv_frame; [by apply Hn|done..].
    + intros v Hp. destruct (Hv v Hp) as [V1 V2 V3 V4 V5 V6 V7].
      assert (∀ r, owner s v r → owner s' v r) as Ho.
      { intros r (cp & Hc & Hw). exists cp. split; [done|]. change (vcpu_table s' cp) with (vt cp).
        destruct (Hvt cp) as [-> _]. done. }
      constructor; try done.
      * apply Hbm; [lia|done].
      * intros r i Hi. destruct (V6 r i Hi) as (?&?&?). auto.
      * intros r Hi. destruct (V7 r Hi) as (?&?&?). auto.
  - intros c Hc. apply (cpu_ok_frame s g); try done; [|by apply Hok]. intros cp. apply Hvt.
Qed.

Definition fresh_vnode (vp : option Z) (sp : Z) : vCpuNode :=
  {| cur := vp; static_prio := sp; prio_adj := 0; prio := sp; vn_next := None;
     vn_state := TASK_READY; vn_time_slice := 0; vn_need_resched := 1 |}.

Lemma cpu_enqueue_self s g r v p vnm c :
  core_inv s g → live g r → g_vp g v = VFree → (∀ x, x ≠ v → vnm x = vpnode_memory s x) →
  cpu_ok s g c → cpu_ok (enqueue_state r p v (g_qs g r p) vnm id s) (enqueue_ghost r p v g) c.
Proof.
  intros H Hlr Hv Hvnm. apply cpu_ok_frame; [done|done| | |done|done|done].
  - intros x Hx. destruct (decide (x = r)) as [->|].
    + rewrite (enqueue_this_node s g r v p vnm id). done.
    + by rewrite (enqueue_other_node s g r v p vnm id).
  - intros x y Hx Hy.
    assert (g_vp g y = VRun x) as Hyx by (apply (ni_run _ _ _ (ci_node _ _ H x ltac:(right; eauto))); done).
    destruct (vn_data_fields (vpnode_memory (enqueue_state r p v (g_qs g r p) vnm id s) y) (vpnode_memory s y))
      as (-> & _ & _ & _ & ->); [|done].
    apply enqueue_other_data; [done|congruence].
Qed.

(** The state in which [sched_start_handler] queues the new node [pos]. *)
Definition start_state (s : sched) (me tgt pos arg1 : Z) : sched :=
  s <| vcpu_table ::= alter (λ u, vcpu_writepc (u <| regs := regs (vcpu_table s me) |>) arg1) tgt |>
    <| vpnode_mem_bitmap ::= λ m, bitmap_set m (u64 pos) |>
    <| vpnode_memory_lock ::= lock_cycle |>
    <| vpnode_memory ::= alter (λ _, fresh_vnode (Some tgt) bmq_default_prio) pos |>.

Lemma start_handler_run s c r vmp me arg0 arg1 :
  cpu_rqnode (cpu_table s c) = Some r → rq_vm (rqnode_memory s r) = Some vmp →
  cpu_vcpu (cpu_table s c) = Some me → lock_free (vpnode_memory_lock s) →
  let pos := free_slot (vpnode_mem_bitmap s) VNODE_NUM in
  sched_start_handler c arg0 arg1 s =
    v_task_insert pos r (start_state s me (vcpus (vm_table s vmp) + arg0) pos arg1).
Proof.
  intros Hrn Hvm Hme Hl pos.
  unfold sched_start_handler, initialize_vCpuNode, read_cpu, read_rq, upd_vn. repeat pstep.
  rewrite Hrn. repeat pstep. rewrite Hvm. repeat pstep. rewrite Hme. repeat pstep.
  erewrite prog_bind_done by (apply malloc_vpnode_run; rsimpl; exact Hl).
  repeat pstep. reflexivity.
Qed.

Lemma start_handler_ok N s g c r vmp arg0 arg1 :
  sys_inv N s g → 0 ≤ c < N → cpu_rqnode (cpu_table s c) = Some r → rq_vm (rqnode_memory s r) = Some vmp →
  vcpu_vm (vcpu_table s (vcpus (vm_table s vmp) + arg0)) = Some vmp →
  (∃ j, 0 ≤ j < VNODE_NUM ∧ bit_at (vpnode_mem_bitmap s) j = false) →
  ∃ s' v, sched_start_handler c arg0 arg1 s = Done (tt, s') ∧
    sys_inv N s' (enqueue_ghost r bmq_default_prio v g) ∧
    g_vp g v = VFree ∧ cpu_table s' = cpu_table s ∧
    cur (vpnode_memory s' v) = Some (vcpus (vm_table s vmp) + arg0) ∧
    vcpu_readpc (vcpu_table s' (vcpus (vm_table s vmp) + arg0)) = arg1.
Proof.
  intros Hsys Hc Hrn Hvm Htgt Hfree. pose proof Hsys as (H & HN & Hok).
  destruct (Hok c Hc) as (_ & _ & Hr). rewrite Hrn in Hr.
  destruct Hr as [Hu (v0 & me & vmp' & _ & _ & Hme & _)].
  assert (live g r) as Hlr by (right; exists c; by apply Hu).
  set (tgt := vcpus (vm_table s vmp) + arg0) in *.
  set (vt := alter (λ u, vcpu_writepc (u <| regs := regs (vcpu_table s me) |>) arg1) tgt (vcpu_table s)).
  set (pos := free_slot (vpnode_mem_bitmap s) VNODE_NUM).
  assert (0 ≤ pos < VNODE_NUM ∧ bit_at (vpnode_mem_bitmap s) pos = false) as [Hpos Hbit].
  { destruct (free_slot_cases (vpnode_mem_bitmap s) VNODE_NUM) as [[_ Hn]|?]; [by vm_compute| |done].
    destruct Hfree as (j & Hj & Hb). rewrite Hn in Hb by done. done. }
  assert (0 ≤ pos < 24) as Hpos' by done.
  assert (u64 pos = pos) as Hu64 by (rewrite wrap_small; lia).
  assert (∀ q, vcpu_vm (vt q) = vcpu_vm (vcpu_table s q) ∧ vmpidr (vt q) = vmpidr (vcpu_table s q)) as Hvt.
  { intros q. unfold vt, alter, fn_alter. case_decide; by subst. }
  set (bm := bitmap_set (vpnode_mem_bitmap s) pos).
  set (lk := lock_cycle (vpnode_memory_lock s)).
  pose proof (sys_alloc N s g vt bm lk Hsys Hvt) as Hsys1.
  set (vnm := alter (λ _, fresh_vnode (Some tgt) bmq_default_prio) pos (vpnode_memory s)).
  match type of Hsys1 with _ → _ → sys_inv _ ?st _ => remember st as s1 eqn:Hs1 end.
  assert (start_state s me tgt pos arg1 = s1 <| vpnode_memory := vnm |>) as Hst.
  { rewrite Hs1. unfold start_state, vt, bm, lk, vnm. rewrite Hu64. sched_eq. }
  assert (rqnode_memory s1 = rqnode_memory s) as Hsr by (rewrite Hs1; rsimpl; reflexivity).
  assert (vpnode_memory s1 = vpnode_memory s) as Hsv by (rewrite Hs1; rsimpl; reflexivity).
  assert (vpnode_mem_bitmap s1 = bm) as Hsb by (rewrite Hs1; rsimpl; reflexivity).
  assert (vcpu_table s1 = vt) as Hst1 by (rewrite Hs1; rsimpl; reflexivity).
  assert (cpu_table s1 = cpu_table s) as Hsc by (rewrite Hs1; rsimpl; reflexivity).
  clear Hs1.
  destruct Hsys1 as (H1 & HN1 & Hok1).
  { intros v Hv Hb. unfold bm. rewrite bit_at_set, Hb by lia. reflexivity. }
  { apply lock_cycle_free. }
  assert (g_vp g pos = VFree) as Hvf.
  { destruct (decide (g_vp g pos = VFree)) as [|Hne]; [done|].
    pose proof (vi_bit _ _ _ (ci_vnode _ _ H pos Hne)). congruence. }
  assert (∀ x, x ≠ pos → vnm x = vpnode_memory s1 x) as Hvo by (intros x Hx; unfold vnm; by rewrite Hsv, alter_ne).
  assert (vnm pos = fresh_vnode (Some tgt) bmq_default_prio) as Hvv by (unfold vnm; by rewrite alter_eq).
  set (s2 := s1 <| vpnode_memory := vnm |>).
  assert (ready_queues (rqnode_memory s2 r) (multi_queue_memory s2) (vpnode_memory s2) (r * PRIO_WIDTH) (g_qs g r)) as Hrq.
  { eapply ready_queues_frame; [apply (ni_ready _ _ _ (ci_node _ _ H1 r Hlr))|done|done|done|].
    intros y (i & Hi & Hy). change (vpnode_memory s2 y) with (vnm y). rewrite Hvo; [done|]. intros ->.
    pose proof (node_place_unique _ _ _ _ _ H1 Hlr Hi Hy). congruence. }
  assert (prio (vpnode_memory s2 pos) = bmq_default_prio) as Hpr.
  { change (vpnode_memory s2 pos) with (vnm pos). by rewrite Hvv. }
  pose proof (v_task_insert_run s2 r pos _ _ Hrq) as Hins. rewrite Hpr in Hins. specialize (Hins ltac:(done)).
  assert (is_prio bmq_default_prio) as Hp5 by done.
  set (s3 := enqueue_state r bmq_default_prio pos (g_qs g r bmq_default_prio) vnm id s1).
  assert (s3 = s2 <| rqnode_memory ::= enqueue_rq r bmq_default_prio |>
      <| multi_queue_memory ::= enqueue_mq (r * PRIO_WIDTH + bmq_default_prio) pos |>
      <| vpnode_memory ::= enqueue_vn pos (g_qs g r bmq_default_prio) |>) as Hs3.
  { unfold s3, enqueue_state.
    assert (∀ m : Z → runQueueNode, alter id r m = m) as Hid.
    { intros m. apply functional_extensionality. intros x. unfold alter, fn_alter. by case_decide; subst. }
    trans (s1 <| vpnode_memory := vnm |> <| rqnode_memory := alter id r (enqueue_rq r bmq_default_prio (rqnode_memory s1)) |>
      <| multi_queue_memory ::= enqueue_mq (r * PRIO_WIDTH + bmq_default_prio) pos |>
      <| vpnode_memory ::= enqueue_vn pos (g_qs g r bmq_default_prio) |>); [sched_eq|].
    rewrite Hid. sched_eq. }
  exists s3, pos. split; [|split; [|split; [exact Hvf|split; [|split]]]].
  - rewrite (start_handler_run s c r vmp me arg0 arg1) by (done || apply H). fold pos tgt.
    rewrite Hst. fold s2. rewrite Hins, Hs3. reflexivity.
  - split; [|split; [done|]].
    + apply (core_enqueue s1 g r pos bmq_default_prio vnm id H1 Hlr Hp5 (or_intror (conj Hvf eq_refl)) Hvo);
        [exact Hpos| |by rewrite Hvv|by rewrite Hvv|by rewrite Hvv|rewrite Hvv].
      * rewrite Hsb. unfold bm. rewrite bit_at_set, Z.eqb_refl, orb_true_r by lia. reflexivity.
      * exists tgt. split; [done|]. rewrite Hst1, Hsr. destruct (Hvt tgt) as [-> _]. congruence.
    + intros c' Hc'. apply (cpu_enqueue_self s1 g r pos bmq_default_prio vnm c' H1 Hlr Hvf Hvo). by apply Hok1.
  - rewrite Hs3. unfold s2. rsimpl. exact Hsc.
  - rewrite Hs3. unfold s2. rsimpl.
    destruct (vn_data_fields _ _ (enqueue_vn_data pos (g_qs g r bmq_default_prio) vnm pos)) as (-> & _). by rewrite Hvv.
  - rewrite Hs3. unfold s2. rsimpl. rewrite Hst1. unfold vt. by rewrite alter_eq.
Qed.

(** ** The first scheduling of a CPU *)

Lemma boot_ok N s g c fuel :
  sys_inv N s g → 0 ≤ c < N → cpu_rqnode (cpu_table s c) = None → g_q g ≠ [] →
  ∃ s' g' t, try_reschedule (Datatypes.S fuel) c s = Done (tt, s') ∧ sys_inv N s' g' ∧
    cpu_rqnode (cpu_table s' c) = Some t.
Proof.
  intros (H & HN & Hok) Hc Hrn Hq. pose proof (Hok c Hc) as (Hid & Hfl & Hr). rewrite Hrn in Hr.
  set (k := alter (λ k, k <| flag := 1 |>) c (cpu_table s)).
  pose proof (core_cpu_table s g k (bfs_clock s) H) as C1.
  remember (s <| cpu_table := k |> <| bfs_clock := bfs_clock s |>) as s1 eqn:Hs1.
  assert (s <| cpu_table ::= alter (λ k, k <| flag := 1 |>) c |> = s1) as Hst by (rewrite Hs1; unfold k; sched_eq).
  assert (cpu_table s1 c = cpu_table s c <| flag := 1 |>) as Hk1 by (rewrite Hs1; rsimpl; unfold k; by rewrite alter_eq).
  assert (∀ c', c' ≠ c → cpu_ok s g c' → cpu_ok s1 g c') as F1.
  { intros c' Hc'. rewrite Hs1. apply cpu_ok_frame; rsimpl; try done. unfold k. by rewrite alter_ne. }
  clear Hs1.
  destruct (bfs_pick_ok s1 g c fuel C1 Hq Hr) as (s2 & t & q & vmp & R2 & Ht & C2 & F2 & M2 & T2 & N2 & S2).
  assert (∀ x, g_rp (pick_ghost t q c g) x = if decide (t = x) then RCpu c else g_rp g x) as Hrp.
  { intros x. unfold pick_ghost. rsimpl. by rewrite upd_case. }
  destruct (bmq_scheduler_ok s2 (pick_ghost t q c g) c t vmp fuel C2) as (s3 & g3 & cp3 & vm3 & R3 & C3 & G3 & F3 & Run3 & T3).
  { by rewrite Hrp, decide_True. }
  { intros v Hv. by apply S2. }
  { done. }
  { done. }
  { rewrite T2. done. }
  destruct (resched_finish N s3 g3 c t C3) as (s4 & R4 & I4 & K4).
  { intros x c'. rewrite G3, Hrp. case_decide; [intros [= <-]; done|]. apply HN. }
  { intros x. rewrite G3, Hrp. case_decide; [by subst|]. split; [|congruence]. intros Hx. by destruct (Hr x). }
  { rewrite T3, T2, Hk1. exact Hid. }
  { rewrite T3, T2. done. }
  { exact Run3. }
  { intros c' Hc' Hne. apply F3; [done|]. apply F2; [done|]. apply F1; [done|]. by apply Hok. }
  exists s4, g3, t. split_and!; [|exact I4|exact K4].
  unfold try_reschedule, read_cpu, upd_cpu. repeat pstep. rewrite Hfl. change (0 =? 1) with false. cbv iota.
  repeat pstep. rewrite Hrn. rewrite Hst. repeat pstep. unfold bfs_scheduler, bfs_requeue, read_cpu. repeat pstep.
  rewrite Hk1. rsimpl. rewrite Hrn. repeat pstep. rewrite (prog_bind_done _ _ _ _ _ R2). repeat pstep.
  rewrite T2. rsimpl. repeat pstep. rewrite (prog_bind_done _ _ _ _ _ R3). exact R4.
Qed.

Lemma update_clock_ok N s g c :
  sys_inv N s g → 0 ≤ c < N →
  ∃ s', update_clock c s = Done (tt, s') ∧ sys_inv N s' g ∧ cpu_table s' = cpu_table s.
Proof.
  intros (H & HN & Hok) Hc. pose proof (Hok c Hc) as (Hid & _ & _).
  unfold update_clock, read_cpu. repeat pstep. rewrite Hid.
  destruct (Z.eqb_spec c 0) as [->|Hne]; [|by exists s].
  repeat pstep. rewrite (ci_io _ _ H). change (0 <? 0) with false. cbv iota. repeat pstep.
  eexists. split; [reflexivity|]. split; [|by rsimpl]. split; [|split; [done|]].
  - pose proof (core_cpu_table s g (cpu_table s) (bfs_clock s +64 TIMER_WAIT s) H) as C1.
    match type of C1 with core_inv ?st _ => match goal with |- core_inv ?st' _ => replace st' with st by sched_eq end end.
    exact C1.
  - intros c' Hc'. apply (cpu_ok_frame s g); rsimpl; try done. by apply Hok.
Qed.

(** ** All events *)

Inductive event :=
| EvClock (c : Z)                  (* [update_task_times] before the barrier *)
| EvTimer (c : Z)                  (* [update_task_times] after it, then [try_reschedule] *)
| EvBoot (c : Z)                   (* the first [try_reschedule] of a CPU *)
| EvStart (c arg0 arg1 : Z).       (* the guest on [c] starts vcpu [arg0] at [arg1] *)

Definition run_event (e : event) : prog sched unit :=
  match e with
  | EvClock c => update_clock c
  | EvTimer c => timer_resched 1 c
  | EvBoot c => try_reschedule 1 c
  | EvStart c arg0 arg1 => sched_start_handler c arg0 arg1
  end.

(** When the event can happen: a CPU boots while a VM waits, is interrupted while it runs one,
    and its guest starts a vcpu of its own VM while a vcpu node is free. *)
Definition enabled (N : Z) (s : sched) (e : event) : Prop :=
  match e with
  | EvClock c => 0 ≤ c < N
  | EvTimer c => 0 ≤ c < N ∧ cpu_rqnode (cpu_table s c) ≠ None
  | EvBoot c => 0 ≤ c < N ∧ cpu_rqnode (cpu_table s c) = None ∧
      ∃ h, rq_ptr s = Some h ∧ rq_next (rqnode_memory s h) ≠ None
  | EvStart c arg0 _ => 0 ≤ c < N ∧ ∃ r vmp, cpu_rqnode (cpu_table s c) = Some r ∧
      rq_vm (rqnode_memory s r) = Some vmp ∧
      vcpu_vm (vcpu_table s (vcpus (vm_table s vmp) + arg0)) = Some vmp ∧
      ∃ j, 0 ≤ j < VNODE_NUM ∧ bit_at (vpnode_mem_bitmap s) j = false
  end.

Definition sched_step (N : Z) (s s' : sched) : Prop :=
  ∃ e, enabled N s e ∧ run_event e s = Done (tt, s').

Lemma event_ok N s g e :
  sys_inv N s g → enabled N s e → ∃ s' g', run_event e s = Done (tt, s') ∧ sys_inv N s' g'.
Proof.
  intros H He. destruct e as [c|c|c|c arg0 arg1]; cbn [run_event enabled] in *.
  - destruct (update_clock_ok N s g c H He) as (s' & ? & ? & _). by exists s', g.
  - destruct He as [Hc Hr]. destruct (cpu_rqnode (cpu_table s c)) as [r|] eqn:Hrn; [|done].
    destruct (timer_resched_ok N s g c r 0 H Hc Hrn) as (s' & g' & t & ? & ? & _). by exists s', g'.
  - destruct He as (Hc & Hrn & h & Hh & Hnx).
    destruct (boot_ok N s g c 0 H Hc Hrn) as (s' & g' & t & ? & ? & _); [|by exists s', g'].
    destruct H as (H & _). pose proof (rqq_ptr _ _ _ (ci_rq _ _ H)) as Hp.
    assert (h = g_h g) as -> by congruence.
    pose proof (dll_next _ _ _ (rqq_dll _ _ _ (ci_rq _ _ H)) 0%nat (g_h g) eq_refl) as Hn.
    intros Hq. rewrite Hq in Hn. done.
  - destruct He as (Hc & r & vmp & Hrn & Hvm & Htgt & Hfree).
    destruct (start_handler_ok N s g c r vmp arg0 arg1 H Hc Hrn Hvm Htgt Hfree) as (s' & v & ? & ? & _).
    by exists s', (enqueue_ghost r bmq_default_prio v g).
Qed.

Lemma reachable_inv N s g s' : sys_inv N s g → rtc (sched_step N) s s' → ∃ g', sys_inv N s' g'.
Proof.
  intros H Hr. revert g H. induction Hr as [s|s1 s2 s3 (e & He & Hrun) _ IH]; intros g H; [eauto|].
  destruct (event_ok N s1 g e H He) as (s' & g' & Hrun' & H'). rewrite Hrun in Hrun'. injection Hrun' as <-. eauto.
Qed.

(** ** A system of one CPU and two VMs

    Run queue node 0 is the head; node 1 (VM 1) runs its vcpu node 0 on CPU 0 and is at the end
    of its time slice; node 2 (VM 2) waits with its vcpu node 1 ready at priority 5. *)
Definition demo_sched : sched :=
  let vn cp slice := {| cur := Some cp; static_prio := 5; prio_adj := 0; prio := 5; vn_next := None;
                        vn_state := 0; vn_time_slice := slice; vn_need_resched := 0 |} in
  let rq vmp slice := {| rq_vm := Some vmp; nr_vcpu_ready := 1; rq_prio := 5; vdeadline_diff := 6187;
     vdeadline := 6187; rq_prev := None; rq_next := None; bitmap := 0; multi_queue := Some (vmp * 10);
     run_vnode := None; rq_state := 0; rq_time_slice := slice; rq_need_resched := 0; vq_ptr := None |} in
  let v1 := sample_vm <| vm_id := 1 |> <| vcpus := 8 |> <| as_root := 0x60000000 |> in
  let v2 := sample_vm <| vm_id := 2 |> <| vcpus := 12 |> <| as_root := 0x61000000 |> in
  let vms := <[1 := v1]> (<[2 := v2]> (λ _, sample_vm)) in
  {| rqnode_memory :=
       <[0 := rq 0 0 <| rq_vm := None |> <| rq_next := Some 2 |> <| nr_vcpu_ready := 0 |>]>
       (<[1 := rq 1 1000 <| run_vnode := Some 0 |>]>
       (<[2 := rq 2 0 <| rq_prev := Some 0 |> <| bitmap := 32 |> <| nr_vcpu_ready := 2 |>]> (λ _, rq 0 0)));
     multi_queue_memory := <[25 := Some 1]> (λ _, None);
     vpnode_memory := <[0 := vn 8 1000]> (<[1 := vn 12 0]> (λ _, vn 0 0));
     rqnode_mem_bitmap := <[0 := 7]> (λ _, 0); vpnode_mem_bitmap := <[0 := 3]> (λ _, 0);
     rqnode_memory_lock := SPINLOCK_INITVAL; vpnode_memory_lock := SPINLOCK_INITVAL;
     rq_spin_lock := SPINLOCK_INITVAL; rq_ptr := Some 0; prio_ratios := λ _, 128;
     bfs_rr_interval := 4000; bmq_rr_interval := 1000; bfs_clock := 0; io_sleep_flag := 0;
     sleep_vnode := None; with_sleep_vnode_rqnode := None; TIMER_WAIT := 1000;
     cpu_glb_sync := {| ready := true; n := 1; count := 0 |};
     vm_table := vms;
     vcpu_table := λ p, sample_vcpu <| vcpu_vm := Some (if p <? 12 then 1 else 2) |>
                                    <| vmpidr := 0x80000000 |>;
     cpu_table := λ c, {| cpu_id := c; handling_msgs := false; cpu_vcpu := Some 8; cpu_mpidr := 0;
                          cpu_rqnode := Some 1; flag := 0; sr_vttbr := vttbr_of v1;
                          sr_vmpidr := 0x80000000 |} |}.

Definition demo_ghost : ghost :=
  {| g_h := 0; g_q := [2];
     g_qs := λ r, if decide (r = 2) then <[5 := [1]]> (λ _, []) else λ _, [];
     g_vp := <[0 := VRun 1]> (<[1 := VReady 2 5]> (λ _, VFree));
     g_rp := <[0 := RHead]> (<[1 := RCpu 0]> (<[2 := RQueue]> (λ _, RFree)));
     g_base := λ _, 1 |}.

Lemma demo_rp r c : g_rp demo_ghost r = RCpu c ↔ r = 1 ∧ c = 0.
Proof.
  simpl. rewrite !upd_case. repeat case_decide; subst; split; try done; try (intros [= <-]; done); intros [? ?]; subst; done.
Qed.

Lemma demo_live r : live demo_ghost r ↔ r = 1 ∨ r = 2.
Proof.
  unfold live. simpl. rewrite !upd_case. repeat case_decide; subst; split; try done; try lia;
    try (intros [?|[? ?]]; done); [intros _; right; eauto|intros _; by left].
Qed.

Lemma demo_vp v r i : g_vp demo_ghost v = VReady r i ↔ v = 1 ∧ r = 2 ∧ i = 5.
Proof.
  simpl. rewrite !upd_case. repeat case_decide; subst; split; try done; try (intros [= <- <-]; done);
    intros (? & ? & ?); by subst.
Qed.

Lemma demo_vr v r : g_vp demo_ghost v = VRun r ↔ v = 0 ∧ r = 1.
Proof.
  simpl. rewrite !upd_case. repeat case_decide; subst; split; try done; try (intros [= <-]; done); intros (? & ?); by subst.
Qed.

Lemma demo_node r : live demo_ghost r → node_inv demo_sched demo_ghost r.
Proof.
  intros Hr%demo_live.
  assert (∀ i, g_qs demo_ghost r i = if decide (r = 2 ∧ i = 5) then [1] else []) as Hqs.
  { intros i. simpl. destruct Hr as [-> | ->]; [done|]. rewrite decide_True by done. rewrite upd_case.
    destruct (decide (5 = i)); [by rewrite decide_True|by rewrite decide_False by lia]. }
  constructor.
  - constructor.
    + by destruct Hr as [-> | ->].
    + intros i Hi. rewrite Hqs. unfold is_prio, PRIO_WIDTH in *. simpl. rewrite upd_case.
      destruct Hr as [-> | ->], (decide (i = 5)) as [->|Hne]; simpl; rewrite ?decide_False by lia; done.
    + intros i Hi. rewrite Hqs. destruct (decide (r = 2 ∧ i = 5)); [apply NoDup_singleton|apply NoDup_nil_2].
    + intros i j v Hi Hj. rewrite !Hqs. destruct (decide (r = 2 ∧ i = 5)), (decide (r = 2 ∧ j = 5)); try set_solver.
    + intros i Hi. rewrite Hqs. destruct Hr as [-> | ->].
      * change (Z.testbit 0 i = bool_decide (i < PRIO_WIDTH ∧ (if decide (1 = 2 ∧ i = 5) then [1] else []) ≠ [])).
        rewrite decide_False, Z.testbit_0_l by lia. symmetry. apply bool_decide_eq_false. naive_solver.
      * change (Z.testbit (2 ^ 5) i = bool_decide (i < PRIO_WIDTH ∧ (if decide (2 = 2 ∧ i = 5) then [1] else []) ≠ [])).
        destruct (decide (i = 5)) as [->|Hne]; [done|]. rewrite Z.pow2_bits_false by done.
        rewrite decide_False by lia. symmetry. apply bool_decide_eq_false. naive_solver.
    + by destruct Hr as [-> | ->].
    + intros i v Hi. rewrite Hqs. destruct (decide (r = 2 ∧ i = 5)); [intros ->%list_elem_of_singleton; done|set_solver].
  - intros i v Hi. rewrite Hqs, demo_vp. destruct (decide (r = 2 ∧ i = 5)) as [Hd|Hd].
    + rewrite list_elem_of_singleton. naive_solver.
    + split; [set_solver|naive_solver].
  - intros v. rewrite demo_vr. destruct Hr as [-> | ->]; simpl.
    + change (Some 0 = Some v ↔ v = 0 ∧ 1 = 1). naive_solver.
    + change (None = Some v ↔ v = 0 ∧ 2 = 1). naive_solver.
  - done.
  - by destruct Hr as [-> | ->].
  - by destruct Hr as [-> | ->].
  - destruct Hr as [-> | ->]; [by left|right]. exists 1, 5. split; [done|]. rewrite Hqs. set_solver.
Qed.

Lemma demo_vnode v : g_vp demo_ghost v ≠ VFree → vnode_inv demo_sched demo_ghost v.
Proof.
  intros Hv. assert (v = 0 ∨ v = 1) as Hc.
  { simpl in Hv. rewrite !upd_case in Hv. repeat case_decide; subst; auto. done. }
  assert (live demo_ghost 1 ∧ live demo_ghost 2) as [L1 L2] by (rewrite !demo_live; auto).
  destruct Hc as [-> | ->]; constructor; try done.
  - intros r [_ ->]%demo_vr. split_and!; [done| |done]. by exists 8.
  - intros r i (_ & -> & ->)%demo_vp. split_and!; [done|done|]. by exists 12.
Qed.

Lemma demo_inv : sys_inv 1 demo_sched demo_ghost.
Proof.
  split; [|split].
  - constructor; try done.
    + constructor; [done| |by split|by repeat constructor|].
      * constructor.
        -- by repeat constructor; set_solver.
        -- intros [|[|i]] r Hi; simplify_eq/=; done.
        -- intros [|i] r Hi; simplify_eq/=; done.
      * intros r Hr. assert (r = 2) as -> by set_solver. done.
    + intros r. simpl. rewrite list_elem_of_singleton, !upd_case. repeat case_decide; subst; done.
    + intros r [-> | ->]%demo_live; done.
    + apply demo_node.
    + apply demo_vnode.
  - intros r c [_ ->]%demo_rp. lia.
  - intros c Hc. assert (c = 0) as -> by lia. split_and!; [done|done|]. simpl.
    split; [intros r; trans (r = 1 ∧ 0 = 0); [apply (demo_rp r 0)|naive_solver]|]. by exists 0, 8, 1.
Qed.

(** ** The theorems *)







(** ** The I/O sleep

    One timer interrupt of the single CPU, barrier included. *)
Definition timer_irq (c : Z) : prog sched unit := update_task_times c;; try_reschedule 1 c.

Definition sleep_scenario : prog sched unit :=
  sched_io_handler 0;; timer_irq 0;; timer_irq 0;; timer_irq 0;; timer_irq 0;; timer_irq 0.

Definition observed (s : sched) : option Z * option Z * option Z * option Z :=
  (cpu_rqnode (cpu_table s 0), run_vnode (rqnode_memory s 1), multi_queue_memory s 15, sleep_vnode s).

Lemma observe_run {A} (m : prog sched A) (s : sched) x :
  match m s with Done (_, s') => Some (observed s') | Halt _ => None end = Some x →
  ∃ a s', m s = Done (a, s') ∧ observed s' = x.
Proof. destruct (m s) as [[a s']|f]; intros [= <-]; eauto. Qed.

(** The sleep of the I/O hypercall can duplicate a vcpu.  When the vcpu of VM 1 sleeps at the end
    of its VM's time slice, five timer interrupts later the wake-up has queued it although it is
    still the VM's [run_vnode], and [bmq_scheduler] has queued it a second time: the vcpu node is
    at once running on CPU 0 and ready in a queue of the same VM. *)
Theorem sched_io_duplicates_vcpu :
  ∃ s', sleep_scenario demo_sched = Done (tt, s') ∧
    cpu_rqnode (cpu_table s' 0) = Some 1 ∧ run_vnode (rqnode_memory s' 1) = Some 0 ∧
    multi_queue_memory s' 15 = Some 0 ∧ sleep_vnode s' = None.
Proof.
  destruct (observe_run sleep_scenario demo_sched (Some 1, Some 0, Some 0, None)) as ([] & s' & He & Ho);
    [by vm_compute|].
  exists s'. split; [exact He|]. clear He. unfold observed in Ho. injection Ho as -> -> -> ->.
  split_and!; reflexivity.
Qed.
