(* ===== verification/Machine.v ===== *)
(** * The machine: the components together, as one physical CPU sees them

    Each component is verified over a state of its own.  Here is the state they share, every object
    once: [sch] holds the tables of CPUs, VMs and vcpus, [mgic] the interrupt controller, [vgics] the
    virtual controller of each VM, [spaces] its address space.  A component runs on a view, which
    reads the shared objects into the component's state and writes them back afterwards.
    [cpu()] is the CPU [this_cpu] of the controller; [cpu()->vcpu] and [CURRENT_VM] are read from the
    scheduler's table, and following them when they are NULL is a fault.

    The second part is src/arch/aarch64/arch_mem.c and src/core/inc/config.h. *)
From S2P Require Import Prelude Util Bits Bitmap Spinlock MemString ListHead Emul PagePool PageTable.
From S2P Require Import Mmu Cpu Ipi Vcpu Gic Vgic VgicEmul Sched RunQueue MmuMap.

(** ** Configuration: config.h, and the statics of timer.c and lcm.c *)

Record vm_dev_region := { dev_id : Z; dev_pa : Z; dev_va : Z; dev_size : Z; dev_interrupts : list Z }.

Record rq_config_vm := { rqc_vbase : Z; rqc_size : Z }.

Record vm_config := {
  base_addr : Z;
  load_addr : Z;
  image_size : Z;
  entry : Z;
  dmem_size : Z;
  cfg_nr_cpus : Z;
  devs : list vm_dev_region;
  cfg_rq_vm : rq_config_vm;
  arch_gic : vgic_dscrp
}.

Record dtb_config := { dtb_base_addr : Z; dtb_load_addr : Z; dtb_size : Z }.

Record config := { cfg_cpus : Z; nr_vms : Z; config_vm : Z → vm_config; dtb : dtb_config }.

(** The timer's registers and the static variables of timer.c. *)
Record timer := { cnthp_ctl : Z; cnthp_cval : Z; cntpct : Z; cntfrq_el0 : Z; cntfrq : Z; cnt : Z }.
#[export] Instance eta_timer : Eta timer := λ t,
  Build_timer (cnthp_ctl t) (cnthp_cval t) (cntpct t) (cntfrq_el0 t) (cntfrq t) (cnt t).

(** [struct snapshot_pool] and the header of [struct snapshot].  The copy of [struct vcpu] includes
    what the virtual controller keeps in it: the private interrupts, the last interrupt of each
    list register and the head of the spilled list. *)
Record snapshot_pool := { sp_base : Z; sp_size : Z; sp_last : Z }.
#[export] Instance eta_snapshot_pool : Eta snapshot_pool := λ p, Build_snapshot_pool (sp_base p) (sp_size p) (sp_last p).

Record vcpu_copy := { c_vcpu : vcpu; c_priv : Z → vgic_int; c_links : Z → list_head; c_curr_lrs : Z → Z; c_spilled : list_head }.

Record snapshot := { ss_id : Z; ss_size : Z; ss_vm_id : Z; ss_vcpu : vcpu_copy }.

Record lcm := {
  latest_ss : option Z;
  latest_ss_id : Z;
  current_restore_cnt : Z;
  ckpt_init : bool;
  restore_first : bool;
  pools : Z → snapshot_pool;
  snapshots : Z → snapshot
}.
#[export] Instance eta_lcm : Eta lcm := λ l,
  Build_lcm (latest_ss l) (latest_ss_id l) (current_restore_cnt l) (ckpt_init l) (restore_first l) (pools l) (snapshots l).

Section machine.
Context `{GicDevice}.

(** ** State

    [ram] is the memory guests and images are in, byte by byte; the page tables and the allocator
    are in [mm].  [links] holds the nodes of [vm_list] and of the list of snapshot pools: a VM's node
    is named by the VM's number. *)
Record machine := {
  mgic : gic;
  vgics : Z → vgic;
  mipi : ipi unit;
  sch : sched;
  tmr : timer;
  mm : mmu;
  spaces : Z → addr_space;
  ram : bytes;
  links : ListHead.mem;
  vm_list_lock : spinlock_t;
  life : lcm;
  sr_hcr : Z;
  sr_vtcr : Z;
  min_parange : Z;
  tcr_lock : spinlock_t;
  parange : Z
}.
#[export] Instance eta_machine : Eta machine := λ m,
  Build_machine (mgic m) (vgics m) (mipi m) (sch m) (tmr m) (mm m) (spaces m) (ram m) (links m) (vm_list_lock m) (life m)
    (sr_hcr m) (sr_vtcr m) (min_parange m) (tcr_lock m) (parange m).

Definition me (m : machine) : Z := this_cpu (mgic m).
Definition my (m : machine) : cpu := cpu_table (sch m) (me m).
Definition vm_at (p : Z) (m : machine) : vm := vm_table (sch m) p.
Definition vcpu_at (v : Z) (m : machine) : vcpu := vcpu_table (sch m) v.

(** [cpu()->vcpu] and [cpu()->vcpu->vm], where they are used. *)
Definition current_vcpu : prog machine Z := v ← gets (λ m, cpu_vcpu (my m)); deref v.
Definition CURRENT_VM : prog machine Z :=
  v ← current_vcpu; p ← gets (λ m, vcpu_vm (vcpu_at v m)); deref p.

Definition upd_vm (p : Z) (f : vm → vm) : prog machine unit := modify (λ m, m <| sch ::= λ d, d <| vm_table ::= alter f p |> |>).
Definition upd_vcpu (v : Z) (f : vcpu → vcpu) : prog machine unit :=
  modify (λ m, m <| sch ::= λ d, d <| vcpu_table ::= alter f v |> |>).

(** This CPU runs vcpu [v] of VM [p]. *)
Definition running (p v : Z) (m : machine) : Prop := cpu_vcpu (my m) = Some v ∧ vcpu_vm (vcpu_at v m) = Some p.

Lemma current_run {B} p v m (k : Z → prog machine B) : running p v m → (current_vcpu ≫= k) m = k v m.
Proof. intros [Hv _]. unfold current_vcpu. psteps. rewrite Hv. by psteps. Qed.

Lemma CURRENT_VM_run {B} p v m (k : Z → prog machine B) : running p v m → (CURRENT_VM ≫= k) m = k p m.
Proof. intros Hr. unfold CURRENT_VM. rewrite bind_bind, (current_run p v m _ Hr). psteps. destruct Hr as [_ ->]. by psteps. Qed.

(** ** Views *)

Definition on_cpu_gic {A} (k : prog gic A) : prog machine A := lift_prog mgic (λ g m, m <| mgic := g |>) k.
Definition on_sched {A} (k : prog sched A) : prog machine A := lift_prog sch (λ d m, m <| sch := d |>) k.

Definition ipi_view (m : machine) : ipi unit :=
  mipi m <| Ipi.cpus := cpu_table (sch m) |> <| Ipi.cpu_glb_sync := cpu_glb_sync (sch m) |>.
Definition put_ipi (i : ipi unit) (m : machine) : machine :=
  m <| mipi := i |> <| sch ::= λ d, d <| cpu_table := Ipi.cpus i |> <| cpu_glb_sync := Ipi.cpu_glb_sync i |> |>.

(** The virtual controller of VM [p], driven for its vcpu [v]. *)
Definition vgic_view (p v : Z) (m : machine) : vgic :=
  vgics m p <| cpu_gic := mgic m |> <| ipis := ipi_view m |> <| the_vm := vm_at p m |>
    <| vcpu_tbl := vcpu_table (sch m) |> <| cur_vcpu := v |>.
Definition put_vgic (p : Z) (s : vgic) (m : machine) : machine :=
  put_ipi (ipis s) (m <| vgics ::= <[p := s]> |> <| mgic := cpu_gic s |>
    <| sch ::= λ d, d <| vm_table ::= <[p := the_vm s]> |> <| vcpu_table := vcpu_tbl s |> |>).
Definition on_vgic_of {A} (p v : Z) (k : prog vgic A) : prog machine A := lift_prog (vgic_view p v) (put_vgic p) k.
Definition on_vgic {A} (k : prog vgic A) : prog machine A := v ← current_vcpu; p ← CURRENT_VM; on_vgic_of p v k.

(** The address space of VM [p]; [cur] is the one of the running VM. *)
Definition mmu_view (p : Z) (cur : option Z) (m : machine) : mmu :=
  mm m <| space := spaces m p |> <| vttbr := sr_vttbr (my m) |>
       <| cur_as := match cur with Some q => (as_type (spaces m q), asid (spaces m q)) | None => cur_as (mm m) end |>.
Definition put_mmu (p : Z) (s : mmu) (m : machine) : machine :=
  m <| mm := s |> <| spaces ::= <[p := space s]> |>
    <| sch ::= λ d, d <| vm_table ::= alter (λ w, w <| as_id := asid (space s) |> <| as_root := pt_root (space s) |>) p |>
                      <| cpu_table ::= alter (λ k, k <| sr_vttbr := vttbr s |>) (me m) |> |>.
Definition on_as {A} (p : Z) (cur : option Z) (k : prog mmu A) : prog machine A := lift_prog (mmu_view p cur) (put_mmu p) k.
Definition on_pages {A} (k : prog page_pool A) : prog machine A :=
  lift_prog (λ m, pool (mm m)) (λ p m, m <| mm ::= λ s, s <| pool := p |> |>) k.

(** ** Messages: the handler of the inter-processor interrupt runs over the whole machine *)

Definition with_client {C D} (c : D) (i : ipi C) : ipi D :=
  Build_ipi D (Ipi.lists i) (node_msg i) (msg_pool i) (event_list_lock i) (Ipi.cpus i) (Ipi.cpu_glb_sync i) (cpu_interfaces i)
    (ipi_cpumsg_handler_num i) (sent_ipis i) c.
Definition join (i : ipi machine) : machine := put_ipi (with_client tt i) (client i).
Definition split (m : machine) : ipi machine := with_client m (ipi_view m).

Variable lay : Z → layout.

(** The table of message handlers: the virtual controller's is the only one. *)
Definition ipi_cpumsg_handlers : @handler_table machine := λ n,
  if n =? VGIC_IPI_ID then
    Some (λ ev dat, lift_prog join (λ m _, split m) (p ← CURRENT_VM; on_vgic (vgic_ipi_handler (lay p) ev dat)))
  else None.

Definition run_cpu_msgs (fuel : nat) : prog machine unit :=
  c ← gets me; lift_prog split (λ i _, join i) (cpu_msg_handler ipi_cpumsg_handlers c fuel).

(** ** Address translation: [mem_translate] of arch_mem.c

    The AT instruction is the hardware's: [at_s12e1w] is what PAR_EL1 holds after it. *)
Variable at_s12e1w : machine → Z → Z.

Definition PAR_F : Z := 1.
Definition PAR_PA_OFF : Z := 12.
Definition PAR_PA_MSK : Z := Z.shiftl 0x3ffffff PAR_PA_OFF.

Definition mem_translate (va : Z) : prog machine Z :=
  par ← gets (λ m, at_s12e1w m va);
  if negb (Z.land par PAR_F =? 0) then halt FError
  else mret (Z.lor (Z.land par PAR_PA_MSK) (Z.land va (PAGE_SIZE - 1))).

End machine.

(** ** A machine for the examples

    CPU 0 runs vcpu 8 of VM 1; VM 2 has the vcpus from 12 on.  Both VMs have the layout, the
    controller and the address space of the examples of [Vgic] and [MmuMap] and no emulated
    device. *)
Definition sample_machine : @machine RegisterFile := {|
  mgic := sample_gic 4 0;
  vgics := λ _, sample_vgic <| Vgic.links ::= INIT_LIST_HEAD (emul_mem_list sample_layout) |>;
  mipi := sample_ipis;
  sch := sample_sched
    <| vm_table := λ p, sample_vm <| vm_id := p |> <| vcpus := 4 + 4 * p |> |>
    <| vcpu_table := λ v, sample_vcpu <| vcpu_id := v mod 4 |> <| vcpu_vm := Some (v / 4 - 1) |> |>
    <| cpu_table ::= alter (λ k, k <| cpu_vcpu := Some 8 |>) 0 |>;
  tmr := {| cnthp_ctl := 0; cnthp_cval := 0; cntpct := 5000; cntfrq_el0 := 62500000; cntfrq := 62500000; cnt := 0 |};
  mm := vm1;
  spaces := λ _, space vm1;
  ram := λ _, 0;
  links := list_add 2 (-1) (list_add 1 (-1) (INIT_LIST_HEAD (-1) (λ _, {| ListHead.next := 0; prev := 0 |})));
  vm_list_lock := SPINLOCK_INITVAL;
  life := {| latest_ss := None; latest_ss_id := 0; current_restore_cnt := 0; ckpt_init := false; restore_first := true;
             pools := λ _, {| sp_base := 0; sp_size := 0; sp_last := 0 |};
             snapshots := λ _, {| ss_id := 0; ss_size := 0; ss_vm_id := 0;
               ss_vcpu := {| c_vcpu := sample_vcpu; c_priv := sample_int; c_links := λ _, {| ListHead.next := 0; prev := 0 |};
                             c_curr_lrs := λ _, 0; c_spilled := {| ListHead.next := 0; prev := 0 |} |} |} |};
  sr_hcr := 0; sr_vtcr := 0; min_parange := 7; tcr_lock := SPINLOCK_INITVAL; parange := 0 |}.

Lemma sample_running : running 1 8 sample_machine.
Proof. split; reflexivity. Qed.

Definition sample_config : config :=
  let cfg := {| base_addr := 0x40100000; load_addr := 0x70000000; image_size := 0x2000; entry := 0x40100cd0; dmem_size := 0x4000;
                cfg_nr_cpus := 4; devs := []; cfg_rq_vm := {| rqc_vbase := 0x10000000; rqc_size := 0x4000 |};
                arch_gic := {| gicd_addr := 0x8000000; gicc_addr := 0x8010000; interrupt_num := 0 |} |} in
  {| cfg_cpus := 1; nr_vms := 2; config_vm := λ _, cfg;
     dtb := {| dtb_base_addr := 0x40000000; dtb_load_addr := 0x71000000; dtb_size := 0x1000 |} |}.
