(* ===== verification/Interrupts.v ===== *)
(** * Interrupts: src/core/interrupts.c, src/arch/aarch64/timer.c and [gic_handle] of
    src/arch/aarch64/gic.c

    Programs over [machine]: an acknowledged interrupt goes to the running VM when it is assigned to
    it, and to the registered handler when the hypervisor reserved it. *)
From S2P Require Import Prelude Util Bits Bitmap Spinlock Cpu Ipi Vcpu.
From S2P Require Import Gic Vgic VgicLr VgicInject VgicEmul Sched Machine.

Definition CNTV_CTL_ENABLE : Z := Z.shiftl 1 0.
Definition IRQ_TIMER : Z := 26.

Inductive irq_res := HANDLED_BY_HYP | FORWARD_TO_VM.

Section interrupts.
Context `{GicDevice}.
Variable lay : Z → layout.

(** The lengths that bound the loops of the maintenance handler and of [cpu_msg_handler]. *)
Variable len fuel : nat.

(** ** timer.c *)

Definition disable_cnthp : prog machine unit :=
  modify (λ s, s <| tmr ::= λ t, t <| cnthp_ctl ::= λ c, Z.land c (u32 (Z.lnot CNTV_CTL_ENABLE)) |> |>).
Definition enable_cnthp : prog machine unit :=
  modify (λ s, s <| tmr ::= λ t, t <| cnthp_ctl ::= λ c, Z.lor (u32 c) CNTV_CTL_ENABLE |> |>).
Definition set_el2_timer_sec (sec : Z) : prog machine unit := modify (λ m, m <| sch ::= λ d, d <| TIMER_WAIT := sec *64 1000 |> |>).
Definition set_el2_timer_microsec (ms : Z) : prog machine unit := modify (λ m, m <| sch ::= λ d, d <| TIMER_WAIT := ms |> |>).

Definition timer_handler : prog machine unit :=
  disable_cnthp;;
  s ← gets (λ s, s);
  let ticks := (TIMER_WAIT (sch s) *64 cntfrq (tmr s)) / 1000 in
  let current_cnt := cntpct (tmr s) in
  modify (λ s, s <| tmr ::= λ t, t <| cnthp_cval := current_cnt +64 ticks |> <| cnt ::= λ n, s32 (n + 1) |> |>);;
  enable_cnthp.

Definition timer_init : prog machine unit :=
  disable_cnthp;;
  set_el2_timer_sec 1;;
  modify (λ s, s <| tmr ::= λ t, t <| cntfrq := cntfrq_el0 t |> |>);;
  enable_cnthp.

(** ** interrupts.c *)

Definition timer_interrupt_handler : prog machine unit :=
  timer_handler;;
  c ← gets me;
  on_sched (update_task_times c).

(** [interrupt_handlers[int_id](int_id)]. *)
Definition run_handler (int_id : Z) : prog machine unit :=
  h ← on_cpu_gic (gets (λ g, interrupt_handlers g int_id));
  h ← deref h;
  match h with
  | gic_maintenance_handler_id => p ← CURRENT_VM; on_vgic (gic_maintenance_handler (lay p) len fuel)
  | timer_interrupt_handler_id => timer_interrupt_handler
  | cpu_msg_handler_id => run_cpu_msgs lay fuel
  end.

Definition interrupts_handle (int_id : Z) : prog machine irq_res :=
  p ← CURRENT_VM;
  w ← gets (vm_at p);
  if vm_has_interrupt w int_id then
    v ← current_vcpu;
    on_vgic (vcpu_arch_inject_hw_irq (lay p) v int_id);; mret FORWARD_TO_VM
  else
    reserved ← on_cpu_gic (interrupt_is_reserved int_id);
    if (reserved : bool) then run_handler int_id;; mret HANDLED_BY_HYP
    else halt FError.

(** The VM [p] is being initialised and none of its vcpus runs. *)
Definition interrupts_arch_vm_assign (p int_id : Z) : prog machine unit := on_vgic_of p 0 (vgic_set_hw (lay p) int_id).

Definition interrupts_vm_assign (p int_id : Z) : prog machine unit :=
  g ← on_cpu_gic (gets global_interrupt_bitmap);
  if interrupts_arch_conflict g int_id then halt FError
  else
    interrupts_arch_vm_assign p int_id;;
    upd_vm p (λ w, w <| interrupt_bitmap ::= λ b, bitmap_set b int_id |>);;
    on_cpu_gic (modify (λ g, g <| global_interrupt_bitmap ::= λ b, bitmap_set b int_id |>)).

Definition physicl_timer_init : prog machine unit :=
  timer_init;;
  on_cpu_gic (interrupts_reserve IRQ_TIMER timer_interrupt_handler_id);;
  on_cpu_gic (gic_set_prio IRQ_TIMER 0);;
  on_cpu_gic (gic_set_pend IRQ_TIMER false);;
  on_cpu_gic (gic_set_enable IRQ_TIMER true).

Definition interrupts_init (maintenance_id : Z) : prog machine unit :=
  on_cpu_gic (interrupts_arch_init maintenance_id);;
  c ← gets me;
  (if c =? CPU_MASTER then on_cpu_gic (interrupts_reserve IPI_CPU_MSG cpu_msg_handler_id) else mret tt);;
  physicl_timer_init;;
  on_cpu_gic (interrupts_cpu_enable IPI_CPU_MSG true).

(** ** gic.c *)

Definition gic_handle : prog machine unit :=
  ack ← on_cpu_gic gicc_iar;
  let int_id := bit_extract 32 ack GICC_IAR_ID_OFF GICC_IAR_ID_LEN in
  if int_id <? GIC_FIRST_SPECIAL_INTID then
    res ← interrupts_handle int_id;
    on_cpu_gic (gicc_eoir ack);;
    match res with HANDLED_BY_HYP => on_cpu_gic (gicc_dir ack) | FORWARD_TO_VM => mret tt end
  else mret tt.

End interrupts.

(** ** An acknowledged interrupt *)

Section handle.
Context {D : GicDevice} {L : GicLaws}.
Variable lay : Z → layout.
Variable len fuel : nat.
#[local] Set Default Proof Using "All".

(** GICC_IAR is read: the interrupt acknowledged, and the machine after the read. *)
Definition acked (m : machine) : Z := (read_reg GICC_IAR (dev (mgic m))).1.
Definition after_ack (m : machine) : machine := m <| mgic ::= λ g, g <| dev := (read_reg GICC_IAR (dev (mgic m))).2 |> |>.
Definition int_of (ack : Z) : Z := bit_extract 32 ack GICC_IAR_ID_OFF GICC_IAR_ID_LEN.

Definition eoi (ack : Z) (m : machine) : machine := m <| mgic ::= λ g, g <| dev ::= write_reg GICC_EOIR (u32 ack) |> |>.
Definition deactivated (ack : Z) (m : machine) : machine := m <| mgic ::= λ g, g <| dev ::= write_reg GICC_DIR (u32 ack) |> |>.

Lemma gicc_iar_run m : on_cpu_gic gicc_iar m = Done (acked m, after_ack m).
Proof.
  unfold on_cpu_gic, lift_prog, gicc_iar, rd, acked, after_ack. destruct (read_reg GICC_IAR (dev (mgic m))).
  reflexivity.
Qed.

(** The whole handler, given what the interrupt's own handling does. *)
Lemma gic_handle_with m m1 res :
  int_of (acked m) < GIC_FIRST_SPECIAL_INTID → interrupts_handle lay len fuel (int_of (acked m)) (after_ack m) = Done (res, m1) →
  gic_handle lay len fuel m =
    Done (tt, match res with HANDLED_BY_HYP => deactivated (acked m) (eoi (acked m) m1) | FORWARD_TO_VM => eoi (acked m) m1 end).
Proof.
  intros Hid E. unfold gic_handle. rewrite (prog_bind_done _ _ _ _ _ (gicc_iar_run m)). fold (int_of (acked m)).
  destruct (Z.ltb_spec (int_of (acked m)) GIC_FIRST_SPECIAL_INTID); [|lia].
  rewrite (prog_bind_done _ _ _ _ _ E). by destruct res.
Qed.

(** A special interrupt number means that there is nothing to handle. *)
Lemma gic_handle_spurious m :
  GIC_FIRST_SPECIAL_INTID ≤ int_of (acked m) → gic_handle lay len fuel m = Done (tt, after_ack m).
Proof.
  intros Hid. unfold gic_handle. rewrite (prog_bind_done _ _ _ _ _ (gicc_iar_run m)). fold (int_of (acked m)).
  by destruct (Z.ltb_spec (int_of (acked m)) GIC_FIRST_SPECIAL_INTID); [lia|].
Qed.

(** C24: an interrupt that is assigned to the VM this CPU runs is handed to the running vcpu: the handler
    acknowledges it, puts it in the vcpu's virtual interface, as [placed] describes, without losing
    another interrupt, and drops its priority; it does not deactivate the interrupt, which
    remains the guest's to do, so that it cannot fire again before. *)
Theorem gic_handle_forwards p v q m :
  let n := int_of (acked m) in let s := vgic_view p v (after_ack m) in
  running p v m → vm_has_interrupt (vm_at p m) n = true → GIC_MAX_SGIS ≤ n < GIC_FIRST_SPECIAL_INTID →
  inject_inv (lay p) v s → int_addr (lay p) s v n = Some q → int_ok (ints s q) → enabled (ints s q) = true → in_lr (ints s q) = false →
  ∃ s', placed (lay p) v q s s' ∧ owner (ints s' q) = Some v ∧
    gic_handle lay len fuel m = Done (tt, eoi (acked m) (put_vgic p s' (after_ack m))).
Proof.
  intros n s Hrun Hvm [Hlo Hhi] Hinv Ha Hi Hen Hout.
  destruct (inject_run (lay p) v n q s Hinv Ha Hlo Hi Hen Hout) as (s' & E & Hp & Ho & _). exists s'. split; [exact Hp|]. split; [exact Ho|].
  assert (running p v (after_ack m)) as Hrun' by exact Hrun.
  apply (gic_handle_with m _ FORWARD_TO_VM Hhi). unfold interrupts_handle. rewrite (CURRENT_VM_run p v _ _ Hrun').
  psteps. change (vm_at p (after_ack m)) with (vm_at p m). fold n. rewrite Hvm, (current_run p v _ _ Hrun').
  unfold on_vgic, vcpu_arch_inject_hw_irq. rewrite !bind_bind, (current_run p v _ _ Hrun'), bind_bind, (CURRENT_VM_run p v _ _ Hrun').
  unfold on_vgic_of, lift_prog, mbind, prog_bind. fold s. by rewrite E.
Qed.

End handle.

(** Interrupt 32 is acknowledged while VM 1, to which it is assigned, runs its vcpu 8. *)
Definition sample_irq : @machine RegisterFile := sample_machine
  <| mgic ::= λ g, g <| dev ::= λ d : @device RegisterFile, <[GICC_IAR := 32]> d |> |>
  <| sch ::= λ d, d <| vm_table ::= alter (λ w, w <| interrupt_bitmap := bitmap_set (λ _, 0) 32 |>) 1 |> |>.

Lemma sample_irq_inv : inject_inv sample_layout 8 (vgic_view 1 8 (after_ack sample_irq)).
Proof.
  set (s := vgic_view 1 8 (after_ack sample_irq)). split.
  - split; intros n q Hn Hq; change (int_addr sample_layout s 8 n) with (int_addr sample_layout sample_vgic 8 n) in Hq.
    + by apply (sample_ids 8) in Hq.
    + intros _. split; [reflexivity|]. vm_compute. split; [discriminate|reflexivity].
  - vm_compute. split; discriminate.
  - reflexivity.
  - split; [reflexivity|]. vm_compute. split; [discriminate|reflexivity].
  - intros k Hk Hst. exfalso. apply Hst. change (NUM_LRS (cpu_gic s)) with 4 in Hk.
    assert (k = 0 ∨ k = 1 ∨ k = 2 ∨ k = 3) as [-> |[-> |[-> | ->]]] by lia; reflexivity.
Qed.

Lemma gic_handle_forwards_witness :
  ∃ m', gic_handle (λ _, sample_layout) 4 4 sample_irq = Done (tt, m') ∧ in_lr (ints (vgics m' 1) 0x40000) = true ∧
    (read_reg GICC_EOIR (dev (mgic m'))).1 = 32 ∧ (read_reg GICC_DIR (dev (mgic m'))).1 = 0.
Proof.
  destruct (@gic_handle_forwards RegisterFile RegisterFile_laws (λ _, sample_layout) 4 4 1 8 0x40000 sample_irq) as (s' & _ & _ & E).
  - split; reflexivity.
  - reflexivity.
  - vm_compute. split; [discriminate|reflexivity].
  - exact sample_irq_inv.
  - reflexivity.
  - split; vm_compute; try split; try discriminate; done.
  - reflexivity.
  - reflexivity.
  - eexists. split; [exact E|].
    assert (match gic_handle (λ _, sample_layout) 4 4 sample_irq with
            | Done (_, m') => in_lr (ints (vgics m' 1) 0x40000) = true ∧
                (read_reg GICC_EOIR (dev (mgic m'))).1 = 32 ∧ (read_reg GICC_DIR (dev (mgic m'))).1 = 0
            | Halt _ => False end) as H by (vm_compute; repeat split).
    rewrite E in H. exact H.
Defined.
