(* ===== verification/Rq.v ===== *)
(** * Shared queues: src/core/rq.c, [get_vm_by_id] of src/core/vm.c

    Hypercalls that give a VM a queue in its address space and map the queue of another VM into the
    caller's. *)
From S2P Require Import Prelude Util Bits Bitmap Spinlock MemString ListHead Emul PagePool PageTable.
From S2P Require Import Mmu Cpu Ipi Vcpu Gic Vgic Sched MmuMap Machine.

(** The head of [vm_list]: VMs have numbers from 0 on. *)
Definition vm_list_head : Z := -1.

Section rq.
Context `{GicDevice}.
Variable at_s12e1w : machine → Z → Z.

(** [fuel] bounds the tables a search for addresses visits, and the VMs of the list. *)
Variable fuel : nat.

(** ** vm.c *)

Definition get_vm_by_id (vid : Z) : prog machine (option Z) := λ m,
  match list_find_entry (λ p, vm_id (vm_at p m) =? vid) (links m) vm_list_head fuel with
  | Done p => Done (p, m)
  | Halt e => Halt e
  end.

(** ** rq.c *)

Definition vm_rq_init (p : Z) (cfg : vm_config) : prog machine unit :=
  upd_vm p (λ w, w <| vm_rq ::= λ r, r <| vbase := rqc_vbase (cfg_rq_vm cfg) |> <| rq_size := rqc_size (cfg_rq_vm cfg) |> |>).

Definition writereg (v reg val : Z) : prog machine unit := upd_vcpu v (λ u, vcpu_writereg u reg val).

Definition rq_open_hanlder : prog machine unit :=
  p ← CURRENT_VM;
  v ← current_vcpu;
  w ← gets (vm_at p);
  va ← on_as p (Some p) (mem_alloc_map None (vbase (vm_rq w)) (NUM_PAGES (rq_size (vm_rq w))) PTE_VM_FLAGS fuel);
  if negb (va =? vbase (vm_rq w)) then halt FError
  else
    pa ← mem_translate at_s12e1w va;
    upd_vm p (λ w, w <| vm_rq ::= λ r, r <| pbase := pa |> |>);;
    writereg v 0 (vm_id w);;
    writereg v 1 (vbase (vm_rq w));;
    writereg v 2 (rq_size (vm_rq w));;
    q ← get_vm_by_id (vm_id w);
    match q with
    | None => halt FError
    | Some q =>
        rq ← gets (λ m, vm_rq (vm_at p m));
        upd_vm q (λ w, w <| vm_rq := rq |>)
    end.

Definition rq_close_hanlder : prog machine unit :=
  p ← CURRENT_VM;
  w ← gets (vm_at p);
  on_as p (Some p) (mem_unmap (vbase (vm_rq w)) (NUM_PAGES (rq_size (vm_rq w))) true fuel).

Definition rq_attach_hanlder (arg0 arg1 : Z) : prog machine unit :=
  rec_vm ← get_vm_by_id arg0;
  match rec_vm with
  | None => halt FError
  | Some r =>
      rq ← gets (λ m, vm_rq (vm_at r m));
      p ← CURRENT_VM;
      v ← current_vcpu;
      let pages := mem_ppages_get (pbase rq) (NUM_PAGES (rq_size rq)) in
      _ ← on_as p (Some p) (mem_map arg1 (Some pages) (NUM_PAGES (rq_size rq)) PTE_VM_FLAGS);
      pa ← mem_translate at_s12e1w arg1;
      rq ← gets (λ m, vm_rq (vm_at r m));
      if negb (pa =? pbase rq) then halt FError
      else
        writereg v 0 arg1;;
        writereg v 1 (rq_size rq)
  end.

Definition rq_detach_hanlder (arg0 arg1 : Z) : prog machine unit :=
  p ← CURRENT_VM;
  on_as p (Some p) (mem_unmap arg0 (NUM_PAGES arg1) false fuel).

(** ** Attaching a queue *)

Lemma get_vm_by_id_run {B} l vid p m (k : option Z → prog machine B) :
  circular (links m) vm_list_head l → (length l ≤ fuel)%nat → List.find (λ q, vm_id (vm_at q m) =? vid) l = Some p →
  (get_vm_by_id vid ≫= k) m = k (Some p) m.
Proof.
  intros Hc Hl Hf. unfold mbind, prog_bind, get_vm_by_id. by rewrite (list_find_entry_ok _ _ _ _ _ Hc Hl), Hf.
Qed.

(** The VM's own translations. *)
Definition vm_maps (p : Z) (m : machine) (va : Z) : option (Z * Z) := maps (mmu_view p (Some p) m) va.

Lemma vm_maps_put p s m y : vm_maps p (put_mmu p s m) y = maps s y.
Proof.
  unfold vm_maps, maps, cur_dscr, cur_root, mmu_view, put_mmu, dscr_of. rsimpl. by rewrite upd_eq.
Qed.

Lemma running_put p s v m : running p v m → running p v (put_mmu p s m).
Proof.
  intros [H1 H2]. split; [|exact H2]. unfold my in *. change (me (put_mmu p s m)) with (me m).
  change (cpu_table (sch (put_mmu p s m))) with (alter (λ k, k <| sr_vttbr := vttbr s |>) (me m) (cpu_table (sch m))).
  rewrite alter_eq. exact H1.
Qed.

(** What PAR_EL1 holds after a translation to [pa] that did not fail: the bits of the page. *)
Definition par_of (pa par : Z) : Prop := Z.testbit par 0 = false ∧ ∀ i, 12 ≤ i < 48 → Z.testbit par i = Z.testbit pa i.

(** The AT instruction walks the tables of the VM the CPU runs. *)
Hypothesis at_walks : ∀ m p v va pa f, running p v m → vm_maps p m va = Some (pa, f) → par_of pa (at_s12e1w m va).

#[local] Set Default Proof Using "Type*".

(** Only 26 bits of the page number are kept. *)
Lemma mem_translate_page p v va pa f m :
  running p v m → vm_maps p m va = Some (pa, f) → va mod PAGE_SIZE = 0 → pa mod PAGE_SIZE = 0 → 0 ≤ pa < 2 ^ 38 →
  mem_translate at_s12e1w va m = Done (pa, m).
Proof.
  intros Hrun Hm Hva Hpa Hb. destruct (at_walks m p v va pa f Hrun Hm) as [Hf Hbits]. unfold mem_translate. psteps.
  assert (Z.land (at_s12e1w m va) PAR_F = 0) as ->.
  { unfold PAR_F. change 1 with (Z.ones 1). rewrite Z.land_ones, <-Z.bit0_mod, Hf by lia. reflexivity. }
  cbn [negb Z.eqb]. rewrite run_ret. f_equal. f_equal. change (PAGE_SIZE - 1) with (Z.ones 12).
  rewrite Z.land_ones by lia. change (2 ^ 12) with PAGE_SIZE. rewrite Hva, Z.lor_0_r.
  apply Z.bits_inj'. intros i Hi. rewrite Z.land_spec. unfold PAR_PA_MSK, PAR_PA_OFF. change 0x3ffffff with (Z.ones 26).
  rewrite testbit_shiftl by done. destruct (Z.leb_spec 12 i).
  - rewrite Z.testbit_ones by lia. destruct (Z.ltb_spec (i - 12) 26).
    + rewrite Hbits by lia. destruct (Z.leb_spec 0 (i - 12)); [|lia]. by rewrite andb_true_r.
    + rewrite andb_false_r, andb_false_r. symmetry. apply (testbit_small 38); unfold in_word; lia.
  - rewrite (Z.testbit_neg_r _ (i - 12)), andb_false_r by lia. symmetry.
    assert (Z.testbit (pa mod 2 ^ 12) i = Z.testbit pa i) as <- by (rewrite Z.mod_pow2_bits_low by lia; done).
    change (2 ^ 12) with PAGE_SIZE. by rewrite Hpa, Z.testbit_0_l.
Qed.


End rq.

(** VM 1 attaches the queue of VM 2, four pages at 0x70000000, at 0x40000000. *)
Definition sample_queue : @machine RegisterFile := sample_machine
  <| sch ::= λ d, d <| vm_table ::= alter (λ w, w <| vm_rq := {| vbase := 0x10000000; pbase := 0x70000000; rq_size := 0x4000 |} |>) 2 |> |>.

(** The AT instruction, by the tables. *)
Definition sample_walk (m : @machine RegisterFile) (va : Z) : Z :=
  match cpu_vcpu (my m) with
  | Some v => match vcpu_vm (vcpu_at v m) with
              | Some p => match vm_maps p m va with Some (pa, _) => Z.shiftl (Z.shiftr pa 12) 12 | None => 1 end
              | None => 1
              end
  | None => 1
  end.

Lemma sample_walks m p v va pa f : running p v m → vm_maps p m va = Some (pa, f) → par_of pa (sample_walk m va).
Proof.
  intros [H1 H2] Hm. unfold sample_walk. rewrite H1, H2, Hm. split; [by rewrite testbit_shiftl, Z.testbit_neg_r by lia|].
  intros i Hi. rewrite testbit_shiftl, testbit_shiftr by lia. f_equal. lia.
Qed.

