(* ===== verification/Lcm.v ===== *)
(** * Snapshots: src/core/lcm.c, src/core/inc/lcm.h

    Hypercalls that copy the memory and the vcpu of the calling VM into a pool and back.  The headers
    of the pools and of the snapshots are records at their addresses ([pools], [snapshots]); the bytes
    of [mem[]] are in [ram].  The pools are linked in [links] by their addresses. *)
From S2P Require Import Prelude Util Bits Bitmap Spinlock MemString ListHead Emul PagePool.
From S2P Require Import PageTable Mmu Cpu Ipi Vcpu Gic Vgic Sched Machine.

Definition NUM_MAX_SNAPSHOT_RESOTRE : Z := 1.
Definition LATEST_SSID : Z := u64 (-1).
Definition PSCI_FNID_SYSTEM_OFF : Z := 0x84000008.
Definition PSCI_FNID_SYSTEM_RESET : Z := 0x84000009.

Definition ss_pool_list : Z := -2.

Section lcm.
Context `{GicDevice}.
Variable lay : Z → layout.
Variable conf : config.
Variable at_s12e1w : machine → Z → Z.

(** The sizes the compiler gives the two structures; [mem] begins where [struct snapshot] ends. *)
Variable sizeof_snapshot sizeof_snapshot_pool : Z.

(** [fuel] bounds the rounds of a search for pages, the pools, and the snapshots of a pool. *)
Variable fuel : nat.

Definition upd_life (f : lcm → lcm) : prog machine unit := modify (λ m, m <| life ::= f |>).

(** ** Pools *)

Definition last_pool : prog machine Z := gets (λ m, prev (links m ss_pool_list)).

Definition get_new_ss : prog machine Z :=
  p ← last_pool; gets (λ m, sp_last (pools (life m) p)).

Definition update_ss_pool_last (size : Z) : prog machine unit :=
  p ← last_pool;
  l ← gets (λ m, sp_last (pools (life m) p));
  upd_life (λ k, k <| latest_ss := if l =? 0 then None else Some l |>
                   <| pools ::= alter (λ q, q <| sp_last ::= λ l, l +64 size |>) p |>).

Definition alloc_ss_pool : prog machine Z :=
  let pool_size := (dmem_size (config_vm conf 0) +64 sizeof_snapshot) *64 5 in
  p ← on_pages (mem_alloc_page (NUM_PAGES pool_size) false fuel);
  let b := p +64 sizeof_snapshot_pool in
  upd_life (λ k, k <| pools ::= <[p := {| sp_base := b; sp_size := pool_size; sp_last := b |}]> |>);;
  modify (λ m, m <| links ::= INIT_LIST_HEAD p |>);;
  mret p.

Definition ss_pool_init : prog machine unit :=
  modify (λ m, m <| links ::= INIT_LIST_HEAD ss_pool_list |>);;
  p ← alloc_ss_pool;
  modify (λ m, m <| links ::= list_add_tail p ss_pool_list |>).

Definition get_new_ss_id : prog machine Z :=
  i ← gets (λ m, latest_ss_id (life m));
  upd_life (λ k, k <| latest_ss_id ::= λ i, i +64 1 |>);;
  mret i.

(** ** Copies of [struct vcpu] *)

Definition priv_int (p v k : Z) : Z := priv_interrupts (lay p) v + k * sizeof_vgic_int.

Definition copy_vcpu (p v : Z) (m : machine) : vcpu_copy :=
  let s := vgics m p in {|
    c_vcpu := vcpu_at v m;
    c_priv := λ k, ints s (priv_int p v k);
    c_links := λ k, Vgic.links s (priv_int p v k);
    c_curr_lrs := curr_lrs s v;
    c_spilled := Vgic.links s (vcpu_spilled (lay p) v) |}.

(** The entries [k, k + n) of the private interrupts. *)
Fixpoint put_priv {A} (base : Z) (f : Z → A) (k : Z) (n : nat) (t : Z → A) : Z → A :=
  match n with O => t | S n => put_priv base f (k + 1) n (<[base + k * sizeof_vgic_int := f k]> t) end.

Definition put_vcpu (p v : Z) (c : vcpu_copy) : prog machine unit :=
  upd_vcpu v (λ _, c_vcpu c);;
  let n := Z.to_nat GIC_CPU_PRIV in
  modify (λ m, m <| vgics ::= alter (λ s,
    s <| ints ::= put_priv (priv_int p v 0) (c_priv c) 0 n |>
      <| Vgic.links ::= λ l, <[vcpu_spilled (lay p) v := c_spilled c]> (put_priv (priv_int p v 0) (c_links c) 0 n l) |>
      <| curr_lrs ::= <[v := c_curr_lrs c]> |>) p |>).

(** ** Hypercalls *)

Definition checkpoint_snapshot_hanlder : prog machine unit :=
  p ← CURRENT_VM;
  w ← gets (vm_at p);
  let cfg := config_vm conf (vm_id w) in
  init ← gets (λ m, ckpt_init (life m));
  (if negb init then ss_pool_init;; upd_life (λ k, k <| ckpt_init := true |>) else mret tt);;
  ss ← get_new_ss;
  if ss =? 0 then halt FError
  else
    i ← get_new_ss_id;
    v ← current_vcpu;
    let size := dmem_size cfg +64 dmem_size cfg +64 sizeof_snapshot in
    c ← gets (copy_vcpu p v);
    upd_life (λ k, k <| snapshots ::= <[ss := {| ss_id := i; ss_size := size; ss_vm_id := u32 (vm_id w); ss_vcpu := c |}]> |>);;
    pa ← mem_translate at_s12e1w (base_addr cfg);
    modify (λ m, m <| ram ::= λ r, memcpy r (ss + sizeof_snapshot) pa (image_size cfg +64 dmem_size cfg) |>);;
    update_ss_pool_last size;;
    upd_vcpu v (λ u, vcpu_writereg u 0 i).

Definition restart_vm : prog machine unit :=
  p ← CURRENT_VM;
  v ← current_vcpu;
  cfg ← gets (λ m, config_vm conf (vm_id (vm_at p m)));
  pa ← mem_translate at_s12e1w (base_addr cfg);
  modify (λ m, m <| ram ::= λ r, memset r pa 0 (dmem_size cfg +64 dmem_size cfg) |>);;
  modify (λ m, m <| ram ::= λ r, memcpy r pa (load_addr cfg) (dmem_size cfg) |>);;
  upd_vcpu v (λ u, vcpu_arch_reset u (entry cfg)).

Definition restore_snapshot_hanlder_by_ss (ss : Z) : prog machine unit :=
  p ← CURRENT_VM;
  v ← current_vcpu;
  cfg ← gets (λ m, config_vm conf (vm_id (vm_at p m)));
  c ← gets (λ m, ss_vcpu (snapshots (life m) ss));
  put_vcpu p v c;;
  pa ← mem_translate at_s12e1w (base_addr cfg);
  modify (λ m, m <| ram ::= λ r, memcpy r pa (ss + sizeof_snapshot) (dmem_size cfg +64 dmem_size cfg) |>).

(** The [while] over the snapshots of one pool: where it stops, and the number it is at. *)
Fixpoint ss_walk (sizes : Z → Z) (id top ss i : Z) (n : nat) : outcome (Z * Z) :=
  match n with
  | O => Halt FSpin
  | S n =>
      if (i <? id) && (ss +64 sizes ss <=? top) then ss_walk sizes id top (ss +64 sizes ss) (i + 1) n else Done (ss, i)
  end.

(** [list_for_each_entry] over the pools. *)
Fixpoint ss_search (l : lcm) (lk : ListHead.mem) (id pos i : Z) (n : nat) : outcome Z :=
  match n with
  | O => Halt FSpin
  | S n =>
      if pos =? ss_pool_list then Halt FError
      else
        let q := pools l pos in
        r ← ss_walk (λ a, ss_size (snapshots l a)) id (sp_base q +64 sp_size q) (sp_base q) i fuel;
        if id =? r.2 then mret r.1 else ss_search l lk id (next (lk pos)) r.2 n
  end.

Definition get_ss_by_id (id : Z) : prog machine Z := λ m,
  match ss_search (life m) (links m) id (next (links m ss_pool_list)) 0 fuel with
  | Done ss => Done (ss, m)
  | Halt e => Halt e
  end.

Definition restore_snapshot_hanlder (arg0 : Z) : prog machine unit :=
  if arg0 =? LATEST_SSID then
    ss ← gets (λ m, latest_ss (life m));
    match ss with
    | None => restart_vm
    | Some ss => restore_snapshot_hanlder_by_ss ss
    end
  else
    first ← gets (λ m, restore_first (life m));
    if negb first then halt FSpin
    else
      ss ← get_ss_by_id arg0;
      if ss =? 0 then halt FError
      else
        restore_snapshot_hanlder_by_ss ss;;
        upd_life (λ k, k <| restore_first := false |>).

Definition guest_halt_hanlder (arg0 : Z) : prog machine unit :=
  if arg0 =? PSCI_FNID_SYSTEM_OFF then mret tt
  else if arg0 =? PSCI_FNID_SYSTEM_RESET then
    n ← gets (λ m, current_restore_cnt (life m));
    if n <? NUM_MAX_SNAPSHOT_RESOTRE then
      upd_life (λ k, k <| current_restore_cnt ::= λ n, n +64 1 |>);;
      restore_snapshot_hanlder arg0
    else halt FError
  else mret tt.

(** ** A checkpoint and a restore *)

#[local] Set Default Proof Using "Type*".

(** The AT instruction reads the tables VTTBR_EL2 points to. *)
Hypothesis at_tables : ∀ m m' va,
  phys (mm m) = phys (mm m') → sr_vttbr (my m) = sr_vttbr (my m') → at_s12e1w m va = at_s12e1w m' va.

Definition translates (m : machine) (va pa : Z) : Prop := mem_translate at_s12e1w va m = Done (pa, m).

Lemma translates_in {B} m m' va pa (k : Z → prog machine B) :
  translates m va pa → phys (mm m) = phys (mm m') → sr_vttbr (my m) = sr_vttbr (my m') →
  (mem_translate at_s12e1w va ≫= k) m' = k pa m'.
Proof.
  unfold translates, mem_translate. rewrite !bind_gets, bind_bind, bind_gets. intros Ht Hp Hv.
  rewrite <-(at_tables m m' va Hp Hv). destruct (negb _); [done|]. rewrite run_ret in Ht. injection Ht as ->. by psteps.
Qed.

Definition cfg_of (p : Z) (m : machine) : vm_config := config_vm conf (vm_id (vm_at p m)).
Definition snapshot_size (cfg : vm_config) : Z := dmem_size cfg +64 dmem_size cfg +64 sizeof_snapshot.

Definition new_snapshot (p v : Z) (m : machine) : snapshot :=
  {| ss_id := latest_ss_id (life m); ss_size := snapshot_size (cfg_of p m); ss_vm_id := u32 (vm_id (vm_at p m));
     ss_vcpu := copy_vcpu p v m |}.

(** The pool is there and [ss] is the next snapshot in it. *)
Definition next_snapshot (ss : Z) (m : machine) : Prop :=
  ckpt_init (life m) = true ∧ sp_last (pools (life m) (prev (links m ss_pool_list))) = ss ∧ ss ≠ 0.

(** The state after a checkpoint, with the guest's memory at [pa]. *)
Record checkpointed (p v ss pa : Z) (m m1 : machine) : Prop := {
  cp_latest : latest_ss (life m1) = Some ss;
  cp_header : snapshots (life m1) ss = new_snapshot p v m;
  cp_ram : ram m1 = memcpy (ram m) (ss + sizeof_snapshot) pa (image_size (cfg_of p m) +64 dmem_size (cfg_of p m));
  cp_vcpu : vcpu_at v m1 = vcpu_writereg (vcpu_at v m) 0 (latest_ss_id (life m))
}.

Lemma checkpoint_run p v ss pa m :
  running p v m → next_snapshot ss m → translates m (base_addr (cfg_of p m)) pa →
  ∃ m1, checkpoint_snapshot_hanlder m = Done (tt, m1) ∧
    checkpointed p v ss pa m m1.
Proof.
  intros Hrun (Hi & Hl & Hs) Ht. unfold checkpoint_snapshot_hanlder. rewrite (CURRENT_VM_run p v _ _ Hrun). psteps.
  rewrite Hi. cbn [negb]. unfold get_new_ss, last_pool, get_new_ss_id, upd_life. psteps. rewrite Hl.
  destruct (Z.eqb_spec ss 0); [done|]. psteps. rewrite (current_run p v) by exact Hrun. psteps.
  fold (cfg_of p m). rewrite (translates_in m _ _ pa) by (exact Ht || reflexivity).
  unfold update_ss_pool_last, last_pool, upd_life, upd_vcpu. psteps. rewrite Hl.
  destruct (Z.eqb_spec ss 0); [done|]. eexists. split; [reflexivity|].
  constructor; unfold vcpu_at; rsimpl.
  - reflexivity.
  - by rewrite upd_eq.
  - reflexivity.
  - by rewrite alter_eq.
Qed.

(** What is restored of the virtual controller. *)
Definition priv_restored (r u : Z) (c : vcpu_copy) (m : machine) : Prop :=
  ∀ k, 0 ≤ k < GIC_CPU_PRIV → ints (vgics m r) (priv_int r u k) = c_priv c k.

Lemma put_priv_at {A} base (f : Z → A) k n t j :
  k ≤ j < k + Z.of_nat n → put_priv base f k n t (base + j * sizeof_vgic_int) = f j.
Proof.
  assert (∀ n k t, j < k → put_priv base f k n t (base + j * sizeof_vgic_int) = t (base + j * sizeof_vgic_int)) as Hout.
  { clear. induction n as [|n IH]; intros k t Hj; cbn [put_priv]; [done|]. rewrite IH by lia.
    apply upd_ne. unfold sizeof_vgic_int. lia. }
  revert k t. induction n as [|n IH]; intros k t Hj; [lia|]. cbn [put_priv].
  destruct (decide (j = k)) as [->|]; [|apply IH; lia]. rewrite Hout by lia. apply upd_eq.
Qed.

Lemma restore_run r u ss pa m :
  running r u m → translates m (base_addr (cfg_of r m)) pa →
  ∃ m', restore_snapshot_hanlder_by_ss ss m = Done (tt, m') ∧
    vcpu_at u m' = c_vcpu (ss_vcpu (snapshots (life m) ss)) ∧ priv_restored r u (ss_vcpu (snapshots (life m) ss)) m' ∧
    ram m' = memcpy (ram m) pa (ss + sizeof_snapshot) (dmem_size (cfg_of r m) +64 dmem_size (cfg_of r m)).
Proof.
  intros Hrun Ht. unfold restore_snapshot_hanlder_by_ss. rewrite (CURRENT_VM_run r u _ _ Hrun), (current_run r u _ _ Hrun).
  unfold put_vcpu, upd_vcpu. psteps. fold (cfg_of r m). rewrite (translates_in m _ _ pa) by (exact Ht || reflexivity). psteps.
  eexists. split; [reflexivity|]. unfold vcpu_at, priv_restored. rsimpl. rewrite !alter_eq. split; [done|]. split; [|done].
  intros k Hk. rsimpl. assert (priv_int r u k = priv_int r u 0 + k * sizeof_vgic_int) as -> by (unfold priv_int; lia).
  apply put_priv_at. unfold GIC_CPU_PRIV, GIC_MAX_SGIS, GIC_MAX_PPIS in *. lia.
Qed.

(** C26: a restore of the latest snapshot gives the calling VM, which need not be the one that took it,
    the vcpu of the VM that took it with its private interrupts, and its memory.  The copy back is
    of twice [dmem_size] bytes: after the [image_size + dmem_size] bytes of the checkpoint come
    whatever bytes follow them in the pool, and bytes outside the copied range do not change. *)
Theorem snapshot_restores p v ss pa m :
  let cfg := cfg_of p m in let area := ss + sizeof_snapshot in
  let saved := image_size cfg + dmem_size cfg in let copied := dmem_size cfg + dmem_size cfg in
  running p v m → next_snapshot ss m → translates m (base_addr cfg) pa →
  0 ≤ image_size cfg → 0 ≤ dmem_size cfg → saved < 2 ^ 64 → copied < 2 ^ 64 → disjoint_ranges area pa saved →
  ∃ m1, checkpoint_snapshot_hanlder m = Done (tt, m1) ∧
    ∀ r u m2 pa2,
      running r u m2 → translates m2 (base_addr (cfg_of r m2)) pa2 → dmem_size (cfg_of r m2) = dmem_size cfg →
      latest_ss (life m2) = latest_ss (life m1) → snapshots (life m2) ss = snapshots (life m1) ss →
      (∀ a, area ≤ a < area + copied → ram m2 a = ram m1 a) → disjoint_ranges pa2 area copied →
      ∃ m3, restore_snapshot_hanlder LATEST_SSID m2 = Done (tt, m3) ∧
        vcpu_at u m3 = vcpu_at v m ∧ priv_restored r u (copy_vcpu p v m) m3 ∧
        (∀ i, 0 ≤ i < copied → ram m3 (pa2 + i) = if i <? saved then ram m (pa + i) else ram m (area + i)) ∧
        (∀ a, a < pa2 ∨ pa2 + copied ≤ a → ram m3 a = ram m2 a).
Proof.
  intros cfg area saved copied Hrun Hn Ht Hi Hd Hb Hc Hdis.
  destruct (checkpoint_run p v ss pa m Hrun Hn Ht) as (m1 & Hrun1 & [Hl1 Hh1 Hr1 _]). exists m1. split; [done|].
  intros r u m2 pa2 Hrun2 Ht2 Hd2 Hl2 Hh2 Hr2 Hdis2.
  destruct (restore_run r u ss pa2 m2 Hrun2 Ht2) as (m3 & Hrun3 & Hv3 & Hp3 & Hr3).
  fold cfg in Hr1. rewrite Hd2 in Hr3. rewrite wrap_small in Hr1, Hr3 by (unfold saved, copied in *; lia).
  fold saved area in Hr1. fold copied area in Hr3. rewrite Hh2, Hh1 in Hv3, Hp3. exists m3. split_and!.
  - unfold restore_snapshot_hanlder. rewrite Z.eqb_refl. psteps. by rewrite Hl2, Hl1.
  - exact Hv3.
  - exact Hp3.
  - intros i Hi'. rewrite Hr3, memcpy_run by (lia || done).
    replace (pa2 + i - pa2) with i by lia. rewrite Hr2, Hr1, memcpy_run by (lia || done).
    replace (area + i - area) with i by lia.
    destruct (Z.leb_spec pa2 (pa2 + i)), (Z.ltb_spec (pa2 + i) (pa2 + copied)), (Z.leb_spec area (area + i)); try lia. cbn [andb].
    by destruct (Z.ltb_spec (area + i) (area + saved)), (Z.ltb_spec i saved); try lia.
  - intros a Ha. rewrite Hr3, memcpy_run by (lia || done).
    destruct (Z.leb_spec pa2 a), (Z.ltb_spec a (pa2 + copied)); try lia; done.
Qed.

End lcm.

(** VM 1 takes a snapshot, VM 2 restores it: VM 2 then has VM 1's memory and vcpu. *)
Definition sample_taker : machine := sample_machine
  <| life ::= λ k, k <| ckpt_init := true |>
       <| pools := <[0x60000000 := {| sp_base := 0x60000100; sp_size := 0x100000; sp_last := 0x60000100 |}]> (pools k) |> |>
  <| links ::= λ l, list_add_tail 0x60000000 ss_pool_list (INIT_LIST_HEAD ss_pool_list (INIT_LIST_HEAD 0x60000000 l)) |>
  <| ram := λ a, if a =? 0x50000010 then 0x77 else 0 |>
  <| sch ::= λ d, d <| vcpu_table ::= alter (λ u, vcpu_writepc u 0x1234) 8 |> |>.

Definition sample_at (m : @machine RegisterFile) (va : Z) : Z := if sr_vttbr (my m) =? 0 then 0x50000000 else 0x51000000.

(** The state VM 2 sees on the CPU afterwards. *)
Definition sample_restorer (m1 : @machine RegisterFile) : machine := sample_taker <| life := life m1 |> <| ram := ram m1 |>
  <| sch ::= λ d, d <| cpu_table ::= alter (λ k, k <| cpu_vcpu := Some 12 |> <| sr_vttbr := Z.shiftl 2 48 |>) 0 |> |>.

Lemma snapshot_restores_witness :
  ∃ m3 : @machine RegisterFile, vcpu_readpc (vcpu_at 12 m3) = 0x1234 ∧ vcpu_vm (vcpu_at 12 m3) = Some 1 ∧ ram m3 0x51000010 = 0x77.
Proof.
  destruct (@snapshot_restores RegisterFile (λ _, sample_layout) sample_config sample_at 0x1000 0x100 4) with (p := 1) (v := 8)
    (ss := 0x60000100) (pa := 0x50000000) (m := sample_taker) as (m1 & E & H).
  - intros m m' va _ Hv. unfold sample_at. by rewrite Hv.
  - split; reflexivity.
  - split; [reflexivity|]. split; [reflexivity|discriminate].
  - reflexivity.
  - discriminate.
  - discriminate.
  - reflexivity.
  - reflexivity.
  - right. vm_compute. discriminate.
  - destruct (H 2 12 (sample_restorer m1) 0x51000000) as (m3 & _ & Hv & _ & Hr & _).
    + split; reflexivity.
    + reflexivity.
    + reflexivity.
    + reflexivity.
    + reflexivity.
    + reflexivity.
    + left. vm_compute. discriminate.
    + exists m3. rewrite Hv. split; [reflexivity|]. split; [reflexivity|].
      change 0x51000010 with (0x51000000 + 0x10). rewrite Hr by (vm_compute; split; [discriminate|reflexivity]). reflexivity.
Defined.
