(* ===== verification/Vmm.v ===== *)
(** * Bringing the machine up: src/core/vmm.c, src/arch/aarch64/arch_vmm.c, [vm_init] of
    src/core/vm.c, [vgic_init] of src/arch/aarch64/vgicv2.c, src/core/io.c and
    src/arch/aarch64/iommu.c

    The build has no IOMMU: the functions of iommu.c are those of its last branch, which do
    nothing. *)
From S2P Require Import Prelude Util Bits Bitmap Spinlock MemString ListHead Emul PagePool PageTable Mmu.
From S2P Require Import Cpu Ipi Vcpu Gic Vgic VgicEmul Sched Machine Interrupts Rq.

(** ** Structures *)

Record vm_allocation := { va_base : Z; va_size : Z; va_vm : Z; va_vcpus : Z }.
#[export] Instance eta_vm_allocation : Eta vm_allocation := λ a, Build_vm_allocation (va_base a) (va_size a) (va_vm a) (va_vcpus a).

Record vm_assignment := { va_lock : spinlock_t; va_master : bool; va_ncpus : Z; vm_alloc : vm_allocation }.
#[export] Instance eta_vm_assignment : Eta vm_assignment := λ a,
  Build_vm_assignment (va_lock a) (va_master a) (va_ncpus a) (vm_alloc a).

(** What the compiler and the linker decide: sizes, alignment, where the vcpus of VM [p] are in the
    table of vcpus, and the address [gicv_addr] of the platform. *)
Record build := { sizeof_vm : Z; sizeof_vcpu : Z; alignof_vcpu : Z; first_vcpu : Z → Z; gicv_addr : Z }.

Definition zero_vcpu : vcpu :=
  {| vcpu_id := 0; p_id := 0; regs := {| x := λ _, 0; spsr_el2 := 0; elr_el2 := 0; sp_el1 := 0 |}; vmpidr := 0; vcpu_vm := None |}.
Definition zero_vm : vm :=
  {| vm_id := 0; vcpus := 0; nr_cpus := 0; cpus := 0; master := 0; vm_sync := {| ready := false; n := 0; count := 0 |};
     vm_lock := SPINLOCK_INITVAL; as_id := 0; as_root := 0; vm_rq := {| vbase := 0; pbase := 0; rq_size := 0 |};
     interrupt_bitmap := λ _, 0 |}.
Definition zero_int : vgic_int :=
  {| owner := None; ilock := SPINLOCK_INITVAL; id := 0; state := 0; Vgic.prio := 0; cfg := 0; lr := 0; u0 := 0; u1 := 0;
     hw := false; in_lr := false; enabled := false |}.

Definition HCR_VM_BIT : Z := Z.shiftl 1 0.
Definition HCR_FMO_BIT : Z := Z.shiftl 1 3.
Definition HCR_IMO_BIT : Z := Z.shiftl 1 4.
Definition HCR_RW_BIT : Z := Z.shiftl 1 31.

Definition ID_AA64MMFR0_PAR_MSK : Z := BIT64_MASK 0 4.
Definition VTCR_RES1 : Z := Z.shiftl 1 31.
Definition TCR_T0SZ_MSK : Z := Z.shiftl 0x1f 0.
Definition VTCR_T0SZ (sz : Z) : Z := Z.land (Z.shiftl sz 0) TCR_T0SZ_MSK.
Definition VTCR_SL0_OFF : Z := 6.
Definition VTCR_SL0_MSK : Z := 0xc0.
Definition VTCR_SL0_01 : Z := Z.land (Z.shiftl 2 VTCR_SL0_OFF) VTCR_SL0_MSK.
Definition VTCR_SL0_12 : Z := Z.land (Z.shiftl 1 VTCR_SL0_OFF) VTCR_SL0_MSK.
Definition VTCR_IRGN0_WB_RA_WA : Z := Z.shiftl 1 8.
Definition VTCR_ORGN0_WB_RA_WA : Z := Z.shiftl 1 10.
Definition VTCR_SH0_IS : Z := Z.shiftl 3 12.
Definition VTCR_TG0_4K : Z := Z.shiftl 0 14.
Definition VTCR_PS_OFF : Z := 16.
Definition VTCR_PS_MSK : Z := Z.shiftl 7 VTCR_PS_OFF.

(** ** The IOMMU *)

Definition iommu_arch_init : bool := true.
Definition iommu_arch_vm_add_device (id : Z) : bool := true.
Definition iommu_arch_vm_init : bool := true.
Definition io_vm_init : bool := iommu_arch_vm_init.
Definition io_vm_add_device (id : Z) : bool := if negb (id =? 0) then iommu_arch_vm_add_device id else false.

Section vmm.
Context `{GicDevice}.
Variable lay : Z → layout.
Variable conf : config.
Variable bld : build.
Variable at_s12e1w : machine → Z → Z.

(** ID_AA64MMFR0_EL1 of this CPU. *)
Variable id_aa64mmfr0 : Z.

(** [cpu_sync_barrier(&cpu_glb_sync)], with what the other CPUs do until it opens. *)
Variable glb_barrier : prog machine unit.

(** [fuel] bounds the searches for pages and addresses, and a look for something to run. *)
Variable fuel : nat.

(** ** arch_vmm.c *)

(** One round of the loop that drops the first level of the stage-2 tables. *)
Fixpoint shift_levels (i : Z) (n : nat) (d : page_table_dscr) : page_table_dscr :=
  match n with
  | O => d
  | S n =>
      let k := Z.to_nat i in
      shift_levels (i + 1) n
        (d <| lvl_wdt := <[k := wdt d (i + 1)]> (lvl_wdt d) |> <| lvl_off := <[k := off d (i + 1)]> (lvl_off d) |>
           <| lvl_term := <[k := pt_lvl_terminal d (i + 1)]> (lvl_term d) |>)
  end.

Definition drop_level (bits : Z) (d : page_table_dscr) : page_table_dscr :=
  let d := shift_levels 0 (Z.to_nat (lvls d - 1)) d in
  d <| lvl_wdt ::= <[O := bits]> |> <| lvls ::= λ n, n - 1 |>.

Definition vtcr_value (par bits : Z) : Z :=
  Z.lor (Z.lor (Z.lor (Z.lor (Z.lor (Z.lor (Z.lor VTCR_RES1 (Z.land (u64 (Z.shiftl par VTCR_PS_OFF)) VTCR_PS_MSK))
    VTCR_TG0_4K) VTCR_ORGN0_WB_RA_WA) VTCR_IRGN0_WB_RA_WA) (VTCR_T0SZ (64 -64 bits))) VTCR_SH0_IS)
    (if bits <? 44 then VTCR_SL0_12 else VTCR_SL0_01).

(** [parange_table] has no entry for the value 6: reading past it is a fault. *)
Definition vmm_arch_init_tcr : prog machine unit :=
  let temp_parange := Z.land id_aa64mmfr0 ID_AA64MMFR0_PAR_MSK in
  acquire tcr_lock;;
  mp ← gets min_parange;
  (if temp_parange <? mp then modify (λ m, m <| min_parange := temp_parange |>) else mret tt);;
  release tcr_lock;;
  modify (λ m, m <| parange := min_parange m |>);;
  par ← gets parange;
  bits ← deref (parange_table !! Z.to_nat par);
  (if bits <? 44 then modify (λ m, m <| mm ::= λ s, s <| vm_dscr ::= drop_level bits |> |>) else mret tt);;
  modify (λ m, m <| sr_vtcr := vtcr_value par bits |>).

Definition vmm_arch_init : prog machine unit :=
  vmm_arch_init_tcr;;
  modify (λ m, m <| sr_hcr := Z.lor (Z.lor (Z.lor HCR_VM_BIT HCR_RW_BIT) HCR_IMO_BIT) HCR_FMO_BIT |>).

(** ** vgicv2.c *)

(** [sizeof(struct gicc_hw)]: two pages. *)
Definition sizeof_gicc_hw : Z := 0x2000.

Definition vgic_init (p : Z) (dscrp : vgic_dscrp) : prog machine unit :=
  on_vgic_of p 0 (vgic_init_regs dscrp);;
  _ ← on_as p None (mem_alloc_map_dev (gicc_addr dscrp) (gicv_addr bld) (NUM_PAGES sizeof_gicc_hw) fuel);
  num ← gets (λ m, int_num (vgics m p));
  a ← on_pages (mem_alloc_page (NUM_PAGES (num *64 sizeof_vgic_int)) false fuel);
  on_vgic_of p 0 (vgic_init_ints (lay p) dscrp a).

(** ** vm.c *)

(** Allocate [len] bytes at [va], which must be what the search finds, and copy [load .. load + bytes). *)
Definition load_region (p va len load bytes : Z) : prog machine unit :=
  a ← on_as p None (mem_alloc_map None va (NUM_PAGES len) PTE_VM_FLAGS fuel);
  if negb (a =? va) then halt FError
  else
    pa ← mem_translate at_s12e1w a;
    modify (λ m, m <| ram ::= λ r, memcpy r pa load bytes |>).

Definition vm_init_mem_regions (p : Z) (cfg : vm_config) : prog machine unit :=
  load_region p (base_addr cfg) (image_size cfg +64 dmem_size cfg) (load_addr cfg) (image_size cfg);;
  load_region p (dtb_base_addr (dtb conf)) (dtb_size (dtb conf)) (dtb_load_addr (dtb conf)) (dtb_size (dtb conf)).

Definition vm_allocation_init (alloc : vm_allocation) : prog machine Z :=
  upd_vm (va_vm alloc) (λ w, w <| vcpus := va_vcpus alloc |>);; mret (va_vm alloc).

(** [vm_master_init]: the scalar fields are [Vcpu.vm_master_init]. *)
Definition vm_master_init (p : Z) (cfg : vm_config) (vid : Z) : prog machine unit :=
  c ← gets (λ m, cpu_id (my m));
  upd_vm p (λ w, Vcpu.vm_master_init w (cfg_nr_cpus cfg) vid c);;
  on_as p None (as_init AS_VM vid None);;
  modify (λ m, m <| vgics ::= alter (λ s, s <| Vgic.links ::= INIT_LIST_HEAD (emul_mem_list (lay p)) |>) p |>);;
  modify (λ m, m <| vgics ::= alter (λ s, s <| Vgic.links ::= INIT_LIST_HEAD (emul_reg_list (lay p)) |>) p |>).

(** [vcpu_arch_init]. *)
Definition vcpu_arch_init (p v : Z) : prog machine unit :=
  w ← gets (vm_at p);
  upd_vcpu v (Vcpu.vcpu_arch_init w);;
  on_vgic_of p v (vgic_cpu_init (lay p) v).

Fixpoint vcpu_init_rounds (p : Z) (cfg : vm_config) (i : Z) (n : nat) : prog machine unit :=
  match n with
  | O => mret tt
  | S n =>
      w ← gets (vm_at p);
      v ← deref (vm_get_vcpu w i);
      upd_vcpu v (λ u, u <| vcpu_id := i |>);;
      upd_vcpu v (λ u, u <| vcpu_vm := Some p |>);;
      vcpu_arch_init p v;;
      upd_vcpu v (λ u, vcpu_arch_reset u (if i =? 0 then entry cfg else 0));;
      vcpu_init_rounds p cfg (i + 1) n
  end.

Definition vm_vcpu_init (p : Z) (cfg : vm_config) : prog machine unit :=
  w ← gets (vm_at p); vcpu_init_rounds p cfg 0 (Z.to_nat (nr_cpus w)).

Fixpoint assign_interrupts (p : Z) (l : list Z) : prog machine unit :=
  match l with [] => mret tt | i :: l => interrupts_vm_assign lay p i;; assign_interrupts p l end.

Definition vm_init_one_dev (p : Z) (dev : vm_dev_region) : prog machine unit :=
  let n := ALIGN 64 (dev_size dev) PAGE_SIZE / PAGE_SIZE in
  (if negb (dev_va dev =? INVALID_VA)
   then _ ← on_as p None (mem_alloc_map_dev (dev_va dev) (dev_pa dev) n fuel); mret tt else mret tt);;
  assign_interrupts p (dev_interrupts dev).

Fixpoint vm_init_devs (p : Z) (l : list vm_dev_region) : prog machine unit :=
  match l with [] => mret tt | dev :: l => vm_init_one_dev p dev;; vm_init_devs p l end.

Fixpoint add_devices (l : list vm_dev_region) : prog machine unit :=
  match l with
  | [] => mret tt
  | dev :: l =>
      (if negb (dev_id dev =? 0) && negb (io_vm_add_device (u32 (dev_id dev))) then halt FError else mret tt);;
      add_devices l
  end.

Definition vm_init_dev (p : Z) (cfg : vm_config) : prog machine unit :=
  vm_init_devs p (devs cfg);;
  if io_vm_init then add_devices (devs cfg) else mret tt.

(** The VM becomes the one stage 2 of this CPU translates for. *)
Definition set_vttbr (p : Z) : prog machine unit :=
  modify (λ m, let w := vm_at p m in
    m <| sch ::= λ d, d <| cpu_table ::= alter (λ k, k <| sr_vttbr :=
      Z.lor (Z.land (u64 (Z.shiftl (vm_id w) VTTBR_VMID_OFF)) VTTBR_VMID_MSK)
            (Z.land (as_root w) (u64 (Z.lnot VTTBR_VMID_MSK))) |>) (me m) |> |>).

Definition vm_init (alloc : vm_allocation) (cfg : vm_config) (vid : Z) : prog machine Z :=
  p ← vm_allocation_init alloc;
  vm_master_init p cfg vid;;
  set_vttbr p;;
  vm_vcpu_init p cfg;;
  vgic_init p (arch_gic cfg);;
  vm_init_mem_regions p cfg;;
  vm_init_dev p cfg;;
  vm_rq_init p cfg;;
  on_sched (vm_init_sched p);;
  modify (λ m, m <| links ::= INIT_LIST_HEAD p |>);;
  acquire vm_list_lock;;
  modify (λ m, m <| links ::= list_add p vm_list_head |>);;
  release vm_list_lock;;
  mret p.

(** ** vmm.c *)

(** The array [vm_assign] is only used here; it is threaded through the functions. *)
Fixpoint vmm_assign_loop (i : Z) (n : nat) (a : Z → vm_assignment) : outcome (Z → vm_assignment) :=
  match n with
  | O => Done a
  | S n =>
      match spin_lock (va_lock (a i)) with
      | Halt e => Halt e
      | Done l =>
          let f k := if negb (va_master k) then k <| va_master := true |> <| va_ncpus := cfg_nr_cpus (config_vm conf i) |> else k in
          vmm_assign_loop (i + 1) n (alter (λ k, f k <| va_lock := spin_unlock l |>) i a)
      end
  end.

Definition vmm_assign_vcpu (a : Z → vm_assignment) : outcome (Z → vm_assignment) :=
  vmm_assign_loop 0 (Z.to_nat (nr_vms conf)) a.

(** [memset(allocation, 0, total_size)]: the structures of VM [p] that lie in the allocation. *)
Definition zero_structures (p nr base size : Z) (m : machine) : machine :=
  let inside a := (base <=? a) && (a <? base + size) in
  let mine v := (first_vcpu bld p <=? v) && (v <? first_vcpu bld p + nr) in
  m <| sch ::= λ d, d <| vm_table ::= <[p := zero_vm]> |> <| vcpu_table ::= λ t v, if mine v then zero_vcpu else t v |> |>
    <| spaces ::= alter (λ a, a <| as_lock := SPINLOCK_INITVAL |> <| pt_root := 0 |> <| asid := 0 |> <| as_type := AS_HYP |>) p |>
    <| vgics ::= alter (λ s, s <| ints ::= λ t a, if inside a then zero_int else t a |>
         <| Vgic.links ::= λ t a, if inside a then {| ListHead.next := 0; prev := 0 |} else t a |>
         <| vgicd_lock := SPINLOCK_INITVAL |> <| spilled_lock := SPINLOCK_INITVAL |>
         <| interrupts := 0 |> <| int_num := 0 |> <| vCTLR := 0 |> <| vTYPER := 0 |> <| vIIDR := 0 |>
         <| curr_lrs ::= λ t v, if mine v then (λ _, 0) else t v |>) p |>.

Definition vmm_alloc_vm (p : Z) (cfg : vm_config) : prog machine (option vm_allocation) :=
  let total_size := sizeof_vm bld in
  let vcpus_offset := ALIGN 64 total_size (alignof_vcpu bld) in
  let total_size := vcpus_offset +64 (cfg_nr_cpus cfg *64 sizeof_vcpu bld) in
  let total_size := ALIGN 64 total_size PAGE_SIZE in
  allocation ← on_pages (mem_alloc_page (NUM_PAGES total_size) false fuel);
  if allocation =? 0 then mret None
  else
    modify (zero_structures p (cfg_nr_cpus cfg) allocation total_size);;
    mret (Some {| va_base := allocation; va_size := total_size; va_vm := p; va_vcpus := first_vcpu bld p |}).

Definition vmm_alloc_install_vm (vid : Z) : prog machine vm_allocation :=
  a ← vmm_alloc_vm vid (config_vm conf vid);
  match a with Some a => mret a | None => halt FError end.

Definition vmm_io_init : bool := iommu_arch_init.

Definition vm_list_init : prog machine unit := modify (λ m, m <| links ::= INIT_LIST_HEAD vm_list_head |>).

Fixpoint vmm_create_vms (i : Z) (n : nat) : prog machine unit :=
  match n with
  | O => mret tt
  | S n =>
      alloc ← vmm_alloc_install_vm i;
      _ ← vm_init alloc (config_vm conf i) i;
      vmm_create_vms (i + 1) n
  end.

(** [vcpu_run] enters the guest, with the registers of the vcpu this CPU was given. *)
Definition vcpu_run (v : Z) : prog machine vcpu := gets (vcpu_at v).

Definition vmm_init (assign : Z → vm_assignment) : prog machine vcpu :=
  vmm_arch_init;;
  glb_barrier;;
  vm_list_init;;
  c ← gets (λ m, cpu_id (my m));
  (if c =? 0 then
     match vmm_assign_vcpu assign with
     | Halt e => halt e
     | Done _ => vmm_create_vms 0 (Z.to_nat (nr_vms conf))
     end
   else mret tt);;
  glb_barrier;;
  c ← gets me;
  on_sched (try_reschedule fuel c);;
  v ← current_vcpu;
  vcpu_run v.

(** ** Functions of arch_vm.c that nothing calls any more

    [vm_sync p] is [cpu_sync_and_clear_msgs] on the token of VM [p], with what the other CPUs do meanwhile; its
    interleavings are in [Cpu]. *)
Variable vm_sync : Z → prog machine unit.

Definition vcpu_arch_profile_init (p : Z) : prog machine unit := set_vttbr p.

Definition vm_arch_init (p : Z) (cfg : vm_config) : prog machine unit :=
  w ← gets (vm_at p);
  c ← gets (λ m, cpu_id (my m));
  (if master w =? c then vgic_init p (arch_gic cfg) else mret tt);;
  vm_sync p.

End vmm.

(** ** The stage-2 tables and VTCR_EL2 *)

Section tcr.
Context `{GicDevice}.
Variable id_aa64mmfr0 : Z.

(** What the hardware walks with a value of VTCR_EL2 and 4 KB pages: the levels of the walk and the bits of
    the addresses. *)
Definition hw_levels (vtcr : Z) : Z := 2 + bit_extract 64 vtcr VTCR_SL0_OFF 2.
Definition hw_bits (vtcr : Z) : Z := 64 - bit_extract 64 vtcr 0 6.

(** The tables the hypervisor builds are what the hardware walks. *)
Definition tables_match (m : machine) : Prop :=
  dscr_ok (vm_dscr (mm m)) ∧ lvls (vm_dscr (mm m)) = hw_levels (sr_vtcr m) ∧ hw_bits (sr_vtcr m) ≤ wdt (vm_dscr (mm m)) 0.

(** The state after a run, with the physical address range [par] of [bits] bits. *)
Definition after_tcr (par bits : Z) (m : machine) : machine :=
  let m := m <| tcr_lock := lock_cycle (tcr_lock m) |> <| min_parange := par |> <| parange := par |> in
  let m := if bits <? 44 then m <| mm ::= λ s, s <| vm_dscr ::= drop_level bits |> |> else m in
  m <| sr_vtcr := vtcr_value par bits |>.

Lemma vmm_arch_init_tcr_run par bits m :
  Z.land id_aa64mmfr0 ID_AA64MMFR0_PAR_MSK = par → parange_table !! Z.to_nat par = Some bits → par ≤ min_parange m →
  lock_free (tcr_lock m) → vmm_arch_init_tcr id_aa64mmfr0 m = Done (tt, after_tcr par bits m).
Proof.
  intros Hp Hb Hm Hl. unfold vmm_arch_init_tcr. rewrite Hp, bind_acquire by done. psteps.
  assert (min_parange m = par ∨ par < min_parange m) as [Hmin|Hmin] by lia.
  - rewrite Hmin, Z.ltb_irrefl. unfold release. psteps. rewrite Hmin, Hb. psteps. unfold after_tcr.
    destruct (bits <? 44); psteps; repeat f_equal; destruct m; cbn in Hmin; by subst.
  - destruct (Z.ltb_spec par (min_parange m)); [|lia]. unfold release. psteps. rewrite Hb. psteps. unfold after_tcr.
    destruct (bits <? 44); reflexivity.
Qed.

Lemma parange_cases par bits : 0 ≤ par → parange_table !! Z.to_nat par = Some bits →
  (par = 0 ∧ bits = 32) ∨ (par = 1 ∧ bits = 36) ∨ (par = 2 ∧ bits = 40) ∨ (par = 3 ∧ bits = 42) ∨ (par = 4 ∧ bits = 44) ∨
  (par = 5 ∧ bits = 48).
Proof.
  intros Hp Hb. pose proof (lookup_lt_Some _ _ _ Hb) as Hl. simpl in Hl.
  assert (par = 0 ∨ par = 1 ∨ par = 2 ∨ par = 3 ∨ par = 4 ∨ par = 5) as [-> |[-> |[-> |[-> |[-> | ->]]]]] by lia;
    injection Hb as <-; tauto.
Qed.

(** The descriptor the loop of [vmm_arch_init_tcr] makes of the first one is well formed. *)
Lemma drop_level_ok bits : 30 < bits ≤ 48 → dscr_ok (drop_level bits armv8_pt_s2_dscr).
Proof.
  intros Hb. constructor.
  - vm_compute. split; discriminate.
  - intros l Hl. change (lvls _) with 3 in *. assert (l = 0 ∨ l = 1 ∨ l = 2) as [-> |[-> | ->]] by lia; reflexivity.
  - intros l Hl. change (lvls _) with 3 in *. assert (l = 1 ∨ l = 2) as [-> | ->] by lia; reflexivity.
  - change (off _ 0) with 30. change (wdt _ 0) with bits. lia.
Qed.

#[local] Ltac match_up :=
  split; [first [apply armv8_pt_dscr_ok|apply drop_level_ok; lia]|split; [vm_compute; reflexivity|apply Z.leb_le; vm_compute; reflexivity]].

(** C28: the first CPU makes the stage-2 descriptor and VTCR_EL2 agree, for every physical address range
    of the table above 32 bits: as many levels as the hardware walks, and all the addresses it translates;
    for 32 bits the mask of T0SZ leaves 0, and the hardware is told to translate 64 bits.
    Another CPU that runs the function, as each does, keeps that only for ranges of 44 bits and
    more: below, it drops a second level, and the tables are no longer those the hardware walks. *)
Theorem vmm_arch_init_tcr_matches par bits m :
  Z.land id_aa64mmfr0 ID_AA64MMFR0_PAR_MSK = par → parange_table !! Z.to_nat par = Some bits → par ≤ min_parange m →
  lock_free (tcr_lock m) → vm_dscr (mm m) = armv8_pt_s2_dscr →
  ∃ m1 m2, vmm_arch_init_tcr id_aa64mmfr0 m = Done (tt, m1) ∧ vmm_arch_init_tcr id_aa64mmfr0 m1 = Done (tt, m2) ∧
    (32 < bits → tables_match m1) ∧ (bits = 32 → hw_bits (sr_vtcr m1) = 64) ∧
    (44 ≤ bits → tables_match m2) ∧ (bits < 44 → ¬ tables_match m2).
Proof.
  intros Hp Hb Hm Hl Hd. assert (0 ≤ par) as Hp0 by (rewrite <-Hp; apply Z.land_nonneg; right; vm_compute; discriminate).
  exists (after_tcr par bits m), (after_tcr par bits (after_tcr par bits m)).
  split; [by apply vmm_arch_init_tcr_run|]. split.
  { apply vmm_arch_init_tcr_run; [done|done| |]; unfold after_tcr; destruct (bits <? 44); rsimpl; [lia|lia|..];
      exact (lock_cycle_free (tcr_lock m)). }
  unfold tables_match.
  assert (∀ k, sr_vtcr (after_tcr par bits k) = vtcr_value par bits) as Ev by (intros k; unfold after_tcr; by destruct (bits <? 44)).
  assert (∀ k, vm_dscr (mm (after_tcr par bits k)) = if bits <? 44 then drop_level bits (vm_dscr (mm k)) else vm_dscr (mm k)) as Em
    by (intros k; unfold after_tcr; by destruct (bits <? 44)).
  rewrite !Ev, !Em, Hd. clear Ev Em.
  destruct (parange_cases par bits Hp0 Hb) as [[-> ->]|[[-> ->]|[[-> ->]|[[-> ->]|[[-> ->]|[-> ->]]]]]];
    (split; [intros ?; try lia|split; [intros ?; try lia|split; intros ?; try lia]]);
    first [match_up|intros (_ & H1 & H2); vm_compute in H1; first [discriminate H1|apply Z.leb_le in H2; vm_compute in H2; discriminate H2]|vm_compute; reflexivity].
Qed.

End tcr.

(** A machine with 40-bit physical addresses. *)
Lemma vmm_arch_init_tcr_matches_witness :
  ∃ m1 m2, vmm_arch_init_tcr 2 sample_machine = Done (tt, m1) ∧ vmm_arch_init_tcr 2 m1 = Done (tt, m2) ∧
    tables_match m1 ∧ ¬ tables_match m2.
Proof.
  destruct (vmm_arch_init_tcr_matches 2 2 40 sample_machine) as (m1 & m2 & E1 & E2 & H1 & _ & _ & H2).
  - reflexivity.
  - reflexivity.
  - vm_compute. discriminate.
  - split; [reflexivity|]. vm_compute. split; [discriminate|reflexivity].
  - vm_compute. reflexivity.
  - exists m1, m2. split; [exact E1|]. split; [exact E2|]. split; [apply H1; reflexivity|]. apply H2. reflexivity.
Defined.
