(* ===== verification/Boot.v ===== *)
(** * The machine this repository configures, and how it starts: src/config.c,
    src/plat/qemu-aarch64-virt/platform.c, src/core/inc/platform.h, the descriptors of
    src/arch/aarch64/inc/arch_platform.h, and src/main.c

    The images of the guests are not part of the source: the linker's symbols for them are the
    variables of the section.  The theorems are about the whole start: to which VM every interrupt of
    a device goes, for any configuration, and one start from [main] to the first guest, run on the
    device of the examples with memory of arbitrary contents. *)
From S2P Require Import Prelude Util Bits Bitmap Spinlock MemString ListHead Emul PagePool PageTable Mmu MmuMap.
From S2P Require Import Cpu Ipi Vcpu Gic Vgic VgicLr VgicEmul Sched Machine Interrupts Rq Vmm.

(** ** platform.h and platform.c *)

Record gic_dscrp := { p_gicc_addr : Z; p_gich_addr : Z; p_gicv_addr : Z; p_gicd_addr : Z; p_gicr_addr : Z; maintenance_id : Z }.
Record smmu_dscrp := { smmu_base : Z; interrupt_id : Z; global_mask : Z }.
Record arch_platform := { p_gic : gic_dscrp; p_smmu : smmu_dscrp }.
Record mem_region := { region_base : Z; region_size : Z; region_pool : page_pool }.
Record platform_t := {
  plat_cpu_num : Z;
  cpu_master_fixed : bool;
  cpu_master : Z;
  region_num : Z;
  regions : list mem_region;
  console_base : Z;
  p_arch : arch_platform
}.

(** The members the initialiser does not name are zero. *)
Definition platform : platform_t := {|
  plat_cpu_num := 0;
  cpu_master_fixed := false;
  cpu_master := 0;
  region_num := 0;
  regions := [];
  console_base := 0;
  p_arch := {|
    p_gic := {|
      p_gicd_addr := 0x08000000;
      p_gicc_addr := 0x08010000;
      p_gich_addr := 0x08030000;
      p_gicv_addr := 0x08040000;
      p_gicr_addr := 0x080A0000;
      maintenance_id := 25 |};
    p_smmu := {| smmu_base := 0x9050000; interrupt_id := 187; global_mask := 0 |} |} |}.

(** ** mem_cfg.h: where things are in physical memory, as main.ld lays them out *)

Definition STACK_SIZE : Z := PAGE_SIZE.
Definition STACK_OFF : Z := PAGE_SIZE.
Definition CPU_SIZE : Z := 2 * PAGE_SIZE.
Definition MAX_NUM_CPU : Z := 8.
Definition AVISOR_BASE : Z := 0x40000000.
Definition CPU_BASE : Z := 0x50000000.
Definition VM_BASE : Z := CPU_BASE + MAX_NUM_CPU * CPU_SIZE.
Definition VM_SIZE : Z := 0x40000000.
Definition RQ_REGION_SIZE : Z := 0x10000000.

(** ** config.c

    [nr_devs] and [interrupt_num] of a device are the lengths of the lists.  [gicr_addr] of a VM is read
    only in the build with GICv3 and no member of [vgic_dscrp] here. *)

Section config.
Variable vm1_vm_beg vm1_vm_size vm2_vm_beg vm2_vm_size dtb1_dtb_beg dtb1_dtb_size : Z.

Definition vm_configs : list vm_config := [
  {| base_addr := 0x40100000;
     load_addr := vm1_vm_beg;
     image_size := vm1_vm_size;
     entry := 0x0000000040100cd0;
     dmem_size := 0x8000000;
     cfg_nr_cpus := 4;
     devs := [
       {| dev_id := 1; dev_pa := 0x1C0B0000; dev_va := 0x1c090000; dev_size := 0x10000; dev_interrupts := [39] |};
       {| dev_id := 2; dev_pa := 0; dev_va := 0; dev_size := 0; dev_interrupts := [27] |} ];
     cfg_rq_vm := {| rqc_size := 1024 * 1024; rqc_vbase := 0x10000000 |};
     arch_gic := {| gicd_addr := 0x08000000; gicc_addr := 0x08010000; interrupt_num := 0 |} |};
  {| base_addr := 0x40100000;
     load_addr := vm2_vm_beg;
     image_size := vm2_vm_size;
     entry := 0x0000000040100cd0;
     dmem_size := 0x8000000;
     cfg_nr_cpus := 4;
     devs := [
       {| dev_id := 1; dev_pa := 0x1C0B0000; dev_va := 0x1c090000; dev_size := 0x10000; dev_interrupts := [40] |};
       {| dev_id := 2; dev_pa := 0; dev_va := 0; dev_size := 0; dev_interrupts := [27] |} ];
     cfg_rq_vm := {| rqc_size := 1024 * 1024; rqc_vbase := 0x10000000 |};
     arch_gic := {| gicd_addr := 0x08000000; gicc_addr := 0x08010000; interrupt_num := 0 |} |};
  {| base_addr := 0x40100000;
     load_addr := vm2_vm_beg;
     image_size := vm2_vm_size;
     entry := 0x0000000040100cd0;
     dmem_size := 0x8000000;
     cfg_nr_cpus := 4;
     devs := [
       {| dev_id := 1; dev_pa := 0x1C0B0000; dev_va := 0x1c090000; dev_size := 0x10000; dev_interrupts := [41] |};
       {| dev_id := 2; dev_pa := 0; dev_va := 0; dev_size := 0; dev_interrupts := [27] |} ];
     cfg_rq_vm := {| rqc_size := 1024 * 1024; rqc_vbase := 0x10000000 |};
     arch_gic := {| gicd_addr := 0x08000000; gicc_addr := 0x08010000; interrupt_num := 0 |} |};
  {| base_addr := 0x40100000;
     load_addr := vm2_vm_beg;
     image_size := vm2_vm_size;
     entry := 0x0000000040100cd0;
     dmem_size := 0x8000000;
     cfg_nr_cpus := 4;
     devs := [
       {| dev_id := 1; dev_pa := 0x1C0B0000; dev_va := 0x1c090000; dev_size := 0x10000; dev_interrupts := [42] |};
       {| dev_id := 2; dev_pa := 0; dev_va := 0; dev_size := 0; dev_interrupts := [27] |} ];
     cfg_rq_vm := {| rqc_size := 1024 * 1024; rqc_vbase := 0x10000000 |};
     arch_gic := {| gicd_addr := 0x08000000; gicc_addr := 0x08010000; interrupt_num := 0 |} |}
].

(** No code reads the array at an index past [nr_vms]. *)
Definition zero_config : vm_config :=
  {| base_addr := 0; load_addr := 0; image_size := 0; entry := 0; dmem_size := 0; cfg_nr_cpus := 0; devs := [];
     cfg_rq_vm := {| rqc_size := 0; rqc_vbase := 0 |}; arch_gic := {| gicd_addr := 0; gicc_addr := 0; interrupt_num := 0 |} |}.

Definition config : Machine.config := {|
  cfg_cpus := 2;
  nr_vms := 4;
  config_vm := λ i, nth (Z.to_nat i) vm_configs zero_config;
  dtb := {| dtb_base_addr := 0x40000000; dtb_load_addr := dtb1_dtb_beg; dtb_size := dtb1_dtb_size |}
|}.

(** The guest addresses a VM of the configuration uses, with their sizes: the emulated distributor, the virtual
    interface, the shared queue, the devices with memory, the device tree, and the image with the memory after it. *)
Definition guest_regions (conf : Machine.config) (p : Z) : list (Z * Z) :=
  let cfg := config_vm conf p in
  [(gicd_addr (arch_gic cfg), sizeof_gicd_hw); (gicc_addr (arch_gic cfg), sizeof_gicc_hw);
   (rqc_vbase (cfg_rq_vm cfg), rqc_size (cfg_rq_vm cfg))] ++
  map (λ d, (dev_va d, dev_size d)) (List.filter (λ d, negb (dev_size d =? 0)) (devs cfg)) ++
  [(dtb_base_addr (dtb conf), dtb_size (dtb conf)); (base_addr cfg, image_size cfg + dmem_size cfg)].

Fixpoint ordered (l : list (Z * Z)) : Prop :=
  match l with (a, n) :: ((b, _) :: _) as t => a + n ≤ b ∧ ordered t | _ => True end.

(** The regions of every VM are apart and aligned and end below 4 GB, which every size of physical addresses covers;
    the entry point is in the image. *)
Lemma config_guest_map p : 0 ≤ p < 4 →
  0xcd0 < vm1_vm_size ≤ 0x4000000 → 0xcd0 < vm2_vm_size ≤ 0x4000000 → 0 < dtb1_dtb_size ≤ 0x100000 →
  let cfg := config_vm config p in
  ordered (guest_regions config p) ∧ Forall (λ r, IS_ALIGNED r.1 PAGE_SIZE = true ∧ r.1 + r.2 ≤ 2 ^ 32) (guest_regions config p) ∧
  base_addr cfg ≤ entry cfg < base_addr cfg + image_size cfg.
Proof.
  intros Hp H1 H2 H3. assert (p = 0 ∨ p = 1 ∨ p = 2 ∨ p = 3) as [-> |[-> |[-> | ->]]] by lia;
    unfold guest_regions, config; cbn [config_vm]; (change (Z.to_nat 0) with 0%nat || change (Z.to_nat 1) with 1%nat ||
    change (Z.to_nat 2) with 2%nat || change (Z.to_nat 3) with 3%nat); cbn; unfold sizeof_gicd_hw, sizeof_gicc_hw.
  all: split; [lia|split; [|lia]].
  all: repeat (apply Forall_cons; split; [split; [reflexivity|cbn; lia]|]); apply Forall_nil; exact I.
Qed.

Lemma config_sizes p : 0 ≤ p < 4 → 0 ≤ vm1_vm_size ≤ 0x4000000 → 0 ≤ vm2_vm_size ≤ 0x4000000 →
  let cfg := config_vm config p in 0 ≤ image_size cfg ≤ 0x4000000 ∧ dmem_size cfg = 0x8000000 ∧ rqc_size (cfg_rq_vm cfg) = 0x100000.
Proof.
  intros Hp H1 H2. assert (p = 0 ∨ p = 1 ∨ p = 2 ∨ p = 3) as [-> |[-> |[-> | ->]]] by lia; (split; [assumption|by split]).
Qed.

Lemma pages_bound n k : 0 ≤ n ≤ k * PAGE_SIZE → k < 2 ^ 40 → 0 ≤ NUM_PAGES n ≤ k.
Proof.
  intros Hn Hk. unfold PAGE_SIZE in Hn. rewrite NUM_PAGES_ceil by (unfold PAGE_SIZE; lia). unfold PAGE_SIZE. dlia.
Qed.

(** The memory after the CPUs' holds what the configuration gives the guests, with at least 232 MB left for tables. *)
Lemma config_fits :
  0 ≤ vm1_vm_size ≤ 0x4000000 → 0 ≤ vm2_vm_size ≤ 0x4000000 → 0 ≤ dtb1_dtb_size ≤ 0x100000 →
  let given p := let cfg := config_vm config p in
    (NUM_PAGES (image_size cfg +64 dmem_size cfg) + NUM_PAGES (dtb_size (dtb config)) + NUM_PAGES (rqc_size (cfg_rq_vm cfg))) * PAGE_SIZE in
  given 0 + given 1 + given 2 + given 3 ≤ VM_SIZE - 232 * 2 ^ 20.
Proof.
  intros H1 H2 H3 given.
  assert (∀ p, 0 ≤ p < 4 → given p ≤ 0xC000000 + 0x100000 + 0x100000) as Hg.
  { intros p Hp. destruct (config_sizes p Hp H1 H2) as (Hi & Hm & Hq). unfold given. rewrite Hm, Hq.
    assert (dtb_size (dtb config) = dtb1_dtb_size) as -> by reflexivity.
    pose proof (pages_bound (image_size (config_vm config p) +64 0x8000000) 0xC000) as B1.
    pose proof (pages_bound dtb1_dtb_size 0x100) as B2. rewrite wrap_small in * by lia. unfold PAGE_SIZE in *.
    change (NUM_PAGES 0x100000) with 0x100. lia. }
  pose proof (Hg 0). pose proof (Hg 1). pose proof (Hg 2). pose proof (Hg 3). unfold VM_SIZE. lia.
Qed.

End config.

(** ** main.c *)

Section main.
Context `{GicDevice}.
Variable lay : Z → layout.
Variable conf : Machine.config.
Variable bld : build.
Variable at_s12e1w : machine → Z → Z.

(** What this CPU reads of ID_AA64MMFR0_EL1 and MPIDR_EL1; what the linker decides: the number of
    message handlers, the memory of the guests, and what is in memory after it. *)
Variable id_aa64mmfr0 mpidr handler_num mem_vm_begin mem_vm_end : Z.
Variable raw : bitmap_t.

(** [cpu_sync_barrier(&cpu_glb_sync)], with what the other CPUs do until it opens. *)
Variable glb_barrier : prog machine unit.
Variable fuel : nat.

Definition on_ipi {A} (k : prog (ipi unit) A) : prog machine A := lift_prog ipi_view put_ipi k.

(** [cpu_init] of cpu.c: [Ipi.cpu_init] and its barrier. *)
Definition cpu_init (id : Z) : prog machine unit :=
  on_ipi (Ipi.cpu_init (cfg_cpus conf) id mpidr handler_num);;
  glb_barrier.

Definition mem_init : prog machine unit :=
  on_pages (λ p, match PagePool.mem_init mem_vm_begin mem_vm_end raw p with Done p => Done (tt, p) | Halt e => Halt e end).

(** [vmm_init] ends by entering the guest: the endless loop after it is not reached.  The messages are
    not part of the machine. *)
Definition main (assign : Z → vm_assignment) (id : Z) : prog machine vcpu :=
  cpu_init id;;
  (if id =? CPU_MASTER then mem_init else mret tt);;
  glb_barrier;;
  interrupts_init (maintenance_id (p_gic (p_arch platform)));;
  vmm_init lay conf bld at_s12e1w id_aa64mmfr0 glb_barrier fuel assign.

End main.

(** ** The interrupts of the devices *)

Section assign.
Context `{GicDevice}.
#[local] Set Default Proof Using "Type".

(** The structures of interrupt [n] in the virtual controller [s]: one for each vcpu when it is private. *)
Definition is_int (lay : layout) (s : vgic) (n a : Z) : Prop :=
  if n <? GIC_CPU_PRIV
  then ∃ k, 0 ≤ k < nr_cpus (the_vm s) ∧ a = priv_interrupts lay (vcpus (the_vm s) + k) + n * sizeof_vgic_int
  else a = interrupts s + (n - GIC_CPU_PRIV) * sizeof_vgic_int.

Definition int_locks (s : vgic) : Prop := ∀ a, lock_free (ilock (ints s a)).

(** [s'] is [s] with the structures of [P] made those of hardware interrupts. *)
Definition marked (P : Z → Prop) (s s' : vgic) : Prop :=
  ∃ t, s' = s <| ints := t |> ∧ int_locks s' ∧ ∀ a, hw (t a) = true ↔ hw (ints s a) = true ∨ P a.

Lemma marked_ext P Q s s' : (∀ a, P a ↔ Q a) → marked P s s' → marked Q s s'.
Proof. intros HPQ (t & -> & Hl & Ht). exists t. split; [done|]. split; [done|]. intros a. by rewrite Ht, HPQ. Qed.

Lemma marked_none s : int_locks s → marked (λ _, False) s s.
Proof. intros Hl. exists (ints s). split; [by destruct s|]. split; [done|]. intros a. tauto. Qed.

Lemma marked_trans P Q s s1 s2 : marked P s s1 → marked Q s1 s2 → marked (λ a, P a ∨ Q a) s s2.
Proof.
  intros (t & -> & _ & Ht) (u & -> & Hl & Hu). exists u. split; [reflexivity|]. split; [exact Hl|].
  intros a. rewrite Hu. rsimpl. rewrite Ht. tauto.
Qed.

Lemma marked_is_int lay P s s' n a : marked P s s' → is_int lay s' n a ↔ is_int lay s n a.
Proof. by intros (t & -> & _). Qed.

Lemma set_hw_run q s : int_locks s → ∃ s', set_hw q s = Done (tt, s') ∧ marked (λ a, a = q) s s'.
Proof.
  intros Hl. unfold set_hw, lock_int, unlock_int, updi. unfold mbind, prog_bind at 1. rewrite spin_lock_free by apply Hl.
  cbv beta iota. psteps. eexists. split; [reflexivity|]. rsimpl. eexists. split; [reflexivity|].
  assert (∀ a, alter (λ i, i <| ilock ::= spin_unlock |>) q (alter (λ i, i <| hw := true |>) q
      (alter (λ i, i <| ilock := lock_taken (ilock (ints s q)) |>) q (ints s))) a =
    if a =? q then ints s q <| ilock := lock_cycle (ilock (ints s q)) |> <| hw := true |> else ints s a) as E.
  { intros a. destruct (Z.eqb_spec a q) as [->|Ha]; [by rewrite !alter_eq|by rewrite !alter_ne]. }
  split; intros a; rsimpl; rewrite E; destruct (Z.eqb_spec a q) as [->|Ha]; rsimpl; try tauto.
  - apply lock_cycle_free.
  - apply Hl.
Qed.

(** Whichever vcpu the caller runs for, a vcpu of the VM finds its own private interrupt. *)
Lemma private_int_of lay s n k :
  n < GIC_CPU_PRIV → k < nr_cpus (the_vm s) →
  vgic_get_int lay (vcpus (the_vm s) + k) n k s = Done (Some (priv_interrupts lay (vcpus (the_vm s) + k) + n * sizeof_vgic_int), s).
Proof.
  intros Hn Hk. unfold vgic_get_int, vm_get_vcpu. psteps. destruct (Z.ltb_spec n GIC_CPU_PRIV); [|lia].
  destruct (Z.ltb_spec k (nr_cpus (the_vm s))); [|lia]. by destruct (k =? _).
Qed.

Lemma set_hw_loop_run lay n j : n < GIC_CPU_PRIV → ∀ k s, int_locks s → 0 ≤ k → k + Z.of_nat j ≤ nr_cpus (the_vm s) →
  ∃ s', set_hw_loop lay n k j s = Done (tt, s') ∧
    marked (λ a, ∃ i, k ≤ i < k + Z.of_nat j ∧ a = priv_interrupts lay (vcpus (the_vm s) + i) + n * sizeof_vgic_int) s s'.
Proof.
  intros Hn. induction j as [|j IH]; intros k s Hl Hk Hj; cbn [set_hw_loop].
  { eexists. split; [reflexivity|]. eapply marked_ext; [|by apply marked_none]. intros a. split; [done|intros (i & ? & _); lia]. }
  psteps. unfold vm_get_vcpu at 1. destruct (Z.ltb_spec k (nr_cpus (the_vm s))); [|lia]. psteps.
  erewrite prog_bind_done by (apply private_int_of; [done|lia]).
  destruct (set_hw_run (priv_interrupts lay (vcpus (the_vm s) + k) + n * sizeof_vgic_int) s Hl) as (s1 & E1 & W1).
  erewrite prog_bind_done by exact E1. assert (the_vm s1 = the_vm s) as Evm by by destruct W1 as (t & -> & _).
  destruct (IH (k + 1) s1) as (s2 & E2 & W2); [by destruct W1 as (t & -> & Hl1 & _)|lia|rewrite Evm; lia|].
  exists s2. split; [exact E2|]. rewrite Evm in W2. eapply marked_ext; [|exact (marked_trans _ _ _ _ _ W1 W2)].
  intros a. split.
  - intros [->|(i & Hi & ->)]; [by exists k; split; [lia|]|exists i; split; [lia|done]].
  - intros (i & Hi & ->). destruct (Z.eq_dec i k) as [->|Hne]; [by left|right; exists i; split; [lia|done]].
Qed.

Lemma vgic_set_hw_run lay n s :
  int_locks s → 0 < nr_cpus (the_vm s) → GIC_MAX_SGIS ≤ n < int_num s → ∃ s', vgic_set_hw lay n s = Done (tt, s') ∧ marked (is_int lay s n) s s'.
Proof.
  intros Hl Hc [Hlo Hhi]. unfold vgic_set_hw. destruct (Z.ltb_spec n GIC_MAX_SGIS); [lia|].
  unfold is_int. destruct (Z.ltb_spec n GIC_CPU_PRIV) as [Hp|Hp]; psteps.
  - destruct (set_hw_loop_run lay n (Z.to_nat (nr_cpus (the_vm s))) Hp 0 s Hl) as (s' & E & W); [lia|lia|].
    exists s'. split; [exact E|]. eapply marked_ext; [|exact W]. intros a. by rewrite Z2Nat.id by lia.
  - unfold vm_get_vcpu. destruct (Z.ltb_spec 0 (nr_cpus (the_vm s))); [|lia]. unfold vgic_get_int. psteps.
    destruct (Z.ltb_spec n GIC_CPU_PRIV); [lia|]. destruct (Z.ltb_spec n (int_num s)); [|lia]. psteps. by apply set_hw_run.
Qed.

Variable lay : Z → layout.

Definition global (m : machine) : bitmap_t := global_interrupt_bitmap (mgic m).

(** VM [p] can be given interrupt [n]. *)
Record assignable (p n : Z) (m : machine) : Prop := {
  ag_cpus : 0 < nr_cpus (vm_at p m);
  ag_locks : int_locks (vgics m p);
  ag_range : GIC_MAX_SGIS ≤ n < int_num (vgics m p)
}.

(** [m'] is [m] with the interrupts [l] given to VM [p], as far as interrupts go. *)
Record assigned (p : Z) (l : list Z) (m m' : machine) : Prop := {
  as_global : ∀ i, 0 ≤ i → bit_at (global m') i = bit_at (global m) i || bool_decide (i ∈ l);
  as_vms : ∀ q i, 0 ≤ i → bit_at (interrupt_bitmap (vm_at q m')) i =
    bit_at (interrupt_bitmap (vm_at q m)) i || (bool_decide (q = p) && bool_decide (i ∈ l));
  as_hyp : hyp_interrupt_bitmap (mgic m') = hyp_interrupt_bitmap (mgic m);
  as_hw : ∀ q a, hw (ints (vgics m' q) a) = true ↔ hw (ints (vgics m q) a) = true ∨
    (q = p ∧ ∃ n, n ∈ l ∧ is_int (lay p) (vgic_view p 0 m) n a);
  as_assignable : ∀ q n, assignable q n m → assignable q n m';
  as_is_int : ∀ q n a, is_int (lay q) (vgic_view q 0 m') n a ↔ is_int (lay q) (vgic_view q 0 m) n a
}.

Lemma in_one (i n : Z) : bool_decide (i ∈ [n]) = (i =? n).
Proof. destruct (Z.eqb_spec i n) as [->|Hne]; [apply bool_decide_true|apply bool_decide_false]; by rewrite list_elem_of_singleton. Qed.

Lemma assigned_nil p m : assigned p [] m m.
Proof.
  split; intros; rewrite ?bool_decide_false by set_solver; rewrite ?andb_false_r, ?orb_false_r; try done.
  split; [tauto|intros [?|(_ & n & ? & _)]; [done|set_solver]].
Qed.

Lemma assigned_app p l k m m1 m2 : assigned p l m m1 → assigned p k m1 m2 → assigned p (l ++ k) m m2.
Proof.
  intros A B. split.
  - intros i Hi. rewrite (as_global _ _ _ _ B), (as_global _ _ _ _ A) by done.
    rewrite (bool_decide_ext (i ∈ l ++ k) _ (elem_of_app l k i)), bool_decide_or. by rewrite orb_assoc.
  - intros q i Hi. rewrite (as_vms _ _ _ _ B), (as_vms _ _ _ _ A) by done.
    rewrite (bool_decide_ext (i ∈ l ++ k) _ (elem_of_app l k i)), bool_decide_or. by destruct (bit_at _ _), (bool_decide (q = p)).
  - by rewrite (as_hyp _ _ _ _ B), (as_hyp _ _ _ _ A).
  - intros q a. rewrite (as_hw _ _ _ _ B), (as_hw _ _ _ _ A). split.
    + intros [[?|(-> & n & ? & ?)]|(-> & n & ? & Hi%(as_is_int _ _ _ _ A))]; [by left| |]; right; (split; [done|]);
        exists n; by rewrite elem_of_app; auto.
    + intros [?|(-> & n & [?|?]%elem_of_app & Hi)]; [by left; left|left; right|right]; (split; [done|]); exists n; [done|].
      split; [done|]. by apply (as_is_int _ _ _ _ A).
  - intros q n Hq. by apply (as_assignable _ _ _ _ B), (as_assignable _ _ _ _ A).
  - intros q n a. by rewrite (as_is_int _ _ _ _ B), (as_is_int _ _ _ _ A).
Qed.

Lemma interrupts_vm_assign_run p n m :
  assignable p n m → interrupts_arch_conflict (global m) n = false →
  ∃ m', interrupts_vm_assign lay p n m = Done (tt, m') ∧ assigned p [n] m m'.
Proof.
  intros [Hc Hl Hr] Hg. unfold interrupts_vm_assign, on_cpu_gic, lift_prog, gets, modify, mbind, prog_bind. fold (global m). rewrite Hg.
  replace (m <| mgic := mgic m |>) with m by (by destruct m).
  unfold interrupts_arch_vm_assign, on_vgic_of, lift_prog.
  destruct (vgic_set_hw_run (lay p) n (vgic_view p 0 m) Hl Hc Hr) as (s' & E & t & -> & Hlt & Ht). rewrite E.
  unfold upd_vm, modify. eexists. split; [reflexivity|].
  match goal with |- assigned _ _ _ ?x => set (m' := x) end.
  assert (∀ q, vm_at q m' = if q =? p then vm_at p m <| interrupt_bitmap ::= λ b, bitmap_set b n |> else vm_at q m) as Evm.
  { intros q. unfold m', vm_at. rsimpl. unfold put_vgic, put_ipi. rsimpl.
    destruct (Z.eqb_spec q p) as [->|Hq]; [by rewrite alter_eq, upd_eq|by rewrite alter_ne, upd_ne]. }
  assert (∀ q, vgics m' q = if q =? p then vgic_view p 0 m <| ints := t |> else vgics m q) as Evg.
  { intros q. unfold m', put_vgic, put_ipi. rsimpl. destruct (Z.eqb_spec q p) as [->|Hq]; [by rewrite upd_eq|by rewrite upd_ne]. }
  assert (mgic m' = mgic m <| global_interrupt_bitmap ::= λ b, bitmap_set b n |>) as Eg by reflexivity.
  clearbody m'. split; unfold global; rewrite ?Eg; rsimpl.
  - intros i Hi. rewrite bit_at_set by (unfold GIC_MAX_SGIS in Hr; lia). by rewrite in_one.
  - intros q i Hi. rewrite Evm, in_one. destruct (Z.eqb_spec q p) as [->|Hq]; rsimpl.
    + rewrite bit_at_set by (unfold GIC_MAX_SGIS in Hr; lia). by rewrite bool_decide_true.
    + by rewrite (bool_decide_false (q = p)), andb_false_l, orb_false_r.
  - done.
  - intros q a. rewrite Evg. destruct (Z.eqb_spec q p) as [->|Hq]; rsimpl; [|by split; [left|intros [?|[? _]]]].
    rewrite Ht. split; (intros [?|Hi]; [by left|right]); [split; [done|exists n; split; [by apply list_elem_of_singleton|done]]|].
    by destruct Hi as (_ & k & ->%list_elem_of_singleton & Hi).
  - intros q k [Ac Al Ar]. split; rewrite ?Evm, ?Evg; (destruct (Z.eqb_spec q p) as [->|Hq]; [|done]); [exact Hc|exact Hlt|exact Ar].
  - intros q k a. unfold is_int, vgic_view. rewrite Evm, Evg. by destruct (Z.eqb_spec q p) as [->|Hq].
Qed.

(** No interrupt of [l] that can conflict is repeated in it or taken already. *)
Definition fresh (l : list Z) (m : machine) : Prop :=
  NoDup (filter (λ n, GIC_CPU_PRIV < n) l) ∧ Forall (λ n, GIC_CPU_PRIV < n → bit_at (global m) n = false) l.

#[export] Instance fresh_dec l m : Decision (fresh l m).
Proof. unfold fresh. apply _. Defined.

Lemma arch_conflict_bit b n : 0 ≤ n → interrupts_arch_conflict b n = bit_at b n && (GIC_CPU_PRIV <? n).
Proof. intros Hn. unfold interrupts_arch_conflict. by rewrite bitmap_get_negb. Qed.

Lemma fresh_app p l k m m1 : Forall (λ n, 0 ≤ n) k → assigned p l m m1 → fresh (l ++ k) m ↔ fresh l m ∧ fresh k m1.
Proof.
  intros Hk A. unfold fresh. rewrite filter_app, NoDup_app, Forall_app.
  assert (Forall (λ n, GIC_CPU_PRIV < n → bit_at (global m1) n = false) k ↔
    Forall (λ n, GIC_CPU_PRIV < n → bit_at (global m) n = false) k ∧
    ∀ x, x ∈ filter (λ n, GIC_CPU_PRIV < n) l → x ∉ filter (λ n, GIC_CPU_PRIV < n) k) as ->; [|tauto].
  rewrite !Forall_forall in *. split.
  - intros Hf. split; [|intros x [Hx Hl]%list_elem_of_filter [_ Hxk]%list_elem_of_filter]; [intros n Hn Hp|];
      [specialize (Hf n Hn Hp); rewrite (as_global _ _ _ _ A) in Hf by auto; by apply orb_false_iff in Hf as [Hf _]|].
    specialize (Hf x Hxk Hx). rewrite (as_global _ _ _ _ A), bool_decide_true, orb_true_r in Hf by auto. done.
  - intros [Hf Hd] n Hn Hp. rewrite (as_global _ _ _ _ A), Hf, orb_false_l by auto. apply bool_decide_false. intros Hl.
    apply (Hd n); by apply list_elem_of_filter.
Qed.

Lemma fresh_one n m : 0 ≤ n → fresh [n] m ↔ interrupts_arch_conflict (global m) n = false.
Proof.
  intros Hn. rewrite arch_conflict_bit by done. unfold fresh. rewrite Forall_singleton, filter_cons, filter_nil.
  destruct (Z.ltb_spec GIC_CPU_PRIV n) as [Hp|Hp]; rewrite ?andb_true_r, ?andb_false_r.
  - rewrite decide_True by done. split; [intros [_ Hf]; auto|intros Hf; split; [apply NoDup_singleton|done]].
  - split; [done|intros _]. rewrite decide_False by lia. split; [constructor|lia].
Qed.

(** What the loop of [vm_init_dev] over the interrupts of a device does. *)
Lemma assign_interrupts_run p l : ∀ m, Forall (λ n, assignable p n m) l →
  (fresh l m → ∃ m', assign_interrupts lay p l m = Done (tt, m') ∧ assigned p l m m') ∧
  (¬ fresh l m → assign_interrupts lay p l m = Halt FError).
Proof.
  induction l as [|n l IH]; intros m Ha; cbn [assign_interrupts].
  { split; [intros _; eexists; split; [reflexivity|apply assigned_nil]|intros Hf; destruct Hf; split; [apply NoDup_nil_2|constructor]]. }
  apply Forall_cons in Ha as [Hn Ha].
  assert (Forall (λ n, 0 ≤ n) l) as Hl by (eapply Forall_impl; [exact Ha|intros k [_ _ Hk]; unfold GIC_MAX_SGIS in Hk; lia]).
  assert (0 ≤ n) as Hn0 by (destruct Hn as [_ _ Hk]; unfold GIC_MAX_SGIS in Hk; lia).
  destruct (interrupts_arch_conflict (global m) n) eqn:Ec.
  - split; [intros Hf; exfalso|intros _].
    + assert (fresh [n] m) as H1 by (destruct Hf as [_ [Hf _]%Forall_cons]; rewrite arch_conflict_bit in Ec by done;
        apply andb_true_iff in Ec as [Eb Ep]; apply Z.ltb_lt in Ep; rewrite Hf in Eb by done; done).
      apply fresh_one in H1; [congruence|done].
    + unfold interrupts_vm_assign, on_cpu_gic, lift_prog, gets, mbind, prog_bind. fold (global m). by rewrite Ec.
  - destruct (interrupts_vm_assign_run p n m Hn Ec) as (m1 & E & A). rewrite (prog_bind_done _ _ _ _ _ E).
    destruct (IH m1) as [IHd IHe]; [eapply Forall_impl; [exact Ha|intros k Hk; by apply (as_assignable _ _ _ _ A)]|].
    pose proof (fresh_app p [n] l m m1 Hl A) as Hf. cbn [app] in Hf. apply fresh_one in Ec; [|done].
    split; [intros F; destruct IHd as (m2 & E2 & A2); [tauto|]|intros F; apply IHe; tauto].
    exists m2. split; [exact E2|]. exact (assigned_app p [n] l m m1 m2 A A2).
Qed.

(** The devices of every VM in turn, as [vmm_create_vms] hands them out. *)
Definition vm_interrupts (cfg : vm_config) : list Z := concat (map dev_interrupts (devs cfg)).

Fixpoint assign_vms (conf : Machine.config) (i : Z) (n : nat) : prog machine unit :=
  match n with
  | O => mret tt
  | S n => assign_interrupts lay i (vm_interrupts (config_vm conf i));; assign_vms conf (i + 1) n
  end.

Fixpoint interrupts_from (conf : Machine.config) (i : Z) (n : nat) : list Z :=
  match n with O => [] | S n => vm_interrupts (config_vm conf i) ++ interrupts_from conf (i + 1) n end.

(** The interrupts of the VMs [i .. i + n) as [m'] has them, given those of [m]. *)
Record given (conf : Machine.config) (i : Z) (n : nat) (m m' : machine) : Prop := {
  gv_vms : ∀ q k, 0 ≤ k → bit_at (interrupt_bitmap (vm_at q m')) k =
    bit_at (interrupt_bitmap (vm_at q m)) k || bool_decide (i ≤ q < i + Z.of_nat n ∧ k ∈ vm_interrupts (config_vm conf q));
  gv_hyp : hyp_interrupt_bitmap (mgic m') = hyp_interrupt_bitmap (mgic m);
  gv_hw : ∀ q a, hw (ints (vgics m' q) a) = true ↔ hw (ints (vgics m q) a) = true ∨
    (i ≤ q < i + Z.of_nat n ∧ ∃ k, k ∈ vm_interrupts (config_vm conf q) ∧ is_int (lay q) (vgic_view q 0 m) k a)
}.

Lemma given_nil conf i m : given conf i 0 m m.
Proof.
  split; [|done|]; intros q k; [intros _|split; [by left|intros [?|[? _]]; [done|lia]]].
  rewrite bool_decide_false, orb_false_r; [done|]. intros [? _]. lia.
Qed.

Lemma given_cons conf i n m m1 m2 :
  assigned i (vm_interrupts (config_vm conf i)) m m1 → given conf (i + 1) n m1 m2 → given conf i (S n) m m2.
Proof.
  intros A G. split.
  - intros q k Hk. rewrite (gv_vms _ _ _ _ _ G), (as_vms _ _ _ _ A) by done. destruct (bit_at _ _); [done|]. cbn [orb].
    rewrite <-bool_decide_and, <-bool_decide_or. apply bool_decide_ext. split.
    + intros [[-> ?]|[? ?]]; (split; [lia|done]).
    + intros [Hq ?]. destruct (Z.eq_dec q i) as [->|]; [by left|right; split; [lia|done]].
  - by rewrite (gv_hyp _ _ _ _ _ G), (as_hyp _ _ _ _ A).
  - intros q a. rewrite (gv_hw _ _ _ _ _ G), (as_hw _ _ _ _ A). split.
    + intros [[?|(-> & Hx)]|(? & k & Hk & Hi%(as_is_int _ _ _ _ A))]; [by left|right; split; [lia|exact Hx]|].
      right. split; [lia|]. by exists k.
    + intros [?|(Hq & k & Hk & Hi)]; [by left; left|]. destruct (Z.eq_dec q i) as [->|]; [left; right|right].
      * split; [done|]. by exists k.
      * split; [lia|]. exists k. split; [done|]. by apply (as_is_int _ _ _ _ A).
Qed.

Lemma assign_vms_run conf n : ∀ i m,
  (∀ p k, i ≤ p < i + Z.of_nat n → k ∈ vm_interrupts (config_vm conf p) → assignable p k m) →
  (fresh (interrupts_from conf i n) m → ∃ m', assign_vms conf i n m = Done (tt, m') ∧ given conf i n m m') ∧
  (¬ fresh (interrupts_from conf i n) m → assign_vms conf i n m = Halt FError).
Proof.
  induction n as [|n IH]; intros i m Ha; cbn [assign_vms interrupts_from].
  { split; [intros _; eexists; split; [reflexivity|apply given_nil]|intros Hf; destruct Hf; split; [apply NoDup_nil_2|constructor]]. }
  destruct (assign_interrupts_run i (vm_interrupts (config_vm conf i)) m) as [Hok Herr].
  { apply Forall_forall. intros k Hk. apply Ha; [lia|done]. }
  assert (∀ j x, i ≤ j → j + Z.of_nat x ≤ i + Z.of_nat (S n) → Forall (λ k, 0 ≤ k) (interrupts_from conf j x)) as Hpos.
  { intros j x. revert j. induction x as [|x IHx]; intros j Hj Hx; cbn [interrupts_from]; [constructor|].
    apply Forall_app. split; [|apply IHx; lia]. apply Forall_forall. intros k Hk.
    destruct (Ha j k) as [_ _ Hr]; [lia|done|]. unfold GIC_MAX_SGIS in Hr. lia. }
  destruct (decide (fresh (vm_interrupts (config_vm conf i)) m)) as [Hf|Hf].
  - destruct (Hok Hf) as (m1 & E & A). rewrite (prog_bind_done _ _ _ _ _ E).
    rewrite (fresh_app i _ _ m m1 (Hpos (i + 1) n ltac:(lia) ltac:(lia)) A).
    destruct (IH (i + 1) m1) as [IHd IHe]; [intros p k Hp Hk; apply (as_assignable _ _ _ _ A), Ha; [lia|done]|].
    split; [intros [_ F]|intros F; apply IHe; tauto].
    destruct (IHd F) as (m2 & E2 & G). exists m2. split; [exact E2|]. by apply (given_cons _ _ _ _ m1).
  - split; [intros [F1 F2]; destruct Hf|intros _; unfold mbind, prog_bind; by rewrite (Herr Hf)].
    rewrite filter_app in F1. apply NoDup_app in F1 as [F1 _]. apply Forall_app in F2 as [F2 _]. by split.
Qed.

Lemma in_interrupts_from conf k n : ∀ i p, i ≤ p < i + Z.of_nat n → k ∈ vm_interrupts (config_vm conf p) → k ∈ interrupts_from conf i n.
Proof.
  induction n as [|n IH]; intros i p Hp Hk; [lia|]. cbn [interrupts_from]. apply elem_of_app.
  destruct (Z.eq_dec p i) as [->|]; [by left|right; apply (IH _ p); [lia|done]].
Qed.

Lemma fresh_exclusive conf k n m : GIC_CPU_PRIV < k → ∀ i p q, fresh (interrupts_from conf i n) m →
  i ≤ p < i + Z.of_nat n → i ≤ q < i + Z.of_nat n →
  k ∈ vm_interrupts (config_vm conf p) → k ∈ vm_interrupts (config_vm conf q) → p = q.
Proof.
  intros Hk. induction n as [|n IH]; intros i p q Hf Hp Hq Hkp Hkq; [lia|]. cbn [interrupts_from] in Hf.
  destruct Hf as [F1 F2]. rewrite filter_app in F1. apply NoDup_app in F1 as (F3 & Fd & F4). apply Forall_app in F2 as [_ F2].
  assert (∀ r, i + 1 ≤ r < i + 1 + Z.of_nat n → k ∈ vm_interrupts (config_vm conf r) → k ∉ vm_interrupts (config_vm conf i)) as Hne.
  { intros r Hr Hkr Hki. apply (Fd k); apply list_elem_of_filter; (split; [done|]); [done|]. by apply (in_interrupts_from _ _ _ _ r). }
  destruct (Z.eq_dec p i) as [->|], (Z.eq_dec q i) as [->|]; [done| | |].
  - by destruct (Hne q ltac:(lia) Hkq).
  - by destruct (Hne p ltac:(lia) Hkp).
  - apply (IH (i + 1)); try done; try lia.
Qed.


End assign.


(** ** A start, from main to the first guest

    The configuration of this repository with one CPU, images of 64 bytes and less memory, so that it can be run:
    everything else is as configured.  The memory [r], which holds the images, is arbitrary. *)
Definition small_config : Machine.config :=
  let conf := config 0x70000000 0x40 0x71000000 0x40 0x72000000 0x40 in
  {| cfg_cpus := 1;
     nr_vms := nr_vms conf;
     config_vm := λ p, let c := config_vm conf p in
       {| base_addr := base_addr c; load_addr := load_addr c; image_size := image_size c; entry := entry c; dmem_size := 0x2000;
          cfg_nr_cpus := cfg_nr_cpus c; devs := devs c;
          cfg_rq_vm := {| rqc_vbase := rqc_vbase (cfg_rq_vm c); rqc_size := 0x1000 |}; arch_gic := arch_gic c |};
     dtb := dtb conf |}.

Definition small_build : build :=
  {| sizeof_vm := 0x800; sizeof_vcpu := 0x600; alignof_vcpu := 8; first_vcpu := λ p, 4 + 4 * p;
     gicv_addr := p_gicv_addr (p_gic (p_arch platform)) |}.

(** Everything a CPU finds before it runs: the interrupt controller has 256 interrupts. *)
Definition power_on (r : bytes) : @machine RegisterFile := sample_machine
  <| ram := r |>
  <| mgic ::= λ g, g <| dev ::= λ d : @device RegisterFile, <[GICD_TYPER := 7]> d |> |>
  <| sch ::= λ d, d <| rq_ptr := None |> <| multi_queue_memory := λ _, None |>
       <| cpu_table := λ _, {| cpu_id := 0; handling_msgs := false; cpu_vcpu := None; cpu_mpidr := 0; cpu_rqnode := None; flag := 0;
                               sr_vttbr := 0; sr_vmpidr := 0 |} |> |>.

(** The AT instruction: a walk of the tables VTTBR_EL2 names. *)
Definition walk_s12e1w (m : @machine RegisterFile) (va : Z) : Z :=
  match translate (phys (mm m)) (vm_dscr (mm m)) (Z.land (sr_vttbr (my m)) (u64 (Z.lnot VTTBR_VMID_MSK))) va with
  | Some (pa, _) => Z.land pa PAR_PA_MSK
  | None => PAR_F
  end.

Definition no_assignment : Z → vm_assignment :=
  λ _, {| va_lock := SPINLOCK_INITVAL; va_master := false; va_ncpus := 0;
          vm_alloc := {| va_base := 0; va_size := 0; va_vm := 0; va_vcpus := 0 |} |}.

(** CPU 0 with 40-bit physical addresses. *)
Definition boot (r : bytes) : outcome (vcpu * @machine RegisterFile) :=
  main (λ _, sample_layout) small_config small_build walk_s12e1w 2 0x80000000 1 VM_BASE (VM_BASE + VM_SIZE) (λ _, 0) (mret tt) 64
    no_assignment 0 (power_on r).

(** The physical address of guest address [va] of VM [p]. *)
Definition guest (m : @machine RegisterFile) (p va : Z) : option Z :=
  fst <$> translate (phys (mm m)) (vm_dscr (mm m)) (pt_root (spaces m p)) va.

(** The bytes VM [p] sees from [va] on. *)
Definition guest_bytes (m : @machine RegisterFile) (p va : Z) (n : nat) : option (list Z) :=
  (λ pa, map (λ i, ram m (pa + i)) (seqZ 0 (Z.of_nat n))) <$> guest m p va.

Definition image (r : bytes) (a : Z) (n : nat) : list Z := map (λ i, r (a + i)) (seqZ 0 (Z.of_nat n)).

(** Pages of the guests' memory: the number of a VM and an address in its image, its memory or its device tree. *)
Definition own_pages : list (Z * Z) := list_prod [0; 1; 2; 3] [0x40100000; 0x40101000; 0x40102000; 0x40000000].

(** What the theorem below says of the end of a start, as a value. *)
Definition report (x : outcome (vcpu * @machine RegisterFile)) :=
  match x with
  | Halt _ => None
  | Done (v, m) =>
      Some ((elr_el2 (regs v), vcpu_id v, vcpu_vm v, Z.shiftr (sr_vttbr (my m)) VTTBR_VMID_OFF),
        map (λ p, (guest_bytes m p 0x40100000 64, guest_bytes m p 0x40000000 64,
                   (guest m p 0x1c090000, guest m p 0x08010000, guest m p 0x08000000, guest m p 0x10000000),
                   List.filter (λ i, vm_has_interrupt (vm_at p m) i) (seqZ 0 64))) [0; 1; 2; 3],
        map (λ '(p, va), guest m p va) own_pages)
  end.

Definition pages_given : list Z :=
  [0x50020000; 0x50021000; 0x50022000; 0x50023000; 0x50033000; 0x50034000; 0x50035000; 0x50036000; 0x50046000; 0x50047000; 0x50048000; 0x50049000; 0x5005c000; 0x5005d000; 0x5005e000; 0x5005f000].

Lemma boot_report r : report (boot r) = Some ((0x40100cd0, 0, Some 3, 3),
  map (λ p, (Some (image r (load_addr (config_vm small_config p)) 64), Some (image r (dtb_load_addr (dtb small_config)) 64),
             (Some 0x1C0B0000, Some 0x08040000, None, None), [27; 39 + p])) [0; 1; 2; 3],
  map Some pages_given).
Proof. vm_compute. reflexivity. Qed.

Lemma some_triple {A B C} (a a' : A) (b b' : B) (c c' : C) : Some (a, b, c) = Some (a', b', c') → a = a' ∧ b = b' ∧ c = c'.
Proof. by intros [= -> -> ->]. Qed.

Lemma small_config_addrs p : 0 ≤ p < 4 → let cfg := config_vm small_config p in
  base_addr cfg = 0x40100000 ∧ gicc_addr (arch_gic cfg) = 0x08010000 ∧ gicd_addr (arch_gic cfg) = 0x08000000 ∧
  rqc_vbase (cfg_rq_vm cfg) = 0x10000000.
Proof. intros Hp. assert (p = 0 ∨ p = 1 ∨ p = 2 ∨ p = 3) as [-> |[-> |[-> | ->]]] by lia; done. Qed.

Lemma in_two (i a b : Z) : i ∈ [a; b] ↔ i = a ∨ i = b.
Proof. by rewrite elem_of_cons, list_elem_of_singleton. Qed.

Lemma pages_given_nodup : NoDup pages_given.
Proof. apply (bool_decide_unpack _). vm_compute. exact I. Qed.

