(* ===== verification/Aborts.v ===== *)
(** * Traps from the guest: src/arch/aarch64/aborts.c, src/arch/aarch64/hypercall.c

    A synchronous exception of a guest is a data abort, answered by the emulated device that covers
    the address or by an access to memory, or a hypercall, whose number indexes a table. *)
From S2P Require Import Prelude Util Bits Bitmap Spinlock MemString ListHead Emul PagePool PageTable Mmu.
From S2P Require Import Cpu Ipi Vcpu Gic Vgic VgicEmul Sched Machine Rq Lcm.

Definition ESR_ISS_OFF : Z := 0.
Definition ESR_ISS_LEN : Z := 25.
Definition ESR_IL_OFF : Z := 25.
Definition ESR_IL_LEN : Z := 1.
Definition ESR_EC_OFF : Z := 26.
Definition ESR_EC_LEN : Z := 6.
Definition ESR_EC_HVC64 : Z := 0x16.
Definition ESR_EC_DALEL : Z := 0x24.
Definition ESR_ISS_DA_DSFC_OFF : Z := 0.
Definition ESR_ISS_DA_DSFC_LEN : Z := 6.
Definition ESR_ISS_DA_WnR_BIT : Z := Z.shiftl 1 6.
Definition ESR_ISS_DA_FnV_BIT : Z := Z.shiftl 1 10.
Definition ESR_ISS_DA_SRT_OFF : Z := 16.
Definition ESR_ISS_DA_SRT_LEN : Z := 5.
Definition ESR_ISS_DA_SSE_OFF : Z := 21.
Definition ESR_ISS_DA_SSE_LEN : Z := 1.
Definition ESR_ISS_DA_SAS_OFF : Z := 22.
Definition ESR_ISS_DA_SAS_LEN : Z := 2.
Definition ESR_ISS_DA_ISV_BIT : Z := Z.shiftl 1 24.
Definition ESR_ISS_DA_DSFC_TRNSLT : Z := 0x4.
Definition ESR_ISS_DA_DSFC_PERMIS : Z := 0xC.

(** [HYPERCALL_TYPE]. *)
Definition HYPERCALL_ISS_HALT : Z := 0.
Definition HYPERCALL_ISS_CHECKPOINT_SNAPSHOT : Z := 1.
Definition HYPERCALL_ISS_RESTORE_SNAPSHOT : Z := 2.
Definition HYPERCALL_ISS_RQ_OPEN : Z := 3.
Definition HYPERCALL_ISS_RQ_CLOSE : Z := 4.
Definition HYPERCALL_ISS_RQ_ATTACH : Z := 5.
Definition HYPERCALL_ISS_RQ_DETACH : Z := 6.
Definition HYPERCALL_ISS_SCHE_START : Z := 7.
Definition HYPERCALL_ISS_IO_START : Z := 8.

Section aborts.
Context `{GicDevice}.
Variable lay : Z → layout.
Variable conf : config.
Variable at_s12e1w : machine → Z → Z.
Variable sizeof_snapshot sizeof_snapshot_pool : Z.
Variable fuel : nat.

(** ** Accesses to memory *)

Definition on_ram {A} (k : prog bytes A) : prog machine A := lift_prog ram (λ r m, m <| ram := r |>) k.

Definition addr_write (a width val : Z) : prog bytes unit :=
  match width with
  | 1 => store_word 1 a val
  | 2 => store_word 2 a val
  | 4 => store_word 4 a val
  | 8 => store_word 8 a val
  | _ => halt FError
  end.

Definition addr_read (a width : Z) (sign_ext : bool) : prog bytes Z :=
  match width with
  | 1 => load_word 1 sign_ext a
  | 2 => load_word 2 sign_ext a
  | 4 => load_word 4 sign_ext a
  | 8 => load_word 8 false a
  | _ => halt FError
  end.

(** ** Data aborts *)

Definition da_width (iss : Z) : Z := Z.shiftl 1 (bit_extract 64 iss ESR_ISS_DA_SAS_OFF ESR_ISS_DA_SAS_LEN).
Definition da_write (iss : Z) : bool := negb (Z.land iss ESR_ISS_DA_WnR_BIT =? 0).
Definition da_reg (iss : Z) : Z := bit_extract 64 iss ESR_ISS_DA_SRT_OFF ESR_ISS_DA_SRT_LEN.
Definition da_sign_ext (iss : Z) : bool := negb (bit_extract 64 iss ESR_ISS_DA_SSE_OFF ESR_ISS_DA_SSE_LEN =? 0).

(** The fields of [struct emul_access] that [aborts_data_lower] leaves uninitialised are read by no
    handler. *)
Definition da_access (iss far : Z) : emul_access := {|
  addr := far; write := da_write iss; sign_ext := da_sign_ext iss; width := da_width iss; reg := da_reg iss;
  reg_high := 0; multi_reg := false; reg_width := 0 |}.

Definition get_handler (p a : Z) : prog machine (option emul_handler) := λ m,
  let s := vgics m p in
  match vm_emul_get_mem (emul_mems s) (Vgic.links s) (emul_mem_list (lay p)) a fuel with
  | Done h => Done (h, m)
  | Halt e => Halt e
  end.

(** The access itself, where no handler covers the address. *)
Definition raw_access (v iss far : Z) : prog machine unit :=
  let width := da_width iss in
  let reg := da_reg iss in
  if da_write iss then
    reg_val ← gets (λ m, vcpu_readreg (vcpu_at v m) reg);
    let val := Z.land reg_val (BIT_MASK 64 0 (width *64 8)) in
    on_ram (addr_write far width val)
  else
    val ← on_ram (addr_read far width (da_sign_ext iss));
    upd_vcpu v (λ u, vcpu_writereg u reg val).

Definition aborts_data_lower (iss far il : Z) : prog machine unit :=
  if (Z.land iss ESR_ISS_DA_ISV_BIT =? 0) || negb (Z.land iss ESR_ISS_DA_FnV_BIT =? 0) then halt FError
  else
    let DSFC := Z.land (bit_extract 64 iss ESR_ISS_DA_DSFC_OFF ESR_ISS_DA_DSFC_LEN) (Z.shiftl 0xf 2) in
    if negb (DSFC =? ESR_ISS_DA_DSFC_TRNSLT) && negb (DSFC =? ESR_ISS_DA_DSFC_PERMIS) then halt FError
    else
      p ← CURRENT_VM;
      v ← current_vcpu;
      h ← get_handler p far;
      (match h with
       | None => raw_access v iss far
       | Some vgicd_emul_handler_id => _ ← on_vgic (vgicd_emul_handler (lay p) (da_access iss far)); mret tt
       end);;
      let pc_step := 2 + 2 * il in
      v ← current_vcpu;
      upd_vcpu v (λ u, vcpu_writepc u (vcpu_readpc u +64 pc_step)).

(** ** Hypercalls *)

(** The table, with every handler at its number. *)
Definition hypercall_handlers : Z → option (Z → Z → Z → prog machine unit) :=
  <[HYPERCALL_ISS_HALT := Some (λ arg0 _ _, guest_halt_hanlder lay conf at_s12e1w sizeof_snapshot fuel arg0)]>
  (<[HYPERCALL_ISS_CHECKPOINT_SNAPSHOT := Some (λ _ _ _,
       checkpoint_snapshot_hanlder lay conf at_s12e1w sizeof_snapshot sizeof_snapshot_pool fuel)]>
  (<[HYPERCALL_ISS_RESTORE_SNAPSHOT := Some (λ arg0 _ _, restore_snapshot_hanlder lay conf at_s12e1w sizeof_snapshot fuel arg0)]>
  (<[HYPERCALL_ISS_RQ_OPEN := Some (λ _ _ _, rq_open_hanlder at_s12e1w fuel)]>
  (<[HYPERCALL_ISS_RQ_CLOSE := Some (λ _ _ _, rq_close_hanlder fuel)]>
  (<[HYPERCALL_ISS_RQ_ATTACH := Some (λ arg0 arg1 _, rq_attach_hanlder at_s12e1w fuel arg0 arg1)]>
  (<[HYPERCALL_ISS_RQ_DETACH := Some (λ arg0 arg1 _, rq_detach_hanlder fuel arg0 arg1)]>
  (<[HYPERCALL_ISS_SCHE_START := Some (λ arg0 arg1 _, c ← gets me; on_sched (sched_start_handler c arg0 arg1))]>
  (<[HYPERCALL_ISS_IO_START := Some (λ _ _ _, c ← gets me; on_sched (sched_io_handler c))]>
   (λ _, None))))))))).

(** The table has nine entries: past them the code calls whatever follows it in memory. *)
Definition hypercall_handler (iss arg0 arg1 arg2 : Z) : prog machine unit :=
  match hypercall_handlers iss with
  | Some h => h arg0 arg1 arg2
  | None => halt FError
  end.

Definition aborts_sync_hanlder (hsr far : Z) : prog machine unit :=
  let ec := bit_extract 64 hsr ESR_EC_OFF ESR_EC_LEN in
  let iss := bit_extract 64 hsr ESR_ISS_OFF ESR_ISS_LEN in
  let il := bit_extract 64 hsr ESR_IL_OFF ESR_IL_LEN in
  (if ec =? ESR_EC_DALEL then aborts_data_lower iss far il else mret tt);;
  (if ec =? ESR_EC_HVC64 then
     v ← current_vcpu;
     u ← gets (vcpu_at v);
     hypercall_handler iss (vcpu_readreg u 0) (vcpu_readreg u 1) (vcpu_readreg u 2)
   else mret tt).

End aborts.

(** ** What a data abort does *)

(** The value of ESR_EL2 the architecture gives for a data abort of a guest's load or store of
    [2 ^ sas] bytes to or from register [srt]. *)
Definition esr_data_abort (sas srt : Z) (sse wnr : bool) (il dfsc : Z) : Z :=
  Z.lor (Z.lor (Z.lor (Z.lor (Z.lor (Z.lor (Z.lor (Z.shiftl ESR_EC_DALEL 26) (Z.shiftl il 25)) (Z.shiftl 1 24)) (Z.shiftl sas 22))
    (Z.shiftl (Z.b2z sse) 21)) (Z.shiftl srt 16)) (Z.shiftl (Z.b2z wnr) 6)) dfsc.

(** Translation faults and permission faults, with their level. *)
Definition stage2_faults : list Z := [4; 5; 6; 7; 12; 13; 14; 15].

Definition iss_of (hsr : Z) : Z := bit_extract 64 hsr ESR_ISS_OFF ESR_ISS_LEN.

(** Everything the handler reads from the register. *)
Definition decoded (hsr : Z) : Z * Z * bool * bool * bool * (Z * Z) * (bool * bool) :=
  let iss := iss_of hsr in
  (bit_extract 64 hsr ESR_EC_OFF ESR_EC_LEN, bit_extract 64 hsr ESR_IL_OFF ESR_IL_LEN, Z.land iss ESR_ISS_DA_ISV_BIT =? 0,
   negb (Z.land iss ESR_ISS_DA_FnV_BIT =? 0),
   let d := Z.land (bit_extract 64 iss ESR_ISS_DA_DSFC_OFF ESR_ISS_DA_DSFC_LEN) (Z.shiftl 0xf 2) in
   negb (d =? ESR_ISS_DA_DSFC_TRNSLT) && negb (d =? ESR_ISS_DA_DSFC_PERMIS),
   (da_width iss, da_reg iss), (da_sign_ext iss, da_write iss)).

Definition all_decode (g : Z → Z → Z → Z → bool → bool → bool) : bool :=
  forallb (λ sas, forallb (λ srt, forallb (λ il, forallb (λ dfsc, forallb (λ sse, forallb (λ wnr,
    g sas srt il dfsc sse wnr) [true; false]) [true; false]) stage2_faults) (seqZ 0 2)) (seqZ 0 32)) (seqZ 0 4).

Lemma forallb_in {A} (f : A → bool) l a : forallb f l = true → In a l → f a = true.
Proof. intros H Ha. by apply (proj1 (forallb_forall f l) H). Qed.

Lemma in_range_seq n i : 0 ≤ i < n → In i (seqZ 0 n).
Proof. intros. apply list_elem_of_In, elem_of_seqZ. lia. Qed.

Lemma in_bools b : In b [true; false].
Proof. destruct b; simpl; tauto. Qed.

Lemma all_decode_at g sas srt sse wnr il dfsc :
  all_decode g = true → 0 ≤ sas < 4 → 0 ≤ srt < 32 → 0 ≤ il < 2 → dfsc ∈ stage2_faults → g sas srt il dfsc sse wnr = true.
Proof.
  intros H Hs Hr Hi Hd. apply list_elem_of_In in Hd.
  pose proof (forallb_in _ _ _ H (in_range_seq _ _ Hs)) as H1.
  pose proof (forallb_in _ _ _ H1 (in_range_seq _ _ Hr)) as H2.
  pose proof (forallb_in _ _ _ H2 (in_range_seq _ _ Hi)) as H3.
  pose proof (forallb_in _ _ _ H3 Hd) as H4.
  pose proof (forallb_in _ _ _ H4 (in_bools sse)) as H5.
  exact (forallb_in _ _ _ H5 (in_bools wnr)).
Qed.

Lemma all_decode_true : all_decode (λ sas srt il dfsc sse wnr, bool_decide (decoded (esr_data_abort sas srt sse wnr il dfsc) =
    (ESR_EC_DALEL, il, false, false, false, (2 ^ sas, srt), (sse, wnr)))) = true.
Proof. vm_compute. reflexivity. Qed.

Lemma esr_decodes sas srt sse wnr il dfsc :
  0 ≤ sas < 4 → 0 ≤ srt < 32 → 0 ≤ il < 2 → dfsc ∈ stage2_faults →
  decoded (esr_data_abort sas srt sse wnr il dfsc) = (ESR_EC_DALEL, il, false, false, false, (2 ^ sas, srt), (sse, wnr)).
Proof.
  intros Hs Hr Hi Hd. pose proof (all_decode_at _ _ _ sse wnr _ _ all_decode_true Hs Hr Hi Hd) as H.
  exact (bool_decide_eq_true_1 _ H).
Qed.

Lemma esr_fields sas srt sse wnr il dfsc (h := esr_data_abort sas srt sse wnr il dfsc) (iss := iss_of h) :
  0 ≤ sas < 4 → 0 ≤ srt < 32 → 0 ≤ il < 2 → dfsc ∈ stage2_faults →
  bit_extract 64 h ESR_EC_OFF ESR_EC_LEN = ESR_EC_DALEL ∧ bit_extract 64 h ESR_IL_OFF ESR_IL_LEN = il ∧
  (Z.land iss ESR_ISS_DA_ISV_BIT =? 0) = false ∧ negb (Z.land iss ESR_ISS_DA_FnV_BIT =? 0) = false ∧
  (let d := Z.land (bit_extract 64 iss ESR_ISS_DA_DSFC_OFF ESR_ISS_DA_DSFC_LEN) (Z.shiftl 0xf 2) in
   negb (d =? ESR_ISS_DA_DSFC_TRNSLT) && negb (d =? ESR_ISS_DA_DSFC_PERMIS)) = false ∧
  da_width iss = 2 ^ sas ∧ da_reg iss = srt ∧ da_sign_ext iss = sse ∧ da_write iss = wnr.
Proof.
  intros Hs Hr Hi Hd. pose proof (esr_decodes sas srt sse wnr il dfsc Hs Hr Hi Hd) as E. unfold decoded in E.
  apply pair_eq in E as [E [E8 E9]%pair_eq]. apply pair_eq in E as [E [E6 E7]%pair_eq].
  apply pair_eq in E as [E E5]. apply pair_eq in E as [E E4]. apply pair_eq in E as [E E3]. apply pair_eq in E as [E1 E2].
  exact (conj E1 (conj E2 (conj E3 (conj E4 (conj E5 (conj E6 (conj E7 (conj E8 E9)))))))).
Qed.

(** What a load of [w] bytes puts in the register. *)
Definition extend (sse : bool) (w : nat) (val : Z) : Z := if sse && (Z.of_nat w <? 8) then u64 (signed (8 * Z.of_nat w) val) else val.

Section data_abort.
Context `{GicDevice}.
Variable lay : Z → layout.
Variable fuel : nat.

(** The hypervisor's own access at the address [far]. *)
Definition raw_effect (v sas srt : Z) (sse wnr : bool) (far : Z) (m : machine) : machine :=
  let w := Z.to_nat (2 ^ sas) in
  if wnr then m <| ram ::= λ r, Emul.store r far (vcpu_readreg (vcpu_at v m) srt mod 2 ^ (8 * 2 ^ sas)) w |>
  else m <| sch ::= λ d, d <| vcpu_table ::= alter (λ u, vcpu_writereg u srt (extend sse w (Emul.load (ram m) far w))) v |> |>.

Definition step_pc (v il : Z) (m : machine) : machine :=
  m <| sch ::= λ d, d <| vcpu_table ::= alter (λ u, vcpu_writepc u (vcpu_readpc u +64 (2 + 2 * il))) v |> |>.

Lemma store_mask reg sas : 0 ≤ sas < 4 → Z.land reg (BIT_MASK 64 0 (2 ^ sas *64 8)) = reg mod 2 ^ (8 * 2 ^ sas).
Proof.
  intros Hs. assert (sas = 0 ∨ sas = 1 ∨ sas = 2 ∨ sas = 3) as [-> |[-> |[-> | ->]]] by lia; rewrite <-Z.land_ones by (vm_compute; discriminate);
    f_equal; vm_compute; reflexivity.
Qed.

Lemma raw_access_run v iss far m sas srt sse wnr :
  0 ≤ sas < 4 → da_width iss = 2 ^ sas → da_reg iss = srt → da_sign_ext iss = sse → da_write iss = wnr →
  raw_access v iss far m = Done (tt, raw_effect v sas srt sse wnr far m).
Proof.
  intros Hs Hw Hr Hx Hd. unfold raw_access, raw_effect. rewrite Hw, Hr, Hx, Hd. destruct wnr.
  - psteps. rewrite store_mask by done. unfold on_ram, lift_prog.
    assert (sas = 0 ∨ sas = 1 ∨ sas = 2 ∨ sas = 3) as [-> |[-> |[-> | ->]]] by lia; reflexivity.
  - unfold on_ram, lift_prog, upd_vcpu.
    assert (sas = 0 ∨ sas = 1 ∨ sas = 2 ∨ sas = 3) as [-> |[-> |[-> | ->]]] by lia; destruct sse; reflexivity.
Qed.

(** No emulated device of the VM covers the address. *)
Definition not_emulated (p far : Z) (m : machine) : Prop :=
  ∃ l, circular (Vgic.links (vgics m p)) (emul_mem_list (lay p)) l ∧ (length l ≤ fuel)%nat ∧
    List.find (λ q, covers (emul_mems (vgics m p) q) far) l = None.

Lemma get_handler_none {B} p far m (k : option emul_handler → prog machine B) :
  not_emulated p far m → (get_handler lay fuel p far ≫= k) m = k None m.
Proof.
  intros (l & Hc & Hl & Hf). unfold mbind, prog_bind, get_handler. by rewrite (vm_emul_get_mem_run _ _ _ _ _ _ Hc Hl), Hf.
Qed.

Lemma raw_effect_vcpu v sas srt sse wnr far m : cpu_vcpu (my (raw_effect v sas srt sse wnr far m)) = cpu_vcpu (my m).
Proof. unfold raw_effect. by destruct wnr. Qed.

Lemma data_abort_run sas srt sse wnr il dfsc far p v m :
  0 ≤ sas < 4 → 0 ≤ srt < 32 → 0 ≤ il < 2 → dfsc ∈ stage2_faults → running p v m → not_emulated p far m →
  aborts_data_lower lay fuel (iss_of (esr_data_abort sas srt sse wnr il dfsc)) far il m =
    Done (tt, step_pc v il (raw_effect v sas srt sse wnr far m)).
Proof.
  intros Hs Hr Hi Hd Hrun Hne. destruct (esr_fields sas srt sse wnr il dfsc Hs Hr Hi Hd) as (_ & _ & E1 & E2 & E3 & E4 & E5 & E6 & E7).
  unfold aborts_data_lower. cbv zeta in E3 |- *. set (iss := iss_of _) in *.
  rewrite E1, E2. cbn [orb]. rewrite E3.
  rewrite (CURRENT_VM_run p v _ _ Hrun), (current_run p v _ _ Hrun), get_handler_none by done.
  rewrite (prog_bind_done _ _ _ _ _ (raw_access_run v iss far m sas srt sse wnr Hs E4 E5 E6 E7)).
  unfold current_vcpu. psteps. rewrite raw_effect_vcpu. destruct Hrun as [-> _]. by psteps.
Qed.

Variable conf : config.
Variable at_s12e1w : machine → Z → Z.
Variable sizeof_snapshot sizeof_snapshot_pool : Z.


End data_abort.

(** A store of the low half of x3 to an address outside every region: it lands there. *)
Definition uart_store : machine := match
    aborts_sync_hanlder (λ _, sample_layout) sample_config (λ _ a, a) 0x1000 0x100 4 (esr_data_abort 1 3 false true 1 7) 0x9000000
      (sample_machine <| sch ::= λ d, d <| vcpu_table ::= alter (λ u, vcpu_writereg u 3 0x12345678) 8 |> |>)
  with Done (_, m) => m | Halt _ => sample_machine end.

