(* ===== verification/Smmuv2.v ===== *)
(** * The system MMU, version 2: src/arch/aarch64/smmuv2.c, src/arch/aarch64/inc/smmuv2.h, and the
    first branch of src/arch/aarch64/iommu.c

    The build with [iommu := smmuv2].  A device's memory accesses carry a stream number; the SMMU
    looks the number up in its stream match registers and translates the access with the context
    bank the entry that matches names.  The hardware is a device behind an interface, as the
    interrupt controller is. *)
From S2P Require Import Prelude Util Bits Bitmap Spinlock PageTable Cpu.

(** ** Registers and their fields *)

Inductive smmu_reg :=
| CR0 | IDR0 | IDR1 | IDR2 | IDR7 | GFSR | NSGFSR | SMR (i : Z) | S2CR (i : Z)
| CBAR (i : Z) | CBA2R (i : Z) | CB_SCTLR (i : Z) | CB_TTBR0 (i : Z) | CB_TCR (i : Z) | CB_FSR (i : Z).
#[export] Instance smmu_reg_eq_dec : EqDecision smmu_reg.
Proof. solve_decision. Defined.

Class SmmuDevice := {
  smmu_device : Type;
  smmu_read : smmu_reg → smmu_device → Z;
  smmu_write : smmu_reg → Z → smmu_device → smmu_device
}.

Definition SME_MAX_NUM : Z := 128.
Definition CTX_MAX_NUM : Z := 128.

Definition SMMUV2_CR0_USFCFG : Z := Z.shiftl 0x1 10.
Definition SMMUV2_CR0_SMCFCFG : Z := Z.shiftl 0x1 21.
Definition SMMUV2_CR0_CLIENTPD : Z := Z.shiftl 0x1 0.
Definition SMMUV2_CR0_CLEAR (cr0 : Z) : Z := Z.land cr0 (Z.lor (Z.shiftl 0x3 30) (Z.shiftl 0x1 11)).
Definition SMMUV2_IDR0_MASK : Z := 0xFF.
Definition SMMUV2_IDR0_S2TS_BIT : Z := Z.shiftl 0x1 30.
Definition SMMUV2_IDR0_SMS_BIT : Z := Z.shiftl 0x1 27.
Definition SMMUV2_IDR0_BTM_BIT : Z := Z.shiftl 0x1 13.
Definition SMMUV2_IDR1_PAGESIZE_BIT : Z := Z.shiftl 0x1 31.
Definition SMMUV2_IDR1_NUMCB_OFF : Z := 0.
Definition SMMUV2_IDR1_NUMCB_LEN : Z := 8.
Definition SMMUV2_IDR1_NUMPAGEDXB_OFF : Z := 28.
Definition SMMUV2_IDR1_NUMPAGEDXB_LEN : Z := 3.
Definition SMMUV2_IDR2_PTFSv8_4kB_BIT : Z := Z.shiftl 0x1 12.
Definition SMMUV2_IDR2_OAS_OFF : Z := 4.
Definition SMMUV2_IDR2_OAS_LEN : Z := 4.
Definition SMMUV2_IDR2_IAS_OFF : Z := 0.
Definition SMMUV2_IDR2_IAS_LEN : Z := 4.
Definition SMMUV2_IDR7_MAJOR_OFF : Z := 4.
Definition SMMUV2_IDR7_MAJOR_LEN : Z := 4.
Definition SMMU_SMR_ID_OFF : Z := 0.
Definition SMMU_SMR_ID_LEN : Z := 15.
Definition SMMU_SMR_ID (smr : Z) : Z := bit_extract 32 smr SMMU_SMR_ID_OFF SMMU_SMR_ID_LEN.
Definition SMMU_ID_MSK : Z := BIT32_MASK 0 SMMU_SMR_ID_LEN.
Definition SMMU_SMR_MASK_OFF : Z := 16.
Definition SMMU_SMR_MASK_LEN : Z := 15.
Definition SMMU_SMR_MASK (smr : Z) : Z := bit_extract 32 smr SMMU_SMR_MASK_OFF SMMU_SMR_MASK_LEN.
Definition SMMUV2_SMR_VALID : Z := Z.shiftl 0x1 31.
Definition S2CR_IMPL_OFF : Z := 30.
Definition S2CR_IMPL_LEN : Z := 2.
Definition S2CR_IMPL_MASK : Z := BIT32_MASK S2CR_IMPL_OFF S2CR_IMPL_LEN.
Definition S2CR_CBNDX_OFF : Z := 0.
Definition S2CR_CBNDX_LEN : Z := 8.
Definition S2CR_CBNDX_MASK : Z := BIT32_MASK S2CR_CBNDX_OFF S2CR_CBNDX_LEN.
Definition S2CR_CBNDX (s2cr : Z) : Z := bit_extract 32 s2cr S2CR_CBNDX_OFF S2CR_CBNDX_LEN.
Definition S2CR_CLEAR (s2cr : Z) : Z := Z.land s2cr S2CR_IMPL_MASK.
Definition S2CR_DFLT : Z := 0.
Definition SMMUV2_CBAR_VMID_MASK : Z := 0xFF.
Definition SMMUV2_CBAR_VMID (id : Z) : Z := Z.land id SMMUV2_CBAR_VMID_MASK.
Definition SMMUV2_CBAR_VA64 : Z := Z.shiftl 0x1 0.
Definition SMMUV2_CB_TTBA_END : Z := 48.
Definition SMMUV2_CB_TTBA (x : Z) : Z := BIT64_MASK x (SMMUV2_CB_TTBA_END - x).
Definition SMMUV2_SCTLR_M : Z := Z.shiftl 0x1 0.
Definition SMMUV2_SCTLR_CFCFG : Z := Z.shiftl 0x1 7.
Definition SMMUV2_SCTLR_CLEAR (sctlr : Z) : Z :=
  Z.land sctlr (Z.lor (Z.lor (Z.lor (Z.shiftl 0xF 28) (Z.shiftl 0x1 20)) (Z.shiftl 0xF 9)) (Z.shiftl 0x1 11)).
Definition SMMUV2_SCTLR_DEFAULT : Z := Z.lor SMMUV2_SCTLR_CFCFG SMMUV2_SCTLR_M.
Definition SMMUV2_TCR_T0SZ_MSK : Z := 0x1F.
Definition SMMUV2_TCR_T0SZ (sz : Z) : Z := Z.land sz SMMUV2_TCR_T0SZ_MSK.
Definition SMMUV2_TCR_SL0_OFF : Z := 6.
Definition SMMUV2_TCR_SL0_MSK : Z := Z.shiftl 0x3 SMMUV2_TCR_SL0_OFF.
Definition SMMUV2_TCR_SL0_0 : Z := Z.land (Z.shiftl 0x2 SMMUV2_TCR_SL0_OFF) SMMUV2_TCR_SL0_MSK.
Definition SMMUV2_TCR_SL0_1 : Z := Z.land (Z.shiftl 0x1 SMMUV2_TCR_SL0_OFF) SMMUV2_TCR_SL0_MSK.
Definition SMMUV2_TCR_IRGN0_WB_RA_WA : Z := Z.shiftl 0x1 8.
Definition SMMUV2_TCR_ORGN0_WB_RA_WA : Z := Z.shiftl 0x1 10.
Definition SMMUV2_TCR_SH0_IS : Z := Z.shiftl 0x3 12.
Definition SMMUV2_TCR_TG0_4K : Z := Z.shiftl 0x0 14.
Definition SMMUV2_TCR_PS_OFF : Z := 16.
Definition SMMUV2_TCR_PS_MSK : Z := Z.shiftl 0x7 SMMUV2_TCR_PS_OFF.

Section smmu.
Context `{SmmuDevice}.

(** ** State: [struct smmu_priv]

    [hw] keeps the addresses of the three groups of registers; the registers themselves are named. *)
Record smmu_hw := { glbl_rs0 : Z; glbl_rs1 : Z; cntxt : Z }.

Record smmu_priv := {
  sdev : smmu_device;
  hw : smmu_hw;
  sme_lock : spinlock_t;
  sme_num : Z;
  sme_bitmap : bitmap_t;
  grp_bitmap : bitmap_t;
  ctx_lock : spinlock_t;
  ctx_num : Z;
  ctxbank_bitmap : bitmap_t
}.
#[export] Instance eta_smmu_priv : Eta smmu_priv := λ s,
  Build_smmu_priv (sdev s) (hw s) (sme_lock s) (sme_num s) (sme_bitmap s) (grp_bitmap s) (ctx_lock s) (ctx_num s) (ctxbank_bitmap s).

Definition reg (r : smmu_reg) (s : smmu_priv) : Z := u32 (smmu_read r (sdev s)).
Definition rd (r : smmu_reg) : prog smmu_priv Z := gets (reg r).
Definition wr (r : smmu_reg) (v : Z) : prog smmu_priv unit := modify (λ s, s <| sdev ::= smmu_write r (u32 v) |>).
Definition wr64 (r : smmu_reg) (v : Z) : prog smmu_priv unit := modify (λ s, s <| sdev ::= smmu_write r (u64 v) |>).

(** The globals [platform.arch.smmu.base] and [parange]. *)
Variable base : Z.
Variable parange : Z.

Definition require (b : bool) : prog smmu_priv unit := if b then mret tt else halt FError.

Definition smmu_sme_is_group (sme : Z) (s : smmu_priv) : bool := negb (bitmap_get (grp_bitmap s) sme =? 0).
Definition smmu_sme_get_ctx (sme : Z) (s : smmu_priv) : Z := S2CR_CBNDX (reg (S2CR sme) s).
Definition smmu_sme_get_id (sme : Z) (s : smmu_priv) : Z := SMMU_SMR_ID (reg (SMR sme) s).
Definition smmu_sme_get_mask (sme : Z) (s : smmu_priv) : Z := SMMU_SMR_MASK (reg (SMR sme) s).

(** ** Initialisation *)

Definition smmu_check_features : prog smmu_priv unit :=
  idr7 ← rd IDR7;
  require (bit_extract 32 idr7 SMMUV2_IDR7_MAJOR_OFF SMMUV2_IDR7_MAJOR_LEN =? 2);;
  idr0 ← rd IDR0;
  require (negb (Z.land idr0 SMMUV2_IDR0_S2TS_BIT =? 0));;
  require (negb (Z.land idr0 SMMUV2_IDR0_SMS_BIT =? 0));;
  require (negb (Z.land idr0 SMMUV2_IDR0_BTM_BIT =? 0));;
  idr2 ← rd IDR2;
  require (negb (Z.land idr2 SMMUV2_IDR2_PTFSv8_4kB_BIT =? 0));;
  let pasize := bit_extract 32 idr2 SMMUV2_IDR2_OAS_OFF SMMUV2_IDR2_OAS_LEN in
  let ipasize := bit_extract 32 idr2 SMMUV2_IDR2_IAS_OFF SMMUV2_IDR2_IAS_LEN in
  if pasize <? parange then halt FError
  else if ipasize <? parange then halt FError
  else mret tt.

Fixpoint clear_smrs (i : Z) (n : nat) : prog smmu_priv unit :=
  match n with O => mret tt | S n => wr (SMR i) 0;; clear_smrs (i + 1) n end.

Fixpoint clear_contexts (i : Z) (n : nat) : prog smmu_priv unit :=
  match n with O => mret tt | S n => wr (CB_SCTLR i) 0;; wr (CB_FSR i) (-1);; clear_contexts (i + 1) n end.

Definition smmu_init : prog smmu_priv unit :=
  modify (λ s, s <| hw := {| glbl_rs0 := base; glbl_rs1 := glbl_rs1 (hw s); cntxt := cntxt (hw s) |} |>);;
  idr1 ← rd IDR1;
  let pg_size := if negb (Z.land idr1 SMMUV2_IDR1_PAGESIZE_BIT =? 0) then 0x10000 else 0x1000 in
  let num_page := u64 (Z.shiftl 1 (u32 (bit_extract 32 idr1 SMMUV2_IDR1_NUMPAGEDXB_OFF SMMUV2_IDR1_NUMPAGEDXB_LEN + 1))) in
  let ctx_bank_num := bit_extract 32 idr1 SMMUV2_IDR1_NUMCB_OFF SMMUV2_IDR1_NUMCB_LEN in
  modify (λ s, s <| hw := {| glbl_rs0 := glbl_rs0 (hw s); glbl_rs1 := base +64 pg_size; cntxt := base +64 (num_page *64 pg_size) |} |>);;
  smmu_check_features;;
  modify (λ s, s <| ctx_lock := SPINLOCK_INITVAL |> <| ctx_num := ctx_bank_num |>
    <| ctxbank_bitmap ::= λ b, bitmap_clear_consecutive b 0 ctx_bank_num |>);;
  idr0 ← rd IDR0;
  let num := Z.land idr0 SMMUV2_IDR0_MASK in
  modify (λ s, s <| sme_lock := SPINLOCK_INITVAL |> <| sme_num := num |>
    <| sme_bitmap ::= λ b, bitmap_clear_consecutive b 0 num |> <| grp_bitmap ::= λ b, bitmap_clear_consecutive b 0 num |>);;
  g ← rd GFSR; wr GFSR g;;
  g ← rd NSGFSR; wr NSGFSR g;;
  clear_smrs 0 (Z.to_nat num);;
  clear_contexts 0 (Z.to_nat ctx_bank_num);;
  cr0 ← rd CR0;
  let cr0 := SMMUV2_CR0_CLEAR cr0 in
  let cr0 := Z.lor cr0 (Z.lor SMMUV2_CR0_USFCFG SMMUV2_CR0_SMCFCFG) in
  let cr0 := Z.land cr0 (u32 (Z.lnot SMMUV2_CR0_CLIENTPD)) in
  wr CR0 cr0.

(** ** Context banks *)

(** [nth >= 0] holds of every [size_t]: with all banks in use, bit [SIZE_MAX] is set. *)
Definition smmu_alloc_ctxbnk : prog smmu_priv Z :=
  acquire ctx_lock;;
  nth ← gets (λ s, bitmap_find_nth (ctxbank_bitmap s) (ctx_num s) 1 0 false);
  (if 0 <=? nth then modify (λ s, s <| ctxbank_bitmap ::= λ b, bitmap_set b nth |>) else mret tt);;
  release ctx_lock;;
  mret nth.

Definition smmu_cb_ttba_offset (bits t0sz : Z) : Z :=
  if bits <? 44 then if (21 <=? t0sz) && (t0sz <=? 33) then 37 - t0sz else 12
  else if (16 <=? t0sz) && (t0sz <=? 24) then 28 - t0sz else 12.

Definition smmu_write_ctxbnk (ctx_id root_pt vm_id : Z) : prog smmu_priv unit :=
  acquire ctx_lock;;
  b ← gets (λ s, bitmap_get (ctxbank_bitmap s) ctx_id);
  if b =? 0 then halt FError
  else
    wr (CBAR ctx_id) (SMMUV2_CBAR_VMID vm_id);;
    wr (CBA2R ctx_id) SMMUV2_CBAR_VA64;;
    bits ← deref (parange_table !! Z.to_nat parange);
    let t0sz := 64 -64 bits in
    let tcr := u32 (Z.land (u64 (Z.shiftl parange SMMUV2_TCR_PS_OFF)) SMMUV2_TCR_PS_MSK) in
    let tcr := Z.lor tcr SMMUV2_TCR_TG0_4K in
    let tcr := Z.lor tcr SMMUV2_TCR_ORGN0_WB_RA_WA in
    let tcr := Z.lor tcr SMMUV2_TCR_IRGN0_WB_RA_WA in
    let tcr := Z.lor tcr (SMMUV2_TCR_T0SZ t0sz) in
    let tcr := Z.lor tcr SMMUV2_TCR_SH0_IS in
    let tcr := Z.lor tcr (if bits <? 44 then SMMUV2_TCR_SL0_1 else SMMUV2_TCR_SL0_0) in
    wr (CB_TCR ctx_id) tcr;;
    wr64 (CB_TTBR0 ctx_id) (Z.land root_pt (SMMUV2_CB_TTBA (smmu_cb_ttba_offset bits t0sz)));;
    sctlr ← rd (CB_SCTLR ctx_id);
    let sctlr := SMMUV2_SCTLR_CLEAR sctlr in
    let sctlr := Z.lor sctlr SMMUV2_SCTLR_DEFAULT in
    old ← rd (CB_SCTLR ctx_id);
    wr (CB_SCTLR ctx_id) (Z.lor old sctlr);;
    release ctx_lock.

(** ** Stream match entries *)

Definition smmu_alloc_sme : prog smmu_priv Z :=
  acquire sme_lock;;
  nth ← gets (λ s, bitmap_find_nth (sme_bitmap s) (sme_num s) 1 0 false);
  (if 0 <=? nth then modify (λ s, s <| sme_bitmap ::= λ b, bitmap_set b nth |>) else mret tt);;
  release sme_lock;;
  mret nth.

(** [smmu_for_each_sme] with the body of [smmu_compatible_sme_exists]: [n] entries from [sme] on. *)
Fixpoint sme_loop (mask id ctx : Z) (group : bool) (sme : Z) (n : nat) : prog smmu_priv bool :=
  match n with
  | O => mret false
  | S n =>
      bit ← gets (λ s, bitmap_get (sme_bitmap s) sme);
      if bit =? 0 then sme_loop mask id ctx group (sme + 1) n
      else
        s ← gets (λ s, s);
        let sme_mask := smmu_sme_get_mask sme s in
        let mask_r := Z.land mask sme_mask in
        let diff_id := Z.land (Z.lxor (smmu_sme_get_id sme s) id) (u32 (Z.lnot (Z.lor mask sme_mask))) in
        if diff_id =? 0 then
          if (group || smmu_sme_is_group sme s) && ((mask_r =? mask) || (mask_r =? sme_mask)) && (ctx =? smmu_sme_get_ctx sme s) then
            if sme_mask <? mask then
              modify (λ s, s <| sme_bitmap ::= λ b, bitmap_clear b sme |>);;
              sme_loop mask id ctx group (sme + 1) n
            else mret true
          else halt FError
        else sme_loop mask id ctx group (sme + 1) n
  end.

Definition smmu_compatible_sme_exists (mask id ctx : Z) (group : bool) : prog smmu_priv bool :=
  acquire sme_lock;;
  num ← gets sme_num;
  included ← sme_loop mask id ctx group 0 (Z.to_nat num);
  release sme_lock;;
  mret included.

Definition smmu_write_sme (sme mask id : Z) (group : bool) : prog smmu_priv unit :=
  acquire sme_lock;;
  b ← gets (λ s, bitmap_get (sme_bitmap s) sme);
  if b =? 0 then halt FError
  else
    wr (SMR sme) (u32 (Z.shiftl mask SMMU_SMR_MASK_OFF));;
    v ← rd (SMR sme); wr (SMR sme) (Z.lor v (Z.land id SMMU_ID_MSK));;
    v ← rd (SMR sme); wr (SMR sme) (Z.lor v SMMUV2_SMR_VALID);;
    (if group then modify (λ s, s <| grp_bitmap ::= λ b, bitmap_set b sme |>) else mret tt);;
    release sme_lock.

Definition smmu_write_s2c (sme ctx_id : Z) : prog smmu_priv unit :=
  acquire sme_lock;;
  s ← gets (λ s, s);
  if bitmap_get (ctxbank_bitmap s) ctx_id =? 0 then halt FError
  else if bitmap_get (sme_bitmap s) sme =? 0 then halt FError
  else
    s2cr ← rd (S2CR sme);
    let s2cr := S2CR_CLEAR s2cr in
    let s2cr := Z.lor s2cr S2CR_DFLT in
    let s2cr := Z.lor s2cr (u32 (Z.land ctx_id S2CR_CBNDX_MASK)) in
    wr (S2CR sme) s2cr;;
    release sme_lock.

End smmu.

(** ** iommu.c *)

Record iommu_vm_arch := { global_mask : Z; ctx_id : Z }.
#[export] Instance eta_iommu_vm_arch : Eta iommu_vm_arch := λ v, Build_iommu_vm_arch (global_mask v) (ctx_id v).

Record smmu_group := { group_mask : Z; group_id : Z }.

Section iommu.
Context `{SmmuDevice}.
Variable base : Z.
Variable parange : Z.

(** [platform.arch.smmu.global_mask], and [vm->as.pt.root] and [vm->id] of VM [p]. *)
Variable platform_mask : Z.
Variable root vm_id : Z → Z.

Record iommu := { smmu : smmu_priv; vm_io : Z → iommu_vm_arch }.
#[export] Instance eta_iommu : Eta iommu := λ s, Build_iommu (smmu s) (vm_io s).

Definition on_smmu {A} (k : prog smmu_priv A) : prog iommu A := lift_prog smmu (λ d s, s <| smmu := d |>) k.

Definition iommu_arch_init (cpu : Z) : prog iommu bool :=
  if (cpu =? CPU_MASTER) && negb (base =? 0) then on_smmu (smmu_init base parange);; mret true else mret false.

(** [ctx_id < 0] on a [size_t]. *)
Definition iommu_vm_arch_init_ctx (p : Z) : prog iommu Z :=
  c ← gets (λ s, ctx_id (vm_io s p));
  if c <? 0 then
    c ← on_smmu smmu_alloc_ctxbnk;
    (if 0 <=? c then
       on_smmu (smmu_write_ctxbnk parange c (root p) (vm_id p));;
       modify (λ s, s <| vm_io ::= alter (λ v, v <| ctx_id := c |>) p |>)
     else mret tt);;
    mret c
  else mret c.

(** The entry for the streams of [prep_mask] and [prep_id], if no entry there is includes them. *)
Definition iommu_add_sme (prep_mask prep_id vm_ctx : Z) (group : bool) : prog smmu_priv bool :=
  exists_sme ← smmu_compatible_sme_exists prep_mask prep_id vm_ctx group;
  if negb exists_sme then
    sme ← smmu_alloc_sme;
    if sme <? 0 then mret false
    else
      smmu_write_sme sme prep_mask prep_id group;;
      smmu_write_s2c sme vm_ctx;;
      mret true
  else mret true.

Definition iommu_vm_arch_add (p mask id : Z) : prog iommu bool :=
  vm_ctx ← iommu_vm_arch_init_ctx p;
  glbl_mask ← gets (λ s, global_mask (vm_io s p));
  let prep_mask := Z.lor (Z.land mask SMMU_ID_MSK) glbl_mask in
  let prep_id := Z.land id SMMU_ID_MSK in
  let group := negb (mask =? 0) in
  if vm_ctx <? 0 then mret false
  else on_smmu (iommu_add_sme prep_mask prep_id vm_ctx group).

Definition iommu_arch_vm_add_device (p id : Z) : prog iommu bool := iommu_vm_arch_add p 0 id.

Fixpoint add_groups (p : Z) (groups : list smmu_group) : prog iommu bool :=
  match groups with
  | [] => mret true
  | g :: groups =>
      ok ← iommu_vm_arch_add p (group_mask g) (group_id g);
      if negb (ok : bool) then mret false else add_groups p groups
  end.

Definition iommu_arch_vm_init (p config_mask : Z) (groups : list smmu_group) : prog iommu bool :=
  modify (λ s, s <| vm_io ::= alter (λ v, v <| global_mask := Z.lor config_mask platform_mask |>) p |>);;
  modify (λ s, s <| vm_io ::= alter (λ v, v <| ctx_id := u64 (-1) |>) p |>);;
  add_groups p groups.

End iommu.

(** ** Matching streams *)

(** The streams an entry with this mask and number matches. *)
Definition matches (mask id x : Z) : Prop := Z.land (Z.lxor id x) (Z.lnot mask) = 0.

#[export] Instance matches_dec mask id x : Decision (matches mask id x).
Proof. apply Z.eq_dec. Defined.

Lemma land_zero_iff a b : Z.land a b = 0 ↔ ∀ i, 0 ≤ i → Z.testbit a i = true → Z.testbit b i = false.
Proof.
  split.
  - intros E i Hi Ha. pose proof (Z.land_spec a b i) as Hs. rewrite E, Z.testbit_0_l, Ha in Hs. by destruct (Z.testbit b i).
  - intros Hb. apply Z.bits_inj'. intros i Hi. rewrite Z.land_spec, Z.testbit_0_l.
    destruct (Z.testbit a i) eqn:E; [by rewrite (Hb i Hi E)|done].
Qed.

Lemma matches_bits mask id x :
  matches mask id x ↔ ∀ i, 0 ≤ i → Z.testbit mask i = true ∨ Z.testbit id i = Z.testbit x i.
Proof.
  unfold matches. rewrite land_zero_iff. setoid_rewrite Z.lxor_spec.
  split; intros Hx i Hi; specialize (Hx i Hi); [|intros Hb]; rewrite ?Z.lnot_spec in * by done;
    destruct (Z.testbit mask i), (Z.testbit id i), (Z.testbit x i); simpl in *; intuition congruence.
Qed.

(** The test for a common stream. *)
Definition overlap (m1 i1 m2 i2 : Z) : Prop := Z.land (Z.lxor i1 i2) (u32 (Z.lnot (Z.lor m2 m1))) = 0.

Lemma overlap_bits m1 i1 m2 i2 :
  in_word 32 i1 → in_word 32 i2 →
  overlap m1 i1 m2 i2 ↔ ∀ i, 0 ≤ i → Z.testbit m1 i = true ∨ Z.testbit m2 i = true ∨ Z.testbit i1 i = Z.testbit i2 i.
Proof.
  intros H1 H2. unfold overlap. rewrite land_zero_iff. setoid_rewrite Z.lxor_spec.
  split; intros Hx i Hi; specialize (Hx i Hi); [|intros Hb]; rewrite testbit_wrap in * by lia; rewrite Z.lnot_spec, Z.lor_spec in * by done.
  - destruct (Z.ltb_spec i 32); [|rewrite (testbit_small 32 i1), (testbit_small 32 i2) by (done || lia); tauto].
    destruct (Z.testbit m1 i), (Z.testbit m2 i), (Z.testbit i1 i), (Z.testbit i2 i); simpl in *; intuition congruence.
  - destruct (Z.testbit m1 i), (Z.testbit m2 i), (Z.testbit i1 i), (Z.testbit i2 i); simpl in *;
      rewrite ?andb_false_r; intuition congruence.
Qed.

Lemma overlap_common m1 i1 m2 i2 x :
  in_word 32 i1 → in_word 32 i2 → matches m1 i1 x → matches m2 i2 x → overlap m1 i1 m2 i2.
Proof.
  rewrite !matches_bits. intros H1 H2 Hx1 Hx2. apply overlap_bits; [done|done|]. intros i Hi.
  specialize (Hx1 i Hi). specialize (Hx2 i Hi). intuition congruence.
Qed.

Lemma matches_include m1 i1 m2 i2 x :
  in_word 32 i1 → in_word 32 i2 → overlap m1 i1 m2 i2 → Z.land m1 m2 = m1 → matches m1 i1 x → matches m2 i2 x.
Proof.
  intros H1 H2 Ho Hm. rewrite overlap_bits in Ho by done. rewrite !matches_bits. intros Hx i Hi. specialize (Ho i Hi). specialize (Hx i Hi).
  assert (Z.testbit m1 i = true → Z.testbit m2 i = true) as Hs.
  { intros Hb. pose proof (Z.land_spec m1 m2 i) as Hl. rewrite Hm, Hb in Hl. by destruct (Z.testbit m2 i). }
  destruct Ho as [Ho|[Ho|Ho]]; [left; auto|by left|]. destruct Hx as [Hx|Hx]; [left; auto|right; congruence].
Qed.

(** ** The hardware *)

(** A stream match register and a stream-to-context register keep what is written to their fields, and
    no write changes another one. *)
Class SmmuLaws `{SmmuDevice} := {
  write_smr : ∀ i v d, 0 ≤ i < 128 → in_word 32 v → Z.testbit v 15 = false → u32 (smmu_read (SMR i) (smmu_write (SMR i) v d)) = v;
  write_s2cr : ∀ i v d, 0 ≤ i < 128 → in_word 32 v →
    S2CR_CBNDX (u32 (smmu_read (S2CR i) (smmu_write (S2CR i) v d))) = S2CR_CBNDX v;
  keep_smr : ∀ i r v d, r ≠ SMR i → smmu_read (SMR i) (smmu_write r v d) = smmu_read (SMR i) d;
  keep_s2cr : ∀ i r v d, r ≠ S2CR i → smmu_read (S2CR i) (smmu_write r v d) = smmu_read (S2CR i) d
}.

Section streams.
Context {D : SmmuDevice} {L : SmmuLaws}.
#[local] Set Default Proof Using "All".

(** Entry [k] is valid and matches stream [x]; then [x] is translated by the context bank of [k]. *)
Definition valid (k : Z) (s : smmu_priv) : bool := Z.testbit (reg (SMR k) s) 31.
Definition entry_matches (k x : Z) (s : smmu_priv) : Prop :=
  valid k s = true ∧ matches (smmu_sme_get_mask k s) (smmu_sme_get_id k s) x.
Definition routed (s : smmu_priv) (x c : Z) : Prop :=
  ∃ k, 0 ≤ k < sme_num s ∧ entry_matches k x s ∧ smmu_sme_get_ctx k s = c.

Definition allocated (k : Z) (s : smmu_priv) : Prop := bit_at (sme_bitmap s) k = true.

#[export] Instance allocated_dec k s : Decision (allocated k s).
Proof using. apply bool_eq_dec. Defined.

(** All streams of entry [k] are streams of entry [j], for the same context. *)
Definition covered (j k : Z) (s : smmu_priv) : Prop :=
  smmu_sme_get_ctx j s = smmu_sme_get_ctx k s ∧
  ∀ x, matches (smmu_sme_get_mask k s) (smmu_sme_get_id k s) x → matches (smmu_sme_get_mask j s) (smmu_sme_get_id j s) x.

(** What holds between two calls: the entries in use are valid and have no stream in common; an entry
    that is valid but not in use, which merging leaves behind, is covered by one in use. *)
Record streams_ok (s : smmu_priv) : Prop := {
  so_num : 0 ≤ sme_num s ≤ 128;
  so_lock : lock_free (sme_lock s);
  so_valid : ∀ k, 0 ≤ k < sme_num s → allocated k s → valid k s = true;
  so_apart : ∀ j k, 0 ≤ j < sme_num s → 0 ≤ k < sme_num s → allocated j s → allocated k s → j ≠ k →
    ¬ overlap (smmu_sme_get_mask j s) (smmu_sme_get_id j s) (smmu_sme_get_mask k s) (smmu_sme_get_id k s);
  so_stale : ∀ k, 0 ≤ k < sme_num s → valid k s = true → ∃ j, 0 ≤ j < sme_num s ∧ allocated j s ∧ covered j k s
}.

Lemma id_word k s : in_word 32 (smmu_sme_get_id k s).
Proof using. pose proof (bit_extract_bound 32 (reg (SMR k) s) 0 15 ltac:(lia) ltac:(lia)). unfold smmu_sme_get_id, SMMU_SMR_ID, SMMU_SMR_ID_OFF, SMMU_SMR_ID_LEN, in_word in *. lia. Qed.

(** A stream is translated by one context. *)
Lemma routed_unique s x c1 c2 : streams_ok s → routed s x c1 → routed s x c2 → c1 = c2.
Proof using.
  intros Hs (k1 & Hk1 & [Hv1 Hm1] & <-) (k2 & Hk2 & [Hv2 Hm2] & <-).
  destruct (so_stale s Hs k1 Hk1 Hv1) as (j1 & Hj1 & Ha1 & <- & Hc1). destruct (so_stale s Hs k2 Hk2 Hv2) as (j2 & Hj2 & Ha2 & <- & Hc2).
  destruct (decide (j1 = j2)) as [->|Hne]; [done|]. exfalso. apply (so_apart s Hs j1 j2 Hj1 Hj2 Ha1 Ha2 Hne).
  apply (overlap_common _ _ _ _ x); auto using id_word.
Qed.

(** The context banks do not matter to it. *)
Lemma streams_ok_contexts b s : streams_ok s → streams_ok (s <| ctxbank_bitmap := b |>).
Proof using. intros [H1 H2 H3 H4 H5]. constructor; [exact H1|exact H2|exact H3|exact H4|exact H5]. Qed.

(** ** The search for an entry that includes the new one *)

Section add.
Variable mask id ctx : Z.
Variable group : bool.
Hypothesis Hmask : in_word 15 mask.
Hypothesis Hid : in_word 15 id.

(** Entry [k] has streams of the new one. *)
Definition meets (k : Z) (s : smmu_priv) : Prop := overlap (smmu_sme_get_mask k s) (smmu_sme_get_id k s) mask id.

(** What the search did up to entry [hi]: of the entries in use it freed some that the new one includes,
    of the same context. *)
Record scanned (lo hi : Z) (s s' : smmu_priv) : Prop := {
  sc_state : s' = s <| sme_bitmap := sme_bitmap s' |>;
  sc_out : ∀ k, 0 ≤ k → ¬ (lo ≤ k < hi) → bit_at (sme_bitmap s') k = bit_at (sme_bitmap s) k;
  sc_kept : ∀ k, 0 ≤ k → allocated k s' → allocated k s;
  sc_gone : ∀ k, 0 ≤ k → allocated k s → ¬ allocated k s' →
    smmu_sme_get_ctx k s = ctx ∧ ∀ x, matches (smmu_sme_get_mask k s) (smmu_sme_get_id k s) x → matches mask id x
}.

(** What the search found. *)
Definition found (lo hi : Z) (included : bool) (s s' : smmu_priv) : Prop :=
  if included then
    ∃ k, lo ≤ k < hi ∧ allocated k s' ∧ smmu_sme_get_ctx k s = ctx ∧
      ∀ x, matches mask id x → matches (smmu_sme_get_mask k s) (smmu_sme_get_id k s) x
  else ∀ k, lo ≤ k < hi → allocated k s' → ¬ meets k s.

Lemma mask_word k s : 0 ≤ smmu_sme_get_mask k s.
Proof using. apply bit_extract_bound; unfold SMMU_SMR_MASK_OFF, SMMU_SMR_MASK_LEN; lia. Qed.

Lemma land_smaller a b : 0 ≤ a → 0 ≤ b → Z.land a b = a → a ≤ b.
Proof using. intros Ha Hb <-. rewrite <-(Z2N.id a), <-(Z2N.id b), <-N2Z.inj_land by done. apply N2Z.inj_le, N.land_le_r. Qed.

Lemma sme_loop_run n lo s :
  0 ≤ lo →
  sme_loop mask id ctx group lo n s = Halt FError ∧ (∃ k, lo ≤ k < lo + Z.of_nat n ∧ allocated k s ∧ meets k s) ∨
  ∃ included s', sme_loop mask id ctx group lo n s = Done (included, s') ∧
    scanned lo (lo + Z.of_nat n) s s' ∧ found lo (lo + Z.of_nat n) included s s'.
Proof using Hmask Hid.
  revert lo s. induction n as [|n IH]; intros lo s Hlo.
  { right. exists false, s. split; [done|]. split; [constructor; try done; by destruct s|intros k Hk; lia]. }
  assert (∀ s1, scanned lo (lo + 1) s s1 → (allocated lo s1 → ¬ meets lo s) →
    sme_loop mask id ctx group (lo + 1) n s1 = Halt FError ∧ (∃ k, lo ≤ k < lo + Z.of_nat (S n) ∧ allocated k s ∧ meets k s) ∨
    ∃ included s', sme_loop mask id ctx group (lo + 1) n s1 = Done (included, s') ∧
      scanned lo (lo + Z.of_nat (S n)) s s' ∧ found lo (lo + Z.of_nat (S n)) included s s') as Hnext.
  { intros s1 [E1 O1 K1 G1] Hlo1.
    destruct (IH (lo + 1) s1 ltac:(lia)) as [(Hh & k & Hk & Hka & Hkm)|(inc & s' & Hrun & [E2 O2 K2 G2] & Hf)].
    { left. split; [done|]. exists k. split; [lia|]. split; [apply K1; [lia|done]|]. rewrite E1 in Hkm. exact Hkm. }
    right. exists inc, s'. split; [done|]. assert (∀ k, smmu_sme_get_ctx k s1 = smmu_sme_get_ctx k s ∧ smmu_sme_get_mask k s1 = smmu_sme_get_mask k s ∧
      smmu_sme_get_id k s1 = smmu_sme_get_id k s) as Hreg by (intros k; by rewrite E1).
    split.
    - constructor.
      + rewrite E2, E1. by destruct s.
      + intros k Hk Hr. rewrite O2, O1 by lia. done.
      + intros k Hk Ha. auto.
      + intros k Hk Ha Hg. destruct (decide (bit_at (sme_bitmap s1) k = true)) as [Hs1|Hs1]; [|by apply G1].
        destruct (Hreg k) as (<- & <- & <-). by apply G2.
    - destruct inc; simpl in *.
      + destruct Hf as (k & Hk & Ha & Hc & Hx). exists k. destruct (Hreg k) as (<- & <- & <-). split; [lia|]. done.
      + intros k Hk Ha. destruct (decide (k = lo)) as [->|Hne]; [apply Hlo1; unfold allocated in *; rewrite <-O2 by lia; done|].
        unfold meets. destruct (Hreg k) as (_ & <- & <-). apply Hf; [lia|done]. }
  cbn [sme_loop]. psteps. rewrite bitmap_get_spec by done. destruct (bit_at (sme_bitmap s) lo) eqn:Eb; cbn [Z.b2z Z.eqb].
  2: { apply Hnext; [constructor; try done; by destruct s|]. unfold allocated. by rewrite Eb. }
  psteps. set (km := smmu_sme_get_mask lo s). set (ki := smmu_sme_get_id lo s).
  destruct (Z.eqb_spec (Z.land (Z.lxor ki id) (u32 (Z.lnot (Z.lor mask km)))) 0) as [Hd|Hd]; cycle 1.
  { apply Hnext; [constructor; try done; by destruct s|]. intros _. exact Hd. }
  assert (∃ k, lo ≤ k < lo + Z.of_nat (S n) ∧ allocated k s ∧ meets k s) as Hconf by (exists lo; split; [lia|done]).
  destruct (group || smmu_sme_is_group lo s); [|by left]. cbn [andb].
  destruct ((Z.land mask km =? mask) || (Z.land mask km =? km)) eqn:Esub; [|by left]. cbn [andb].
  destruct (Z.eqb_spec ctx (smmu_sme_get_ctx lo s)) as [Ec|]; [|by left]. cbn [andb].
  assert (in_word 32 ki) as Hki by apply id_word. assert (in_word 32 id) as Hid32 by (unfold in_word in *; lia).
  assert (0 ≤ km) as Hkm by apply mask_word. assert (0 ≤ mask) as Hm0 by apply Hmask.
  destruct (Z.ltb_spec km mask) as [Hlt|Hge].
  - psteps. apply Hnext.
    + assert (Z.land km mask = km) as Hsub.
      { apply orb_true_iff in Esub as [E|E]; apply Z.eqb_eq in E; [apply land_smaller in E; lia|by rewrite Z.land_comm]. }
      constructor; rsimpl.
      * by destruct s.
      * intros k Hk Hr. rewrite bit_at_clear by done. destruct (Z.eqb_spec k lo); [lia|by rewrite andb_true_r].
      * intros k Hk. unfold allocated. rsimpl. rewrite bit_at_clear by done. by intros [? _]%andb_true_iff.
      * intros k Hk Ha Hg. unfold allocated in *. rsimpl_in Hg. rewrite bit_at_clear, Ha in Hg by done. cbn [andb] in Hg.
        destruct (Z.eqb_spec k lo) as [->|]; [|by destruct Hg]. split; [done|]. intros x. by apply matches_include.
    + unfold allocated. rsimpl. rewrite bit_at_clear by done. rewrite Z.eqb_refl, andb_false_r. done.
  - right. exists true, s. split; [done|]. split; [constructor; try done; by destruct s|].
    exists lo. split; [lia|]. split; [done|]. split; [done|]. intros x. apply matches_include; [done|done| |].
    + unfold overlap in *. by rewrite Z.lxor_comm, Z.lor_comm.
    + apply orb_true_iff in Esub as [E|E]; apply Z.eqb_eq in E; [done|].
      assert (km ≤ mask) by (apply land_smaller; [done|done|by rewrite Z.land_comm]). assert (km = mask) as Ek by lia.
      change (Z.land mask km = mask). rewrite Ek. apply Z.land_diag.
Qed.

(** ** Writing an entry *)

(** Entry [n] now has the new streams and the context; the others are as they were. *)
Record entry_set (n : Z) (s s' : smmu_priv) : Prop := {
  es_valid : valid n s' = true;
  es_mask : smmu_sme_get_mask n s' = mask;
  es_id : smmu_sme_get_id n s' = id;
  es_ctx : smmu_sme_get_ctx n s' = ctx;
  es_smr : ∀ k, k ≠ n → reg (SMR k) s' = reg (SMR k) s;
  es_s2cr : ∀ k, k ≠ n → reg (S2CR k) s' = reg (S2CR k) s;
  es_num : sme_num s' = sme_num s;
  es_lock : lock_free (sme_lock s')
}.

Definition smr_value : Z := Z.lor (Z.lor (Z.shiftl mask 16) id) (Z.shiftl 1 31).

Lemma testbit_15 i v : in_word 15 v → 15 ≤ i → Z.testbit v i = false.
Proof using. intros Hv Hi. by apply (testbit_small 15). Qed.

Lemma smr_fields :
  in_word 32 smr_value ∧ Z.testbit smr_value 31 = true ∧ SMMU_SMR_MASK smr_value = mask ∧ SMMU_SMR_ID smr_value = id.
Proof using Hmask Hid.
  assert (∀ i, 0 ≤ i → Z.testbit smr_value i = (16 <=? i) && Z.testbit mask (i - 16) || Z.testbit id i || (i =? 31)) as Hb.
  { intros i Hi. unfold smr_value. autorewrite with bits. replace (i - 31 =? 0) with (i =? 31) by zcase.
    destruct (Z.leb_spec 16 i); [done|]. by rewrite (Z.testbit_neg_r mask) by lia. }
  split_and!.
  - assert (smr_value = wrap 32 smr_value) as ->; [|by apply wrap_in_word]. apply Z.bits_inj'. intros i Hi. rewrite testbit_wrap, Hb by lia.
    destruct (Z.ltb_spec i 32); [done|]. rewrite (testbit_15 (i - 16)), (testbit_15 i) by (done || lia). by zcase.
  - rewrite Hb by done. by rewrite !orb_true_r.
  - unfold SMMU_SMR_MASK, SMMU_SMR_MASK_OFF, SMMU_SMR_MASK_LEN. apply Z.bits_inj'. intros i Hi. rewrite testbit_bit_extract, Hb by lia.
    replace (i + 16 - 16) with i by lia. destruct (Z.ltb_spec i 15); [|by rewrite testbit_15 by (done || lia)].
    rewrite (testbit_15 (i + 16)) by (done || lia). zcase. by rewrite !orb_false_r.
  - unfold SMMU_SMR_ID, SMMU_SMR_ID_OFF, SMMU_SMR_ID_LEN. apply Z.bits_inj'. intros i Hi. rewrite testbit_bit_extract, Z.add_0_r, Hb by lia.
    destruct (Z.ltb_spec i 15); [|by rewrite (testbit_15 i id) by (done || lia)]. zcase. simpl. by rewrite orb_false_r.
Qed.

Lemma bitmap_get_one b k : 0 ≤ k → bit_at b k = true → (bitmap_get b k =? 0) = false.
Proof using. intros Hk Hb. by rewrite bitmap_get_spec, Hb by done. Qed.

(** The register after the first two of the three writes. *)
Lemma smr_partial :
  in_word 32 (Z.shiftl mask 16) ∧ Z.testbit (Z.shiftl mask 16) 15 = false ∧
  in_word 32 (Z.lor (Z.shiftl mask 16) id) ∧ Z.testbit (Z.lor (Z.shiftl mask 16) id) 15 = false ∧ Z.testbit smr_value 15 = false.
Proof using Hmask Hid.
  assert (in_word 32 (Z.shiftl mask 16)) as Hw by (unfold in_word in *; rewrite Z.shiftl_mul_pow2 by lia; lia).
  assert (Z.testbit (Z.shiftl mask 16) 15 = false) as Hb by (by rewrite Z.shiftl_spec_low by lia).
  assert (Z.testbit id 15 = false) as Hb2 by (by apply testbit_15).
  split_and!; [done|done|apply in_word_lor; [lia|done|unfold in_word in *; lia]|by rewrite Z.lor_spec, Hb, Hb2|].
  unfold smr_value. rewrite !Z.lor_spec, Hb, Hb2. reflexivity.
Qed.

Lemma smmu_write_sme_run n s :
  0 ≤ n < 128 → allocated n s → lock_free (sme_lock s) →
  ∃ s', smmu_write_sme n mask id group s = Done (tt, s') ∧ reg (SMR n) s' = smr_value ∧
    (∀ k, k ≠ n → reg (SMR k) s' = reg (SMR k) s) ∧ (∀ k, reg (S2CR k) s' = reg (S2CR k) s) ∧
    s' = s <| sdev := sdev s' |> <| grp_bitmap := grp_bitmap s' |> <| sme_lock := lock_cycle (sme_lock s) |>.
Proof.
  intros Hn Ha Hl. destruct smr_partial as (W1 & B1 & W2 & B2 & B3). destruct smr_fields as (W3 & _).
  unfold smmu_write_sme. rewrite bind_acquire by done. psteps. rewrite bitmap_get_one by (done || lia).
  unfold wr, rd, release. psteps. unfold SMMU_SMR_MASK_OFF. rewrite (wrap_small 32 (Z.shiftl mask 16) W1).
  unfold reg. rsimpl. rewrite (wrap_small 32 (Z.shiftl mask 16) W1), (write_smr n (Z.shiftl mask 16)) by done.
  assert (Z.land id SMMU_ID_MSK = id) as ->.
  { change SMMU_ID_MSK with (Z.ones 15). rewrite Z.land_ones by lia. by apply Z.mod_small. }
  rewrite (wrap_small 32 _ W2), (write_smr n (Z.lor (Z.shiftl mask 16) id)) by done. change SMMUV2_SMR_VALID with (Z.shiftl 1 31). fold smr_value.
  rewrite (wrap_small 32 _ W3).
  destruct group; psteps; eexists; (split; [reflexivity|]); rsimpl; rewrite (write_smr n) by done;
    (split; [done|split; [intros k Hk; rewrite !keep_smr by congruence; done|split; [intros k; by rewrite !keep_s2cr|by destruct s]]]).
Qed.

Lemma smmu_write_s2c_run n s :
  0 ≤ n < 128 → 0 ≤ ctx < 128 → allocated n s → bit_at (ctxbank_bitmap s) ctx = true → lock_free (sme_lock s) →
  ∃ s', smmu_write_s2c n ctx s = Done (tt, s') ∧ smmu_sme_get_ctx n s' = ctx ∧
    (∀ k, reg (SMR k) s' = reg (SMR k) s) ∧ (∀ k, k ≠ n → reg (S2CR k) s' = reg (S2CR k) s) ∧
    s' = s <| sdev := sdev s' |> <| sme_lock := lock_cycle (sme_lock s) |>.
Proof.
  intros Hn Hc Ha Hb Hl. unfold smmu_write_s2c. rewrite bind_acquire by done. psteps. rewrite !bitmap_get_one by (done || lia).
  unfold wr, rd, release. psteps. eexists. split; [reflexivity|]. unfold smmu_sme_get_ctx, reg. rsimpl.
  split; [|split; [intros k; by rewrite keep_smr|split; [intros k Hk; rewrite keep_s2cr by congruence; done|by destruct s]]].
  rewrite write_s2cr by (done || by apply wrap_in_word). unfold S2CR_CBNDX, S2CR_CBNDX_OFF, S2CR_CBNDX_LEN, S2CR_DFLT, S2CR_CLEAR.
  apply Z.bits_inj'. intros i Hi. rewrite testbit_bit_extract by lia. rewrite Z.add_0_r.
  change S2CR_IMPL_MASK with (Z.shiftl (Z.ones 2) 30). change S2CR_CBNDX_MASK with (Z.ones 8). autorewrite with bits.
  destruct (Z.ltb_spec i 8); [|by rewrite (testbit_small 8 ctx) by (unfold in_word in *; lia)].
  zcase; simpl; by rewrite ?andb_false_r, ?andb_true_r.
Qed.

(** ** Adding an entry *)

(** The registers are as they were. *)
Definition same_regs (s s' : smmu_priv) : Prop := ∀ r, reg r s' = reg r s.

Lemma meets_common k x s :
  matches (smmu_sme_get_mask k s) (smmu_sme_get_id k s) x → matches mask id x → meets k s.
Proof using Hid. intros H1 H2. apply (overlap_common _ _ _ _ x); [apply id_word|unfold in_word in *; lia|done|done]. Qed.

(** An entry was found that includes the new one. *)
Lemma merged_ok s s' :
  streams_ok s → same_regs s s' → sme_num s' = sme_num s → lock_free (sme_lock s') →
  (∀ k, 0 ≤ k → allocated k s' → allocated k s) →
  (∀ k, 0 ≤ k → allocated k s → ¬ allocated k s' →
    smmu_sme_get_ctx k s = ctx ∧ ∀ x, matches (smmu_sme_get_mask k s) (smmu_sme_get_id k s) x → matches mask id x) →
  found 0 (sme_num s) true s s' →
  streams_ok s' ∧ (∀ x c, matches mask id x → routed s x c → c = ctx) ∧
    ∀ x c, routed s' x c ↔ (if decide (matches mask id x) then c = ctx else routed s x c).
Proof.
  intros Hs Hr Hnum Hl Hkept Hgone (K & HK & HKa & HKc & HKx).
  assert (∀ k, smmu_sme_get_mask k s' = smmu_sme_get_mask k s ∧ smmu_sme_get_id k s' = smmu_sme_get_id k s ∧
    smmu_sme_get_ctx k s' = smmu_sme_get_ctx k s ∧ valid k s' = valid k s) as Hf
    by (intros k; unfold smmu_sme_get_mask, smmu_sme_get_id, smmu_sme_get_ctx, valid; by rewrite !Hr).
  assert (∀ x c, routed s' x c ↔ routed s x c) as Hroute.
  { intros x c. unfold routed, entry_matches. rewrite Hnum. split; intros (k & Hk & (H1 & H2) & H3); exists k;
      destruct (Hf k) as (E1 & E2 & E3 & E4); rewrite ?E1, ?E2, ?E3, ?E4 in *; auto. }
  assert (∀ x, matches mask id x → routed s x ctx) as HKr.
  { intros x Hx. exists K. split; [done|]. split; [split; [apply (so_valid s Hs); auto; apply Hkept; [lia|done]|auto]|done]. }
  split_and!.
  - constructor; rewrite ?Hnum.
    + apply (so_num s Hs).
    + done.
    + intros k Hk Ha. destruct (Hf k) as (_ & _ & _ & ->). apply (so_valid s Hs); [done|]. apply Hkept; [lia|done].
    + intros j k Hj Hk Haj Hak Hne. destruct (Hf k) as (-> & -> & _). destruct (Hf j) as (-> & -> & _).
      apply (so_apart s Hs); try done; apply Hkept; (lia || done).
    + intros k Hk Hv. destruct (Hf k) as (E1 & E2 & E3 & E4). rewrite E4 in Hv. destruct (so_stale s Hs k Hk Hv) as (j & Hj & Ha & Hc & Hcov).
      unfold covered. rewrite E1, E2, E3.
      destruct (decide (allocated j s')) as [Ha'|Hna].
      * exists j. split; [done|]. split; [done|]. destruct (Hf j) as (-> & -> & -> & _). done.
      * destruct (Hgone j ltac:(lia) Ha Hna) as [Hjc Hjx]. exists K. split; [done|]. split; [done|].
        destruct (Hf K) as (-> & -> & -> & _). split; [congruence|]. auto.
  - intros x c Hx Hc. by apply (routed_unique s x); [|apply Hc|apply HKr].
  - intros x c. rewrite Hroute. destruct (decide (matches mask id x)) as [Hx|Hx]; [|done].
    split; [intros Hc; by apply (routed_unique s x); [|apply Hc|apply HKr]|intros ->; auto].
Qed.

(** No entry in use had streams of the new one, but those freed for it, and entry [n], which was free,
    is set. *)
Lemma inserted_ok n s s' :
  streams_ok s → 0 ≤ n < sme_num s → entry_set n s s' →
  (∀ k, 0 ≤ k < sme_num s → allocated k s' → k = n ∨ allocated k s ∧ ¬ meets k s) → allocated n s' →
  (∀ k, 0 ≤ k → allocated k s → k = n ∨ ¬ allocated k s' →
    smmu_sme_get_ctx k s = ctx ∧ ∀ x, matches (smmu_sme_get_mask k s) (smmu_sme_get_id k s) x → matches mask id x) →
  (∀ k, 0 ≤ k < sme_num s → allocated k s → meets k s → smmu_sme_get_ctx k s = ctx) →
  streams_ok s' ∧ (∀ x c, matches mask id x → routed s x c → c = ctx) ∧
    ∀ x c, routed s' x c ↔ (if decide (matches mask id x) then c = ctx else routed s x c).
Proof.
  intros Hs Hn Hset Hnew Hna Hgone Hmeet. destruct Hset as [Hv Hm Hi Hc Hsmr Hs2 Hnum Hl].
  assert (∀ k, k ≠ n → smmu_sme_get_mask k s' = smmu_sme_get_mask k s ∧ smmu_sme_get_id k s' = smmu_sme_get_id k s ∧
    smmu_sme_get_ctx k s' = smmu_sme_get_ctx k s ∧ valid k s' = valid k s) as Hf
    by (intros k Hk; unfold smmu_sme_get_mask, smmu_sme_get_id, smmu_sme_get_ctx, valid; by rewrite Hsmr, Hs2).
  assert (∀ k x, 0 ≤ k < sme_num s → entry_matches k x s → matches mask id x → smmu_sme_get_ctx k s = ctx) as Hsame.
  { intros k x Hk [Hkv Hkx] Hx. destruct (so_stale s Hs k Hk Hkv) as (j & Hj & Ha & <- & Hcov).
    apply Hmeet; [done|done|]. by apply (meets_common j x); [apply Hcov|]. }
  split_and!.
  - constructor; rewrite ?Hnum.
    + apply (so_num s Hs).
    + done.
    + intros k Hk Ha. destruct (decide (k = n)) as [->|Hne]; [done|]. destruct (Hf k Hne) as (_ & _ & _ & ->).
      destruct (Hnew k Hk Ha) as [?|[? _]]; [done|]. by apply (so_valid s Hs).
    + assert (∀ k, 0 ≤ k < sme_num s → allocated k s' → k ≠ n → ¬ overlap (smmu_sme_get_mask k s') (smmu_sme_get_id k s') mask id) as Hap.
      { intros k Hk Ha Hne. destruct (Hf k Hne) as (-> & -> & _). by destruct (Hnew k Hk Ha) as [?|[_ ?]]. }
      intros j k Hj Hk Haj Hak Hne. destruct (decide (j = n)) as [->|Hjn]; [|destruct (decide (k = n)) as [->|Hkn]].
      * rewrite Hm, Hi. unfold overlap. rewrite Z.lxor_comm, Z.lor_comm. apply Hap; [done|done|congruence].
      * rewrite Hm, Hi. by apply Hap.
      * destruct (Hf j Hjn) as (-> & -> & _), (Hf k Hkn) as (-> & -> & _).
        destruct (Hnew j Hj Haj) as [?|[? _]]; [done|]. destruct (Hnew k Hk Hak) as [?|[? _]]; [done|].
        by apply (so_apart s Hs).
    + intros k Hk Hkv. destruct (decide (k = n)) as [->|Hne]; [exists n; by split; [|split]|].
      destruct (Hf k Hne) as (E1 & E2 & E3 & E4). rewrite E4 in Hkv. unfold covered. rewrite E1, E2, E3.
      destruct (so_stale s Hs k Hk Hkv) as (j & Hj & Ha & Hjc & Hcov).
      destruct (decide (j = n ∨ ¬ allocated j s')) as [Hg|Hkeep].
      * destruct (Hgone j ltac:(lia) Ha Hg) as [Hg1 Hg2]. exists n. rewrite Hc, Hm, Hi. split; [done|]. split; [done|]. split; [congruence|auto].
      * assert (j ≠ n ∧ allocated j s') as [Hjn Ha'] by (split; [tauto|destruct (decide (allocated j s')); tauto]).
        exists j. destruct (Hf j Hjn) as (-> & -> & -> & _). done.
  - intros x c Hx (k & Hk & Hkm & <-). by apply (Hsame k x).
  - intros x c. destruct (decide (matches mask id x)) as [Hx|Hx].
    + split; [|intros ->; exists n; rewrite Hnum; split; [done|]; split; [|done]; split; [done|by rewrite Hm, Hi]].
      intros (k & Hk & [Hkv Hkx] & <-). rewrite Hnum in Hk. destruct (decide (k = n)) as [->|Hne]; [done|].
      destruct (Hf k Hne) as (E1 & E2 & E3 & E4). rewrite E1, E2 in Hkx. rewrite E4 in Hkv. rewrite E3. by apply (Hsame k x).
    + split; intros (k & Hk & [Hkv Hkx] & <-).
      * rewrite Hnum in Hk. destruct (decide (k = n)) as [->|Hne]; [by rewrite Hm, Hi in Hkx|].
        destruct (Hf k Hne) as (E1 & E2 & E3 & E4). exists k. unfold entry_matches. rewrite <-E1, <-E2, <-E3, <-E4. done.
      * destruct (so_stale s Hs k Hk Hkv) as (j & Hj & Ha & Hjc & Hcov). destruct (decide (j = n ∨ ¬ allocated j s')) as [Hg|Hkeep].
        { destruct (Hgone j ltac:(lia) Ha Hg) as [_ Hg2]. destruct Hx. auto. }
        assert (j ≠ n) as Hjn by tauto. destruct (Hf j Hjn) as (E1 & E2 & E3 & E4). exists j. rewrite Hnum, E3. split; [done|]. split; [|done].
        unfold entry_matches. rewrite E1, E2, E4. split; [by apply (so_valid s Hs)|auto].
Qed.

(** The search as the function runs it. *)
Lemma compatible_run s :
  streams_ok s →
  smmu_compatible_sme_exists mask id ctx group s = Halt FError ∧ (∃ k, 0 ≤ k < sme_num s ∧ allocated k s ∧ meets k s) ∨
  ∃ included s', smmu_compatible_sme_exists mask id ctx group s = Done (included, s') ∧
    s' = s <| sme_bitmap := sme_bitmap s' |> <| sme_lock := lock_cycle (sme_lock s) |> ∧
    (∀ k, 0 ≤ k → allocated k s' → allocated k s) ∧
    (∀ k, 0 ≤ k → allocated k s → ¬ allocated k s' →
      smmu_sme_get_ctx k s = ctx ∧ ∀ x, matches (smmu_sme_get_mask k s) (smmu_sme_get_id k s) x → matches mask id x) ∧
    found 0 (sme_num s) included s s'.
Proof.
  intros Hs. pose proof (so_num s Hs) as Hnum. unfold smmu_compatible_sme_exists. rewrite bind_acquire by apply (so_lock s Hs).
  set (s1 := s <| sme_lock := lock_taken (sme_lock s) |>). psteps. change (sme_num s1) with (sme_num s).
  destruct (sme_loop_run (Z.to_nat (sme_num s)) 0 s1 ltac:(done)) as [(Hh & k & Hk & Hka & Hkm)|(inc & s2 & Hrun & [E O K G] & Hf)];
    rewrite Z.add_0_l, Z2Nat.id in * by lia.
  - left. split; [|by exists k]. unfold mbind, prog_bind. by rewrite Hh.
  - right. rewrite (prog_bind_done _ _ _ _ _ Hrun). unfold release. psteps. eexists inc, _. split; [reflexivity|]. rsimpl.
    split; [rewrite E; unfold s1; by destruct s|]. split; [exact K|]. split; [exact G|exact Hf].
Qed.


End add.
End streams.

(** ** Initialisation makes the invariant hold *)

Section init.
Context {D : SmmuDevice} {L : SmmuLaws}.
Variable base parange : Z.
#[local] Set Default Proof Using "Type".

Lemma require_cases {A} b (k : unit → prog smmu_priv A) s : (require b ≫= k) s = (if b then k tt s else Halt FError).
Proof. by destruct b. Qed.

Lemma smmu_check_features_cases s :
  smmu_check_features parange s = Done (tt, s) ∨ smmu_check_features parange s = Halt FError.
Proof.
  unfold smmu_check_features, rd. repeat (psteps; rewrite require_cases; case_match; [|by right]). psteps.
  case_match; [by right|]. case_match; [by right|by left].
Qed.

Lemma clear_smrs_run n i s :
  0 ≤ i → i + Z.of_nat n ≤ 128 →
  ∃ s', clear_smrs i n s = Done (tt, s') ∧ s' = s <| sdev := sdev s' |> ∧
    ∀ k, reg (SMR k) s' = if decide (i ≤ k < i + Z.of_nat n) then 0 else reg (SMR k) s.
Proof using L.
  revert i s. induction n as [|n IH]; intros i s Hi Hn.
  - exists s. split; [done|]. split; [by destruct s|]. intros k. rewrite decide_False by lia. done.
  - cbn [clear_smrs]. unfold wr at 1. psteps. change (u32 0) with 0.
    match goal with |- context [clear_smrs (i + 1) n ?s] => set (s1 := s) end.
    destruct (IH (i + 1) s1 ltac:(lia) ltac:(lia)) as (s' & Hr & E & Hk). exists s'. split; [done|]. split; [rewrite E; unfold s1; by destruct s|].
    intros k. rewrite Hk. destruct (decide (k = i)) as [->|Hne].
    + rewrite decide_False, decide_True by lia. unfold reg, s1. rsimpl. apply write_smr; [lia|done|done].
    + destruct (decide (i + 1 ≤ k < i + 1 + Z.of_nat n)); [by rewrite decide_True by lia|]. rewrite decide_False by lia.
      unfold reg, s1. rsimpl. by rewrite keep_smr by congruence.
Qed.

Lemma clear_contexts_run n i s :
  ∃ s', clear_contexts i n s = Done (tt, s') ∧ s' = s <| sdev := sdev s' |> ∧ ∀ k, reg (SMR k) s' = reg (SMR k) s.
Proof using L.
  revert i s. induction n as [|n IH]; intros i s; [exists s; split; [done|split; [by destruct s|done]]|].
  cbn [clear_contexts]. unfold wr at 1 2. psteps. match goal with |- context [clear_contexts (i + 1) n ?s] => set (s1 := s) end.
  destruct (IH (i + 1) s1) as (s' & Hr & E & Hk). exists s'. split; [done|]. split; [rewrite E; unfold s1; by destruct s|].
  intros k. rewrite Hk. unfold reg, s1. rsimpl. by rewrite !keep_smr.
Qed.

(** [smmu_init] stops with an error, when the hardware lacks a feature the hypervisor needs, or leaves
    no stream that is translated, and the invariant holds. *)
Theorem smmu_init_streams s :
  Z.land (reg IDR0 s) SMMUV2_IDR0_MASK ≤ 128 →
  smmu_init base parange s = Halt FError ∨
  ∃ s', smmu_init base parange s = Done (tt, s') ∧ streams_ok s' ∧ ∀ x c, ¬ routed s' x c.
Proof using L.
  intros Hnum. unfold smmu_init, rd, wr. cbv zeta. psteps.
  match goal with |- context [(smmu_check_features parange ≫= _) ?s] => set (s1 := s) end.
  destruct (smmu_check_features_cases s1) as [Hc|Hc]; [right|left; unfold mbind, prog_bind; by rewrite Hc].
  rewrite (prog_bind_done _ _ _ _ _ Hc). psteps. set (num := Z.land (reg IDR0 _) SMMUV2_IDR0_MASK).
  assert (0 ≤ num ≤ 128) as Hn by (split; [apply Z.land_nonneg; by right|exact Hnum]).
  match goal with |- context [(clear_smrs 0 _ ≫= _) ?s] => set (s2 := s) end.
  destruct (clear_smrs_run (Z.to_nat num) 0 s2 ltac:(done) ltac:(lia)) as (s3 & H3 & E3 & R3). rewrite (prog_bind_done _ _ _ _ _ H3).
  match goal with |- context [(clear_contexts 0 ?n ≫= _) s3] => destruct (clear_contexts_run n 0 s3) as (s4 & H4 & E4 & R4) end.
  rewrite (prog_bind_done _ _ _ _ _ H4). psteps. eexists. split; [reflexivity|].
  match goal with |- streams_ok ?s ∧ _ => set (s5 := s) end.
  assert (sme_num s5 = num) as En by (unfold s5; by rewrite E4, E3).
  assert (∀ k, 0 ≤ k < num → valid k s5 = false) as Hv.
  { intros k Hk. assert (reg (SMR k) s5 = reg (SMR k) s4) as Er by (unfold s5, reg; rsimpl; by rewrite keep_smr).
    unfold valid. rewrite Er, R4, R3, decide_True by lia. apply Z.testbit_0_l. }
  assert (∀ k, 0 ≤ k < num → ¬ allocated k s5) as Ha.
  { intros k Hk. unfold allocated. assert (sme_bitmap s5 = sme_bitmap s2) as -> by (unfold s5; by rewrite E4, E3).
    unfold s2. rsimpl. rewrite bitmap_clear_consecutive_spec by lia. by zcase; rewrite ?andb_false_r. }
  split.
  - constructor; rewrite ?En; [lia|unfold s5; rewrite E4, E3; by split|..].
    + intros k Hk Hak. by destruct (Ha k).
    + intros j k Hj Hk Haj. by destruct (Ha j).
    + intros k Hk Hvk. by rewrite Hv in Hvk.
  - intros x c (k & Hk & [Hvk _] & _). rewrite En in Hk. by rewrite Hv in Hvk.
Qed.

End init.

(** ** What iommu.c makes of it *)

Section no_context.
Context {D : SmmuDevice}.
Variable parange platform_mask : Z.
Variable root vm_id : Z → Z.
#[local] Set Default Proof Using "Type".

(** Running [k] does not touch [f]. *)
Definition preserves {S A B} (f : S → B) (k : prog S A) : Prop := ∀ s a s', k s = Done (a, s') → f s' = f s.

Lemma preserves_bind {S A B C} (f : S → C) (m : prog S A) (k : A → prog S B) :
  preserves f m → (∀ a, preserves f (k a)) → preserves f (m ≫= k).
Proof. intros Hm Hk s b s' H. apply prog_bind_inv in H as (a & s1 & H1 & H2). rewrite (Hk a s1 b s' H2). by apply (Hm s a). Qed.
Lemma preserves_modify {S C} (f : S → C) (g : S → S) : (∀ s, f (g s) = f s) → preserves f (modify g).
Proof. intros Hg s a s' [= _ <-]. apply Hg. Qed.
Lemma preserves_gets {S A C} (f : S → C) (g : S → A) : preserves f (gets g).
Proof. by intros s a s' [= _ <-]. Qed.
Lemma preserves_ret {S A C} (f : S → C) (a : A) : preserves f (mret a : prog S A).
Proof. by intros s b s' [= _ <-]. Qed.
Lemma preserves_halt {S A C} (f : S → C) e : preserves f (halt e : prog S A).
Proof. done. Qed.

#[local] Ltac preserving :=
  repeat first
    [ apply preserves_bind; [|intros ?] | apply preserves_gets | apply preserves_ret | apply preserves_halt
    | apply preserves_modify; intros ?; reflexivity
    | match goal with |- preserves _ (match ?b with _ => _ end) => destruct b end ].

Lemma acquire_preserves {C} (f : smmu_priv → C) l `{!Setter l} :
  (∀ g s, f (s <| l ::= g |>) = f s) → preserves f (acquire (S := smmu_priv) l).
Proof. intros Hf s a s'. unfold acquire. destruct (spin_lock (l s)); [|done]. intros [= _ <-]. apply Hf. Qed.

Lemma sme_loop_preserves mask id ctx group lo n : preserves ctxbank_bitmap (sme_loop mask id ctx group lo n).
Proof. revert lo. induction n as [|n IH]; intros lo; cbn [sme_loop]; preserving; apply IH. Qed.

Lemma add_sme_preserves mask id ctx group : preserves ctxbank_bitmap (iommu_add_sme mask id ctx group).
Proof.
  unfold iommu_add_sme, smmu_compatible_sme_exists, smmu_alloc_sme, smmu_write_sme, smmu_write_s2c, wr, rd, release.
  preserving; try (apply acquire_preserves; reflexivity). apply sme_loop_preserves.
Qed.

(** A VM without a context: the test [ctx_id < 0] on a [size_t]. *)
Definition no_context (p : Z) (b : bitmap_t) (s : iommu) : Prop := ctx_id (vm_io s p) = SIZE_MAX ∧ ctxbank_bitmap (smmu s) = b.

Lemma arch_add_no_context p mask id b s r s' :
  no_context p b s → iommu_vm_arch_add parange root vm_id p mask id s = Done (r, s') → no_context p b s'.
Proof.
  intros [Hc Hb]. unfold iommu_vm_arch_add, iommu_vm_arch_init_ctx. rewrite bind_bind. psteps. rewrite Hc.
  change (SIZE_MAX <? 0) with false. cbv iota. psteps. change (SIZE_MAX <? 0) with false. unfold on_smmu, lift_prog.
  destruct (iommu_add_sme _ _ _ _ (smmu s)) as [[a d]|] eqn:E; [|done]. intros [= _ <-]. split; [exact Hc|].
  rsimpl. rewrite <-Hb. exact (add_sme_preserves _ _ _ _ _ _ _ E).
Qed.

Lemma add_groups_no_context p groups b s r s' :
  no_context p b s → add_groups parange root vm_id p groups s = Done (r, s') → no_context p b s'.
Proof.
  revert s. induction groups as [|g groups IH]; intros s Hn; [by intros [= _ <-]|]. cbn [add_groups].
  intros (ok & s1 & H1 & H2)%prog_bind_inv. pose proof (arch_add_no_context _ _ _ _ _ _ _ Hn H1) as Hn1.
  destruct ok; cbn [negb] in H2; [exact (IH s1 Hn1 H2)|by injection H2 as _ <-].
Qed.

(** No virtual machine ever gets a context bank.  Its context is set to [(size_t)-1] and given one when it
    is less than zero, which no [size_t] is: after [iommu_arch_vm_init], and after any devices were added
    to the machine, it still is [(size_t)-1] and no bank has been taken, so that the tables of no machine
    are ever given to the SMMU. *)
Theorem iommu_never_takes_context p config_mask groups ids s b s1 :
  iommu_arch_vm_init parange platform_mask root vm_id p config_mask groups s = Done (b, s1) →
  no_context p (ctxbank_bitmap (smmu s)) s1 ∧
  ∀ bs s2, mapM (iommu_arch_vm_add_device parange root vm_id p) ids s1 = Done (bs, s2) → no_context p (ctxbank_bitmap (smmu s)) s2.
Proof.
  intros H. assert (no_context p (ctxbank_bitmap (smmu s)) s1) as Hn.
  { revert H. unfold iommu_arch_vm_init. psteps. apply add_groups_no_context. split; [|done]. rsimpl. by rewrite !alter_eq. }
  split; [exact Hn|]. clear H. revert s1 Hn. induction ids as [|i ids IH]; intros s1 Hn bs s2; [by intros [= _ <-]|].
  cbn [mapM]. intros (r & s3 & H1 & (rs & s4 & H2 & H3)%prog_bind_inv)%prog_bind_inv. injection H3 as _ <-.
  exact (IH s3 (arch_add_no_context _ _ _ _ _ _ _ Hn H1) rs s4 H2).
Qed.

End no_context.

(** ** An SMMU whose registers are memory *)

Definition SmmuRegisters : SmmuDevice := {|
  smmu_device := smmu_reg → Z;
  smmu_read r d := d r;
  smmu_write r v d := <[r := v]> d
|}.

Lemma SmmuRegisters_laws : @SmmuLaws SmmuRegisters.
Proof.
  apply Build_SmmuLaws.
  - intros i v d _ Hv _. etransitivity; [|exact (wrap_small 32 v Hv)]. f_equal. apply (fn_lookup_insert (A := smmu_reg) d).
  - intros i v d _ Hv. f_equal. etransitivity; [|exact (wrap_small 32 v Hv)]. f_equal. apply (fn_lookup_insert (A := smmu_reg) d).
  - intros i r v d Hr. apply (fn_lookup_insert_ne (A := smmu_reg) d r (SMR i)). done.
  - intros i r v d Hr. apply (fn_lookup_insert_ne (A := smmu_reg) d r (S2CR i)). done.
Qed.

(** Four entries, four context banks, all features. *)
Definition sample_smmu : @smmu_priv SmmuRegisters := {|
  sdev := (λ r, match r with IDR0 => 0x48002004 | IDR1 => 4 | IDR2 => 0x1055 | IDR7 => 0x20 | _ => 0 end) : @smmu_device SmmuRegisters;
  hw := {| glbl_rs0 := 0; glbl_rs1 := 0; cntxt := 0 |};
  sme_lock := SPINLOCK_INITVAL; sme_num := 0; sme_bitmap := λ _, 0; grp_bitmap := λ _, 0;
  ctx_lock := SPINLOCK_INITVAL; ctx_num := 0; ctxbank_bitmap := λ _, 0 |}.

Definition run_of {S A} (d : S) (k : prog S A) (s : S) : S := match k s with Done (_, s) => s | Halt _ => d end.

(** After initialisation, with the context banks 0 and 1 taken. *)
Definition sample_inited : @smmu_priv SmmuRegisters := run_of sample_smmu (smmu_init 0x9050000 5) sample_smmu.
Definition sample_ready : @smmu_priv SmmuRegisters := sample_inited <| ctxbank_bitmap := λ _, 3 |>.

Lemma smmu_init_streams_witness :
  ∃ s', smmu_init 0x9050000 5 sample_smmu = Done (tt, s') ∧ streams_ok s' ∧ ∀ x c, ¬ routed s' x c.
Proof.
  pose proof SmmuRegisters_laws as L. destruct (smmu_init_streams 0x9050000 5 sample_smmu) as [H|H]; [|discriminate H|exact H].
  vm_compute. discriminate.
Defined.

Lemma sample_ready_ok : streams_ok sample_ready ∧ ∀ k, 0 ≤ k < sme_num sample_ready → ¬ allocated k sample_ready.
Proof.
  pose proof SmmuRegisters_laws as L. destruct (smmu_init_streams 0x9050000 5 sample_smmu) as [H|(s' & H & Hs & Hr)]; [vm_compute; discriminate|discriminate H|].
  assert (sample_inited = s') as E by (unfold sample_inited, run_of; by rewrite H). rewrite <-E in Hs, Hr. clear E H s'.
  assert (∀ k, 0 ≤ k < sme_num sample_inited → ¬ allocated k sample_inited) as Hf.
  { intros k Hk Ha. apply (Hr (smmu_sme_get_id k sample_inited) (smmu_sme_get_ctx k sample_inited)). exists k. split; [exact Hk|]. split; [|reflexivity].
    split; [exact (so_valid _ Hs k Hk Ha)|]. apply matches_bits. by right. }
  split; [exact (streams_ok_contexts _ sample_inited Hs)|exact Hf].
Qed.


(** Merging leaves an entry behind: after the devices 4 and 5 and then a group of both are added for one bank,
    two valid entries match stream 5, which the hardware answers with a fault. *)
Theorem smmu_merge_leaves_match :
  match (_ ← iommu_add_sme 0 4 0 false; _ ← iommu_add_sme 0 5 0 false; iommu_add_sme 1 4 0 true) sample_ready with
  | Done (_, s) => entry_matches 0 5 s ∧ entry_matches 1 5 s
  | Halt _ => False
  end.
Proof. vm_compute. repeat split. Qed.

(** The groups and a device of a machine are added with the context [(size_t)-1]. *)
Lemma iommu_never_takes_context_witness :
  ∃ b s1, iommu_arch_vm_init 5 0 (λ _, 0x40000000) (λ p, p) 1 0 [] {| smmu := sample_ready; vm_io := λ _, {| global_mask := 0; ctx_id := 0 |} |} = Done (b, s1) ∧
    no_context 1 (λ _, 3) s1.
Proof.
  eexists _, _. split; [reflexivity|].
  destruct (iommu_never_takes_context 5 0 (λ _, 0x40000000) (λ p, p) 1 0 [] []
    {| smmu := sample_ready; vm_io := λ _, {| global_mask := 0; ctx_id := 0 |} |} true _ eq_refl) as [H _]. exact H.
Defined.
