(* ===== verification/Smmuv3.v ===== *)
(** * The system MMU, version 3: src/arch/aarch64/smmuv3.c and the second branch of iommu.c

    The build with [iommu := smmuv3].  Software and hardware share memory: a table with an entry for
    every stream, and a ring of commands that the SMMU fetches and executes.  The hardware is a
    device behind an interface; a read of one of its registers is a step of the device, which may
    fetch commands from memory meanwhile.  This file holds the driver; [Smmuv3Queue] and
    [Smmuv3Streams] prove what it does. *)
From S2P Require Import Prelude Util Bits Spinlock PagePool Cpu.

(** ** The device *)

(** Registers by their offset, memory as 64-bit words by their address. *)
Class Smmu3Device := {
  smmu3_device : Type;
  smmu3_read : Z → (Z → Z) → smmu3_device → Z * smmu3_device;
  smmu3_write : Z → Z → smmu3_device → smmu3_device
}.

(** ** Fields *)

Definition BIT_MASK_LR (last first : Z) : Z := u64 (Z.shiftl (Z.shiftr 0xffffffffffffffff (64 - (last + 1 - first))) first).

(** The compiler's [__builtin_ffsl]: one more than the number of the least bit that is set. *)
Definition builtin_ffsl (x : Z) : Z := if x =? 0 then 0 else Z.log2 (Z.land x (- x)) + 1.

Definition FIELD_PREP (mask val : Z) : Z := Z.land (u64 (Z.shiftl (u64 val) (builtin_ffsl mask - 1))) mask.
Definition FIELD_GET (mask reg : Z) : Z := Z.shiftr (Z.land reg mask) (builtin_ffsl mask - 1).

Definition ARM_SMMU_IDR0 : Z := 0x0.
Definition IDR0_ST_LVL : Z := BIT_MASK_LR 28 27.
Definition IDR0_VMID16 : Z := Z.shiftl 1 18.
Definition IDR0_S2P : Z := Z.shiftl 1 0.
Definition IDR0_S1P : Z := Z.shiftl 1 1.
Definition IDR0_ST_LVL_2LVL : Z := 1.
Definition SMMU_AIDR : Z := 0x001c.
Definition ARM_SMMU_IDR1 : Z := 0x4.
Definition IDR1_TABLES_PRESET : Z := Z.shiftl 1 30.
Definition IDR1_QUEUES_PRESET : Z := Z.shiftl 1 29.
Definition IDR1_REL : Z := Z.shiftl 1 28.
Definition IDR1_CMDQS : Z := BIT_MASK_LR 25 21.
Definition IDR1_EVTQS : Z := BIT_MASK_LR 20 16.
Definition IDR1_SIDSIZE : Z := BIT_MASK_LR 5 0.
Definition ARM_SMMU_CR0 : Z := 0x20.
Definition CR0_CMDQEN : Z := Z.shiftl 1 3.
Definition CR0_EVTQEN : Z := Z.shiftl 1 2.
Definition CR0_SMMUEN : Z := Z.shiftl 1 0.
Definition ARM_SMMU_CR0ACK : Z := 0x24.
Definition ARM_SMMU_CR1 : Z := 0x28.
Definition CR1_TABLE_SH : Z := BIT_MASK_LR 11 10.
Definition CR1_TABLE_OC : Z := BIT_MASK_LR 9 8.
Definition CR1_TABLE_IC : Z := BIT_MASK_LR 7 6.
Definition CR1_QUEUE_SH : Z := BIT_MASK_LR 5 4.
Definition CR1_QUEUE_OC : Z := BIT_MASK_LR 3 2.
Definition CR1_QUEUE_IC : Z := BIT_MASK_LR 1 0.
Definition CR1_CACHE_WB : Z := 1.
Definition ARM_SMMU_STRTAB_BASE : Z := 0x80.
Definition STRTAB_BASE_RA : Z := Z.shiftl 1 62.
Definition STRTAB_BASE_ADDR_MASK : Z := BIT_MASK_LR 51 6.
Definition ARM_SMMU_STRTAB_BASE_CFG : Z := 0x88.
Definition STRTAB_BASE_CFG_FMT : Z := BIT_MASK_LR 17 16.
Definition STRTAB_BASE_CFG_FMT_LINEAR : Z := 0.
Definition STRTAB_BASE_CFG_FMT_2LVL : Z := 1.
Definition STRTAB_BASE_CFG_SPLIT : Z := BIT_MASK_LR 10 6.
Definition STRTAB_BASE_CFG_LOG2SIZE : Z := BIT_MASK_LR 5 0.
Definition ARM_SMMU_CMDQ_BASE : Z := 0x90.
Definition ARM_SMMU_CMDQ_PROD : Z := 0x98.
Definition ARM_SMMU_CMDQ_CONS : Z := 0x9c.
Definition ARM_SMMU_EVTQ_BASE : Z := 0xa0.
Definition ARM_SMMU_EVTQ_PROD : Z := 0x100a8.
Definition ARM_SMMU_EVTQ_CONS : Z := 0x100ac.
Definition ARM_SMMU_GERROR : Z := 0x60.
Definition GERROR_CMDQ_ERR : Z := Z.shiftl 1 0.
Definition GERROR_EVTQ_ABT_ERR : Z := Z.shiftl 1 2.
Definition ARM_SMMU_GERRORN : Z := 0x64.
Definition ARM_SMMU_SH_ISH : Z := 3.
Definition ARM_SMMU_MEMATTR_OIWB : Z := 0xf.

Definition Q_IDX (reg shift : Z) : Z := Z.land reg (u32 (Z.shiftl 1 shift - 1)).
Definition Q_WRP (reg shift : Z) : Z := Z.land reg (u32 (Z.shiftl 1 shift)).
Definition Q_OVERFLOW_FLAG : Z := Z.shiftl 1 31.
Definition Q_OVF (reg : Z) : Z := Z.land reg Q_OVERFLOW_FLAG.
Definition Q_EMPTY (prod cons shift : Z) : bool :=
  (Q_IDX prod shift =? Q_IDX cons shift) && (Q_WRP prod shift =? Q_WRP cons shift).
Definition Q_FULL (prod cons shift : Z) : bool :=
  (Q_IDX prod shift =? Q_IDX cons shift) && negb (Q_WRP prod shift =? Q_WRP cons shift).
Definition Q_BASE_RWA : Z := Z.shiftl 1 62.
Definition Q_BASE_ADDR_MASK : Z := BIT_MASK_LR 51 5.
Definition Q_BASE_LOG2SIZE : Z := BIT_MASK_LR 4 0.

Definition STRTAB_L1_SZ_SHIFT : Z := 20.
Definition STRTAB_SPLIT : Z := 8.
Definition STRTAB_L1_DESC_DWORDS : Z := 1.
Definition STRTAB_L1_DESC_SIZE : Z := Z.shiftl STRTAB_L1_DESC_DWORDS 3.
Definition STRTAB_L1_DESC_SPAN : Z := BIT_MASK_LR 4 0.
Definition STRTAB_L1_DESC_L2PTR_MASK : Z := BIT_MASK_LR 51 6.
Definition STRTAB_STE_DWORDS_BITS : Z := 3.
Definition STRTAB_STE_DWORDS : Z := Z.shiftl 1 STRTAB_STE_DWORDS_BITS.
Definition STRTAB_STE_SIZE : Z := Z.shiftl STRTAB_STE_DWORDS 3.
Definition STRTAB_STE_0_V : Z := Z.shiftl 1 0.
Definition STRTAB_STE_0_CFG : Z := BIT_MASK_LR 3 1.
Definition STRTAB_STE_0_CFG_BYPASS : Z := 4.
Definition STRTAB_STE_0_CFG_S2_TRANS : Z := 6.
Definition STRTAB_STE_1_SHCFG : Z := BIT_MASK_LR 45 44.
Definition STRTAB_STE_1_SHCFG_INCOMING : Z := 1.
Definition STRTAB_STE_2_S2VMID : Z := BIT_MASK_LR 15 0.
Definition STRTAB_STE_2_VTCR : Z := BIT_MASK_LR 50 32.
Definition STRTAB_STE_2_S2AA64 : Z := Z.shiftl 1 51.
Definition STRTAB_STE_2_S2PTW : Z := Z.shiftl 1 54.
Definition STRTAB_STE_2_S2R : Z := Z.shiftl 1 58.
Definition STRTAB_STE_3_S2TTB_MASK : Z := BIT_MASK_LR 51 4.

Definition CMDQ_ENT_DWORDS : Z := 2.
Definition CMDQ_MAX_SZ_SHIFT : Z := 8.
Definition CMDQ_0_OP : Z := BIT_MASK_LR 7 0.
Definition CMDQ_PREFETCH_0_SID : Z := BIT_MASK_LR 63 32.
Definition CMDQ_PREFETCH_1_SIZE : Z := BIT_MASK_LR 4 0.
Definition CMDQ_PREFETCH_1_ADDR_MASK : Z := BIT_MASK_LR 63 12.
Definition CMDQ_CFGI_0_SID : Z := BIT_MASK_LR 63 32.
Definition CMDQ_CFGI_1_LEAF : Z := Z.shiftl 1 0.
Definition CMDQ_CFGI_1_RANGE : Z := BIT_MASK_LR 4 0.
Definition CMDQ_TLBI_0_VMID : Z := BIT_MASK_LR 47 32.
Definition CMDQ_TLBI_0_ASID : Z := BIT_MASK_LR 63 48.
Definition CMDQ_TLBI_1_LEAF : Z := Z.shiftl 1 0.
Definition CMDQ_TLBI_1_VA_MASK : Z := BIT_MASK_LR 63 12.
Definition CMDQ_TLBI_1_IPA_MASK : Z := BIT_MASK_LR 51 12.
Definition CMDQ_SYNC_0_CS : Z := BIT_MASK_LR 13 12.
Definition CMDQ_SYNC_0_CS_IRQ : Z := 1.
Definition CMDQ_SYNC_0_CS_SEV : Z := 2.
Definition CMDQ_SYNC_0_MSH : Z := BIT_MASK_LR 23 22.
Definition CMDQ_SYNC_0_MSIATTR : Z := BIT_MASK_LR 27 24.
Definition CMDQ_SYNC_0_MSIDATA : Z := BIT_MASK_LR 63 32.
Definition CMDQ_SYNC_1_MSIADDR_MASK : Z := BIT_MASK_LR 51 2.
Definition EVTQ_ENT_DWORDS : Z := 4.
Definition EVTQ_MAX_SZ_SHIFT : Z := 7.
Definition ARM_SMMU_SYNC_TIMEOUT : nat := Z.to_nat 1000000.

Definition CMDQ_OP_PREFETCH_CFG : Z := 0x1.
Definition CMDQ_OP_PREFETCH_ADDR : Z := 0x2.
Definition CMDQ_OP_CFGI_STE : Z := 0x3.
Definition CMDQ_OP_CFGI_ALL : Z := 0x4.
Definition CMDQ_OP_TLBI_NH_ASID : Z := 0x11.
Definition CMDQ_OP_TLBI_NH_VA : Z := 0x12.
Definition CMDQ_OP_TLBI_EL2_ALL : Z := 0x20.
Definition CMDQ_OP_TLBI_S12_VMALL : Z := 0x28.
Definition CMDQ_OP_TLBI_S2_IPA : Z := 0x2a.
Definition CMDQ_OP_TLBI_NSNH_ALL : Z := 0x30.
Definition CMDQ_OP_CMD_SYNC : Z := 0x46.
Definition ARM_SMMU_FEAT_2_LVL_STRTAB : Z := Z.shiftl 1 0.

Definition ENOMEM : Z := 12.

(** The translation control the entries carry. *)
Definition T0SZ : Z := 0.
Definition SL0 : Z := 1.
Definition TCR_RGN_WB_WA : Z := 0x1.
Definition TCR_INNER_SHAREABLE : Z := 0x3.
Definition VTCR_RES1 : Z := Z.shiftl 1 31.
Definition VTCR_CELL : Z :=
  Z.lor (Z.lor (Z.lor (Z.lor (Z.lor T0SZ (Z.shiftl SL0 6)) (Z.shiftl TCR_RGN_WB_WA 8)) (Z.shiftl TCR_RGN_WB_WA 10))
    (Z.shiftl TCR_INNER_SHAREABLE 12)) VTCR_RES1.

(** ** Commands *)

(** The union of [struct arm_smmu_cmdq_ent]: the member last stored. *)
Inductive cmdq_args :=
| prefetch (sid size addr : Z)
| cfgi (sid leaf : Z)
| tlbi (asid vmid leaf addr : Z)
| sync (msidata msiaddr : Z)
| not_set.

Record arm_smmu_cmdq_ent := { opcode : Z; substream_valid : bool; args : cmdq_args }.

(** The two words of a command.  [trace_error] is an [ERROR], which never returns; reading a member
    of the union that is not the one stored is an access outside it. *)
Definition arm_smmu_cmdq_build_cmd (ent : arm_smmu_cmdq_ent) : outcome (Z * Z) :=
  let op := opcode ent in
  let cmd0 := Z.lor 0 (FIELD_PREP CMDQ_0_OP op) in
  if (op =? CMDQ_OP_TLBI_EL2_ALL) || (op =? CMDQ_OP_TLBI_NSNH_ALL) then Done (cmd0, 0)
  else if op =? CMDQ_OP_PREFETCH_ADDR then
    match args ent with
    | prefetch sid size addr =>
        Done (Z.lor cmd0 (FIELD_PREP CMDQ_PREFETCH_0_SID sid),
              Z.lor (FIELD_PREP CMDQ_PREFETCH_1_SIZE size) (Z.land addr CMDQ_PREFETCH_1_ADDR_MASK))
    | _ => Halt FBounds
    end
  else if op =? CMDQ_OP_PREFETCH_CFG then
    match args ent with
    | prefetch sid _ _ => Done (Z.lor cmd0 (FIELD_PREP CMDQ_PREFETCH_0_SID sid), 0)
    | _ => Halt FBounds
    end
  else if op =? CMDQ_OP_CFGI_STE then
    match args ent with
    | cfgi sid leaf => Done (Z.lor cmd0 (FIELD_PREP CMDQ_CFGI_0_SID sid), FIELD_PREP CMDQ_CFGI_1_LEAF leaf)
    | _ => Halt FBounds
    end
  else if op =? CMDQ_OP_CFGI_ALL then Done (cmd0, FIELD_PREP CMDQ_CFGI_1_RANGE 31)
  else if op =? CMDQ_OP_TLBI_NH_VA then
    match args ent with
    | tlbi asid vmid leaf addr =>
        Done (Z.lor (Z.lor cmd0 (FIELD_PREP CMDQ_TLBI_0_ASID asid)) (FIELD_PREP CMDQ_TLBI_0_VMID vmid),
              Z.lor (FIELD_PREP CMDQ_TLBI_1_LEAF leaf) (Z.land addr CMDQ_TLBI_1_VA_MASK))
    | _ => Halt FBounds
    end
  else if op =? CMDQ_OP_TLBI_S2_IPA then
    match args ent with
    | tlbi _ vmid leaf addr =>
        Done (Z.lor cmd0 (FIELD_PREP CMDQ_TLBI_0_VMID vmid),
              Z.lor (FIELD_PREP CMDQ_TLBI_1_LEAF leaf) (Z.land addr CMDQ_TLBI_1_IPA_MASK))
    | _ => Halt FBounds
    end
  else if op =? CMDQ_OP_TLBI_NH_ASID then
    match args ent with
    | tlbi asid vmid _ _ => Done (Z.lor (Z.lor cmd0 (FIELD_PREP CMDQ_TLBI_0_ASID asid)) (FIELD_PREP CMDQ_TLBI_0_VMID vmid), 0)
    | _ => Halt FBounds
    end
  else if op =? CMDQ_OP_TLBI_S12_VMALL then
    match args ent with
    | tlbi _ vmid _ _ => Done (Z.lor cmd0 (FIELD_PREP CMDQ_TLBI_0_VMID vmid), 0)
    | _ => Halt FBounds
    end
  else if op =? CMDQ_OP_CMD_SYNC then
    match args ent with
    | sync msidata msiaddr =>
        let cs := if negb (msiaddr =? 0) then CMDQ_SYNC_0_CS_IRQ else CMDQ_SYNC_0_CS_SEV in
        Done (Z.lor (Z.lor cmd0 (FIELD_PREP CMDQ_SYNC_0_CS cs))
                (Z.lor (Z.lor (FIELD_PREP CMDQ_SYNC_0_MSH ARM_SMMU_SH_ISH) (FIELD_PREP CMDQ_SYNC_0_MSIATTR ARM_SMMU_MEMATTR_OIWB))
                  (FIELD_PREP CMDQ_SYNC_0_MSIDATA msidata)),
              Z.land msiaddr CMDQ_SYNC_1_MSIADDR_MASK)
    | _ => Halt FBounds
    end
  else Halt FError.

(** [{ .opcode = CMDQ_OP_CMD_SYNC }]: the rest is zero. *)
Definition cmd_sync : arm_smmu_cmdq_ent := {| opcode := CMDQ_OP_CMD_SYNC; substream_valid := false; args := sync 0 0 |}.

(** ** State *)

Record arm_smmu_queue := {
  q_mem : Z;
  base_dma : Z;
  q_base : Z;
  ent_dwords : Z;
  max_n_shift : Z;
  prod : Z;
  cons : Z;
  prod_reg : Z;
  cons_reg : Z;
  gerr_mask : Z
}.
#[export] Instance eta_arm_smmu_queue : Eta arm_smmu_queue := λ q,
  Build_arm_smmu_queue (q_mem q) (base_dma q) (q_base q) (ent_dwords q) (max_n_shift q) (prod q) (cons q) (prod_reg q) (cons_reg q) (gerr_mask q).

Record arm_smmu_strtab_l1_desc := { span : Z; l2ptr : Z; l2ptr_dma : Z; active_stes : Z }.
#[export] Instance eta_l1_desc : Eta arm_smmu_strtab_l1_desc := λ d,
  Build_arm_smmu_strtab_l1_desc (span d) (l2ptr d) (l2ptr_dma d) (active_stes d).

(** [l1_desc] is the address of the array and [l1_descs] what is in it. *)
Record arm_smmu_strtab_cfg := {
  strtab : Z;
  strtab_dma : Z;
  l1_desc : Z;
  l1_descs : Z → arm_smmu_strtab_l1_desc;
  num_l1_ents : Z;
  strtab_base : Z;
  strtab_base_cfg : Z
}.
#[export] Instance eta_strtab_cfg : Eta arm_smmu_strtab_cfg := λ c,
  Build_arm_smmu_strtab_cfg (strtab c) (strtab_dma c) (l1_desc c) (l1_descs c) (num_l1_ents c) (strtab_base c) (strtab_base_cfg c).

Section driver.
Context `{Smmu3Device}.

(** [struct arm_smmu_device] with what it shares: the hardware, memory and the pool of pages. *)
Record smmu3 := {
  dev : smmu3_device;
  mem : Z → Z;
  pages : page_pool;
  smmu_base : Z;
  features : Z;
  cmdq : arm_smmu_queue;
  cmdq_lock : spinlock_t;
  evtq : arm_smmu_queue;
  sid_bits : Z;
  strtab_cfg : arm_smmu_strtab_cfg
}.
#[export] Instance eta_smmu3 : Eta smmu3 := λ s,
  Build_smmu3 (dev s) (mem s) (pages s) (smmu_base s) (features s) (cmdq s) (cmdq_lock s) (evtq s) (sid_bits s) (strtab_cfg s).

(** The globals [platform.arch.smmu.base] and [CURRENT_VM], which is NULL while no VM runs; the
    rounds left to the loops that wait for the hardware and to the search for pages; what a local
    variable holds before it is set. *)
Record running_vm := { vm_id : Z; vm_root : Z }.
Variable base_address : Z.
Variable current_vm : option running_vm.
Variable fuel alloc_fuel : nat.
Variable stack : Z.

Definition upd_cmdq (f : arm_smmu_queue → arm_smmu_queue) : prog smmu3 unit := modify (λ s, s <| cmdq ::= f |>).
Definition upd_cfg (f : arm_smmu_strtab_cfg → arm_smmu_strtab_cfg) : prog smmu3 unit := modify (λ s, s <| strtab_cfg ::= f |>).

Definition mmio_read32 (address : Z) : prog smmu3 Z := λ s,
  let '(v, d) := smmu3_read (address -64 base_address) (mem s) (dev s) in Done (u32 v, s <| dev := d |>).
Definition mmio_write32 (address value : Z) : prog smmu3 unit :=
  modify (λ s, s <| dev ::= smmu3_write (address -64 base_address) (u32 value) |>).
Definition mmio_write64 (address value : Z) : prog smmu3 unit :=
  modify (λ s, s <| dev ::= smmu3_write (address -64 base_address) (u64 value) |>).

Definition smmu_read32 (off : Z) : prog smmu3 Z := b ← gets smmu_base; mmio_read32 (b +64 off).
Definition smmu_write32 (off value : Z) : prog smmu3 unit := b ← gets smmu_base; mmio_write32 (b +64 off) value.
Definition smmu_write64 (off value : Z) : prog smmu3 unit := b ← gets smmu_base; mmio_write64 (b +64 off) value.

Definition store64 (address value : Z) : prog smmu3 unit := modify (λ s, s <| mem ::= <[address := u64 value]> |>).

Definition paging_hvirt2phys (x : Z) : Z := u64 x.

Definition mem_alloc (nr_pages : Z) (phys_aligned : bool) : prog smmu3 Z :=
  lift_prog pages (λ p s, s <| pages := p |>) (mem_alloc_page nr_pages phys_aligned alloc_fuel).

(** ** The command queue *)

Definition queue_full (q : arm_smmu_queue) : bool := Q_FULL (prod q) (cons q) (max_n_shift q).
Definition queue_empty (q : arm_smmu_queue) : bool := Q_EMPTY (prod q) (cons q) (max_n_shift q).

Definition queue_sync_cons : prog smmu3 unit :=
  q ← gets cmdq; c ← mmio_read32 (cons_reg q); upd_cmdq (λ q, q <| cons := c |>).

Definition queue_error : prog smmu3 bool :=
  gerror ← smmu_read32 ARM_SMMU_GERROR;
  gerrorn ← smmu_read32 ARM_SMMU_GERRORN;
  q ← gets cmdq;
  mret (negb (Z.land (Z.lxor gerror gerrorn) (gerr_mask q) =? 0)).

Definition next_prod (p shift : Z) : Z :=
  let prod := u32 (Z.lor (Q_WRP p shift) (Q_IDX p shift) + 1) in
  Z.lor (Z.lor (Q_OVF p) (Q_WRP prod shift)) (Q_IDX prod shift).

Definition queue_inc_prod : prog smmu3 unit :=
  upd_cmdq (λ q, q <| prod := next_prod (prod q) (max_n_shift q) |>);;
  q ← gets cmdq; mmio_write32 (prod_reg q) (prod q).

Fixpoint queue_write (dst : Z) (src : list Z) (n_dwords : nat) : prog smmu3 unit :=
  match n_dwords, src with
  | O, _ => mret tt
  | S n, x :: src => store64 dst x;; queue_write (dst +64 8) src n
  | S _, [] => halt FBounds
  end.

Definition queue_entry (q : arm_smmu_queue) (reg : Z) : Z :=
  q_mem q +64 (Q_IDX reg (max_n_shift q) *64 ent_dwords q) * 8.

Definition build_cmd (ent : arm_smmu_cmdq_ent) : prog smmu3 (Z * Z) := λ s,
  match arm_smmu_cmdq_build_cmd ent with Done cmd => Done (cmd, s) | Halt e => Halt e end.

Definition arm_smmu_cmdq_skip_err : prog smmu3 unit :=
  cmd ← build_cmd cmd_sync;
  q ← gets cmdq;
  queue_write (queue_entry q (cons q)) [cmd.1; cmd.2] (Z.to_nat (ent_dwords q));;
  gerrorn ← smmu_read32 ARM_SMMU_GERRORN;
  smmu_write32 ARM_SMMU_GERRORN (Z.lxor gerrorn GERROR_CMDQ_ERR).

(** [while (queue_full(q)) queue_sync_cons(q);]. *)
Fixpoint full_loop (n : nat) : prog smmu3 unit :=
  match n with
  | O => halt FSpin
  | S n => q ← gets cmdq; if queue_full q then queue_sync_cons;; full_loop n else mret tt
  end.

(** [while (!queue_empty(q))]: wait for the hardware to fetch what is in the queue. *)
Fixpoint drain_loop (n : nat) : prog smmu3 unit :=
  match n with
  | O => halt FSpin
  | S n =>
      q ← gets cmdq;
      if negb (queue_empty q) then
        queue_sync_cons;;
        err ← queue_error;
        (if err : bool then arm_smmu_cmdq_skip_err else mret tt);;
        drain_loop n
      else mret tt
  end.

Definition arm_smmu_cmdq_insert_cmd (cmd : Z * Z) : prog smmu3 unit :=
  full_loop fuel;;
  q ← gets cmdq;
  queue_write (queue_entry q (prod q)) [cmd.1; cmd.2] (Z.to_nat (ent_dwords q));;
  queue_inc_prod;;
  drain_loop fuel.

Definition arm_smmu_cmdq_issue_cmd (ent : arm_smmu_cmdq_ent) : prog smmu3 unit :=
  cmd ← build_cmd ent;
  acquire cmdq_lock;;
  arm_smmu_cmdq_insert_cmd cmd;;
  release cmdq_lock.

Definition arm_smmu_cmdq_issue_sync : prog smmu3 unit := arm_smmu_cmdq_issue_cmd cmd_sync.

(** ** Stream tables *)

Definition arm_smmu_write_strtab_l1_desc (dst : Z) (desc : arm_smmu_strtab_l1_desc) : prog smmu3 unit :=
  store64 dst (Z.lor (FIELD_PREP STRTAB_L1_DESC_SPAN (span desc)) (Z.land (l2ptr_dma desc) STRTAB_L1_DESC_L2PTR_MASK)).

Definition arm_smmu_sync_ste_for_sid (sid : Z) : prog smmu3 unit :=
  arm_smmu_cmdq_issue_cmd {| opcode := CMDQ_OP_CFGI_STE; substream_valid := false; args := cfgi sid 1 |};;
  arm_smmu_cmdq_issue_sync.

(** [smmu] says whether the pointer to the device is given; the entry is at [dst]. *)
Definition arm_smmu_write_strtab_ent (smmu : bool) (sid dst : Z) (bypass : bool) (vmid root_pt : Z) : prog smmu3 unit :=
  if bypass then
    let val := Z.lor STRTAB_STE_0_V (FIELD_PREP STRTAB_STE_0_CFG STRTAB_STE_0_CFG_BYPASS) in
    store64 (dst +64 8) (FIELD_PREP STRTAB_STE_1_SHCFG STRTAB_STE_1_SHCFG_INCOMING);;
    store64 (dst +64 16) (FIELD_PREP STRTAB_STE_2_S2VMID vmid);;
    store64 dst val;;
    if smmu then arm_smmu_sync_ste_for_sid sid else mret tt
  else
    store64 (dst +64 16)
      (Z.lor (Z.lor (Z.lor (Z.lor (FIELD_PREP STRTAB_STE_2_S2VMID vmid) (FIELD_PREP STRTAB_STE_2_VTCR VTCR_CELL))
        STRTAB_STE_2_S2PTW) STRTAB_STE_2_S2AA64) STRTAB_STE_2_S2R);;
    let vttbr := paging_hvirt2phys root_pt in
    store64 (dst +64 24) (Z.land vttbr STRTAB_STE_3_S2TTB_MASK);;
    let val := Z.lor (FIELD_PREP STRTAB_STE_0_CFG STRTAB_STE_0_CFG_S2_TRANS) STRTAB_STE_0_V in
    arm_smmu_sync_ste_for_sid sid;;
    store64 dst val;;
    arm_smmu_sync_ste_for_sid sid.

(** [n] entries from [strtab] on. *)
Fixpoint arm_smmu_init_bypass_stes (strtab : Z) (n : nat) : prog smmu3 unit :=
  match n with
  | O => mret tt
  | S n =>
      vm ← deref current_vm;
      arm_smmu_write_strtab_ent false (u32 (-1)) strtab true (u32 (vm_id vm)) (vm_root vm);;
      arm_smmu_init_bypass_stes (strtab +64 STRTAB_STE_DWORDS * 8) n
  end.

Definition arm_smmu_init_strtab_linear : prog smmu3 Z :=
  bits ← gets sid_bits;
  let size := u32 (u32 (Z.shiftl 1 bits) * STRTAB_STE_SIZE) in
  strtab_ ← mem_alloc (NUM_PAGES size) true;
  if strtab_ =? 0 then mret (- ENOMEM)
  else
    upd_cfg (λ c, c <| strtab_dma := paging_hvirt2phys strtab_ |> <| strtab := strtab_ |> <| num_l1_ents := u32 (Z.shiftl 1 bits) |>);;
    let reg := FIELD_PREP STRTAB_BASE_CFG_FMT STRTAB_BASE_CFG_FMT_LINEAR in
    let reg := Z.lor reg (FIELD_PREP STRTAB_BASE_CFG_LOG2SIZE bits) in
    upd_cfg (λ c, c <| strtab_base_cfg := u32 reg |>);;
    cfg ← gets strtab_cfg;
    arm_smmu_init_bypass_stes strtab_ (Z.to_nat (num_l1_ents cfg));;
    mret 0.

Definition zero_desc : arm_smmu_strtab_l1_desc := {| span := 0; l2ptr := 0; l2ptr_dma := 0; active_stes := 0 |}.

(** [sizeof(struct arm_smmu_strtab_l1_desc)]. *)
Definition l1_desc_size : Z := 32.

Fixpoint l1_loop (i strtab : Z) (n : nat) : prog smmu3 unit :=
  match n with
  | O => mret tt
  | S n =>
      upd_cfg (λ c, c <| l1_descs ::= <[i := zero_desc]> |>);;
      cfg ← gets strtab_cfg;
      arm_smmu_write_strtab_l1_desc strtab (l1_descs cfg i);;
      l1_loop (i + 1) (strtab +64 STRTAB_L1_DESC_SIZE) n
  end.

Definition arm_smmu_init_l1_strtab : prog smmu3 Z :=
  cfg ← gets strtab_cfg;
  let size := u32 (l1_desc_size *64 num_l1_ents cfg) in
  a ← mem_alloc (NUM_PAGES size) false;
  upd_cfg (λ c, c <| l1_desc := a |>);;
  if a =? 0 then mret (- ENOMEM)
  else l1_loop 0 (strtab cfg) (Z.to_nat (num_l1_ents cfg));; mret 0.

Definition arm_smmu_init_strtab_2lvl : prog smmu3 Z :=
  bits ← gets sid_bits;
  let size := STRTAB_L1_SZ_SHIFT - 3 in
  let size := Z.min size (u32 (bits - STRTAB_SPLIT)) in
  upd_cfg (λ c, c <| num_l1_ents := u32 (Z.shiftl 1 size) |>);;
  let size := u32 (size + STRTAB_SPLIT) in
  (if size <? bits then modify (λ s, s <| sid_bits := size |>) else mret tt);;
  cfg ← gets strtab_cfg;
  let l1size := u32 (num_l1_ents cfg * STRTAB_L1_DESC_SIZE) in
  strtab_ ← mem_alloc (NUM_PAGES l1size) true;
  if strtab_ =? 0 then mret (- ENOMEM)
  else
    upd_cfg (λ c, c <| strtab_dma := paging_hvirt2phys strtab_ |> <| strtab := strtab_ |>);;
    let reg := FIELD_PREP STRTAB_BASE_CFG_FMT STRTAB_BASE_CFG_FMT_2LVL in
    let reg := Z.lor reg (FIELD_PREP STRTAB_BASE_CFG_LOG2SIZE size) in
    let reg := Z.lor reg (FIELD_PREP STRTAB_BASE_CFG_SPLIT STRTAB_SPLIT) in
    upd_cfg (λ c, c <| strtab_base_cfg := u32 reg |>);;
    arm_smmu_init_l1_strtab.

Definition two_level (s : smmu3) : bool := negb (Z.land (features s) ARM_SMMU_FEAT_2_LVL_STRTAB =? 0).

Definition arm_smmu_init_strtab : prog smmu3 Z :=
  two ← gets two_level;
  ret ← (if two : bool then arm_smmu_init_strtab_2lvl else arm_smmu_init_strtab_linear);
  if negb (ret =? 0) then mret ret
  else
    upd_cfg (λ c, c <| strtab_base := Z.lor (Z.land (strtab_dma c) STRTAB_BASE_ADDR_MASK) STRTAB_BASE_RA |>);;
    mret 0.

(** ** Initialisation *)

Definition arm_smmu_init_one_queue (q : arm_smmu_queue) (prod_off cons_off dwords gerr : Z) : prog smmu3 (Z * arm_smmu_queue) :=
  a ← mem_alloc 1 false;
  let q := q <| q_mem := a |> in
  if a =? 0 then mret (- ENOMEM, q)
  else
    b ← gets smmu_base;
    let q := q <| base_dma := paging_hvirt2phys a |> <| prod_reg := b +64 prod_off |> <| cons_reg := b +64 cons_off |>
               <| ent_dwords := dwords |> in
    let q := q <| q_base := Z.lor (Z.lor Q_BASE_RWA (Z.land (base_dma q) Q_BASE_ADDR_MASK)) (FIELD_PREP Q_BASE_LOG2SIZE (max_n_shift q)) |> in
    mret (0, q <| gerr_mask := gerr |> <| cons := 0 |> <| prod := 0 |>).

Definition arm_smmu_init_queues : prog smmu3 Z :=
  q ← gets cmdq;
  r ← arm_smmu_init_one_queue q ARM_SMMU_CMDQ_PROD ARM_SMMU_CMDQ_CONS CMDQ_ENT_DWORDS GERROR_CMDQ_ERR;
  modify (λ s, s <| cmdq := r.2 |>);;
  if negb (r.1 =? 0) then mret r.1
  else
    q ← gets evtq;
    r ← arm_smmu_init_one_queue q ARM_SMMU_EVTQ_PROD ARM_SMMU_EVTQ_CONS EVTQ_ENT_DWORDS GERROR_EVTQ_ABT_ERR;
    modify (λ s, s <| evtq := r.2 |>);;
    mret r.1.

Definition arm_smmu_init_structures : prog smmu3 Z :=
  ret ← arm_smmu_init_queues;
  if negb (ret =? 0) then mret ret else arm_smmu_init_strtab.

(** [for (n = 0; n < timeout; n++)]; after the last round [trace_error], an [ERROR]. *)
Fixpoint ack_loop (val ack_off : Z) (n : nat) : prog smmu3 Z :=
  match n with
  | O => halt FError
  | S n => v ← smmu_read32 ack_off; if v =? val then mret 0 else ack_loop val ack_off n
  end.

Definition arm_smmu_write_reg_sync (val reg_off ack_off : Z) : prog smmu3 Z :=
  smmu_write32 reg_off val;;
  ack_loop val ack_off ARM_SMMU_SYNC_TIMEOUT.

Definition CR1_VALUE : Z :=
  Z.lor (Z.lor (Z.lor (Z.lor (Z.lor (FIELD_PREP CR1_TABLE_SH ARM_SMMU_SH_ISH) (FIELD_PREP CR1_TABLE_OC CR1_CACHE_WB))
    (FIELD_PREP CR1_TABLE_IC CR1_CACHE_WB)) (FIELD_PREP CR1_QUEUE_SH ARM_SMMU_SH_ISH)) (FIELD_PREP CR1_QUEUE_OC CR1_CACHE_WB))
    (FIELD_PREP CR1_QUEUE_IC CR1_CACHE_WB).

Definition issue_op (op : Z) : prog smmu3 unit :=
  arm_smmu_cmdq_issue_cmd {| opcode := op; substream_valid := negb (stack =? 0); args := not_set |}.

Definition arm_smmu_device_reset : prog smmu3 Z :=
  ret ← arm_smmu_write_reg_sync 0 ARM_SMMU_CR0 ARM_SMMU_CR0ACK;
  if negb (ret =? 0) then mret ret
  else
    smmu_write32 ARM_SMMU_CR1 CR1_VALUE;;
    s ← gets (λ s, s);
    smmu_write64 ARM_SMMU_STRTAB_BASE (strtab_base (strtab_cfg s));;
    smmu_write32 ARM_SMMU_STRTAB_BASE_CFG (strtab_base_cfg (strtab_cfg s));;
    smmu_write64 ARM_SMMU_CMDQ_BASE (q_base (cmdq s));;
    smmu_write32 ARM_SMMU_CMDQ_PROD (prod (cmdq s));;
    smmu_write32 ARM_SMMU_CMDQ_CONS (cons (cmdq s));;
    ret ← arm_smmu_write_reg_sync CR0_CMDQEN ARM_SMMU_CR0 ARM_SMMU_CR0ACK;
    if negb (ret =? 0) then mret ret
    else
      issue_op CMDQ_OP_CFGI_ALL;;
      arm_smmu_cmdq_issue_sync;;
      issue_op CMDQ_OP_TLBI_NSNH_ALL;;
      issue_op CMDQ_OP_TLBI_EL2_ALL;;
      arm_smmu_cmdq_issue_sync;;
      s ← gets (λ s, s);
      smmu_write64 ARM_SMMU_EVTQ_BASE (q_base (evtq s));;
      smmu_write32 ARM_SMMU_EVTQ_PROD (prod (evtq s));;
      smmu_write32 ARM_SMMU_EVTQ_CONS (cons (evtq s));;
      let enables := Z.lor CR0_CMDQEN CR0_EVTQEN in
      ret ← arm_smmu_write_reg_sync enables ARM_SMMU_CR0 ARM_SMMU_CR0ACK;
      if negb (ret =? 0) then mret ret
      else arm_smmu_write_reg_sync (Z.lor enables CR0_SMMUEN) ARM_SMMU_CR0 ARM_SMMU_CR0ACK.

Definition arm_smmu_device_init_features : prog smmu3 Z :=
  smmu_read32 SMMU_AIDR;;
  reg ← smmu_read32 ARM_SMMU_IDR0;
  modify (λ s, s <| features := 0 |>);;
  (if FIELD_GET IDR0_ST_LVL reg =? IDR0_ST_LVL_2LVL then modify (λ s, s <| features ::= Z.lor ARM_SMMU_FEAT_2_LVL_STRTAB |>) else mret tt);;
  if Z.land reg IDR0_S2P =? 0 then halt FError
  else
    (if negb (FIELD_GET IDR0_S1P reg =? 0) then modify (λ s, s <| features ::= Z.lor IDR0_S1P |>) else mret tt);;
    (if negb (FIELD_GET IDR0_VMID16 reg =? 0) then modify (λ s, s <| features ::= Z.lor IDR0_VMID16 |>) else mret tt);;
    reg ← smmu_read32 ARM_SMMU_IDR1;
    if negb (Z.land reg (Z.lor (Z.lor IDR1_TABLES_PRESET IDR1_QUEUES_PRESET) IDR1_REL) =? 0) then halt FError
    else
      upd_cmdq (λ q, q <| max_n_shift := Z.min CMDQ_MAX_SZ_SHIFT (FIELD_GET IDR1_CMDQS reg) |>);;
      q ← gets cmdq;
      if max_n_shift q =? 0 then halt FError
      else
        modify (λ s, s <| evtq ::= λ q, q <| max_n_shift := Z.min EVTQ_MAX_SZ_SHIFT (FIELD_GET IDR1_EVTQS reg) |> |>);;
        modify (λ s, s <| sid_bits := FIELD_GET IDR1_SIDSIZE reg |>);;
        bits ← gets sid_bits;
        (if bits <=? STRTAB_SPLIT then modify (λ s, s <| features ::= λ f, Z.land f (u32 (Z.lnot ARM_SMMU_FEAT_2_LVL_STRTAB)) |>) else mret tt);;
        mret 0.

Definition arm_smmuv3_init : prog smmu3 unit :=
  modify (λ s, s <| smmu_base := base_address |>);;
  arm_smmu_device_init_features;;
  arm_smmu_init_structures;;
  arm_smmu_device_reset;;
  mret tt.

(** ** Devices of a VM *)

(** The record of the 256 streams of [sid]; an index outside the array is an access outside it. *)
Definition desc_of (sid : Z) : prog smmu3 arm_smmu_strtab_l1_desc :=
  cfg ← gets strtab_cfg;
  let i := Z.shiftr sid STRTAB_SPLIT in
  if i <? num_l1_ents cfg then mret (l1_descs cfg i) else halt FBounds.

Definition upd_desc (sid : Z) (f : arm_smmu_strtab_l1_desc → arm_smmu_strtab_l1_desc) : prog smmu3 unit :=
  upd_cfg (λ c, c <| l1_descs ::= alter f (Z.shiftr sid STRTAB_SPLIT) |>).

Definition arm_smmu_init_l2_strtab (sid : Z) : prog smmu3 Z :=
  desc ← desc_of sid;
  if negb (l2ptr desc =? 0) then
    upd_desc sid (λ d, d <| active_stes ::= λ n, u32 (n + 1) |>);; mret 0
  else
    let size := u32 (Z.shiftl 1 (STRTAB_SPLIT + STRTAB_STE_DWORDS_BITS + 3)) in
    cfg ← gets strtab_cfg;
    let strtab_ := strtab cfg +64 (Z.shiftr sid STRTAB_SPLIT * STRTAB_L1_DESC_DWORDS) * 8 in
    upd_desc sid (λ d, d <| span := u8 (STRTAB_SPLIT + 1) |>);;
    a ← mem_alloc (NUM_PAGES size) true;
    upd_desc sid (λ d, d <| l2ptr := a |>);;
    if a =? 0 then halt FError
    else
      upd_desc sid (λ d, d <| l2ptr_dma := paging_hvirt2phys a |>);;
      upd_desc sid (λ d, d <| active_stes := 1 |>);;
      arm_smmu_init_bypass_stes a (Z.to_nat (Z.shiftl 1 STRTAB_SPLIT));;
      desc ← desc_of sid;
      arm_smmu_write_strtab_l1_desc strtab_ desc;;
      arm_smmu_cmdq_issue_cmd {| opcode := CMDQ_OP_CFGI_STE; substream_valid := negb (stack =? 0); args := cfgi sid 0 |};;
      mret 0.

Definition arm_smmu_get_step_for_sid (sid : Z) : prog smmu3 Z :=
  two ← gets two_level;
  if two : bool then
    desc ← desc_of sid;
    mret (l2ptr desc +64 Z.land sid (Z.shiftl 1 STRTAB_SPLIT - 1) * STRTAB_STE_DWORDS * 8)
  else
    cfg ← gets strtab_cfg;
    mret (strtab cfg +64 u32 (sid * STRTAB_STE_DWORDS) * 8).

Definition arm_smmu_init_ste (sid vmid : Z) : prog smmu3 Z :=
  two ← gets two_level;
  ret ← (if two : bool then arm_smmu_init_l2_strtab sid else mret 0);
  if negb (ret =? 0) then mret ret
  else
    step ← arm_smmu_get_step_for_sid sid;
    vm ← deref current_vm;
    arm_smmu_write_strtab_ent true sid step false vmid (vm_root vm);;
    mret 0.

Definition arm_smmuv3_vm_dev_init (vmid sid : Z) : prog smmu3 Z :=
  ret ← arm_smmu_init_ste sid (u32 vmid);
  if negb (ret =? 0) then mret ret
  else
    arm_smmu_cmdq_issue_cmd {| opcode := CMDQ_OP_TLBI_S12_VMALL; substream_valid := negb (stack =? 0);
                               args := tlbi (u16 stack) (u16 vmid) (wrap 1 stack) (u64 stack) |};;
    mret 0.

(** ** iommu.c *)

Definition iommu_arch_init (cpu : Z) : prog smmu3 bool :=
  if (cpu =? CPU_MASTER) && negb (base_address =? 0) then arm_smmuv3_init;; mret true else mret false.

Definition iommu_arch_vm_add_device (vmid id : Z) : prog smmu3 bool :=
  ret ← arm_smmuv3_vm_dev_init vmid id; mret (ret =? 0).

(** The groups of the configuration, of which only the stream number is used. *)
Fixpoint iommu_arch_vm_init (vmid : Z) (groups : list Z) : prog smmu3 bool :=
  match groups with
  | [] => mret true
  | id :: groups =>
      ret ← arm_smmuv3_vm_dev_init vmid id;
      if negb (ret =? 0) then mret false else iommu_arch_vm_init vmid groups
  end.

End driver.
