(* ===== verification/Smmuv3Queue.v ===== *)
(** * The command queue of the SMMUv3

    Indices with a wrap bit count the commands in the ring; the two words of a command carry its
    fields; a command issued is executed by the hardware once, and the call comes back. *)
From S2P Require Import Prelude Util Bits Spinlock PagePool Smmuv3.

(** ** Fields *)

(** [len] ones from bit [off] on. *)
Definition field (off len : Z) : Z := Z.shiftl (Z.ones len) off.

Lemma testbit_field off len i : 0 ≤ off → 0 ≤ len → 0 ≤ i → Z.testbit (field off len) i = (off <=? i) && (i <? off + len).
Proof. intros. unfold field. rewrite testbit_shiftl by done. destruct (Z.ltb_spec i off).
  - rewrite Z.testbit_neg_r by lia. by zcase.
  - rewrite Z.testbit_ones by lia. zcase; done.
Qed.

(** Of the two thousand masks of a word the least bit is where it should be. *)
Lemma ffsl_field off len : 0 ≤ off → 0 < len → off + len ≤ 64 → builtin_ffsl (field off len) = off + 1.
Proof.
  intros Ho Hl Hb.
  assert (forallb (λ o, forallb (λ n, (64 <? o + n) || (builtin_ffsl (field o n) =? o + 1)) (seqZ 1 64)) (seqZ 0 64) = true) as Hall
    by (vm_compute; reflexivity).
  rewrite forallb_forall in Hall. specialize (Hall off). rewrite forallb_forall in Hall.
  specialize (Hall ltac:(apply list_elem_of_In, elem_of_seqZ; lia) len ltac:(apply list_elem_of_In, elem_of_seqZ; lia)).
  apply orb_true_iff in Hall as [Hx|Hx]; [apply Z.ltb_lt in Hx; lia|by apply Z.eqb_eq].
Qed.

Lemma testbit_FIELD_PREP off len v i :
  0 ≤ off → 0 < len → off + len ≤ 64 → 0 ≤ i →
  Z.testbit (FIELD_PREP (field off len) v) i = (off <=? i) && (i <? off + len) && Z.testbit v (i - off).
Proof.
  intros Ho Hl Hb Hi. unfold FIELD_PREP. rewrite ffsl_field by lia. replace (off + 1 - 1) with off by lia.
  rewrite Z.land_spec, testbit_wrap, testbit_shiftl, testbit_field by lia. destruct (Z.leb_spec off i); [|by rewrite !andb_false_r].
  rewrite testbit_wrap by lia. destruct (Z.testbit v (i - off)); zcase; done.
Qed.

Lemma FIELD_PREP_word off len v : 0 ≤ off → 0 < len → off + len ≤ 64 → in_word 64 (FIELD_PREP (field off len) v).
Proof. intros. unfold FIELD_PREP. apply in_word_land; [lia|]. by apply wrap_in_word. Qed.

Lemma FIELD_GET_field off len r : 0 ≤ off → 0 < len → off + len ≤ 64 → FIELD_GET (field off len) r = Z.shiftr r off mod 2 ^ len.
Proof.
  intros Ho Hl Hb. unfold FIELD_GET. rewrite ffsl_field by lia. replace (off + 1 - 1) with off by lia.
  rewrite <-Z.land_ones by lia. word_bits. rewrite testbit_field by lia. zcase; rewrite ?andb_true_r, ?andb_false_r; done.
Qed.

(** What reading [len] bits from [off] on gives of a word put together from fields. *)
Lemma bits_of_word off len w v :
  0 ≤ off → 0 < len → (∀ i, 0 ≤ i < len → Z.testbit w (i + off) = Z.testbit v i) → Z.shiftr w off mod 2 ^ len = v mod 2 ^ len.
Proof.
  intros Ho Hl Hw. rewrite <-!Z.land_ones by lia. apply Z.bits_inj'. intros i Hi.
  rewrite !Z.land_spec, testbit_shiftr, Z.testbit_ones by lia. zcase; rewrite ?andb_true_r, ?andb_false_r; try done. apply Hw. lia.
Qed.

(** ** The ring

    [n] is the logarithm of the size; an index counts modulo twice the size. *)
Section ring.
Variable n : Z.
Hypothesis Hn : 1 ≤ n ≤ 30.

Definition ring_index (p : Z) : Prop := 0 ≤ p < 2 ^ (n + 1).

(** The commands between [c] and [p]. *)
Definition ring_count (p c : Z) : Z := (p - c) mod 2 ^ (n + 1).

Lemma pow_n : 2 ≤ 2 ^ n ≤ 2 ^ 30 ∧ 2 ^ (n + 1) = 2 * 2 ^ n.
Proof using Hn.
  split; [split|].
  - replace 2 with (2 ^ 1) at 1 by done. apply Z.pow_le_mono_r; lia.
  - apply Z.pow_le_mono_r; lia.
  - rewrite Z.pow_add_r by lia. lia.
Qed.

Lemma Q_masks : u32 (Z.shiftl 1 n - 1) = Z.ones n ∧ u32 (Z.shiftl 1 n) = 2 ^ n.
Proof using Hn. destruct pow_n as [Hp _]. rewrite Z.ones_equiv, Z.shiftl_1_l. split; apply wrap_small; lia. Qed.

Lemma Q_IDX_mod p : Q_IDX p n = p mod 2 ^ n.
Proof using Hn. unfold Q_IDX. destruct Q_masks as [-> _]. apply Z.land_ones. lia. Qed.

(** The wrap bit and the index are all of an index. *)
Lemma Q_split p : Z.lor (Q_WRP p n) (Q_IDX p n) = p mod 2 ^ (n + 1).
Proof using Hn.
  unfold Q_WRP, Q_IDX. destruct Q_masks as [-> ->]. rewrite <-Z.land_lor_distr_r, <-Z.land_ones by lia. f_equal.
  apply Z.bits_inj'. intros i Hi. rewrite Z.lor_spec, Z.pow2_bits_eqb, !Z.testbit_ones by lia. zcase; done.
Qed.

Lemma Q_WRP_div p : ring_index p → Q_WRP p n = p - p mod 2 ^ n.
Proof using Hn.
  intros Hp. pose proof (Q_split p) as E. rewrite (Z.mod_small p) in E by done. rewrite Q_IDX_mod in E.
  rewrite <-E at 2. rewrite <-Z.add_nocarry_lor; [lia|].
  unfold Q_WRP. destruct Q_masks as [_ ->]. rewrite <-Z.land_ones by lia.
  apply Z.bits_inj'. intros i Hi. rewrite !Z.land_spec, Z.pow2_bits_eqb, Z.testbit_ones, Z.bits_0 by lia. zcase; rewrite ?andb_false_r; done.
Qed.

Lemma ring_halves p : ring_index p → p = p mod 2 ^ n ∨ p = p mod 2 ^ n + 2 ^ n.
Proof using Hn.
  intros Hp. unfold ring_index in Hp. destruct pow_n as [Hn2 E]. rewrite E in Hp.
  pose proof (Z.div_mod p (2 ^ n) ltac:(lia)). assert (0 ≤ p / 2 ^ n < 2) by (split; [apply Z.div_pos; lia|apply Z.div_lt_upper_bound; lia]).
  assert (p / 2 ^ n = 0 ∨ p / 2 ^ n = 1) as [H1|H1] by lia; rewrite H1 in *; lia.
Qed.

Lemma ring_empty p c : ring_index p → ring_index c → Q_EMPTY p c n = (ring_count p c =? 0).
Proof using Hn.
  intros Hp Hc. unfold Q_EMPTY. rewrite !Q_WRP_div, !Q_IDX_mod by done.
  destruct pow_n as [Hn2 E]. pose proof (ring_halves p Hp) as Hhp. pose proof (ring_halves c Hc) as Hhc.
  unfold ring_count, ring_index in *. rewrite E in *.
  destruct (Z.eqb_spec ((p - c) mod (2 * 2 ^ n)) 0) as [Hq|Hq].
  - apply Z.mod_divide in Hq as [k Hk]; [|lia]. assert (k = 0) as -> by nia. assert (p = c) as -> by lia. by rewrite !Z.eqb_refl.
  - apply andb_false_iff. destruct (Z.eqb_spec (p mod 2 ^ n) (c mod 2 ^ n)); [right|by left].
    apply Z.eqb_neq. intros Hw. apply Hq. replace (p - c) with 0 by lia. apply Z.mod_0_l. lia.
Qed.

Lemma ring_full p c : ring_index p → ring_index c → Q_FULL p c n = (ring_count p c =? 2 ^ n).
Proof using Hn.
  intros Hp Hc. unfold Q_FULL. rewrite !Q_WRP_div, !Q_IDX_mod by done.
  destruct pow_n as [Hn2 E]. pose proof (ring_halves p Hp) as Hhp. pose proof (ring_halves c Hc) as Hhc.
  pose proof (Z.mod_pos_bound p (2 ^ n) ltac:(lia)) as Hbp. pose proof (Z.mod_pos_bound c (2 ^ n) ltac:(lia)) as Hbc.
  unfold ring_count, ring_index in *. rewrite E in *. set (pm := p mod 2 ^ n) in *. set (cm := c mod 2 ^ n) in *.
  destruct (Z.eqb_spec ((p - c) mod (2 * 2 ^ n)) (2 ^ n)) as [Hq|Hq].
  - assert (p - c = 2 ^ n ∨ p - c = - 2 ^ n) as Hd.
    { pose proof (Z.div_mod (p - c) (2 * 2 ^ n) ltac:(lia)) as Hd. rewrite Hq in Hd.
      assert ((p - c) / (2 * 2 ^ n) = 0 ∨ (p - c) / (2 * 2 ^ n) = -1) as [He|He] by nia; rewrite He in Hd; lia. }
    apply andb_true_iff. split; [apply Z.eqb_eq; lia|]. apply negb_true_iff, Z.eqb_neq. lia.
  - apply andb_false_iff. destruct (Z.eqb_spec pm cm); [right|by left]. apply negb_false_iff, Z.eqb_eq.
    destruct (decide (p = c)) as [->|]; [lia|]. exfalso. apply Hq.
    assert (p - c = 2 ^ n ∨ p - c = - 2 ^ n) as [Hd|Hd] by lia; rewrite Hd.
    + apply Z.mod_small. lia.
    + replace (- 2 ^ n) with (2 ^ n + -1 * (2 * 2 ^ n)) by lia. rewrite Z.mod_add by lia. apply Z.mod_small. lia.
Qed.

Lemma next_prod_succ p : ring_index p → next_prod p n = (p + 1) mod 2 ^ (n + 1).
Proof using Hn.
  intros Hp. destruct pow_n as [Hn2 E]. unfold next_prod. rewrite Q_split, (Z.mod_small p) by done.
  unfold ring_index in Hp. rewrite E in Hp. rewrite (wrap_small 32 (p + 1)) by lia.
  assert (Q_OVF p = 0) as ->.
  { unfold Q_OVF, Q_OVERFLOW_FLAG. rewrite Z.shiftl_1_l. apply Z.bits_inj'. intros i Hi.
    rewrite Z.land_spec, Z.pow2_bits_eqb, Z.bits_0 by lia. destruct (Z.eqb_spec 31 i) as [<-|]; [|apply andb_false_r].
    by rewrite (testbit_small 31) by (unfold in_word; lia). }
  rewrite Z.lor_0_l. apply Q_split.
Qed.

Lemma ring_next p : ring_index ((p + 1) mod 2 ^ (n + 1)).
Proof using Hn. destruct pow_n. apply Z.mod_pos_bound. lia. Qed.

Lemma ring_count_next p c : ring_count ((p + 1) mod 2 ^ (n + 1)) c = (ring_count p c + 1) mod 2 ^ (n + 1).
Proof using Hn.
  unfold ring_count. rewrite Zminus_mod_idemp_l, Zplus_mod_idemp_l. f_equal. lia.
Qed.

(** The slots of fewer consecutive indices than the ring has are different. *)
Lemma ring_slots c i j : 0 ≤ i < 2 ^ n → 0 ≤ j < 2 ^ n → (c + i) mod 2 ^ n = (c + j) mod 2 ^ n → i = j.
Proof using Hn.
  intros Hi Hj E. destruct pow_n as [Hn2 _]. assert ((i - j) mod 2 ^ n = 0) as Hm.
  { replace (i - j) with ((c + i) - (c + j)) by lia. rewrite Zminus_mod, E, Z.sub_diag. apply Z.mod_0_l. lia. }
  apply Z.mod_divide in Hm as [k Hk]; [|lia]. assert (k = 0) by nia. nia.
Qed.

End ring.

(** ** Commands *)

(** The fields of a command, as the architecture lays them out. *)
Definition bits_at (w off len : Z) : Z := Z.shiftr w off mod 2 ^ len.
Definition address_at (w off len : Z) : Z := Z.shiftl (bits_at w off len) off.

Definition decode_args (op : Z) (c : Z * Z) : cmdq_args :=
  if op =? CMDQ_OP_PREFETCH_CFG then prefetch (bits_at c.1 32 32) 0 0
  else if op =? CMDQ_OP_PREFETCH_ADDR then prefetch (bits_at c.1 32 32) (bits_at c.2 0 5) (address_at c.2 12 52)
  else if op =? CMDQ_OP_CFGI_STE then cfgi (bits_at c.1 32 32) (bits_at c.2 0 1)
  else if op =? CMDQ_OP_TLBI_NH_VA then tlbi (bits_at c.1 48 16) (bits_at c.1 32 16) (bits_at c.2 0 1) (address_at c.2 12 52)
  else if op =? CMDQ_OP_TLBI_S2_IPA then tlbi 0 (bits_at c.1 32 16) (bits_at c.2 0 1) (address_at c.2 12 40)
  else if op =? CMDQ_OP_TLBI_NH_ASID then tlbi (bits_at c.1 48 16) (bits_at c.1 32 16) 0 0
  else if op =? CMDQ_OP_TLBI_S12_VMALL then tlbi 0 (bits_at c.1 32 16) 0 0
  else if op =? CMDQ_OP_CMD_SYNC then sync (bits_at c.1 32 32) (address_at c.2 2 50)
  else not_set.

Definition cmd_decode (c : Z * Z) : arm_smmu_cmdq_ent :=
  let op := bits_at c.1 0 8 in {| opcode := op; substream_valid := negb (bits_at c.1 11 1 =? 0); args := decode_args op c |}.

(** What a command tells the hardware: addresses of pages (or, of a message, of words), and only the
    arguments its operation has. *)
Definition told (op : Z) (a : cmdq_args) : cmdq_args :=
  match a with
  | prefetch sid size addr => if op =? CMDQ_OP_PREFETCH_CFG then prefetch sid 0 0 else prefetch sid size (Z.land addr (field 12 52))
  | cfgi sid leaf => cfgi sid leaf
  | tlbi asid vmid leaf addr =>
      if op =? CMDQ_OP_TLBI_NH_VA then tlbi asid vmid leaf (Z.land addr (field 12 52))
      else if op =? CMDQ_OP_TLBI_S2_IPA then tlbi 0 vmid leaf (Z.land addr (field 12 40))
      else if op =? CMDQ_OP_TLBI_NH_ASID then tlbi asid vmid 0 0 else tlbi 0 vmid 0 0
  | sync msidata msiaddr => sync msidata (Z.land msiaddr (field 2 50))
  | not_set => not_set
  end.

(** The member of the union goes with the operation and its fields have the widths of their types. *)
Definition cmd_ok (ent : arm_smmu_cmdq_ent) : Prop :=
  let op := opcode ent in
  match args ent with
  | prefetch sid size addr => (op = CMDQ_OP_PREFETCH_CFG ∨ op = CMDQ_OP_PREFETCH_ADDR) ∧ in_word 32 sid ∧ in_word 5 size ∧ in_word 64 addr
  | cfgi sid leaf => op = CMDQ_OP_CFGI_STE ∧ in_word 32 sid ∧ in_word 1 leaf
  | tlbi asid vmid leaf addr =>
      (op = CMDQ_OP_TLBI_NH_VA ∨ op = CMDQ_OP_TLBI_S2_IPA ∨ op = CMDQ_OP_TLBI_NH_ASID ∨ op = CMDQ_OP_TLBI_S12_VMALL) ∧
      in_word 16 asid ∧ in_word 16 vmid ∧ in_word 1 leaf ∧ in_word 64 addr
  | sync msidata msiaddr => op = CMDQ_OP_CMD_SYNC ∧ in_word 32 msidata ∧ in_word 64 msiaddr
  | not_set => op = CMDQ_OP_TLBI_EL2_ALL ∨ op = CMDQ_OP_TLBI_NSNH_ALL ∨ op = CMDQ_OP_CFGI_ALL
  end.

(** The masks of the code as fields. *)
Lemma cmd_masks :
  CMDQ_0_OP = field 0 8 ∧ CMDQ_PREFETCH_0_SID = field 32 32 ∧ CMDQ_PREFETCH_1_SIZE = field 0 5 ∧ CMDQ_PREFETCH_1_ADDR_MASK = field 12 52 ∧
  CMDQ_CFGI_0_SID = field 32 32 ∧ CMDQ_CFGI_1_LEAF = field 0 1 ∧ CMDQ_CFGI_1_RANGE = field 0 5 ∧ CMDQ_TLBI_0_VMID = field 32 16 ∧
  CMDQ_TLBI_0_ASID = field 48 16 ∧ CMDQ_TLBI_1_LEAF = field 0 1 ∧ CMDQ_TLBI_1_VA_MASK = field 12 52 ∧ CMDQ_TLBI_1_IPA_MASK = field 12 40 ∧
  CMDQ_SYNC_0_CS = field 12 2 ∧ CMDQ_SYNC_0_MSH = field 22 2 ∧ CMDQ_SYNC_0_MSIATTR = field 24 4 ∧ CMDQ_SYNC_0_MSIDATA = field 32 32 ∧
  CMDQ_SYNC_1_MSIADDR_MASK = field 2 50.
Proof. by vm_compute. Qed.

(** Reading one field back from a word put together with [Z.lor]. *)
Lemma bits_at_eq w off len v :
  0 ≤ off → 0 < len → in_word len v → (∀ i, 0 ≤ i < len → Z.testbit w (i + off) = Z.testbit v i) → bits_at w off len = v.
Proof. intros Ho Hl Hv Hw. unfold bits_at. rewrite (bits_of_word off len w v) by done. by apply Z.mod_small. Qed.

Lemma address_at_eq w off len v :
  0 ≤ off → 0 < len → (∀ i, 0 ≤ i < len → Z.testbit w (i + off) = Z.testbit v (i + off)) →
  address_at w off len = Z.land v (field off len).
Proof.
  intros Ho Hl Hw. unfold address_at, bits_at. rewrite <-Z.land_ones by lia. apply Z.bits_inj'. intros i Hi.
  rewrite testbit_shiftl, (Z.land_spec v), testbit_field by lia. destruct (Z.leb_spec off i).
  - rewrite Z.land_spec, testbit_shiftr, Z.testbit_ones by lia. destruct (Z.ltb_spec i (off + len)).
    + rewrite Hw by lia. replace (i - off + off) with i by lia. zcase. by rewrite andb_true_r.
    + zcase; by rewrite !andb_false_r.
  - rewrite Z.testbit_neg_r by lia. by rewrite andb_false_r.
Qed.

(** The bits of the words of a command. *)
Ltac field_bits :=
  intros ?i ?Hi; rewrite ?Z.lor_spec, ?Z.land_spec, ?testbit_FIELD_PREP, ?testbit_field, ?Z.testbit_0_l by lia;
  zcase; cbn [andb orb]; rewrite ?andb_true_r, ?andb_false_r, ?orb_false_r; try done; try (f_equal; lia).
Ltac read_field := first [apply bits_at_eq; [lia|lia|done|field_bits] | apply address_at_eq; [lia|lia|field_bits]].


Ltac use_masks :=
  destruct cmd_masks as (?M1 & ?M2 & ?M3 & ?M4 & ?M5 & ?M6 & ?M7 & ?M8 & ?M9 & ?M10 & ?M11 & ?M12 & ?M13 & ?M14 & ?M15 & ?M16 & ?M17);
  rewrite ?M1, ?M2, ?M3, ?M4, ?M5, ?M6, ?M7, ?M8, ?M9, ?M10, ?M11, ?M12, ?M13, ?M14, ?M15, ?M16, ?M17; clear M1 M2 M3 M4 M5 M6 M7 M8 M9 M10 M11 M12 M13 M14 M15 M16 M17.

(** The operation and the flag of a substream are in the low half of the first word. *)
Lemma decode_op c op : in_word 8 op → (∀ i, 0 ≤ i < 12 → Z.testbit c.1 i = (i <? 8) && Z.testbit op i) →
  cmd_decode c = {| opcode := op; substream_valid := false; args := decode_args op c |}.
Proof.
  intros Hop Hc. unfold cmd_decode. assert (bits_at c.1 0 8 = op) as ->.
  { apply bits_at_eq; [lia|lia|done|]. intros i Hi. rewrite Z.add_0_r, Hc by lia. by zcase. }
  assert (bits_at c.1 11 1 = 0) as ->; [|done].
  apply bits_at_eq; [lia|lia|by split|]. intros i Hi. rewrite Hc, Z.testbit_0_l by lia. by zcase.
Qed.

Ltac const_word := split; [by vm_compute|by vm_compute].

(** Decide the comparisons of operations. *)
Ltac op_cases :=
  unfold decode_args, told; cbn [fst snd];
  repeat match goal with
  | |- context [?a =? ?b] => let v := eval vm_compute in (a =? b) in (constr_eq v true || constr_eq v false); change (a =? b) with v
  end; cbv iota.

(** One operation: the low bits of the first word, then the fields. *)
Ltac decode_cmd E op :=
  injection E as <-; rewrite (decode_op _ op); [|const_word|cbn [fst]; field_bits]; op_cases; f_equal; f_equal; symmetry; try done; try (symmetry; read_field).

Lemma build_decode ent c : cmd_ok ent → arm_smmu_cmdq_build_cmd ent = Done c →
  cmd_decode c = {| opcode := opcode ent; substream_valid := false; args := told (opcode ent) (args ent) |}.
Proof.
  destruct ent as [op ssv a]. unfold arm_smmu_cmdq_build_cmd, cmd_ok. cbn [opcode args]. use_masks.
  destruct a as [sid size addr|sid leaf|asid vmid leaf addr|msidata msiaddr|]; intros Hok E.
  - destruct Hok as ([-> | ->] & Hsid & Hsize & Haddr).
    + decode_cmd E CMDQ_OP_PREFETCH_CFG.
    + decode_cmd E CMDQ_OP_PREFETCH_ADDR.
  - destruct Hok as (-> & Hsid & Hleaf). decode_cmd E CMDQ_OP_CFGI_STE.
  - destruct Hok as ([-> | [-> | [-> | ->]]] & Hasid & Hvmid & Hleaf & Haddr).
    + decode_cmd E CMDQ_OP_TLBI_NH_VA.
    + decode_cmd E CMDQ_OP_TLBI_S2_IPA.
    + decode_cmd E CMDQ_OP_TLBI_NH_ASID.
    + decode_cmd E CMDQ_OP_TLBI_S12_VMALL.
  - destruct Hok as (-> & Hdata & Haddr). decode_cmd E CMDQ_OP_CMD_SYNC.
  - destruct Hok as [-> | [-> | ->]]; [decode_cmd E CMDQ_OP_TLBI_EL2_ALL|decode_cmd E CMDQ_OP_TLBI_NSNH_ALL|decode_cmd E CMDQ_OP_CFGI_ALL].
Qed.

(** Every command the driver may build has an encoding, in words. *)
Lemma build_total ent : cmd_ok ent → ∃ c, arm_smmu_cmdq_build_cmd ent = Done c ∧ in_word 64 c.1 ∧ in_word 64 c.2.
Proof.
  destruct ent as [op ssv a]. unfold arm_smmu_cmdq_build_cmd, cmd_ok. cbn [opcode args]. use_masks.
  assert (∀ a b, in_word 64 a → in_word 64 b → in_word 64 (Z.lor a b)) as Ho by (intros; by apply in_word_lor).
  assert (∀ op, in_word 64 (Z.lor 0 (FIELD_PREP (field 0 8) op))) as Hop by (intros; apply Ho; [const_word|apply FIELD_PREP_word; lia]).
  assert (in_word 64 0) as H0 by const_word.
  destruct a as [sid size addr|sid leaf|asid vmid leaf addr|msidata msiaddr|]; intros Hok;
    repeat match goal with H : _ ∧ _ |- _ => destruct H | H : _ ∨ _ |- _ => destruct H end; subst op;
    (eexists; split; [reflexivity|]; cbn [fst snd]; split;
     repeat first [done | apply Hop | apply Ho | apply FIELD_PREP_word; lia | apply in_word_land; [lia|done]]).
Qed.

(** ** What the hardware promises *)

(** The registers, the commands executed so far, and how many more reads it may take to answer. *)
Section hardware.
Context `{Smmu3Device}.

Definition hw_shift (r : Z → Z) : Z := Z.land (r ARM_SMMU_CMDQ_BASE) 31.
Definition hw_queue (r : Z → Z) : Z := Z.land (r ARM_SMMU_CMDQ_BASE) Q_BASE_ADDR_MASK.

(** The command at index [i] of the ring, and those between the two indices. *)
Definition command_at (r m : Z → Z) (i : Z) : Z * Z :=
  let a := hw_queue r + i mod 2 ^ hw_shift r * 16 in (m a, m (a + 8)).
Definition pending (r m : Z → Z) : list (Z * Z) :=
  map (λ i, command_at r m (r ARM_SMMU_CMDQ_CONS + i)) (seqZ 0 (ring_count (hw_shift r) (r ARM_SMMU_CMDQ_PROD) (r ARM_SMMU_CMDQ_CONS))).

Definition known_ops : list Z :=
  [CMDQ_OP_PREFETCH_CFG; CMDQ_OP_PREFETCH_ADDR; CMDQ_OP_CFGI_STE; CMDQ_OP_CFGI_ALL; CMDQ_OP_TLBI_NH_ASID; CMDQ_OP_TLBI_NH_VA;
   CMDQ_OP_TLBI_EL2_ALL; CMDQ_OP_TLBI_S12_VMALL; CMDQ_OP_TLBI_S2_IPA; CMDQ_OP_TLBI_NSNH_ALL; CMDQ_OP_CMD_SYNC].
Definition cmd_legal (c : Z * Z) : Prop := opcode (cmd_decode c) ∈ known_ops.

Definition cmdq_enabled (r : Z → Z) : Prop := Z.testbit (r ARM_SMMU_CR0) 3 = true.
Definition writable : list Z :=
  [ARM_SMMU_CR0; ARM_SMMU_CR1; ARM_SMMU_STRTAB_BASE; ARM_SMMU_STRTAB_BASE_CFG; ARM_SMMU_CMDQ_BASE; ARM_SMMU_CMDQ_PROD; ARM_SMMU_CMDQ_CONS;
   ARM_SMMU_EVTQ_BASE; ARM_SMMU_EVTQ_PROD; ARM_SMMU_EVTQ_CONS].

(** Some of the pending commands are fetched, oldest first. *)
Record fetched (r m : Z → Z) (k : nat) (r' : Z → Z) : Prop := {
  fe_count : (k ≤ length (pending r m))%nat;
  fe_cons : r' ARM_SMMU_CMDQ_CONS = (r ARM_SMMU_CMDQ_CONS + Z.of_nat k) mod 2 ^ (hw_shift r + 1);
  fe_regs off : off ≠ ARM_SMMU_CMDQ_CONS → r' off = r off
}.

Class Smmu3Laws := {
  regs : smmu3_device → Z → Z;
  executed : smmu3_device → list (Z * Z);
  lag : smmu3_device → nat;

  (** Most registers are read as they are. *)
  read_plain off m d : off ≠ ARM_SMMU_CMDQ_CONS → off ≠ ARM_SMMU_CR0ACK → smmu3_read off m d = (regs d off, d);

  (** While the queue is enabled and what is in it is legal, the commands are executed in order, and
      with commands pending the index moves before long. *)
  read_cons m d : cmdq_enabled (regs d) → Forall cmd_legal (pending (regs d) m) →
    ∃ k d', smmu3_read ARM_SMMU_CMDQ_CONS m d = (regs d' ARM_SMMU_CMDQ_CONS, d') ∧
      fetched (regs d) m k (regs d') ∧ executed d' = executed d ++ firstn k (pending (regs d) m) ∧
      (pending (regs d) m = [] ∨ (0 < k)%nat ∨ (lag d' < lag d)%nat);

  (** A write of CR0 is acknowledged before long, sooner than the driver gives up. *)
  read_ack m d : ∃ v d', smmu3_read ARM_SMMU_CR0ACK m d = (v, d') ∧ regs d' = regs d ∧ executed d' = executed d ∧
    (v = regs d ARM_SMMU_CR0 ∨ (lag d' < lag d)%nat);
  lag_bound d : (lag d < ARM_SMMU_SYNC_TIMEOUT)%nat;

  write_regs off v d : off ∈ writable → regs (smmu3_write off v d) = <[off := v]> (regs d);
  write_executed off v d : off ∈ writable → executed (smmu3_write off v d) = executed d
}.
End hardware.

(** ** Programs that wait *)

(** With enough rounds for its loops, whatever they are, the program gives one result. *)
Definition settles {S A} (k : nat → prog S A) (s : S) (a : A) (s' : S) : Prop := ∃ n, ∀ f, (n ≤ f)%nat → k f s = Done (a, s').

Lemma settles_bind {S A B} (k : nat → prog S A) (g : nat → A → prog S B) s a s1 b s2 :
  settles k s a s1 → settles (λ f, g f a) s1 b s2 → settles (λ f, k f ≫= g f) s b s2.
Proof.
  intros [n H1] [m H2]. exists (n + m)%nat. intros f Hf. rewrite (prog_bind_done _ _ _ _ _ (H1 f ltac:(lia))). apply H2. lia.
Qed.

Lemma settles_done {S A} (k : nat → prog S A) s a s' : (∀ f, k f s = Done (a, s')) → settles k s a s'.
Proof. intros H. by exists O. Qed.

Lemma settles_ext {S A} (k k' : nat → prog S A) s s0 a s' : (∀ f, k' f s0 = k f s) → settles k s a s' → settles k' s0 a s'.
Proof. intros He [n H]. exists n. intros f Hf. rewrite He. auto. Qed.

(** ** Issuing a command *)

Section issue.
Context `{Smmu3Device} {L : Smmu3Laws}.
Variable base_address : Z.

#[local] Set Default Proof Using "All".

(** The driver's queue and the hardware's agree; the hardware has fetched all before index [c]. *)
Record queue_at (c : Z) (s : smmu3) : Prop := {
  qa_base : smmu_base s = base_address;
  qa_prod_reg : prod_reg (cmdq s) = base_address +64 ARM_SMMU_CMDQ_PROD;
  qa_cons_reg : cons_reg (cmdq s) = base_address +64 ARM_SMMU_CMDQ_CONS;
  qa_ent : ent_dwords (cmdq s) = CMDQ_ENT_DWORDS;
  qa_gerr : gerr_mask (cmdq s) = GERROR_CMDQ_ERR;
  qa_shift : 1 ≤ max_n_shift (cmdq s) ≤ 8;
  qa_hw_shift : hw_shift (regs (dev s)) = max_n_shift (cmdq s);
  qa_mem : 0 ≤ q_mem (cmdq s) ∧ q_mem (cmdq s) + PAGE_SIZE ≤ 2 ^ 64;
  qa_hw_mem : hw_queue (regs (dev s)) = q_mem (cmdq s);
  qa_prod : ring_index (max_n_shift (cmdq s)) (prod (cmdq s));
  qa_hw_prod : regs (dev s) ARM_SMMU_CMDQ_PROD = prod (cmdq s);
  qa_cons_range : ring_index (max_n_shift (cmdq s)) c;
  qa_cons : cons (cmdq s) = c;
  qa_hw_cons : regs (dev s) ARM_SMMU_CMDQ_CONS = c;
  qa_on : cmdq_enabled (regs (dev s));
  qa_err : Z.land (Z.lxor (u32 (regs (dev s) ARM_SMMU_GERROR)) (u32 (regs (dev s) ARM_SMMU_GERRORN))) GERROR_CMDQ_ERR = 0
}.

(** All commands have been fetched. *)
Definition queue_idle (s : smmu3) : Prop := queue_at (prod (cmdq s)) s.

Lemma mmio_offset off : 0 ≤ off < 2 ^ 32 → (base_address +64 off) -64 base_address = off.
Proof.
  intros Ho. unfold wrap. rewrite Zminus_mod_idemp_l. replace (base_address + off - base_address) with off by lia. apply Z.mod_small. lia.
Qed.

Lemma read_plain_run {B} off (k : Z → prog smmu3 B) s :
  smmu_base s = base_address → 0 ≤ off < 2 ^ 32 → off ≠ ARM_SMMU_CMDQ_CONS → off ≠ ARM_SMMU_CR0ACK →
  (smmu_read32 base_address off ≫= k) s = k (u32 (regs (dev s) off)) s.
Proof.
  intros Hb Ho H1 H2. unfold smmu_read32, mmio_read32. unfold mbind at 1, prog_bind at 1. rewrite bind_gets. cbv beta.
  rewrite Hb, mmio_offset by done. rewrite read_plain by done. by destruct s.
Qed.

Lemma write_run {B} off v (k : unit → prog smmu3 B) s :
  smmu_base s = base_address → 0 ≤ off < 2 ^ 32 →
  (smmu_write32 base_address off v ≫= k) s = k tt (s <| dev ::= smmu3_write off (u32 v) |>).
Proof.
  intros Hb Ho. unfold smmu_write32, mmio_write32. unfold mbind at 1, prog_bind at 1. rewrite bind_gets, run_modify. cbv beta.
  rewrite Hb, mmio_offset by done. done.
Qed.

Lemma write64_run {B} off v (k : unit → prog smmu3 B) s :
  smmu_base s = base_address → 0 ≤ off < 2 ^ 32 →
  (smmu_write64 base_address off v ≫= k) s = k tt (s <| dev ::= smmu3_write off (u64 v) |>).
Proof.
  intros Hb Ho. unfold smmu_write64, mmio_write64. unfold mbind at 1, prog_bind at 1. rewrite bind_gets, run_modify. cbv beta.
  rewrite Hb, mmio_offset by done. done.
Qed.

Lemma idx_small n c : 1 ≤ n ≤ 8 → ring_index n c → in_word 32 c.
Proof.
  intros Hn Hc. unfold ring_index, in_word in *. assert (2 ^ (n + 1) ≤ 2 ^ 9) by (apply Z.pow_le_mono_r; lia). lia.
Qed.

(** Reading the index of the hardware: some commands more are done. *)
Lemma sync_cons_run c s :
  queue_at c s → Forall cmd_legal (pending (regs (dev s)) (mem s)) →
  ∃ n d', let c' := (c + Z.of_nat n) mod 2 ^ (max_n_shift (cmdq s) + 1) in
    let s' := s <| dev := d' |> <| cmdq := cmdq s <| cons := c' |> |> in
    queue_sync_cons base_address s = Done (tt, s') ∧ queue_at c' s' ∧
    (∀ off, off ≠ ARM_SMMU_CMDQ_CONS → regs d' off = regs (dev s) off) ∧
    executed d' = executed (dev s) ++ firstn n (pending (regs (dev s)) (mem s)) ∧
    (n ≤ length (pending (regs (dev s)) (mem s)))%nat ∧
    (pending (regs (dev s)) (mem s) = [] ∨ (0 < n)%nat ∨ (lag d' < lag (dev s))%nat).
Proof.
  intros Q Hleg. destruct (read_cons (mem s) (dev s) (qa_on _ _ Q) Hleg) as (n & d' & Hr & [Hcount Hcons Hregs] & Hex & Hlag).
  exists n, d'. cbv zeta. rewrite (qa_hw_cons _ _ Q), (qa_hw_shift _ _ Q) in Hcons.
  set (c' := (c + Z.of_nat n) mod 2 ^ (max_n_shift (cmdq s) + 1)) in *.
  pose proof (qa_shift _ _ Q) as Hsh. assert (ring_index (max_n_shift (cmdq s)) c') as Hc' by (apply Z.mod_pos_bound; lia).
  split.
  { unfold queue_sync_cons, mmio_read32, upd_cmdq. rewrite bind_gets. unfold mbind, prog_bind. cbv beta.
    rewrite (qa_cons_reg _ _ Q), mmio_offset by (by split). rewrite Hr, run_modify. cbv beta. rsimpl.
    rewrite Hcons, wrap_small by (by apply (idx_small (max_n_shift (cmdq s)))). by destruct s. }
  split; [|done]. constructor; rsimpl; try apply Q; rewrite ?Hregs by done; try apply Q; try done.
  - unfold hw_shift. rewrite Hregs by done. apply Q.
  - unfold hw_queue. rewrite Hregs by done. apply Q.
  - unfold cmdq_enabled. rewrite Hregs by done. apply Q.
Qed.

(** What is pending is decided by three registers. *)
Lemma pending_same (r r' m : Z → Z) :
  r' ARM_SMMU_CMDQ_BASE = r ARM_SMMU_CMDQ_BASE → r' ARM_SMMU_CMDQ_PROD = r ARM_SMMU_CMDQ_PROD → r' ARM_SMMU_CMDQ_CONS = r ARM_SMMU_CMDQ_CONS →
  pending r' m = pending r m.
Proof. intros H1 H2 H3. unfold pending, command_at, hw_queue, hw_shift. by rewrite H1, H2, H3. Qed.

Lemma queue_error_run {B} c s (k : bool → prog smmu3 B) : queue_at c s → (queue_error base_address ≫= k) s = k false s.
Proof.
  intros Q. unfold queue_error. rewrite !bind_bind. rewrite read_plain_run by (done || apply Q || by split). rewrite bind_bind.
  rewrite read_plain_run by (done || apply Q || by split). rewrite bind_bind, bind_gets, bind_ret. by rewrite (qa_gerr _ _ Q), (qa_err _ _ Q).
Qed.

(** Waiting for the hardware: with one command pending, it is executed and the queue is idle. *)
Lemma drain_run N c cmd s :
  (lag (dev s) ≤ N)%nat → queue_at c s → prod (cmdq s) = (c + 1) mod 2 ^ (max_n_shift (cmdq s) + 1) →
  pending (regs (dev s)) (mem s) = [cmd] → cmd_legal cmd →
  ∃ d', let s' := s <| dev := d' |> <| cmdq := cmdq s <| cons := prod (cmdq s) |> |> in
    (∀ f, (N + 2 ≤ f)%nat → drain_loop base_address f s = Done (tt, s')) ∧ queue_idle s' ∧
    executed d' = executed (dev s) ++ [cmd] ∧ ∀ off, off ≠ ARM_SMMU_CMDQ_CONS → regs d' off = regs (dev s) off.
Proof.
  revert c s. induction N as [N IH] using lt_wf_ind. intros c s Hlag Q Hp Hpend Hleg.
  pose proof (qa_shift _ _ Q) as Hsh. pose proof (qa_cons_range _ _ Q) as Hcr.
  assert (queue_empty (cmdq s) = false) as Hne.
  { unfold queue_empty. rewrite (qa_cons _ _ Q), ring_empty by (lia || apply Q). rewrite Hp, ring_count_next by lia.
    unfold ring_count. rewrite Z.sub_diag, Z.mod_0_l by lia. destruct (pow_n (max_n_shift (cmdq s)) ltac:(lia)). rewrite Z.mod_small by lia. done. }
  destruct (sync_cons_run c s Q ltac:(rewrite Hpend; by apply Forall_singleton)) as (k & d' & Hrun & Q' & Hregs & Hex & Hk & Hlag').
  cbv zeta in Hrun, Q'. set (c' := (c + Z.of_nat k) mod 2 ^ (max_n_shift (cmdq s) + 1)) in *.
  set (s1 := s <| dev := d' |> <| cmdq := cmdq s <| cons := c' |> |>) in *. rewrite Hpend in Hex, Hk, Hlag'. cbn [length] in Hk.
  assert (∀ f, drain_loop base_address (S f) s = drain_loop base_address f s1) as Hstep.
  { intros f. cbn [drain_loop]. rewrite bind_gets, Hne. cbn [negb]. rewrite (prog_bind_done _ _ _ _ _ Hrun).
    rewrite (queue_error_run _ _ _ Q'). by rewrite bind_ret. }
  destruct k as [|[|k]]; [| |lia].
  - destruct Hlag' as [|[|Hlag']]; [done|lia|]. assert (c' = c) as Hcc by (unfold c'; rewrite Z.add_0_r; by apply Z.mod_small).
    destruct (IH (lag d') ltac:(lia) c s1) as (d2 & Hr2 & Q2 & Hex2 & Hregs2); unfold s1 in *; rsimpl; try done.
    + by rewrite <-Hcc.
    + rewrite (pending_same (regs (dev s))); [done|by apply Hregs..|]. pose proof (qa_hw_cons _ _ Q') as E. rsimpl_in E. rewrite E, Hcc. symmetry. apply Q.
    + exists d2. cbv zeta. split; [|split; [exact Q2|split]].
      * intros [|f] Hf; [lia|]. rewrite Hstep. apply Hr2. lia.
      * rsimpl_in Hex2. rewrite Hex2, Hex. cbn [firstn]. by rewrite app_nil_r.
      * intros off Hoff. rsimpl_in Hregs2. rewrite Hregs2, Hregs by done. done.
  - assert (c' = prod (cmdq s)) as Hcc by (by rewrite Hp). exists d'. cbv zeta. unfold queue_idle. rewrite <-Hcc. fold s1. split; [|split; [|split]].
    + intros [|[|f]] Hf; [lia|lia|]. rewrite Hstep. cbn [drain_loop]. rewrite bind_gets.
      assert (queue_empty (cmdq s1) = true) as ->; [|done].
      unfold queue_empty. rewrite (qa_cons _ _ Q'), ring_empty by (apply Q' || (unfold s1; rsimpl; lia)). apply Z.eqb_eq.
      unfold s1. rsimpl. rewrite <-Hcc. unfold ring_count. rewrite Z.sub_diag. apply Z.mod_0_l. lia.
    + replace (prod (cmdq s1)) with c' by done. exact Q'.
    + by rewrite Hex.
    + exact Hregs.
Qed.
(** ** What issuing commands does *)

Record issued (cmds : list (Z * Z)) (s s' : smmu3) : Prop := {
  is_idle : queue_idle s';
  is_exec : executed (dev s') = executed (dev s) ++ cmds;
  is_mem a : a < q_mem (cmdq s) ∨ q_mem (cmdq s) + PAGE_SIZE ≤ a → mem s' a = mem s a;
  is_regs off : off ≠ ARM_SMMU_CMDQ_PROD → off ≠ ARM_SMMU_CMDQ_CONS → regs (dev s') off = regs (dev s) off;
  is_queue : cmdq s' = cmdq s <| prod := prod (cmdq s') |> <| cons := cons (cmdq s') |>;
  is_lock : lock_free (cmdq_lock s) → lock_free (cmdq_lock s');
  is_rest : s' = s <| dev := dev s' |> <| mem := mem s' |> <| cmdq := cmdq s' |> <| cmdq_lock := cmdq_lock s' |>
}.

Lemma queue_write_two dst x y s :
  in_word 64 x → in_word 64 y → 0 ≤ dst → dst + 8 < 2 ^ 64 →
  queue_write dst [x; y] (Z.to_nat CMDQ_ENT_DWORDS) s = Done (tt, s <| mem ::= λ m, <[dst + 8 := y]> (<[dst := x]> m) |>).
Proof.
  intros Hx Hy Hd Hb. change (Z.to_nat CMDQ_ENT_DWORDS) with 2%nat. cbn [queue_write]. unfold store64.
  rewrite !bind_modify. rsimpl. rewrite run_ret, (wrap_small 64 x), (wrap_small 64 y), (wrap_small 64 (dst + 8)) by (done || lia). done.
Qed.

(** The slot of an index. *)
Lemma queue_entry_at c i s : queue_at c s → ring_index (max_n_shift (cmdq s)) i →
  queue_entry (cmdq s) i = q_mem (cmdq s) + i mod 2 ^ max_n_shift (cmdq s) * 16 ∧
  0 ≤ i mod 2 ^ max_n_shift (cmdq s) * 16 ∧ i mod 2 ^ max_n_shift (cmdq s) * 16 + 16 ≤ PAGE_SIZE.
Proof.
  intros Q Hi. pose proof (qa_shift _ _ Q). pose proof (qa_mem _ _ Q) as Hm. unfold queue_entry. rewrite (qa_ent _ _ Q), Q_IDX_mod by lia.
  assert (2 ^ max_n_shift (cmdq s) ≤ 2 ^ 8) by (apply Z.pow_le_mono_r; lia).
  pose proof (Z.mod_pos_bound i (2 ^ max_n_shift (cmdq s)) ltac:(lia)). unfold CMDQ_ENT_DWORDS, PAGE_SIZE in *.
  split; [|lia]. rewrite (wrap_small 64 (_ * 2)) by lia. rewrite wrap_small by lia. lia.
Qed.

Lemma insert_run cmd s :
  queue_idle s → in_word 64 cmd.1 → in_word 64 cmd.2 → cmd_legal cmd →
  ∃ s', settles (λ f, arm_smmu_cmdq_insert_cmd base_address f cmd) s tt s' ∧ issued [cmd] s s' ∧ cmdq_lock s' = cmdq_lock s.
Proof.
  intros Q H1 H2 Hleg. destruct cmd as [c1 c2]. cbn [fst snd] in *. pose proof (qa_shift _ _ Q) as Hsh. pose proof (qa_prod _ _ Q) as Hpr.
  set (n := max_n_shift (cmdq s)) in *. set (p := prod (cmdq s)) in *. set (p' := (p + 1) mod 2 ^ (n + 1)).
  destruct (queue_entry_at _ p s Q Hpr) as (Hslot & Hlo & Hhi). fold n in Hslot, Hlo, Hhi. pose proof (qa_mem _ _ Q) as Hm.
  set (slot := queue_entry (cmdq s) p) in *.
  assert (queue_full (cmdq s) = false) as Hfull.
  { unfold queue_full. rewrite (qa_cons _ _ Q), ring_full by (lia || apply Q). apply Z.eqb_neq. unfold ring_count. rewrite Z.sub_diag, Z.mod_0_l by lia.
    assert (0 < 2 ^ n) by lia. fold n. lia. }
  set (s1 := s <| mem ::= λ m, <[slot + 8 := c2]> (<[slot := c1]> m) |>).
  set (s2 := s1 <| cmdq ::= λ q, q <| prod := p' |> |> <| dev ::= smmu3_write ARM_SMMU_CMDQ_PROD p' |>).
  assert (∀ f, arm_smmu_cmdq_insert_cmd base_address (S f) (c1, c2) s = drain_loop base_address (S f) s2) as Hinsert.
  { intros f. unfold arm_smmu_cmdq_insert_cmd. remember (S f) as f1 eqn:Ef.
    assert (full_loop base_address f1 s = Done (tt, s)) as Hf by (rewrite Ef; cbn [full_loop]; by rewrite bind_gets, Hfull).
    rewrite (prog_bind_done _ _ _ _ _ Hf), bind_gets. cbn [fst snd]. rewrite (qa_ent _ _ Q). fold p slot.
    rewrite (prog_bind_done _ _ _ _ _ (queue_write_two slot c1 c2 s H1 H2 ltac:(lia) ltac:(lia))). fold s1.
    assert (queue_inc_prod base_address s1 = Done (tt, s2)) as Hi.
    { unfold queue_inc_prod, upd_cmdq, mmio_write32. rewrite bind_modify. cbv beta. rewrite bind_gets, run_modify. rsimpl. fold p n.
      change (prod_reg (cmdq s1)) with (prod_reg (cmdq s)). rewrite (qa_prod_reg _ _ Q), mmio_offset by (by split).
      change (max_n_shift (cmdq s1)) with n. change (prod (cmdq s1)) with p. rewrite next_prod_succ by (done || lia). fold p'.
      rewrite (wrap_small 32) by (apply (idx_small n); [lia|apply ring_next; lia]). unfold s2. do 3 f_equal.
      unfold setter. cbv beta. change (prod (cmdq s1)) with p. change (max_n_shift (cmdq s1)) with n. rewrite next_prod_succ by (done || lia). reflexivity. }
    by rewrite (prog_bind_done _ _ _ _ _ Hi). }
  assert (in_word 32 p') as Hp'w by (apply (idx_small n); [lia|apply ring_next; lia]).
  assert (regs (dev s2) = <[ARM_SMMU_CMDQ_PROD := p']> (regs (dev s))) as Hr2 by (unfold s2; rsimpl; apply write_regs; unfold writable; set_solver).
  assert (queue_at p s2) as Q2.
  { constructor; try exact (qa_base _ _ Q); try exact (qa_prod_reg _ _ Q); try exact (qa_cons_reg _ _ Q); try exact (qa_ent _ _ Q); try exact (qa_gerr _ _ Q);
      try exact Hsh; try exact Hm; try exact Hpr; rewrite ?Hr2.
    - exact (qa_hw_shift _ _ Q).
    - exact (qa_hw_mem _ _ Q).
    - apply ring_next. fold n. lia.
    - by rewrite upd_eq.
    - exact (qa_cons _ _ Q).
    - exact (qa_hw_cons _ _ Q).
    - exact (qa_on _ _ Q).
    - exact (qa_err _ _ Q). }
  assert (pending (regs (dev s2)) (mem s2) = [(c1, c2)]) as Hpend.
  { unfold pending. rewrite (qa_hw_shift _ _ Q2), (qa_hw_cons _ _ Q2), (qa_hw_prod _ _ Q2). change (prod (cmdq s2)) with p'. change (max_n_shift (cmdq s2)) with n.
    assert (ring_count n p' p = 1) as ->.
    { unfold p'. rewrite ring_count_next by lia. unfold ring_count. destruct (pow_n n ltac:(lia)). rewrite Z.sub_diag, Z.mod_0_l, Z.mod_small by lia. done. }
    rewrite seqZ_cons, seqZ_nil by lia. cbn [map]. unfold command_at. rewrite (qa_hw_mem _ _ Q2), (qa_hw_shift _ _ Q2), Z.add_0_r.
    change (q_mem (cmdq s2)) with (q_mem (cmdq s)). change (max_n_shift (cmdq s2)) with n. rewrite <-Hslot. unfold s2, s1. rsimpl.
    by rewrite upd_eq, upd_ne, upd_eq by lia. }
  destruct (drain_run (lag (dev s2)) p (c1, c2) s2) as (d' & Hrun & Q3 & Hex & Hr3); [done|done|done|done|done|].
  cbv zeta in Hrun, Q3. eexists. split; [|split; [constructor|]].
  - exists (S (lag (dev s2) + 2)). intros [|f] Hf; [lia|]. rewrite Hinsert. apply Hrun. lia.
  - exact Q3.
  - rsimpl. rewrite Hex. unfold s2. rsimpl. rewrite write_executed by (unfold writable; set_solver). done.
  - intros a Ha. unfold s2, s1. rsimpl. rewrite !upd_ne by lia. done.
  - intros off Hp1 Hc1. rsimpl. rewrite Hr3, Hr2, upd_ne by done. done.
  - unfold s2, s1. rsimpl. by destruct (cmdq s).
  - done.
  - unfold s2, s1. by destruct s.
  - done.
Qed.

(** A command the driver issues. *)
Lemma issue_cmd_run ent s :
  queue_idle s → lock_free (cmdq_lock s) → cmd_ok ent →
  ∃ c s', arm_smmu_cmdq_build_cmd ent = Done c ∧ settles (λ f, arm_smmu_cmdq_issue_cmd base_address f ent) s tt s' ∧ issued [c] s s'.
Proof.
  intros Q Hl Hok. destruct (build_total ent Hok) as (c & Hb & Hw1 & Hw2). exists c.
  assert (cmd_legal c) as Hleg.
  { unfold cmd_legal. rewrite (build_decode ent c Hok Hb). cbn [opcode]. unfold cmd_ok in Hok. unfold known_ops.
    destruct (args ent); repeat match goal with H : _ ∧ _ |- _ => destruct H | H : _ ∨ _ |- _ => destruct H end;
      match goal with H : opcode ent = _ |- _ => rewrite H end; set_solver. }
  set (s1 := s <| cmdq_lock := lock_taken (cmdq_lock s) |>).
  assert (queue_idle s1) as Q1 by (destruct Q; by constructor).
  destruct (insert_run c s1 Q1 Hw1 Hw2 Hleg) as (s2 & [n Hn] & [I1 I2 I3 I4 I5 I6 I7] & Hlock).
  exists (s2 <| cmdq_lock ::= spin_unlock |>). split; [done|]. split.
  - exists n. intros f Hf. unfold arm_smmu_cmdq_issue_cmd. unfold build_cmd. unfold mbind at 1, prog_bind at 1. rewrite Hb.
    rewrite bind_acquire by done. fold s1. rewrite (prog_bind_done _ _ _ _ _ (Hn f Hf)). by unfold release.
  - constructor; rsimpl; try done.
    + destruct I1. by constructor.
    + intros _. rewrite Hlock. apply (lock_cycle_free (cmdq_lock s)).
    + rewrite I7. unfold s1. by destruct s.
Qed.

Lemma issued_trans c1 c2 s s1 s2 : issued c1 s s1 → issued c2 s1 s2 → issued (c1 ++ c2) s s2.
Proof.
  intros [I1 I2 I3 I4 I5 I6 I7] [J1 J2 J3 J4 J5 J6 J7]. constructor; try done.
  - by rewrite J2, I2, app_assoc.
  - intros a Ha. rewrite J3, I3; [done|done|]. by rewrite I5.
  - intros off H1 H2. rewrite J4, I4 by done. done.
  - rewrite J5, I5. by destruct (cmdq s).
  - auto.
  - rewrite J7, I7. by destruct s.
Qed.

End issue.

(** ** A device that keeps the promises: one command at each read, one read late *)

Record ring_device := { rf : Z → Z; done_cmds : list (Z * Z); late : bool }.

Definition ring_fetch (m : Z → Z) (d : ring_device) : ring_device :=
  let r := rf d in
  let k := if late d then O else Nat.min 1 (length (pending r m)) in
  {| rf := <[ARM_SMMU_CMDQ_CONS := (r ARM_SMMU_CMDQ_CONS + Z.of_nat k) mod 2 ^ (hw_shift r + 1)]> r;
     done_cmds := done_cmds d ++ firstn k (pending r m); late := false |}.

Definition ring_read (off : Z) (m : Z → Z) (d : ring_device) : Z * ring_device :=
  if off =? ARM_SMMU_CMDQ_CONS then let d' := ring_fetch m d in (rf d' off, d')
  else if off =? ARM_SMMU_CR0ACK then
    (if late d then rf d off else rf d ARM_SMMU_CR0, {| rf := rf d; done_cmds := done_cmds d; late := false |})
  else (rf d off, d).

#[export] Instance RingDevice : Smmu3Device := {|
  smmu3_device := ring_device;
  smmu3_read := ring_read;
  smmu3_write off v d := {| rf := <[off := v]> (rf d); done_cmds := done_cmds d; late := true |}
|}.

#[export] Instance RingDeviceLaws : @Smmu3Laws RingDevice.
Proof.
  refine {| regs := (rf : @smmu3_device RingDevice → Z → Z); executed := (done_cmds : @smmu3_device RingDevice → _);
            lag := (λ d : ring_device, if late d then 1%nat else O) : @smmu3_device RingDevice → nat |}.
  - intros off m d H1 H2. cbn. unfold ring_read. destruct (Z.eqb_spec off ARM_SMMU_CMDQ_CONS); [done|]. by destruct (Z.eqb_spec off ARM_SMMU_CR0ACK).
  - intros m d _ _. set (k := if late d then O else Nat.min 1 (length (pending (rf d) m))). exists k, (ring_fetch m d). split; [done|]. split; [|split].
    + constructor.
      * unfold k. destruct (late d); lia.
      * cbn [rf ring_fetch]. fold k. by rewrite upd_eq.
      * intros off Hoff. cbn [rf ring_fetch]. by rewrite upd_ne.
    + done.
    + unfold k. cbn [late ring_fetch]. destruct (late d); [right; right; lia|]. destruct (pending (rf d) m); [by left|right; left; cbn [length]; lia].
  - intros m d. eexists _, _. split; [reflexivity|]. split; [done|]. split; [done|]. cbn. destruct (late d); [right; lia|by left].
  - intros d. unfold ARM_SMMU_SYNC_TIMEOUT. destruct (late d); lia.
  - done.
  - done.
Defined.

(** ** Properties *)

(** The indices of a queue count what is in it.  On indices with a wrap bit above them, with no more
    commands between the consumer and the producer than the ring has slots, [queue_empty] holds
    exactly when there is none, [queue_full] exactly when every slot is taken, and producing one
    more in a ring that is not full counts one more and takes a slot no queued command is in. *)
Theorem smmu_queue_ring (q : arm_smmu_queue) :
  let n := max_n_shift q in let count := ring_count n (prod q) (cons q) in
  1 ≤ n ≤ 30 → ring_index n (prod q) → ring_index n (cons q) → count ≤ 2 ^ n →
  0 < ent_dwords q → 0 ≤ q_mem q → q_mem q + 2 ^ n * ent_dwords q * 8 ≤ 2 ^ 64 →
  queue_empty q = (count =? 0) ∧ queue_full q = (count =? 2 ^ n) ∧
  (queue_full q = false →
    let p := next_prod (prod q) n in
    ring_index n p ∧ ring_count n p (cons q) = count + 1 ∧ count + 1 ≤ 2 ^ n ∧
    ∀ i, 0 ≤ i < count → queue_entry q (cons q + i) ≠ queue_entry q (prod q)).
Proof.
  intros n count Hn Hp Hc Hle He Hm0 Hm. destruct (pow_n n Hn) as [Hpow E].
  assert (queue_full q = (count =? 2 ^ n)) as Hfull by (by apply ring_full).
  split; [by apply ring_empty|]. split; [done|]. rewrite Hfull. intros Hnf%Z.eqb_neq p. unfold p. rewrite next_prod_succ by done.
  assert (0 ≤ count < 2 ^ (n + 1)) as Hcount by (apply Z.mod_pos_bound; lia).
  split; [by apply ring_next|]. split; [rewrite ring_count_next by done; apply Z.mod_small; fold count; lia|]. split; [lia|].
  intros i Hi. unfold queue_entry. fold n. rewrite !Q_IDX_mod by done.
  assert (∀ x, q_mem q +64 (x mod 2 ^ n *64 ent_dwords q) * 8 = q_mem q + x mod 2 ^ n * ent_dwords q * 8) as Hentry.
  { intros x. pose proof (Z.mod_pos_bound x (2 ^ n) ltac:(lia)). assert (x mod 2 ^ n * ent_dwords q + ent_dwords q ≤ 2 ^ n * ent_dwords q) by nia.
    rewrite (wrap_small 64 (_ * ent_dwords q)) by nia. rewrite wrap_small by nia. lia. }
  rewrite !Hentry. intros Heq. assert ((cons q + i) mod 2 ^ n = (cons q + count) mod 2 ^ n) as Hslot.
  { assert (prod q mod 2 ^ n = (cons q + count) mod 2 ^ n) as <-; [|nia]. unfold count, ring_count. rewrite E.
    rewrite (Z.mul_comm 2), Z.rem_mul_r by lia. rewrite Z.add_assoc, Z.mul_comm, Z.mod_add by lia. rewrite Zplus_mod_idemp_r. f_equal. lia. }
  pose proof (ring_slots n Hn (cons q) i count ltac:(lia) ltac:(lia) Hslot). lia.
Qed.

Definition sample_queue : arm_smmu_queue :=
  {| q_mem := 0x80000; base_dma := 0x80000; q_base := Z.lor (Z.lor Q_BASE_RWA 0x80000) 2; ent_dwords := 2; max_n_shift := 2;
     prod := 5; cons := 2; prod_reg := 0x9050098; cons_reg := 0x905009c; gerr_mask := 1 |}.

Lemma smmu_queue_ring_witness :
  queue_full sample_queue = false ∧ ring_count 2 (next_prod 5 2) 2 = 4 ∧ queue_entry sample_queue 4 ≠ queue_entry sample_queue 5.
Proof.
  destruct (smmu_queue_ring sample_queue ltac:(simpl; lia) ltac:(split; by vm_compute) ltac:(split; by vm_compute) ltac:(by vm_compute)
    ltac:(simpl; lia) ltac:(simpl; lia) ltac:(by vm_compute)) as (_ & Hf & Hn).
  assert (queue_full sample_queue = false) as H by (by rewrite Hf). split; [exact H|]. destruct (Hn H) as (_ & Hc & _ & He).
  split; [exact Hc|]. apply (He 2). split; by vm_compute.
Defined.

(** C34: commands say what they mean.  Every command the driver knows, with arguments that fit their types, is
    encoded in two words from which the architecture's layout reads back the operation and exactly
    the arguments it has, addresses down to their page and, of a message, their word. *)
Theorem cmdq_build_cmd_roundtrip ent :
  cmd_ok ent →
  ∃ c, arm_smmu_cmdq_build_cmd ent = Done c ∧ in_word 64 c.1 ∧ in_word 64 c.2 ∧
    cmd_decode c = {| opcode := opcode ent; substream_valid := false; args := told (opcode ent) (args ent) |}.
Proof.
  intros Hok. destruct (build_total ent Hok) as (c & Hb & H1 & H2). exists c. split; [done|]. split; [done|]. split; [done|]. by apply build_decode.
Qed.

Lemma cmdq_build_cmd_roundtrip_witness :
  ∃ c, arm_smmu_cmdq_build_cmd {| opcode := CMDQ_OP_TLBI_NH_VA; substream_valid := false; args := tlbi 5 9 1 0x7fff12345678 |} = Done c ∧
    cmd_decode c = {| opcode := CMDQ_OP_TLBI_NH_VA; substream_valid := false; args := tlbi 5 9 1 0x7fff12345000 |}.
Proof.
  destruct (cmdq_build_cmd_roundtrip {| opcode := CMDQ_OP_TLBI_NH_VA; substream_valid := false; args := tlbi 5 9 1 0x7fff12345678 |}) as (c & H1 & _ & _ & H2).
  { split; [by left|]. repeat split; by vm_compute. }
  exists c. split; [exact H1|]. rewrite H2. by vm_compute.
Defined.

(** C33: a command is executed.  From an idle queue whose lock is free, issuing a command comes back, however
    late the hardware reads its ring; by then the hardware has executed exactly this command, after
    those before, the queue is idle and its lock free again, and of memory only the page of the ring
    has changed. *)
Theorem cmdq_issue_executes `{L : Smmu3Laws} base_address ent s :
  queue_idle base_address s → lock_free (cmdq_lock s) → cmd_ok ent →
  ∃ c s', settles (λ f, arm_smmu_cmdq_issue_cmd base_address f ent) s tt s' ∧
    cmd_decode c = {| opcode := opcode ent; substream_valid := false; args := told (opcode ent) (args ent) |} ∧
    executed (dev s') = executed (dev s) ++ [c] ∧ queue_idle base_address s' ∧ lock_free (cmdq_lock s') ∧
    ∀ a, a < q_mem (cmdq s) ∨ q_mem (cmdq s) + PAGE_SIZE ≤ a → mem s' a = mem s a.
Proof.
  intros Q Hl Hok. destruct (issue_cmd_run base_address ent s Q Hl Hok) as (c & s' & Hb & Hr & [I1 I2 I3 _ _ I6 _]).
  exists c, s'. split; [done|]. split; [by apply build_decode|]. auto.
Qed.

(** An SMMU whose queue has four slots, all read. *)
Definition sample_regs (off : Z) : Z :=
  if off =? ARM_SMMU_CMDQ_BASE then q_base sample_queue
  else if (off =? ARM_SMMU_CMDQ_PROD) || (off =? ARM_SMMU_CMDQ_CONS) then 5
  else if off =? ARM_SMMU_CR0 then 0xd else 0.

Definition sample_cfg : arm_smmu_strtab_cfg :=
  {| strtab := 0; strtab_dma := 0; l1_desc := 0; l1_descs := λ _, zero_desc; num_l1_ents := 0; strtab_base := 0; strtab_base_cfg := 0 |}.

Definition sample_smmu3 : @smmu3 RingDevice :=
  {| dev := {| rf := sample_regs; done_cmds := []; late := true |} : @smmu3_device RingDevice; mem := λ _, 0; pages := sample_pool;
     smmu_base := 0x9050000; features := 1; cmdq := sample_queue <| cons := 5 |>; cmdq_lock := SPINLOCK_INITVAL; evtq := sample_queue;
     sid_bits := 16; strtab_cfg := sample_cfg |}.

Lemma sample_idle : queue_idle 0x9050000 sample_smmu3.
Proof. constructor; try done; try (split; by vm_compute). Qed.

Definition sample_tlbi : arm_smmu_cmdq_ent := {| opcode := CMDQ_OP_TLBI_S12_VMALL; substream_valid := false; args := tlbi 0 3 0 0 |}.

Lemma cmdq_issue_executes_witness :
  ∃ c s', settles (λ f, arm_smmu_cmdq_issue_cmd 0x9050000 f sample_tlbi) sample_smmu3 tt s' ∧
    args (cmd_decode c) = tlbi 0 3 0 0 ∧ executed (dev s') = [c].
Proof.
  destruct (cmdq_issue_executes 0x9050000 sample_tlbi sample_smmu3 sample_idle ltac:(by split)) as (c & s' & H1 & H2 & H3 & _).
  { split; [by do 3 right|]. repeat split; by vm_compute. }
  exists c, s'. split; [exact H1|]. split; [by rewrite H2|exact H3].
Defined.
