(* ===== verification/Smmuv3Streams.v ===== *)
(** * The stream tables of the SMMUv3

    What the hardware finds when it looks a stream up, the invariant of the two-level table, and
    that giving a device to a virtual machine changes its stream and, besides, only those that share
    a new table with it. *)
From S2P Require Import Prelude Util Bits Bitmap Spinlock PagePool Smmuv3 Smmuv3Queue.

(** ** The hardware's walk *)

Inductive stream := Aborted | Bypassed | Stage2 (vmid vtcr ttb : Z) | Otherwise.

Definition ste_meaning (m : Z → Z) (a : Z) : stream :=
  if negb (Z.testbit (m a) 0) then Aborted
  else
    let cfg := bits_at (m a) 1 3 in
    if cfg =? 0 then Aborted
    else if cfg =? 4 then Bypassed
    else if cfg =? 6 then Stage2 (bits_at (m (a + 16)) 0 16) (bits_at (m (a + 16)) 32 19) (address_at (m (a + 24)) 4 48)
    else Otherwise.

Lemma ste_same m m' a : (∀ o, 0 ≤ o < 64 → m' (a + o) = m (a + o)) → ste_meaning m' a = ste_meaning m a.
Proof. intros Hm. unfold ste_meaning. pose proof (Hm 0 ltac:(lia)) as E. rewrite Z.add_0_r in E. by rewrite E, !Hm by lia. Qed.

Definition align_down (a n : Z) : Z := a / n * n.

(** The entry of a stream, for the two formats of the table; a table is aligned to its size. *)
Definition hw_entry (r m : Z → Z) (sid : Z) : option Z :=
  let cfg := r ARM_SMMU_STRTAB_BASE_CFG in
  let table := address_at (r ARM_SMMU_STRTAB_BASE) 6 46 in
  let log2size := bits_at cfg 0 6 in
  let split := bits_at cfg 6 5 in
  if 2 ^ log2size <=? sid then None
  else if bits_at cfg 16 2 =? 0 then Some (align_down table (2 ^ log2size * 64) + sid * 64)
  else
    let desc := m (align_down table (2 ^ (log2size - split) * 8) + sid / 2 ^ split * 8) in
    let span := bits_at desc 0 5 in
    if span =? 0 then None
    else if 2 ^ (span - 1) <=? sid mod 2 ^ split then None
    else Some (align_down (address_at desc 6 46) (2 ^ (span - 1) * 64) + sid mod 2 ^ split * 64).

Definition hw_stream (r m : Z → Z) (sid : Z) : stream :=
  if negb (Z.testbit (r ARM_SMMU_CR0) 0) then Bypassed
  else match hw_entry r m sid with None => Aborted | Some a => ste_meaning m a end.

(** ** The invariant of the two-level table *)

(** Which part of the SMMU's memory a page belongs to. *)
Inductive region := RQueue | RTable | RLeaf (i : Z).
Definition owns (own : Z → option region) (r : region) (a : Z) : Prop := own (a / PAGE_SIZE) = Some r.

(** These pages are taken from the pool. *)
Definition owned (own : Z → option region) (p : page_pool) : Prop :=
  ∀ pg r, own pg = Some r → ∃ j, 0 ≤ j < nr_pages p ∧ pg * PAGE_SIZE = base p + j * PAGE_SIZE ∧ bit_at (bitmap p) j = true.

(** [n] pages from page [pg] on are given to [r]. *)
Definition claim (pg n : Z) (r : region) (own : Z → option region) : Z → option region :=
  λ x, if (pg <=? x) && (x <? pg + n) then Some r else own x.

(** Pages that are allocated belonged to nobody. *)
Lemma mem_alloc_fresh n aligned fuel p pp p' own :
  pool_inv p → lock_free (pool_lock p) → 1 ≤ n → owned own p →
  mem_alloc_ppages n aligned fuel p = Done (pp, p') → base p ≤ pp_base pp →
  let a := pp_base pp in
  PAGE_SIZE ≤ a ∧ a mod PAGE_SIZE = 0 ∧ (aligned = true → a mod (n * PAGE_SIZE) = 0) ∧
  a + n * PAGE_SIZE ≤ base p + nr_pages p * PAGE_SIZE ∧
  (∀ i, 0 ≤ i < n → own (a / PAGE_SIZE + i) = None) ∧
  pool_inv p' ∧ lock_free (pool_lock p') ∧ base p' = base p ∧ nr_pages p' = nr_pages p ∧
  ∀ r, owned (claim (a / PAGE_SIZE) n r own) p'.
Proof.
  intros Hp Hl Hn Hown H1 H2 a. destruct (mem_alloc_ppages_done n aligned fuel p pp p' Hp Hl Hn H1 H2) as (bit & -> & Hfit & Hb & Hal & ->).
  pose proof (pool_inv_nr p Hp) as Hnr. destruct (take_pages_inv bit n p Hp Hn Hfit Hb) as [Hinv Hbits]. destruct Hfit as [Hfit Hrun].
  assert (a = base p + bit * PAGE_SIZE) as Ha by (unfold a; rewrite pages_at_eq by (done || lia); done).
  destruct Hp as [_ _ Hbase Hbal [_ Hsize] _]. unfold PAGE_SIZE in *. pose proof (Z.div_mod (base p) 0x1000 ltac:(lia)) as Hdm. rewrite Hbal in Hdm.
  assert (a / 0x1000 = base p / 0x1000 + bit) as Hpg by (rewrite Ha, Z.div_add by lia; done).
  split; [lia|]. split; [rewrite Ha, Z.mod_add by lia; done|]. split.
  { intros E. specialize (Hal E). pose proof (Z.mod_pos_bound (base p / 0x1000) n ltac:(lia)). rewrite wrap_small in Hal by lia. rewrite Zplus_mod_idemp_r in Hal.
    replace a with ((bit + base p / 0x1000) * 0x1000) by lia. apply Z.mod_divide in Hal as [k Hk]; [|lia]. rewrite Hk.
    replace (k * n * 0x1000) with (k * (n * 0x1000)) by lia. apply Z.mod_mul. lia. }
  split; [lia|]. split.
  { intros i Hi. destruct (own (a / 0x1000 + i)) as [r|] eqn:E; [|done]. destruct (Hown _ _ E) as (j & Hj & Hj2 & Hj3).
    unfold PAGE_SIZE in *. assert (j = bit + i) as -> by lia. rewrite Hrun in Hj3 by lia. done. }
  split; [by apply (pool_inv_lock (take_pages bit n p) (λ _, lock_cycle (pool_lock p)))|]. split; [apply lock_cycle_free|]. split; [done|]. split; [done|].
  intros r pg r' Hc. unfold claim in Hc. destruct ((_ <=? pg) && _) eqn:E.
  - apply andb_true_iff in E as [E1%Z.leb_le E2%Z.ltb_lt]. exists (pg - base p / 0x1000). unfold PAGE_SIZE in *. rewrite Hpg in E1, E2.
    split; [change (0 ≤ pg - base p / 0x1000 < nr_pages p); lia|]. split; [change (pg * 0x1000 = base p + (pg - base p / 0x1000) * 0x1000); lia|].
    change (bit_at (bitmap (take_pages bit n p)) (pg - base p / 0x1000) = true). rewrite Hbits by lia. apply orb_true_iff. right. zcase.
  - destruct (Hown _ _ Hc) as (j & Hj & Hj2 & Hj3). exists j. split; [done|]. split; [done|].
    change (bit_at (bitmap (take_pages bit n p)) j = true). rewrite Hbits, Hj3 by lia. done.
Qed.

Section streams.
Context `{Smmu3Device} {L : Smmu3Laws}.
Variable base_address : Z.

#[local] Set Default Proof Using "All".

Definition LEAF_SIZE : Z := 0x4000.

(** The record of 256 streams and the word the hardware reads for them. *)
Definition leaf_ok (own : Z → option region) (i : Z) (d : arm_smmu_strtab_l1_desc) (word : Z) : Prop :=
  l2ptr d = 0 ∧ word = 0 ∨
  0 < l2ptr d ∧ l2ptr d mod LEAF_SIZE = 0 ∧ l2ptr d + LEAF_SIZE ≤ 2 ^ 52 ∧ word = Z.lor 9 (l2ptr d) ∧
  ∀ o, 0 ≤ o < LEAF_SIZE → owns own (RLeaf i) (l2ptr d + o).

Definition table_of (s : smmu3) : Z := strtab (strtab_cfg s).
Definition desc_at (s : smmu3) (i : Z) : arm_smmu_strtab_l1_desc := l1_descs (strtab_cfg s) i.

Record streams_inv (own : Z → option region) (s : smmu3) : Prop := {
  si_queue : queue_idle base_address s;
  si_lock : lock_free (cmdq_lock s);
  si_pool : pool_inv (pages s);
  si_pool_lock : lock_free (pool_lock (pages s));
  si_pool_top : base (pages s) + nr_pages (pages s) * PAGE_SIZE ≤ 2 ^ 52;
  si_owned : owned own (pages s);
  si_qpage : q_mem (cmdq s) mod PAGE_SIZE = 0 ∧ owns own RQueue (q_mem (cmdq s));
  si_two : two_level s = true;
  si_bits : 8 < sid_bits s ≤ 25;
  si_num : num_l1_ents (strtab_cfg s) = 2 ^ (sid_bits s - 8);
  si_table : 0 ≤ table_of s ∧ table_of s mod (2 ^ (sid_bits s - 8) * 8) = 0 ∧ table_of s + 2 ^ (sid_bits s - 8) * 8 ≤ 2 ^ 52 ∧ table_of s mod 64 = 0;
  si_table_owned i : 0 ≤ i < 2 ^ (sid_bits s - 8) → owns own RTable (table_of s + i * 8);
  si_on : Z.testbit (regs (dev s) ARM_SMMU_CR0) 0 = true;
  si_base : regs (dev s) ARM_SMMU_STRTAB_BASE = Z.lor (table_of s) STRTAB_BASE_RA;
  si_cfg : regs (dev s) ARM_SMMU_STRTAB_BASE_CFG = Z.lor (Z.lor 0x10000 (sid_bits s)) 0x200;
  si_l1 i : 0 ≤ i < 2 ^ (sid_bits s - 8) → leaf_ok own i (desc_at s i) (mem s (table_of s + i * 8))
}.

Definition stream_of (s : smmu3) (sid : Z) : stream := hw_stream (regs (dev s)) (mem s) sid.

(** The entry of a stream whose table there is. *)
Definition entry_of (s : smmu3) (sid : Z) : Z := l2ptr (desc_at s (sid / 256)) + sid mod 256 * 64.
Definition has_leaf (s : smmu3) (sid : Z) : bool := negb (l2ptr (desc_at s (sid / 256)) =? 0).

(** The fields of the two registers and of a descriptor. *)
Lemma cfg_fields b : 0 ≤ b < 64 →
  let cfg := Z.lor (Z.lor 0x10000 b) 0x200 in bits_at cfg 0 6 = b ∧ bits_at cfg 6 5 = 8 ∧ bits_at cfg 16 2 = 1.
Proof using.
  intros Hb cfg. assert (in_word 6 b) as Hw by (split; lia). assert (cfg = Z.lor b 0x10200) as -> by (unfold cfg; rewrite (Z.lor_comm 0x10000), <-Z.lor_assoc; done).
  split; [|split]; apply bits_at_eq; try lia; try done; try (by split); intros i Hi; rewrite Z.lor_spec.
  - change 0x10200 with (Z.lor (Z.shiftl 1 9) (Z.shiftl 1 16)). autorewrite with bits. zcase. by rewrite !orb_false_r, Z.add_0_r.
  - rewrite (testbit_small 6 b) by (done || lia). change 0x10200 with (Z.lor (Z.shiftl 1 9) (Z.shiftl 1 16)). change 8 with (Z.shiftl 1 3). autorewrite with bits. zcase; done.
  - rewrite (testbit_small 6 b) by (done || lia). change 0x10200 with (Z.lor (Z.shiftl 1 9) (Z.shiftl 1 16)). autorewrite with bits. zcase; done.
Qed.

Lemma low_bits_zero off v i : 0 ≤ i < off → v mod 2 ^ off = 0 → Z.testbit v i = false.
Proof using. intros Hi Hv. rewrite <-(Z.mod_pow2_bits_low v off) by lia. by rewrite Hv, Z.testbit_0_l. Qed.

Lemma land_field_id off len v : 0 ≤ off → 0 < len → 0 ≤ v < 2 ^ (off + len) → v mod 2 ^ off = 0 → Z.land v (field off len) = v.
Proof using.
  intros Ho Hl Hv Hm. apply Z.bits_inj'. intros i Hi. rewrite Z.land_spec, testbit_field by lia.
  destruct (Z.leb_spec off i); [|by rewrite (low_bits_zero off) by (done || lia)].
  destruct (Z.ltb_spec i (off + len)); [by rewrite andb_true_r|]. by rewrite (testbit_small (off + len) v) by (done || lia).
Qed.

Lemma base_address_of v : 0 ≤ v < 2 ^ 52 → v mod 64 = 0 → address_at (Z.lor v STRTAB_BASE_RA) 6 46 = v.
Proof using.
  intros Hv Hm. rewrite (address_at_eq _ 6 46 v); [by apply land_field_id|lia|lia|].
  intros i Hi. rewrite Z.lor_spec. unfold STRTAB_BASE_RA. autorewrite with bits. zcase. by rewrite orb_false_r.
Qed.

Lemma desc_fields v : 0 ≤ v < 2 ^ 52 → v mod LEAF_SIZE = 0 → address_at (Z.lor 9 v) 6 46 = v ∧ bits_at (Z.lor 9 v) 0 5 = 9.
Proof using.
  intros Hv Hm. assert (∀ i, 0 ≤ i < 14 → Z.testbit v i = false) as Hlow by (intros i Hi; by apply (low_bits_zero 14)).
  assert (∀ i, Z.testbit 9 i = (i =? 0) || (i =? 3)) as H9.
  { intros i. change 9 with (Z.lor 1 (Z.shiftl 1 3)). destruct (Z.leb_spec 0 i); [|rewrite Z.testbit_neg_r by lia; zcase; done].
    autorewrite with bits. zcase; done. }
  split.
  - rewrite (address_at_eq _ 6 46 v); [|lia|lia|]; [apply land_field_id; [lia|lia|done|]|].
    + unfold LEAF_SIZE in Hm. dlia.
    + intros i Hi. rewrite Z.lor_spec, H9. zcase. done.
  - apply bits_at_eq; [lia|lia|by split|]. intros i Hi. rewrite Z.lor_spec, Hlow by lia. by rewrite Z.add_0_r, orb_false_r.
Qed.

Lemma align_down_id a n : 0 < n → a mod n = 0 → align_down a n = a.
Proof using. intros Hn Ha. unfold align_down. pose proof (Z.div_mod a n ltac:(lia)). lia. Qed.

(** What the invariant says the hardware finds. *)
Lemma stream_eq own s sid : streams_inv own s → 0 ≤ sid →
  stream_of s sid = if sid <? 2 ^ sid_bits s then if has_leaf s sid then ste_meaning (mem s) (entry_of s sid) else Aborted else Aborted.
Proof.
  intros I Hs. pose proof (si_bits _ _ I) as Hb. destruct (si_table _ _ I) as (Ht0 & Ht1 & Ht2 & Ht3).
  unfold stream_of, hw_stream, hw_entry. rewrite (si_on _ _ I), (si_base _ _ I), (si_cfg _ _ I). cbn [negb].
  destruct (cfg_fields (sid_bits s) ltac:(lia)) as (-> & -> & ->). rewrite base_address_of by (done || lia).
  assert (2 ^ sid_bits s = 2 ^ (sid_bits s - 8) * 256) as Hpow.
  { replace (sid_bits s) with (sid_bits s - 8 + 8) at 1 by lia. rewrite Z.pow_add_r by lia. done. }
  destruct (Z.leb_spec (2 ^ sid_bits s) sid); [by zcase|]. destruct (Z.ltb_spec sid (2 ^ sid_bits s)); [|lia].
  cbn [Z.eqb]. rewrite align_down_id by (done || lia). change (2 ^ 8) with 256.
  assert (0 ≤ sid / 256 < 2 ^ (sid_bits s - 8)) as Hi by (split; [apply Z.div_pos; lia|apply Z.div_lt_upper_bound; lia]).
  unfold has_leaf, entry_of. destruct (si_l1 _ _ I _ Hi) as [(-> & ->)|(Hl1 & Hl2 & Hl3 & -> & _)].
  - by rewrite Z.eqb_refl.
  - destruct (desc_fields (l2ptr (desc_at s (sid / 256))) ltac:(unfold LEAF_SIZE in *; lia) Hl2) as [-> ->].
    destruct (Z.eqb_spec (l2ptr (desc_at s (sid / 256))) 0); [lia|]. cbn [negb Z.eqb]. change (2 ^ (9 - 1)) with 256.
    pose proof (Z.mod_pos_bound sid 256 ltac:(lia)). destruct (Z.leb_spec 256 (sid mod 256)); [lia|].
    by rewrite align_down_id.
Qed.

(** ** What changes the tables *)

Lemma owns_ne own r r' a b : owns own r a → owns own r' b → r ≠ r' → a ≠ b.
Proof using. unfold owns. congruence. Qed.

Lemma outside_queue own s r a : streams_inv own s → owns own r a → r ≠ RQueue → a < q_mem (cmdq s) ∨ q_mem (cmdq s) + PAGE_SIZE ≤ a.
Proof.
  intros I Ha Hr. destruct (si_qpage _ _ I) as [Hq1 Hq2]. destruct (decide (q_mem (cmdq s) ≤ a < q_mem (cmdq s) + PAGE_SIZE)) as [Hin|]; [|lia].
  exfalso. apply Hr. unfold owns, PAGE_SIZE in *. assert (a / 0x1000 = q_mem (cmdq s) / 0x1000) as E by dlia. congruence.
Qed.

Lemma leaf_owned own s i o : streams_inv own s → 0 ≤ i < 2 ^ (sid_bits s - 8) → l2ptr (desc_at s i) ≠ 0 → 0 ≤ o < LEAF_SIZE →
  owns own (RLeaf i) (l2ptr (desc_at s i) + o).
Proof. intros I Hi Hl Ho. destruct (si_l1 _ _ I i Hi) as [[? _]|(_ & _ & _ & _ & Hown)]; [done|auto]. Qed.

Lemma index_range own s sid : streams_inv own s → 0 ≤ sid < 2 ^ sid_bits s → 0 ≤ sid / 256 < 2 ^ (sid_bits s - 8).
Proof.
  intros I Hs. pose proof (si_bits _ _ I). split; [apply Z.div_pos; lia|]. apply Z.div_lt_upper_bound; [lia|].
  replace 256 with (2 ^ 8) by done. rewrite <-Z.pow_add_r by lia. replace (8 + (sid_bits s - 8)) with (sid_bits s) by lia. lia.
Qed.

(** The words of an entry. *)
Lemma entry_owned own s sid o : streams_inv own s → 0 ≤ sid < 2 ^ sid_bits s → has_leaf s sid = true → 0 ≤ o < 64 →
  owns own (RLeaf (sid / 256)) (entry_of s sid + o).
Proof.
  intros I Hs Hl Ho. unfold entry_of. pose proof (Z.mod_pos_bound sid 256 ltac:(lia)). rewrite <-Z.add_assoc. eapply leaf_owned; [done|by eapply index_range| |unfold LEAF_SIZE; lia].
  unfold has_leaf in Hl. by apply negb_true_iff, Z.eqb_neq in Hl.
Qed.

Lemma entry_ne own s sid sid' o o' : streams_inv own s → 0 ≤ sid < 2 ^ sid_bits s → 0 ≤ sid' < 2 ^ sid_bits s →
  has_leaf s sid = true → has_leaf s sid' = true → sid ≠ sid' → 0 ≤ o < 64 → 0 ≤ o' < 64 → entry_of s sid + o ≠ entry_of s sid' + o'.
Proof.
  intros I Hs Hs' Hl Hl' Hne Ho Ho'. destruct (decide (sid / 256 = sid' / 256)) as [E|E].
  - unfold entry_of. rewrite E. pose proof (Z.div_mod sid 256 ltac:(lia)). pose proof (Z.div_mod sid' 256 ltac:(lia)). lia.
  - eapply owns_ne; [by apply (entry_owned own s)..|congruence].
Qed.

(** Commands only touch the ring. *)
Lemma inv_issued own c s s' : streams_inv own s → issued base_address c s s' → streams_inv own s'.
Proof.
  intros I [J1 J2 J3 J4 J5 J6 J7]. assert (∀ r a, owns own r a → r ≠ RQueue → mem s' a = mem s a) as Hmem.
  { intros r a Ha Hr. apply J3. by eapply outside_queue. }
  assert (strtab_cfg s' = strtab_cfg s ∧ pages s' = pages s ∧ sid_bits s' = sid_bits s ∧ features s' = features s) as (E1 & E2 & E3 & E4) by (by rewrite J7).
  assert (table_of s' = table_of s ∧ (∀ i, desc_at s' i = desc_at s i)) as [E5 E6] by (unfold table_of, desc_at; by rewrite E1).
  assert (two_level s' = two_level s ∧ q_mem (cmdq s') = q_mem (cmdq s)) as [E7 E8] by (unfold two_level; rewrite E4, J5; by split).
  destruct I as [I1 I2 I3 I4 I5 I6 I7 I8 I9 I10 I11 I12 I13 I14 I15 I16].
  constructor.
  - exact J1.
  - exact (J6 I2).
  - by rewrite E2.
  - by rewrite E2.
  - by rewrite E2.
  - rewrite E2. exact I6.
  - by rewrite E8.
  - by rewrite E7.
  - by rewrite E3.
  - by rewrite E1, E3.
  - by rewrite E5, E3.
  - rewrite E5, E3. exact I12.
  - by rewrite J4.
  - by rewrite J4, E5.
  - by rewrite J4, E3.
  - rewrite E3, E5. intros i Hi. rewrite E6, (Hmem RTable) by (done || by apply I12). by apply I16.
Qed.

Lemma stream_issued own c s s' sid : streams_inv own s → issued base_address c s s' → 0 ≤ sid → stream_of s' sid = stream_of s sid.
Proof.
  intros I J Hs. pose proof (inv_issued own c s s' I J) as I'. rewrite (stream_eq own s), (stream_eq own s') by done.
  assert (sid_bits s' = sid_bits s ∧ strtab_cfg s' = strtab_cfg s) as [E1 E2] by (by rewrite (is_rest _ _ _ _ J)).
  unfold has_leaf, entry_of, desc_at. rewrite E1, E2. fold (desc_at s (sid / 256)). fold (has_leaf s sid). fold (entry_of s sid).
  destruct (Z.ltb_spec sid (2 ^ sid_bits s)); [|done]. destruct (has_leaf s sid) eqn:Hl; [|done].
  apply ste_same. intros o Ho. apply (is_mem _ _ _ _ J). eapply outside_queue; [done|by apply (entry_owned own)|done].
Qed.

(** Writing a word of a leaf. *)
Definition stored (a v : Z) (s : smmu3) : smmu3 := s <| mem ::= <[a := v]> |>.

Lemma inv_stored own i a v s : streams_inv own s → owns own (RLeaf i) a → streams_inv own (stored a v s).
Proof.
  intros I Ha. destruct I as [I1 I2 I3 I4 I5 I6 I7 I8 I9 I10 I11 I12 I13 I14 I15 I16].
  constructor; [| |exact I3|exact I4|exact I5|exact I6|exact I7|exact I8|exact I9|exact I10|exact I11|exact I12|exact I13|exact I14|exact I15|].
  - destruct I1. by constructor.
  - exact I2.
  - intros j Hj. change (mem (stored a v s)) with (<[a := v]> (mem s)). rewrite upd_ne; [by apply I16|].
    eapply owns_ne; [done|by apply I12|done].
Qed.

Lemma stored_other own a v s sid sid' o : streams_inv own s → 0 ≤ sid < 2 ^ sid_bits s → 0 ≤ sid' → has_leaf s sid = true → sid ≠ sid' →
  0 ≤ o < 64 → a = entry_of s sid + o → stream_of (stored a v s) sid' = stream_of s sid'.
Proof.
  intros I Hs Hs' Hl Hne Ho ->. rewrite (stream_eq own s sid' I Hs').
  rewrite (stream_eq own _ sid' (inv_stored own (sid / 256) _ v s I (entry_owned own s sid o I Hs Hl Ho)) Hs').
  change (sid_bits (stored _ v s)) with (sid_bits s). change (has_leaf (stored _ v s) sid') with (has_leaf s sid').
  change (entry_of (stored (entry_of s sid + o) v s) sid') with (entry_of s sid').
  destruct (Z.ltb_spec sid' (2 ^ sid_bits s)); [|done]. destruct (has_leaf s sid') eqn:Hl'; [|done].
  apply ste_same. intros o' Ho'. unfold stored. rsimpl. apply upd_ne. eapply entry_ne; [done|done|lia|done..].
Qed.

(** ** Writing an entry *)

(** Everything but memory, the hardware and the indices of the ring is as before. *)
Definition kept (s s' : smmu3) : Prop :=
  s' = s <| dev := dev s' |> <| mem := mem s' |> <| cmdq := cmdq s' |> <| cmdq_lock := cmdq_lock s' |>.

Lemma kept_trans s s1 s2 : kept s s1 → kept s1 s2 → kept s s2.
Proof using. unfold kept. intros -> ->. by destruct s. Qed.

Lemma kept_stored a v s : kept s (stored a v s).
Proof using. unfold kept, stored. by destruct s. Qed.

Lemma kept_fields s s' : kept s s' → strtab_cfg s' = strtab_cfg s ∧ sid_bits s' = sid_bits s ∧ features s' = features s ∧ pages s' = pages s.
Proof using. intros ->. done. Qed.

Lemma kept_entry s s' sid : kept s s' → entry_of s' sid = entry_of s sid ∧ has_leaf s' sid = has_leaf s sid.
Proof using. intros (E & _)%kept_fields. unfold entry_of, has_leaf, desc_at. by rewrite E. Qed.

Lemma kept_issued c s s' : issued base_address c s s' → kept s s'.
Proof. apply is_rest. Qed.

Lemma command_run ent s : queue_idle base_address s → lock_free (cmdq_lock s) → cmd_ok ent →
  ∃ c s', settles (λ f, arm_smmu_cmdq_issue_cmd base_address f ent) s tt s' ∧ issued base_address c s s'.
Proof. intros Q Hl Hok. destruct (issue_cmd_run base_address ent s Q Hl Hok) as (c & s' & _ & Hr & I). by exists [c], s'. Qed.

Lemma cfgi_ok sid leaf b : in_word 32 sid → in_word 1 leaf → cmd_ok {| opcode := CMDQ_OP_CFGI_STE; substream_valid := b; args := cfgi sid leaf |}.
Proof using. intros. by split. Qed.

Lemma sync_cmd_ok : cmd_ok cmd_sync.
Proof using. repeat split; by vm_compute. Qed.

Lemma sync_run own sid s : streams_inv own s → in_word 32 sid →
  ∃ c s', settles (λ f, arm_smmu_sync_ste_for_sid base_address f sid) s tt s' ∧ issued base_address c s s'.
Proof.
  intros I Hsid. destruct (command_run {| opcode := CMDQ_OP_CFGI_STE; substream_valid := false; args := cfgi sid 1 |} s)
    as (c1 & s1 & H1 & J1); [apply I|apply I|apply cfgi_ok; [done|by split]|].
  destruct (command_run cmd_sync s1) as (c2 & s2 & H2 & J2); [apply J1|apply J1, I|apply sync_cmd_ok|].
  exists (c1 ++ c2), s2. split; [|by eapply issued_trans]. by eapply settles_bind.
Qed.

Lemma store_run {B} a v (k : unit → prog smmu3 B) s : in_word 64 v → (store64 a v ≫= k) s = k tt (stored a v s).
Proof using. intros Hv. unfold store64. by rewrite bind_modify, (wrap_small 64 v). Qed.

(** The words of an entry for stage 2. *)
Definition ste_0 : Z := Z.lor (FIELD_PREP STRTAB_STE_0_CFG STRTAB_STE_0_CFG_S2_TRANS) STRTAB_STE_0_V.
Definition ste_2 (vmid : Z) : Z :=
  Z.lor (Z.lor (Z.lor (Z.lor (FIELD_PREP STRTAB_STE_2_S2VMID vmid) (FIELD_PREP STRTAB_STE_2_VTCR VTCR_CELL)) STRTAB_STE_2_S2PTW) STRTAB_STE_2_S2AA64) STRTAB_STE_2_S2R.
Definition ste_3 (root : Z) : Z := Z.land root STRTAB_STE_3_S2TTB_MASK.

(** What such an entry says: the low 16 bits of the VM's number, the constant control word without the bits
    that do not fit the field, the VM's table. *)
Definition stage2_of (vmid root : Z) : stream := Stage2 (vmid mod 2 ^ 16) (VTCR_CELL mod 2 ^ 19) (Z.land root (field 4 48)).

Lemma ste_words vmid root : in_word 64 root → in_word 64 ste_0 ∧ in_word 64 (ste_2 vmid) ∧ in_word 64 (ste_3 root).
Proof using.
  intros Hr. split; [|split].
  - split; by vm_compute.
  - unfold ste_2. change STRTAB_STE_2_S2VMID with (field 0 16). change STRTAB_STE_2_VTCR with (field 32 19).
    do 4 (apply in_word_lor; [lia| |by split]). apply FIELD_PREP_word; lia.
  - by apply in_word_land.
Qed.

Lemma ste_stage2 m a vmid root : m a = ste_0 → m (a + 16) = ste_2 vmid → m (a + 24) = ste_3 root → ste_meaning m a = stage2_of vmid root.
Proof using.
  intros H0 H2 H3. unfold ste_meaning. rewrite H0, H2, H3. change (Z.testbit ste_0 0) with true. change (bits_at ste_0 1 3) with 6. cbn [negb Z.eqb].
  unfold stage2_of, ste_2, ste_3. change STRTAB_STE_2_S2VMID with (field 0 16). change STRTAB_STE_2_VTCR with (field 32 19).
  change STRTAB_STE_3_S2TTB_MASK with (field 4 48). unfold STRTAB_STE_2_S2PTW, STRTAB_STE_2_S2AA64, STRTAB_STE_2_S2R. f_equal.
  - unfold bits_at. apply bits_of_word; [lia|lia|]. intros i Hi. rewrite !Z.lor_spec, !testbit_FIELD_PREP, !testbit_shiftl, !testbit_1 by lia.
    zcase. cbn [andb orb]. rewrite !orb_false_r. f_equal. lia.
  - unfold bits_at. apply bits_of_word; [lia|lia|]. intros i Hi. rewrite !Z.lor_spec, !testbit_FIELD_PREP, !testbit_shiftl, !testbit_1 by lia.
    zcase. cbn [andb orb]. rewrite !orb_false_r. f_equal. lia.
  - apply address_at_eq; [lia|lia|]. intros i Hi. rewrite Z.land_spec, testbit_field by lia. zcase. by rewrite andb_true_r.
Qed.

Lemma write_ent_run own s sid vmid root :
  streams_inv own s → 0 ≤ sid < 2 ^ sid_bits s → has_leaf s sid = true → in_word 64 root →
  ∃ s', settles (λ f, arm_smmu_write_strtab_ent base_address f true sid (entry_of s sid) false vmid root) s tt s' ∧
    streams_inv own s' ∧ kept s s' ∧ stream_of s' sid = stage2_of vmid root ∧
    ∀ sid', 0 ≤ sid' → sid' ≠ sid → stream_of s' sid' = stream_of s sid'.
Proof.
  intros I Hs Hl Hroot. destruct (ste_words vmid root Hroot) as (W0 & W2 & W3). pose proof (si_bits _ _ I) as Hb.
  assert (in_word 32 sid) as Hsid by (split; [lia|]; assert (2 ^ sid_bits s ≤ 2 ^ 25) by (apply Z.pow_le_mono_r; lia); lia).
  set (e := entry_of s sid). assert (∀ o, 0 ≤ o < 64 → owns own (RLeaf (sid / 256)) (e + o)) as Hown by (intros; by apply entry_owned).
  assert (0 ≤ e ∧ e + 64 ≤ 2 ^ 52) as He.
  { destruct (si_l1 _ _ I _ (index_range own s sid I Hs)) as [(E & _)|(? & _ & ? & _)].
    - unfold has_leaf in Hl. by rewrite E in Hl.
    - unfold e, entry_of. unfold LEAF_SIZE in *. pose proof (Z.mod_pos_bound sid 256 ltac:(lia)). lia. }
  set (s1 := stored (e + 16) (ste_2 vmid) s). set (s2 := stored (e + 24) (ste_3 root) s1).
  assert (streams_inv own s1) as I1 by (eapply inv_stored; [done|apply Hown; lia]).
  assert (streams_inv own s2) as I2 by (eapply inv_stored; [done|apply Hown; lia]).
  destruct (sync_run own sid s2 I2 Hsid) as (c3 & s3 & R3 & J3). pose proof (inv_issued _ _ _ _ I2 J3) as I3.
  set (s4 := stored e ste_0 s3). assert (streams_inv own s4) as I4 by (eapply inv_stored; [done|rewrite <-(Z.add_0_r e); apply Hown; lia]).
  destruct (sync_run own sid s4 I4 Hsid) as (c5 & s5 & R5 & J5). pose proof (inv_issued _ _ _ _ I4 J5) as I5.
  assert (kept s s3) as K3 by (eapply kept_trans; [eapply kept_trans; apply kept_stored|by eapply kept_issued]).
  assert (kept s s5) as K5 by (eapply kept_trans; [eapply kept_trans; [exact K3|apply kept_stored]|by eapply kept_issued]).
  destruct (kept_entry _ _ sid K3) as [E3 L3]. destruct (kept_entry _ _ sid K5) as [E5 L5]. destruct (kept_fields _ _ K3) as (_ & B3 & _).
  destruct (kept_fields _ _ K5) as (_ & B5 & _).
  exists s5. split; [|split; [done|split; [done|split]]].
  - eapply settles_ext with (k := λ f, arm_smmu_sync_ste_for_sid base_address f sid;; store64 e ste_0;; arm_smmu_sync_ste_for_sid base_address f sid) (s := s2).
    + intros f. unfold arm_smmu_write_strtab_ent. fold (ste_2 vmid). rewrite (wrap_small 64 (e + 16)), (wrap_small 64 (e + 24)) by lia. rewrite store_run by done.
      cbv zeta. unfold paging_hvirt2phys. rewrite (wrap_small 64 root) by done. fold (ste_3 root). rewrite store_run by done. done.
    + eapply settles_bind; [exact R3|]. eapply settles_ext; [|exact R5]. intros f. by rewrite store_run.
  - rewrite (stream_eq own) by (done || lia). rewrite B5, E5, L5, Hl. fold e. destruct (Z.ltb_spec sid (2 ^ sid_bits s)); [|lia].
    assert (∀ o, 0 ≤ o < 64 → mem s5 (e + o) = mem s4 (e + o)) as M5 by (intros o Ho; apply (is_mem _ _ _ _ J5); eapply outside_queue; [exact I4|by apply Hown|done]).
    assert (∀ o, 0 ≤ o < 64 → mem s3 (e + o) = mem s2 (e + o)) as M3 by (intros o Ho; apply (is_mem _ _ _ _ J3); eapply outside_queue; [exact I2|by apply Hown|done]).
    pose proof (M5 0 ltac:(lia)) as M50. rewrite Z.add_0_r in M50.
    apply ste_stage2; rewrite ?M50, ?M5 by lia; unfold s4, stored; rsimpl.
    + by rewrite upd_eq.
    + rewrite upd_ne, M3 by lia. unfold s2, s1, stored. rsimpl. by rewrite upd_ne, upd_eq by lia.
    + rewrite upd_ne, M3 by lia. unfold s2, stored. rsimpl. by rewrite upd_eq.
  - intros sid' Hs' Hne. rewrite (stream_issued own _ s4 s5) by done. unfold s4.
    rewrite (stored_other own _ _ s3 sid sid' 0); [|done|by rewrite B3|done|by rewrite L3|done|lia|rewrite E3; fold e; lia].
    rewrite (stream_issued own _ s2 s3) by done. unfold s2. rewrite (stored_other own _ _ s1 sid sid' 24) by (done || lia).
    unfold s1. by rewrite (stored_other own _ _ s sid sid' 16) by (done || lia).
Qed.

(** ** A new table of 256 streams *)

(** The state after a table at [a] was allocated for the streams of index [i], filled and linked. *)
Record leaf_added (i a : Z) (s s' : smmu3) : Prop := {
  la_dev : dev s' = dev s;
  la_cmdq : cmdq s' = cmdq s;
  la_lock : cmdq_lock s' = cmdq_lock s;
  la_base : smmu_base s' = smmu_base s;
  la_features : features s' = features s;
  la_bits : sid_bits s' = sid_bits s;
  la_num : num_l1_ents (strtab_cfg s') = num_l1_ents (strtab_cfg s);
  la_table : table_of s' = table_of s;
  la_new : l2ptr (desc_at s' i) = a;
  la_old j : j ≠ i → desc_at s' j = desc_at s j;
  la_mem x : x < a ∨ a + LEAF_SIZE ≤ x → x ≠ table_of s + i * 8 → mem s' x = mem s x;
  la_word : mem s' (table_of s + i * 8) = Z.lor 9 a;
  la_bypass k : 0 ≤ k < 256 → mem s' (a + k * 64) = 9
}.

Lemma leaf_added_inv own s s' i a :
  streams_inv own s → 0 ≤ i < 2 ^ (sid_bits s - 8) → l2ptr (desc_at s i) = 0 → leaf_added i a s s' →
  PAGE_SIZE ≤ a → a mod LEAF_SIZE = 0 → a + LEAF_SIZE ≤ 2 ^ 52 → (∀ k, 0 ≤ k < 4 → own (a / PAGE_SIZE + k) = None) →
  pool_inv (pages s') → lock_free (pool_lock (pages s')) → base (pages s') = base (pages s) → nr_pages (pages s') = nr_pages (pages s) →
  owned (claim (a / PAGE_SIZE) 4 (RLeaf i) own) (pages s') →
  streams_inv (claim (a / PAGE_SIZE) 4 (RLeaf i) own) s'.
Proof.
  intros I Hi H0 A Ha Hal Htop Hfresh Hp1 Hp2 Hp3 Hp4 Hown. set (own' := claim _ _ _ _) in *.
  assert (∀ x, a ≤ x < a + LEAF_SIZE → 0 ≤ x / PAGE_SIZE - a / PAGE_SIZE < 4) as Hin.
  { intros x Hx. unfold LEAF_SIZE, PAGE_SIZE in *. dlia. }
  assert (∀ r x, owns own r x → owns own' r x ∧ (x < a ∨ a + LEAF_SIZE ≤ x)) as Hkeep.
  { intros r x Hx. unfold owns in *. split.
    - unfold own', claim. destruct (_ && _) eqn:E; [|done]. apply andb_true_iff in E as [E1%Z.leb_le E2%Z.ltb_lt].
      specialize (Hfresh (x / PAGE_SIZE - a / PAGE_SIZE) ltac:(lia)). replace (a / PAGE_SIZE + _) with (x / PAGE_SIZE) in Hfresh by lia. congruence.
    - destruct (decide (a ≤ x < a + LEAF_SIZE)) as [Hx2|]; [|lia]. specialize (Hfresh _ (Hin x Hx2)).
      replace (a / PAGE_SIZE + _) with (x / PAGE_SIZE) in Hfresh by lia. congruence. }
  destruct I as [I1 I2 I3 I4 I5 I6 I7 I8 I9 I10 I11 I12 I13 I14 I15 I16]. destruct A as [A1 A2 A3 A4 A5 A6 A7 A8 A9 A10 A11 A12 A13].
  constructor; rewrite ?A1, ?A3, ?A6, ?A7, ?A8, ?Hp3, ?Hp4.
  - destruct I1. unfold queue_idle. constructor; rewrite ?A1, ?A2, ?A4; done.
  - exact I2.
  - exact Hp1.
  - exact Hp2.
  - exact I5.
  - exact Hown.
  - rewrite A2. split; [apply I7|apply Hkeep, I7].
  - unfold two_level. by rewrite A5.
  - exact I9.
  - exact I10.
  - exact I11.
  - intros j Hj. apply Hkeep. auto.
  - exact I13.
  - exact I14.
  - exact I15.
  - intros j Hj. destruct (decide (j = i)) as [->|Hne].
    + right. rewrite A9, A12. split; [unfold PAGE_SIZE in *; lia|]. split; [done|]. split; [done|]. split; [done|].
      intros o Ho. unfold owns, own', claim. specialize (Hin (a + o) ltac:(lia)). zcase. done.
    + rewrite A10, A11 by (lia || (apply Hkeep with (r := RTable); auto)).
      destruct (I16 j Hj) as [Hz|(L1 & L2 & L3 & L4 & L5)]; [by left|right]. split; [done|]. split; [done|]. split; [done|]. split; [done|].
      intros o Ho. apply Hkeep. auto.
Qed.

Lemma leaf_added_stream own own' s s' i a sid :
  streams_inv own s → streams_inv own' s' → 0 ≤ i < 2 ^ (sid_bits s - 8) → a ≠ 0 → leaf_added i a s s' →
  (∀ r x, owns own r x → x < a ∨ a + LEAF_SIZE ≤ x) → 0 ≤ sid →
  stream_of s' sid = if (sid <? 2 ^ sid_bits s) && (sid / 256 =? i) then Bypassed else stream_of s sid.
Proof.
  intros I I' Hi Ha A Hout Hs. rewrite (stream_eq own s), (stream_eq own' s') by done. destruct A as [A1 A2 A3 A4 A5 A6 A7 A8 A9 A10 A11 A12 A13]. rewrite A6.
  destruct (Z.ltb_spec sid (2 ^ sid_bits s)) as [Hr|]; [cbn [andb]|done].
  destruct (Z.eqb_spec (sid / 256) i) as [E|E].
  - unfold has_leaf, entry_of. rewrite E, A9. destruct (Z.eqb_spec a 0); [done|]. cbn [negb].
    unfold ste_meaning. pose proof (Z.mod_pos_bound sid 256 ltac:(lia)). rewrite A13 by lia. done.
  - unfold has_leaf, entry_of. rewrite A10 by done. fold (has_leaf s sid). fold (entry_of s sid). destruct (has_leaf s sid) eqn:Hl; [|done].
    apply ste_same. intros o Ho. pose proof (entry_owned own s sid o I ltac:(lia) Hl Ho) as Hown. apply A11; [by eapply Hout|].
    eapply owns_ne; [done|by apply (si_table_owned _ _ I)|done].
Qed.

(** Entries for bypass, one after the other. *)
Lemma bypass_run vm n a s :
  0 ≤ a → a + Z.of_nat n * 64 ≤ 2 ^ 52 →
  ∃ m', (∀ f, arm_smmu_init_bypass_stes base_address (Some vm) f a n s = Done (tt, s <| mem := m' |>)) ∧
    (∀ x, x < a ∨ a + Z.of_nat n * 64 ≤ x → m' x = mem s x) ∧ ∀ k, 0 ≤ k < Z.of_nat n → m' (a + k * 64) = 9.
Proof.
  revert a s. induction n as [|n IH]; intros a s Ha Hb.
  { exists (mem s). split; [intros f; by destruct s|]. split; [done|lia]. }
  set (w2 := FIELD_PREP STRTAB_STE_2_S2VMID (u32 (vm_id vm))).
  assert (in_word 64 w2) as Hw2 by (change STRTAB_STE_2_S2VMID with (field 0 16) in w2; apply FIELD_PREP_word; lia).
  set (s1 := stored a 9 (stored (a + 16) w2 (stored (a + 8) (FIELD_PREP STRTAB_STE_1_SHCFG STRTAB_STE_1_SHCFG_INCOMING) s))).
  destruct (IH (a + 64) s1 ltac:(lia) ltac:(lia)) as (m' & Hrun & Hout & Hin). exists m'. split; [|split].
  - intros f. cbn [arm_smmu_init_bypass_stes]. rewrite bind_deref. unfold arm_smmu_write_strtab_ent. cbv zeta. fold w2.
    rewrite (wrap_small 64 (a + 8)), (wrap_small 64 (a + 16)) by lia. rewrite bind_bind, store_run by (split; by vm_compute).
    rewrite bind_bind, store_run by done. rewrite bind_bind, store_run by (split; by vm_compute). rewrite bind_ret.
    change (STRTAB_STE_DWORDS * 8) with 64. rewrite (wrap_small 64 (a + 64)) by lia.
    change (Z.lor STRTAB_STE_0_V (FIELD_PREP STRTAB_STE_0_CFG STRTAB_STE_0_CFG_BYPASS)) with 9. fold s1. rewrite Hrun. by destruct s.
  - intros x Hx. rewrite Hout by lia. unfold s1, stored. rsimpl. by rewrite !upd_ne by lia.
  - intros k Hk. destruct (decide (k = 0)) as [->|].
    + rewrite Hout by lia. unfold s1, stored. rsimpl. rewrite Z.mul_0_l, Z.add_0_r. by rewrite upd_eq.
    + replace (a + k * 64) with (a + 64 + (k - 1) * 64) by lia. apply Hin. lia.
Qed.

(** The table of a stream: there already, or allocated from the pool. *)
Definition table_available (alloc_fuel : nat) (s : smmu3) (sid : Z) : Prop :=
  has_leaf s sid = false → ∃ pp p', mem_alloc_ppages 4 true alloc_fuel (pages s) = Done (pp, p') ∧ base (pages s) ≤ pp_base pp.

Definition alter_desc (i : Z) (f : arm_smmu_strtab_l1_desc → arm_smmu_strtab_l1_desc) (s : smmu3) : smmu3 :=
  s <| strtab_cfg ::= λ c, c <| l1_descs ::= alter f i |> |>.

Lemma upd_desc_run {B} sid f (k : unit → prog smmu3 B) s : (upd_desc sid f ≫= k) s = k tt (alter_desc (sid / 256) f s).
Proof using. unfold upd_desc, upd_cfg. rewrite bind_modify. unfold STRTAB_SPLIT. rewrite Z.shiftr_div_pow2 by lia. done. Qed.

Lemma desc_alter_eq i f s : desc_at (alter_desc i f s) i = f (desc_at s i).
Proof using. unfold desc_at, alter_desc. rsimpl. by rewrite alter_eq. Qed.

Lemma desc_alter_ne i j f s : j ≠ i → desc_at (alter_desc i f s) j = desc_at s j.
Proof using. intros. unfold desc_at, alter_desc. rsimpl. by rewrite alter_ne. Qed.

Lemma desc_of_run {B} sid (k : arm_smmu_strtab_l1_desc → prog smmu3 B) s :
  0 ≤ sid / 256 < num_l1_ents (strtab_cfg s) → (desc_of sid ≫= k) s = k (desc_at s (sid / 256)) s.
Proof using.
  intros Hi. unfold desc_of. rewrite bind_bind, bind_gets. cbv zeta. unfold STRTAB_SPLIT. rewrite Z.shiftr_div_pow2 by lia. change (2 ^ 8) with 256.
  destruct (Z.ltb_spec (sid / 256) (num_l1_ents (strtab_cfg s))); [by rewrite bind_ret|lia].
Qed.

Lemma mem_alloc_run {B} n aligned fuel (k : Z → prog smmu3 B) s pp p' :
  mem_alloc_ppages n aligned fuel (pages s) = Done (pp, p') → (mem_alloc fuel n aligned ≫= k) s = k (pp_base pp) (s <| pages := p' |>).
Proof using.
  intros Ha. unfold mem_alloc, lift_prog, mem_alloc_page. unfold mbind at 1, prog_bind at 1. by rewrite (prog_bind_done _ _ _ _ _ Ha).
Qed.

(** The counters in the records do not matter. *)
Lemma counters_do_not_matter own s i f : streams_inv own s → (∀ d, l2ptr (f d) = l2ptr d) →
  streams_inv own (alter_desc i f s) ∧ (∀ sid, has_leaf (alter_desc i f s) sid = has_leaf s sid) ∧
  ∀ sid, stream_of (alter_desc i f s) sid = stream_of s sid.
Proof.
  intros I Hf. assert (∀ j, l2ptr (desc_at (alter_desc i f s) j) = l2ptr (desc_at s j)) as HF.
  { intros j. destruct (decide (j = i)) as [->|]; [by rewrite desc_alter_eq|by rewrite desc_alter_ne]. }
  split; [|split; [|done]].
  - destruct I as [I1 I2 I3 I4 I5 I6 I7 I8 I9 I10 I11 I12 I13 I14 I15 I16].
    constructor; [| |exact I3|exact I4|exact I5|exact I6|exact I7|exact I8|exact I9|exact I10|exact I11|exact I12|exact I13|exact I14|exact I15|].
    + destruct I1. by constructor.
    + exact I2.
    + intros j Hj. specialize (I16 j Hj). unfold leaf_ok in *. rewrite HF. exact I16.
  - intros sid. unfold has_leaf. by rewrite HF.
Qed.

Lemma init_l2_run own s sid vm stack af :
  streams_inv own s → 0 ≤ sid < 2 ^ sid_bits s → table_available af s sid →
  ∃ own' s', settles (λ f, arm_smmu_init_l2_strtab base_address (Some vm) f af stack sid) s 0 s' ∧ streams_inv own' s' ∧
    has_leaf s' sid = true ∧ sid_bits s' = sid_bits s ∧
    ∀ sid', 0 ≤ sid' → stream_of s' sid' =
      if negb (has_leaf s sid) && (sid' <? 2 ^ sid_bits s) && (sid' / 256 =? sid / 256) then Bypassed else stream_of s sid'.
Proof.
  intros I Hs Hav. pose proof (index_range own s sid I Hs) as Hi. pose proof (si_num _ _ I) as Hnum. pose proof (si_bits _ _ I) as Hb.
  destruct (has_leaf s sid) eqn:Hl; cbn [negb andb].
  - exists own, (alter_desc (sid / 256) (λ d, d <| active_stes ::= λ n, u32 (n + 1) |>) s).
    destruct (counters_do_not_matter own s (sid / 256) (λ d, d <| active_stes ::= λ n, u32 (n + 1) |>) I ltac:(done)) as (I' & Hl' & Hst).
    split; [apply settles_done; intros f; unfold arm_smmu_init_l2_strtab; rewrite desc_of_run by lia; fold (has_leaf s sid); rewrite Hl; by rewrite upd_desc_run|].
    split; [done|]. split; [by rewrite Hl'|]. split; [done|]. intros; apply Hst.
  - destruct (Hav Hl) as (pp & p' & Hal & Hge).
    destruct (mem_alloc_fresh 4 true af (pages s) pp p' own (si_pool _ _ I) (si_pool_lock _ _ I) ltac:(lia) (si_owned _ _ I) Hal Hge)
      as (Ha1 & Ha2 & Ha3 & Ha4 & Ha5 & Hp1 & Hp2 & Hp3 & Hp4 & Hp5).
    set (a := pp_base pp) in *.
    assert (a + LEAF_SIZE ≤ 2 ^ 52) as Htop by (pose proof (si_pool_top _ _ I); unfold LEAF_SIZE, PAGE_SIZE in *; lia).
    assert (a mod LEAF_SIZE = 0) as Halign by (by apply Ha3).
    destruct (si_table _ _ I) as (Ht0 & _ & Ht2 & _).
    set (i := sid / 256) in *.
    set (s1 := alter_desc i (λ d, d <| active_stes := 1 |>) (alter_desc i (λ d, d <| l2ptr_dma := paging_hvirt2phys a |>) (alter_desc i (λ d, d <| l2ptr := a |>)
      (alter_desc i (λ d, d <| span := u8 (STRTAB_SPLIT + 1) |>) s <| pages := p' |>)))).
    assert (desc_at s1 i = {| span := 9; l2ptr := a; l2ptr_dma := a; active_stes := 1 |}) as Hd.
    { unfold s1. rewrite !desc_alter_eq. change (desc_at (alter_desc i (λ d, d <| span := u8 (STRTAB_SPLIT + 1) |>) s <| pages := p' |>) i)
        with (desc_at (alter_desc i (λ d, d <| span := u8 (STRTAB_SPLIT + 1) |>) s) i). rewrite desc_alter_eq.
      unfold paging_hvirt2phys. rewrite (wrap_small 64 a) by (unfold LEAF_SIZE, PAGE_SIZE in *; lia). by destruct (desc_at s i). }
    destruct (bypass_run vm 256 a s1) as (m' & Hby & Hout & Hin); [unfold PAGE_SIZE in *; lia|unfold LEAF_SIZE in *; lia|].
    set (s2 := stored (table_of s + i * 8) (Z.lor 9 a) (s1 <| mem := m' |>)).
    assert (∀ f, arm_smmu_init_l2_strtab base_address (Some vm) f af stack sid s =
      (arm_smmu_cmdq_issue_cmd base_address f {| opcode := CMDQ_OP_CFGI_STE; substream_valid := negb (stack =? 0); args := cfgi sid 0 |};; mret 0) s2) as Hrun.
    { intros f. unfold arm_smmu_init_l2_strtab. rewrite desc_of_run by lia. fold (has_leaf s sid). rewrite Hl. cbv zeta. rewrite bind_gets. cbv zeta. rewrite upd_desc_run.
      change (NUM_PAGES (u32 (Z.shiftl 1 (STRTAB_SPLIT + STRTAB_STE_DWORDS_BITS + 3)))) with 4. rewrite (mem_alloc_run _ _ _ _ _ pp p') by done. fold a.
      rewrite upd_desc_run. destruct (Z.eqb_spec a 0); [unfold PAGE_SIZE in *; lia|]. rewrite !upd_desc_run. fold i. fold s1. rewrite (prog_bind_done _ _ _ _ _ (Hby f)).
      rewrite desc_of_run by (change (num_l1_ents (strtab_cfg (s1 <| mem := m' |>))) with (num_l1_ents (strtab_cfg s)); fold i; lia). fold i.
      change (desc_at (s1 <| mem := m' |>) i) with (desc_at s1 i). rewrite Hd. unfold arm_smmu_write_strtab_l1_desc. cbn [span l2ptr_dma].
      unfold STRTAB_SPLIT, STRTAB_L1_DESC_DWORDS. rewrite Z.shiftr_div_pow2 by lia. change (sid / 2 ^ 8) with i. fold (table_of s).
      rewrite (wrap_small 64 (table_of s + i * 1 * 8)) by lia. replace (i * 1 * 8) with (i * 8) by lia.
      change (FIELD_PREP STRTAB_L1_DESC_SPAN 9) with 9. change STRTAB_L1_DESC_L2PTR_MASK with (field 6 46).
      rewrite (land_field_id 6 46 a);
        [|lia|lia|change (2 ^ (6 + 46)) with (2 ^ 52); unfold LEAF_SIZE, PAGE_SIZE in *; lia|change (2 ^ 6) with 64; unfold LEAF_SIZE in *; dlia].
      rewrite store_run; [done|]. apply in_word_lor; [lia|by split|split; unfold LEAF_SIZE, PAGE_SIZE in *; lia]. }
    assert (leaf_added i a s s2) as A.
    { constructor; try done.
      - change (desc_at s2 i) with (desc_at s1 i). by rewrite Hd.
      - intros j Hj. change (desc_at s2 j) with (desc_at s1 j). unfold s1. rewrite !desc_alter_ne by done. unfold desc_at. rsimpl. fold (desc_at s j). by rewrite <-(desc_alter_ne i j (λ d, d <| span := u8 (STRTAB_SPLIT + 1) |>) s).
      - intros x Hx Hne. unfold s2, stored. rsimpl. rewrite upd_ne, Hout by (done || (unfold LEAF_SIZE in *; lia)). done.
      - unfold s2, stored. rsimpl. by rewrite upd_eq.
      - intros j Hj. unfold s2, stored. rsimpl. rewrite upd_ne; [apply Hin; lia|]. intros E.
        specialize (Ha5 ((a + j * 64) / PAGE_SIZE - a / PAGE_SIZE) ltac:(unfold LEAF_SIZE, PAGE_SIZE in *; dlia)).
        replace (a / PAGE_SIZE + _) with ((a + j * 64) / PAGE_SIZE) in Ha5 by lia. pose proof (si_table_owned _ _ I i Hi) as Hto. unfold owns in Hto. congruence. }
    assert (pages s2 = p') as Ep by done.
    assert (streams_inv (claim (a / PAGE_SIZE) 4 (RLeaf i) own) s2) as I2.
    { apply (leaf_added_inv own s s2 i a); rewrite ?Ep; try done. unfold has_leaf in Hl. by apply negb_false_iff, Z.eqb_eq in Hl. }
    assert (in_word 32 sid) as Hsid by (split; [lia|]; assert (2 ^ sid_bits s ≤ 2 ^ 25) by (apply Z.pow_le_mono_r; lia); lia).
    destruct (command_run {| opcode := CMDQ_OP_CFGI_STE; substream_valid := negb (stack =? 0); args := cfgi sid 0 |} s2) as (c & s3 & R3 & J3);
      [apply I2|apply I2|by apply cfgi_ok; [|by split]|].
    exists (claim (a / PAGE_SIZE) 4 (RLeaf i) own), s3. split; [|split; [by eapply inv_issued|split; [|split]]].
    + apply (settles_ext (λ f, arm_smmu_cmdq_issue_cmd base_address f _;; mret 0) _ s2 s 0 s3 Hrun). eapply settles_bind; [exact R3|]. by apply settles_done.
    + destruct (kept_entry _ _ sid (kept_issued _ _ _ J3)) as [_ ->]. unfold has_leaf. fold i. change (desc_at s2 i) with (desc_at s1 i). rewrite Hd. cbn [l2ptr].
      destruct (Z.eqb_spec a 0); [unfold PAGE_SIZE in *; lia|done].
    + destruct (kept_fields _ _ (kept_issued _ _ _ J3)) as (_ & -> & _). done.
    + intros sid' Hs'. rewrite (stream_issued (claim (a / PAGE_SIZE) 4 (RLeaf i) own) c s2 s3) by done.
      apply (leaf_added_stream own (claim (a / PAGE_SIZE) 4 (RLeaf i) own) s s2 i a sid'); try done; [unfold PAGE_SIZE in *; lia|].
      intros r x Hx. destruct (decide (a ≤ x < a + LEAF_SIZE)) as [Hx2|]; [|lia]. unfold owns in Hx.
      specialize (Ha5 (x / PAGE_SIZE - a / PAGE_SIZE) ltac:(unfold LEAF_SIZE, PAGE_SIZE in *; dlia)).
      replace (a / PAGE_SIZE + _) with (x / PAGE_SIZE) in Ha5 by lia. congruence.
Qed.

Lemma step_run {B} own s sid (k : Z → prog smmu3 B) :
  streams_inv own s → 0 ≤ sid < 2 ^ sid_bits s → has_leaf s sid = true → (arm_smmu_get_step_for_sid sid ≫= k) s = k (entry_of s sid) s.
Proof.
  intros I Hs Hl. unfold arm_smmu_get_step_for_sid. rewrite bind_bind, bind_gets, (si_two _ _ I), bind_bind.
  pose proof (index_range own s sid I Hs) as Hi. rewrite desc_of_run by (rewrite (si_num _ _ I); lia). rewrite bind_ret. f_equal.
  unfold STRTAB_SPLIT. change (Z.shiftl 1 8 - 1) with (Z.ones 8). rewrite Z.land_ones by lia. change (2 ^ 8) with 256. unfold entry_of.
  change (STRTAB_STE_DWORDS) with 8. pose proof (Z.mod_pos_bound sid 256 ltac:(lia)).
  destruct (si_l1 _ _ I _ Hi) as [(E & _)|(? & _ & ? & _)]; [unfold has_leaf in Hl; by rewrite E in Hl|].
  rewrite wrap_small by (unfold LEAF_SIZE in *; lia). lia.
Qed.

Lemma two_run {B} own s (k : bool → prog smmu3 B) : streams_inv own s → (gets two_level ≫= k) s = k true s.
Proof. intros I. by rewrite bind_gets, (si_two _ _ I). Qed.

(** ** Properties *)


(** No device while machines are created.  The driver takes number and tables from the VM that runs.  While
    none does, as when the hypervisor creates its virtual machines, giving a device to a VM
    dereferences NULL, whether or not the streams have a table. *)
Theorem smmuv3_device_needs_running_vm own s vmid sid fuel af stack :
  streams_inv own s → 0 ≤ sid < 2 ^ sid_bits s → table_available af s sid →
  arm_smmuv3_vm_dev_init base_address None fuel af stack vmid sid s = Halt FNull.
Proof.
  intros I Hs Hav. pose proof (index_range own s sid I Hs) as Hi. pose proof (si_num _ _ I) as Hnum.
  assert (arm_smmu_init_ste base_address None fuel af stack sid (u32 vmid) s = Halt FNull) as Hste.
  2: { unfold arm_smmuv3_vm_dev_init. unfold mbind at 1, prog_bind at 1. by rewrite Hste. }
  unfold arm_smmu_init_ste. rewrite (two_run own) by done.
  destruct (has_leaf s sid) eqn:Hl.
  - set (s1 := alter_desc (sid / 256) (λ d, d <| active_stes ::= λ n, u32 (n + 1) |>) s).
    destruct (counters_do_not_matter own s (sid / 256) (λ d, d <| active_stes ::= λ n, u32 (n + 1) |>) I ltac:(done)) as (I1 & Hl1 & _).
    assert (arm_smmu_init_l2_strtab base_address None fuel af stack sid s = Done (0, s1)) as Hrun.
    { unfold arm_smmu_init_l2_strtab. rewrite desc_of_run by lia. fold (has_leaf s sid). rewrite Hl. by rewrite upd_desc_run. }
    rewrite (prog_bind_done _ _ _ _ _ Hrun). cbn [Z.eqb negb]. rewrite (step_run own) by (done || by rewrite Hl1). done.
  - destruct (Hav Hl) as (pp & p' & Hal & Hge).
    destruct (mem_alloc_fresh 4 true af (pages s) pp p' own (si_pool _ _ I) (si_pool_lock _ _ I) ltac:(lia) (si_owned _ _ I) Hal Hge) as (Ha1 & _).
    assert (arm_smmu_init_l2_strtab base_address None fuel af stack sid s = Halt FNull) as Hrun; [|unfold mbind at 1, prog_bind at 1; by rewrite Hrun].
    unfold arm_smmu_init_l2_strtab. rewrite desc_of_run by lia. fold (has_leaf s sid). rewrite Hl. cbv zeta. rewrite bind_gets. cbv zeta. rewrite upd_desc_run.
    change (NUM_PAGES (u32 (Z.shiftl 1 (STRTAB_SPLIT + STRTAB_STE_DWORDS_BITS + 3)))) with 4. rewrite (mem_alloc_run _ _ _ _ _ pp p') by done.
    rewrite upd_desc_run. destruct (Z.eqb_spec (pp_base pp) 0); [unfold PAGE_SIZE in *; lia|]. by rewrite !upd_desc_run.
Qed.

End streams.

(** ** A table at work *)

(** 512 streams, none of which has a table: the ring in the first page of the pool, the first level in the
    second. *)
Definition sample_own (pg : Z) : option region :=
  if pg =? 0x50000 then Some RQueue else if pg =? 0x50001 then Some RTable else None.

Definition sample_table_regs (off : Z) : Z :=
  if off =? ARM_SMMU_CMDQ_BASE then Z.lor (Z.lor Q_BASE_RWA 0x50000000) 2
  else if (off =? ARM_SMMU_CMDQ_PROD) || (off =? ARM_SMMU_CMDQ_CONS) then 5
  else if off =? ARM_SMMU_CR0 then 0xd
  else if off =? ARM_SMMU_STRTAB_BASE then Z.lor 0x50001000 STRTAB_BASE_RA
  else if off =? ARM_SMMU_STRTAB_BASE_CFG then Z.lor (Z.lor 0x10000 9) 0x200 else 0.

Definition sample_tables : @smmu3 RingDevice :=
  sample_smmu3 <| dev := {| rf := sample_table_regs; done_cmds := []; late := true |} : @smmu3_device RingDevice |>
    <| cmdq ::= λ q, q <| q_mem := 0x50000000 |> |> <| sid_bits := 9 |>
    <| strtab_cfg := sample_cfg <| strtab := 0x50001000 |> <| num_l1_ents := 2 |> |>.

Lemma sample_tables_inv : streams_inv 0x9050000 sample_own sample_tables.
Proof.
  constructor.
  - constructor; first [split; by vm_compute | by vm_compute].
  - by split.
  - apply sample_pool_inv.
  - by split.
  - by vm_compute.
  - intros pg r. unfold sample_own. destruct (Z.eqb_spec pg 0x50000) as [->|]; [intros _; exists 0; split_and!; by vm_compute|].
    destruct (Z.eqb_spec pg 0x50001) as [->|]; [intros _; exists 1; split_and!; by vm_compute|done].
  - split; by vm_compute.
  - by vm_compute.
  - split; by vm_compute.
  - by vm_compute.
  - split_and!; by vm_compute.
  - intros i Hi. change (2 ^ (sid_bits sample_tables - 8)) with 2 in Hi. assert (i = 0 ∨ i = 1) as [-> | ->] by lia; by vm_compute.
  - by vm_compute.
  - by vm_compute.
  - by vm_compute.
  - intros i Hi. by left.
Qed.

Lemma sample_available sid : 0 ≤ sid < 512 → table_available 2 sample_tables sid.
Proof.
  intros Hs _. assert (match mem_alloc_ppages 4 true 2 sample_pool with Done (pp, _) => 0x50000000 <=? pp_base pp | Halt _ => false end = true) as Hc
    by (vm_compute; reflexivity).
  change (pages sample_tables) with sample_pool. destruct (mem_alloc_ppages 4 true 2 sample_pool) as [[pp p']|] eqn:E; [|done].
  exists pp, p'. split; [done|]. change (base sample_pool) with 0x50000000. by apply Z.leb_le.
Qed.


Lemma smmuv3_device_needs_running_vm_witness :
  arm_smmuv3_vm_dev_init 0x9050000 None 9 2 77 3 259 sample_tables = Halt FNull.
Proof. exact (smmuv3_device_needs_running_vm 0x9050000 sample_own sample_tables 3 259 9 2 77 sample_tables_inv ltac:(by split) (sample_available 259 ltac:(lia))). Defined.
