(* ===== verification/Smmuv3Init.v ===== *)
(** * Bringing the SMMUv3 up

    From a hardware that supports what the driver needs and a pool with pages, initialisation ends with
    the invariant of [Smmuv3Streams], and no stream is translated or passed. *)
From S2P Require Import Prelude Util Bits Bitmap Spinlock PagePool Smmuv3 Smmuv3Queue Smmuv3Streams.

Section init.
Context `{Smmu3Device} {L : Smmu3Laws}.
Variable base_address : Z.

#[local] Set Default Proof Using "All".

(** ** Registers that are acknowledged *)

Lemma ack_run val n s :
  smmu_base s = base_address → in_word 32 val → regs (dev s) ARM_SMMU_CR0 = val → (lag (dev s) < n)%nat →
  ∃ d', ack_loop base_address val ARM_SMMU_CR0ACK n s = Done (0, s <| dev := d' |>) ∧ regs d' = regs (dev s).
Proof.
  intros Hb Hv. revert s Hb. induction n as [|n IH]; intros s Hb Hr Hlag; [lia|].
  destruct (read_ack (mem s) (dev s)) as (v & d' & Hread & Hregs & _ & Hor). cbn [ack_loop].
  assert (smmu_read32 base_address ARM_SMMU_CR0ACK s = Done (u32 v, s <| dev := d' |>)) as Hrun.
  { unfold smmu_read32, mmio_read32. rewrite bind_gets, Hb, mmio_offset by (by split). by rewrite Hread. }
  rewrite (prog_bind_done _ _ _ _ _ Hrun). destruct (Z.eqb_spec (u32 v) val) as [E|E]; [by exists d'|].
  destruct Hor as [->|Hlt]; [by rewrite Hr, wrap_small in E|].
  destruct (IH (s <| dev := d' |>)) as (d2 & H2 & R2); [done|by rsimpl; rewrite Hregs|rsimpl; lia|].
  exists d2. rewrite H2. rsimpl_in R2. split; [by destruct s|]. by rewrite R2.
Qed.

Lemma reg_sync_run val s :
  smmu_base s = base_address → in_word 32 val →
  ∃ d', arm_smmu_write_reg_sync base_address val ARM_SMMU_CR0 ARM_SMMU_CR0ACK s = Done (0, s <| dev := d' |>) ∧
    regs d' = <[ARM_SMMU_CR0 := val]> (regs (dev s)).
Proof.
  intros Hb Hv. unfold arm_smmu_write_reg_sync. rewrite write_run by (done || by split). rewrite (wrap_small 32 val) by done.
  set (s1 := s <| dev ::= smmu3_write ARM_SMMU_CR0 val |>).
  assert (regs (dev s1) = <[ARM_SMMU_CR0 := val]> (regs (dev s))) as Hr by (unfold s1; rsimpl; apply write_regs; unfold writable; set_solver).
  destruct (ack_run val ARM_SMMU_SYNC_TIMEOUT s1) as (d' & H1 & R1); [done|done|by rewrite Hr, upd_eq|apply lag_bound|].
  exists d'. rewrite H1. split; [by destruct s|]. by rewrite R1.
Qed.

(** ** The structures before the hardware is told of them *)

Record structures_ok (own : Z → option region) (s : smmu3) : Prop := {
  so_base : smmu_base s = base_address;
  so_prod_reg : prod_reg (cmdq s) = base_address +64 ARM_SMMU_CMDQ_PROD;
  so_cons_reg : cons_reg (cmdq s) = base_address +64 ARM_SMMU_CMDQ_CONS;
  so_ent : ent_dwords (cmdq s) = CMDQ_ENT_DWORDS;
  so_gerr : gerr_mask (cmdq s) = GERROR_CMDQ_ERR;
  so_shift : 1 ≤ max_n_shift (cmdq s) ≤ 8;
  so_mem : 0 ≤ q_mem (cmdq s) ∧ q_mem (cmdq s) + PAGE_SIZE ≤ 2 ^ 52 ∧ q_mem (cmdq s) mod PAGE_SIZE = 0;
  so_qbase : q_base (cmdq s) = Z.lor (Z.lor Q_BASE_RWA (q_mem (cmdq s))) (max_n_shift (cmdq s));
  so_indices : prod (cmdq s) = 0 ∧ cons (cmdq s) = 0;
  so_lock : lock_free (cmdq_lock s);
  so_pool : pool_inv (pages s);
  so_pool_lock : lock_free (pool_lock (pages s));
  so_pool_top : base (pages s) + nr_pages (pages s) * PAGE_SIZE ≤ 2 ^ 52;
  so_owned : owned own (pages s);
  so_qpage : owns own RQueue (q_mem (cmdq s));
  so_two : two_level s = true;
  so_bits : 8 < sid_bits s ≤ 25;
  so_num : num_l1_ents (strtab_cfg s) = 2 ^ (sid_bits s - 8);
  so_table : 0 ≤ table_of s ∧ table_of s mod (2 ^ (sid_bits s - 8) * 8) = 0 ∧ table_of s + 2 ^ (sid_bits s - 8) * 8 ≤ 2 ^ 52 ∧ table_of s mod 64 = 0;
  so_table_owned i : 0 ≤ i < 2 ^ (sid_bits s - 8) → owns own RTable (table_of s + i * 8);
  so_strtab_base : strtab_base (strtab_cfg s) = Z.lor (table_of s) STRTAB_BASE_RA;
  so_strtab_cfg : strtab_base_cfg (strtab_cfg s) = Z.lor (Z.lor 0x10000 (sid_bits s)) 0x200;
  so_l1 i : 0 ≤ i < 2 ^ (sid_bits s - 8) → l2ptr (desc_at s i) = 0 ∧ mem s (table_of s + i * 8) = 0
}.

(** What the register of the ring holds. *)
Lemma q_base_fields a n : 0 ≤ a < 2 ^ 52 → a mod PAGE_SIZE = 0 → 1 ≤ n ≤ 8 →
  let v := Z.lor (Z.lor Q_BASE_RWA a) n in in_word 64 v ∧ Z.land v 31 = n ∧ Z.land v Q_BASE_ADDR_MASK = a.
Proof using.
  intros Ha Hm Hn v. assert (in_word 5 n) as Hn5 by (split; lia). assert (in_word 52 a) as Ha52 by done.
  split; [|split].
  - apply in_word_lor; [lia|apply in_word_lor; [lia|by split|split; lia]|split; lia].
  - apply Z.bits_inj'. intros i Hi. unfold v, Q_BASE_RWA. change 31 with (Z.ones 5). autorewrite with bits.
    destruct (Z.ltb_spec i 5); [|by rewrite (testbit_small 5 n) by (done || lia); rewrite !andb_false_r].
    rewrite (low_bits_zero 12 a) by (done || lia). zcase; cbn; by rewrite ?andb_true_r.
  - change Q_BASE_ADDR_MASK with (field 5 47). apply Z.bits_inj'. intros i Hi. unfold v, Q_BASE_RWA. rewrite Z.land_spec, testbit_field by lia. autorewrite with bits.
    destruct (Z.leb_spec 5 i).
    + rewrite (testbit_small 5 n) by (done || lia). destruct (Z.ltb_spec i 52).
      * zcase. cbn. by rewrite orb_false_r, andb_true_r.
      * rewrite (testbit_small 52 a) by (done || lia). zcase; cbn; by rewrite ?andb_false_r.
    + rewrite (low_bits_zero 12 a) by (done || lia). by rewrite andb_false_r.
Qed.

(** Registers the queue does not depend on. *)
Lemma idle_regs s d' :
  queue_idle base_address s →
  (∀ off, off ∈ [ARM_SMMU_CMDQ_BASE; ARM_SMMU_CMDQ_PROD; ARM_SMMU_CMDQ_CONS; ARM_SMMU_GERROR; ARM_SMMU_GERRORN] → regs d' off = regs (dev s) off) →
  Z.testbit (regs d' ARM_SMMU_CR0) 3 = true → queue_idle base_address (s <| dev := d' |>).
Proof.
  intros Q Hr H3. destruct Q as [Q1 Q2 Q3 Q4 Q5 Q6 Q7 Q8 Q9 Q10 Q11 Q12 Q13 Q14 Q15 Q16]. unfold queue_idle.
  assert (regs d' ARM_SMMU_CMDQ_BASE = regs (dev s) ARM_SMMU_CMDQ_BASE) as HB by (apply Hr; set_solver).
  constructor; rsimpl; try done.
  - unfold hw_shift. by rewrite HB.
  - unfold hw_queue. by rewrite HB.
  - by rewrite Hr by set_solver.
  - by rewrite Hr by set_solver.
  - by rewrite !Hr by set_solver.
Qed.

(** The queue turned on as the driver does. *)
Lemma idle_from own s d' :
  structures_ok own s → regs d' ARM_SMMU_CMDQ_BASE = q_base (cmdq s) → regs d' ARM_SMMU_CMDQ_PROD = 0 → regs d' ARM_SMMU_CMDQ_CONS = 0 →
  Z.testbit (regs d' ARM_SMMU_CR0) 3 = true → Z.land (Z.lxor (u32 (regs d' ARM_SMMU_GERROR)) (u32 (regs d' ARM_SMMU_GERRORN))) GERROR_CMDQ_ERR = 0 →
  queue_idle base_address (s <| dev := d' |>).
Proof.
  intros S HB HP HC H3 HG. destruct (so_mem _ _ S) as (M1 & M2 & M3). destruct (so_indices _ _ S) as [P0 C0]. pose proof (so_shift _ _ S) as Hsh.
  destruct (q_base_fields (q_mem (cmdq s)) (max_n_shift (cmdq s)) ltac:(unfold PAGE_SIZE in *; lia) M3 Hsh) as (_ & F1 & F2).
  assert (ring_index (max_n_shift (cmdq s)) 0) as R0 by (split; [done|lia]).
  unfold queue_idle. constructor; rsimpl; rewrite ?P0, ?C0; try done; try apply S.
  - unfold hw_shift. by rewrite HB, (so_qbase _ _ S).
  - unfold PAGE_SIZE in *. lia.
  - unfold hw_queue. by rewrite HB, (so_qbase _ _ S).
Qed.

Lemma word_ops op : op = CMDQ_OP_CFGI_ALL ∨ op = CMDQ_OP_TLBI_NSNH_ALL ∨ op = CMDQ_OP_TLBI_EL2_ALL →
  ∀ b, cmd_ok {| opcode := op; substream_valid := b; args := not_set |}.
Proof using. intros [-> | [-> | ->]] b; unfold cmd_ok; cbn [args opcode]; auto. Qed.

(** What is left once the commands of the reset are executed and the streams are turned on. *)
Lemma reset_streams own s d3 c s8 d11 :
  structures_ok own s → issued base_address c (s <| dev := d3 |>) s8 →
  (∀ off, off ∈ [ARM_SMMU_CMDQ_BASE; ARM_SMMU_CMDQ_PROD; ARM_SMMU_CMDQ_CONS; ARM_SMMU_GERROR; ARM_SMMU_GERRORN; ARM_SMMU_STRTAB_BASE;
     ARM_SMMU_STRTAB_BASE_CFG] → regs d11 off = regs (dev s8) off) →
  regs d3 ARM_SMMU_STRTAB_BASE = strtab_base (strtab_cfg s) → regs d3 ARM_SMMU_STRTAB_BASE_CFG = strtab_base_cfg (strtab_cfg s) →
  regs d11 ARM_SMMU_CR0 = 0xd →
  streams_inv base_address own (s8 <| dev := d11 |>).
Proof.
  intros S J Hr HB HC H0. set (s3 := s <| dev := d3 |>) in *. pose proof (is_rest _ _ _ _ J) as Hrest.
  assert (strtab_cfg s8 = strtab_cfg s ∧ pages s8 = pages s ∧ sid_bits s8 = sid_bits s ∧ features s8 = features s) as (E1 & E2 & E3 & E4) by (by rewrite Hrest).
  assert (q_mem (cmdq s8) = q_mem (cmdq s)) as E5 by (by rewrite (is_queue _ _ _ _ J)).
  assert (∀ i, 0 ≤ i < 2 ^ (sid_bits s - 8) → mem s8 (table_of s + i * 8) = mem s (table_of s + i * 8)) as Hmem.
  { intros i Hi. apply (is_mem _ _ _ _ J). change (q_mem (cmdq s3)) with (q_mem (cmdq s)). pose proof (so_table_owned _ _ S i Hi) as Ht.
    pose proof (so_qpage _ _ S) as Hq. destruct (so_mem _ _ S) as (_ & _ & Hal).
    destruct (decide (q_mem (cmdq s) ≤ table_of s + i * 8 < q_mem (cmdq s) + PAGE_SIZE)) as [Hin|]; [|lia]. exfalso. unfold owns, PAGE_SIZE in *.
    assert ((table_of s + i * 8) / 0x1000 = q_mem (cmdq s) / 0x1000) as E by dlia. congruence. }
  set (s11 := s8 <| dev := d11 |>).
  assert (table_of s11 = table_of s ∧ ∀ i, desc_at s11 i = desc_at s i) as [E6 E7].
  { unfold table_of, desc_at. change (strtab_cfg s11) with (strtab_cfg s8). by rewrite E1. }
  assert (∀ off, off ≠ ARM_SMMU_CMDQ_PROD → off ≠ ARM_SMMU_CMDQ_CONS → regs (dev s8) off = regs d3 off) as Hregs by (intros; by apply (is_regs _ _ _ _ J)).
  assert (queue_idle base_address s11) as Q.
  { apply idle_regs; [apply J|intros off Hoff; apply Hr; set_solver|]. by rewrite H0. }
  constructor; rewrite ?E6; try exact Q; change (dev s11) with d11; change (pages s11) with (pages s8); change (sid_bits s11) with (sid_bits s8);
    change (strtab_cfg s11) with (strtab_cfg s8); change (cmdq s11) with (cmdq s8); rewrite ?E1, ?E2, ?E3, ?E5.
  - apply (is_lock _ _ _ _ J). apply S.
  - apply S.
  - apply S.
  - apply S.
  - exact (so_owned _ _ S).
  - split; [apply S|exact (so_qpage _ _ S)].
  - unfold two_level. change (features s11) with (features s8). rewrite E4. apply S.
  - apply S.
  - apply S.
  - apply S.
  - exact (so_table_owned _ _ S).
  - by rewrite H0.
  - rewrite Hr, Hregs, HB by (done || set_solver). apply S.
  - rewrite Hr, Hregs, HC by (done || set_solver). apply S.
  - intros i Hi. left. rewrite E7. change (mem s11) with (mem s8). rewrite Hmem by done. by apply S.
Qed.

Lemma reset_run own s stack :
  structures_ok own s →
  Z.land (Z.lxor (u32 (regs (dev s) ARM_SMMU_GERROR)) (u32 (regs (dev s) ARM_SMMU_GERRORN))) GERROR_CMDQ_ERR = 0 →
  ∃ s', settles (λ f, arm_smmu_device_reset base_address f stack) s 0 s' ∧ streams_inv base_address own s' ∧ kept s s' ∧
    ∀ x, x < q_mem (cmdq s) ∨ q_mem (cmdq s) + PAGE_SIZE ≤ x → mem s' x = mem s x.
Proof.
  intros S HG. pose proof (so_base _ _ S) as Hb. destruct (so_mem _ _ S) as (M1 & M2 & M3). destruct (so_indices _ _ S) as [P0 C0].
  pose proof (so_shift _ _ S) as Hsh. pose proof (so_bits _ _ S) as Hbits. destruct (so_table _ _ S) as (T1 & _ & T2 & _).
  destruct (q_base_fields (q_mem (cmdq s)) (max_n_shift (cmdq s)) ltac:(unfold PAGE_SIZE in *; lia) M3 Hsh) as (Wq & _). rewrite <-(so_qbase _ _ S) in Wq.
  assert (in_word 64 (strtab_base (strtab_cfg s))) as Wb.
  { rewrite (so_strtab_base _ _ S). apply in_word_lor; [lia|split; [lia|]|by split]. assert (0 < 2 ^ (sid_bits s - 8)) by lia. lia. }
  assert (in_word 32 (strtab_base_cfg (strtab_cfg s))) as Wc.
  { rewrite (so_strtab_cfg _ _ S). apply in_word_lor; [lia|apply in_word_lor; [lia|by split|split; lia]|by split]. }
  destruct (reg_sync_run 0 s Hb ltac:(by split)) as (d1 & H1 & R1).
  set (d2 := smmu3_write ARM_SMMU_CMDQ_CONS 0 (smmu3_write ARM_SMMU_CMDQ_PROD 0 (smmu3_write ARM_SMMU_CMDQ_BASE (q_base (cmdq s))
    (smmu3_write ARM_SMMU_STRTAB_BASE_CFG (strtab_base_cfg (strtab_cfg s)) (smmu3_write ARM_SMMU_STRTAB_BASE (strtab_base (strtab_cfg s))
    (smmu3_write ARM_SMMU_CR1 CR1_VALUE d1)))))).
  assert (∀ off v d, off ∈ writable → ∀ o, regs (smmu3_write off v d) o = if decide (off = o) then v else regs d o) as Hw.
  { intros off v d Ho o. rewrite write_regs by done. apply upd_case. }
  set (s2 := s <| dev := d2 |>).
  destruct (reg_sync_run CR0_CMDQEN s2 Hb ltac:(split; by vm_compute)) as (d3 & H3 & R3). change (dev s2) with d2 in R3.
  assert (∀ o, regs d3 o = if decide (ARM_SMMU_CR0 = o) then CR0_CMDQEN else regs d2 o) as R3' by (intros o; rewrite R3; apply upd_case).
  assert (∀ o, regs d2 o = if decide (ARM_SMMU_CMDQ_CONS = o) then 0 else if decide (ARM_SMMU_CMDQ_PROD = o) then 0
     else if decide (ARM_SMMU_CMDQ_BASE = o) then q_base (cmdq s) else if decide (ARM_SMMU_STRTAB_BASE_CFG = o) then strtab_base_cfg (strtab_cfg s)
     else if decide (ARM_SMMU_STRTAB_BASE = o) then strtab_base (strtab_cfg s) else if decide (ARM_SMMU_CR1 = o) then CR1_VALUE else regs d1 o) as R2.
  { intros o. unfold d2. rewrite !Hw by (unfold writable; set_solver). done. }
  assert (∀ o, regs d3 o = if decide (ARM_SMMU_CR0 = o) then CR0_CMDQEN else if decide (ARM_SMMU_CMDQ_CONS = o) then 0 else if decide (ARM_SMMU_CMDQ_PROD = o) then 0
     else if decide (ARM_SMMU_CMDQ_BASE = o) then q_base (cmdq s) else if decide (ARM_SMMU_STRTAB_BASE_CFG = o) then strtab_base_cfg (strtab_cfg s)
     else if decide (ARM_SMMU_STRTAB_BASE = o) then strtab_base (strtab_cfg s) else if decide (ARM_SMMU_CR1 = o) then CR1_VALUE
     else if decide (ARM_SMMU_CR0 = o) then 0 else regs (dev s) o) as Rall.
  { intros o. rewrite R3', R2, R1. done. }
  set (s3 := s <| dev := d3 |>).
  assert (queue_idle base_address s3) as Q3.
  { apply (idle_from own); try done; try (by rewrite Rall). rewrite !Rall. exact HG. }
  destruct (command_run base_address {| opcode := CMDQ_OP_CFGI_ALL; substream_valid := negb (stack =? 0); args := not_set |} s3)
    as (c4 & s4 & [n4 H4] & J4); [done|apply S|apply word_ops; auto|].
  destruct (command_run base_address cmd_sync s4) as (c5 & s5 & [n5 H5] & J5); [apply J4|apply J4, S|apply sync_cmd_ok|].
  destruct (command_run base_address {| opcode := CMDQ_OP_TLBI_NSNH_ALL; substream_valid := negb (stack =? 0); args := not_set |} s5)
    as (c6 & s6 & [n6 H6] & J6); [apply J5|apply J5, J4, S|apply word_ops; auto|].
  destruct (command_run base_address {| opcode := CMDQ_OP_TLBI_EL2_ALL; substream_valid := negb (stack =? 0); args := not_set |} s6)
    as (c7 & s7 & [n7 H7] & J7); [apply J6|apply J6, J5, J4, S|apply word_ops; auto|].
  destruct (command_run base_address cmd_sync s7) as (c8 & s8 & [n8 H8] & J8); [apply J7|apply J7, J6, J5, J4, S|apply sync_cmd_ok|].
  pose proof (issued_trans base_address _ _ _ _ _ (issued_trans base_address _ _ _ _ _ (issued_trans base_address _ _ _ _ _ (issued_trans base_address _ _ _ _ _ J4 J5) J6) J7) J8) as J.
  clear J4 J5 J6 J7 J8.
  set (q := evtq s8).
  set (d9 := smmu3_write ARM_SMMU_EVTQ_CONS (u32 (cons q)) (smmu3_write ARM_SMMU_EVTQ_PROD (u32 (prod q)) (smmu3_write ARM_SMMU_EVTQ_BASE (u64 (q_base q)) (dev s8)))).
  assert (smmu_base s8 = base_address) as Hb8 by (by rewrite (is_rest _ _ _ _ J)).
  set (s9 := s8 <| dev := d9 |>).
  destruct (reg_sync_run (Z.lor CR0_CMDQEN CR0_EVTQEN) s9 Hb8 ltac:(split; by vm_compute)) as (d10 & H10 & R10). change (dev s9) with d9 in R10.
  set (s10 := s9 <| dev := d10 |>).
  destruct (reg_sync_run (Z.lor (Z.lor CR0_CMDQEN CR0_EVTQEN) CR0_SMMUEN) s10 Hb8 ltac:(split; by vm_compute)) as (d11 & H11 & R11). change (dev s10) with d10 in R11.
  assert (∀ o, regs d11 o = if decide (ARM_SMMU_CR0 = o) then 0xd else if decide (ARM_SMMU_EVTQ_CONS = o) then u32 (cons q) else if decide (ARM_SMMU_EVTQ_PROD = o) then u32 (prod q)
    else if decide (ARM_SMMU_EVTQ_BASE = o) then u64 (q_base q) else regs (dev s8) o) as Rend.
  { intros o. rewrite R11, R10. unfold d9. rewrite !upd_case, !Hw by (unfold writable; set_solver). by case_decide. }
  exists (s8 <| dev := d11 |>). split; [|split; [|split]].
  - exists (n4 + n5 + n6 + n7 + n8)%nat. intros f Hf. unfold arm_smmu_device_reset. rewrite (prog_bind_done _ _ _ _ _ H1). cbn [Z.eqb negb].
    rewrite write_run by (done || by split). rewrite bind_gets. rsimpl.
    rewrite write64_run, write_run, write64_run, write_run, write_run by (done || by split).
    rewrite P0, C0. rewrite (wrap_small 64 (strtab_base _)), (wrap_small 32 (strtab_base_cfg _)), (wrap_small 64 (q_base _)) by done.
    match goal with |- _ ?x = _ => change x with s2 end. rewrite (prog_bind_done _ _ _ _ _ H3). cbn [Z.eqb negb].
    change (s2 <| dev := d3 |>) with s3. unfold issue_op, arm_smmu_cmdq_issue_sync.
    rewrite (prog_bind_done _ _ _ _ _ (H4 f ltac:(lia))), (prog_bind_done _ _ _ _ _ (H5 f ltac:(lia))), (prog_bind_done _ _ _ _ _ (H6 f ltac:(lia))),
      (prog_bind_done _ _ _ _ _ (H7 f ltac:(lia))), (prog_bind_done _ _ _ _ _ (H8 f ltac:(lia))), bind_gets. fold q.
    rewrite write64_run, write_run, write_run by (done || by split).
    match goal with |- _ ?x = _ => change x with s9 end. rewrite (prog_bind_done _ _ _ _ _ H10). cbn [Z.eqb negb].
    change (s9 <| dev := d10 |>) with s10. rewrite H11. done.
  - apply (reset_streams own s d3 _ s8 d11 S J).
    + intros off Hoff. repeat (apply elem_of_cons in Hoff as [->|Hoff]; [by rewrite Rend|]). by apply elem_of_nil in Hoff.
    + by rewrite Rall.
    + by rewrite Rall.
    + by rewrite Rend.
  - unfold kept. rewrite (is_rest _ _ _ _ J). by destruct s.
  - intros x Hx. apply (is_mem _ _ _ _ J). exact Hx.
Qed.

(** ** Features *)

(** What the identification registers have to say: stage 2, a table of two levels, structures the driver places, a
    ring and more streams than one leaf holds. *)
Record supported (s : smmu3) : Prop := {
  su_levels : FIELD_GET IDR0_ST_LVL (u32 (regs (dev s) ARM_SMMU_IDR0)) = IDR0_ST_LVL_2LVL;
  su_stage2 : Z.land (u32 (regs (dev s) ARM_SMMU_IDR0)) IDR0_S2P ≠ 0;
  su_presets : Z.land (u32 (regs (dev s) ARM_SMMU_IDR1)) (Z.lor (Z.lor IDR1_TABLES_PRESET IDR1_QUEUES_PRESET) IDR1_REL) = 0;
  su_ring : 1 ≤ FIELD_GET IDR1_CMDQS (u32 (regs (dev s) ARM_SMMU_IDR1));
  su_sids : 8 < FIELD_GET IDR1_SIDSIZE (u32 (regs (dev s) ARM_SMMU_IDR1))
}.

Definition with_features (fe : Z) (s : smmu3) : smmu3 :=
  let r := u32 (regs (dev s) ARM_SMMU_IDR1) in
  s <| features := fe |> <| cmdq ::= λ q, q <| max_n_shift := Z.min CMDQ_MAX_SZ_SHIFT (FIELD_GET IDR1_CMDQS r) |> |>
    <| evtq ::= λ q, q <| max_n_shift := Z.min EVTQ_MAX_SZ_SHIFT (FIELD_GET IDR1_EVTQS r) |> |> <| sid_bits := FIELD_GET IDR1_SIDSIZE r |>.

Lemma lor_two a b : Z.land a 1 ≠ 0 → Z.land (Z.lor b a) 1 ≠ 0.
Proof using. rewrite Z.land_lor_distr_l, Z.lor_eq_0_iff. tauto. Qed.

Lemma features_run s :
  smmu_base s = base_address → supported s →
  ∃ fe, arm_smmu_device_init_features base_address s = Done (0, with_features fe s) ∧ Z.land fe ARM_SMMU_FEAT_2_LVL_STRTAB ≠ 0.
Proof.
  intros Hb [U1 U2%Z.eqb_neq U3 U4 U5]. unfold arm_smmu_device_init_features. rewrite !read_plain_run by (done || by split).
  rewrite bind_modify, U1. cbn [Z.eqb]. rewrite Z.eqb_refl, bind_modify, U2.
  set (r0 := u32 (regs (dev s) ARM_SMMU_IDR0)) in *. set (r1 := u32 (regs (dev s) ARM_SMMU_IDR1)) in *.
  set (one := Z.lor ARM_SMMU_FEAT_2_LVL_STRTAB 0).
  set (f1 := if negb (FIELD_GET IDR0_S1P r0 =? 0) then Z.lor IDR0_S1P one else one).
  set (f2 := if negb (FIELD_GET IDR0_VMID16 r0 =? 0) then Z.lor IDR0_VMID16 f1 else f1).
  assert (Z.land f2 1 ≠ 0) as Hf2 by (assert (Z.land one 1 ≠ 0) by done; unfold f2, f1; clearbody one; repeat case_match; repeat apply lor_two; done).
  exists f2. split; [|exact Hf2].
  set (s1 := s <| features := one |>).
  assert (∀ (B : Type) (b : bool) v (k : unit → prog smmu3 B) t, ((if b then modify (λ s, s <| features ::= Z.lor v |>) else mret tt) ≫= k) t =
    k tt (t <| features := if b then Z.lor v (features t) else features t |>)) as Hif.
  { intros B b v k t. destruct b; [by rewrite bind_modify|]. rewrite bind_ret. by destruct t. }
  rewrite !Hif. rewrite read_plain_run by (done || by split). 
  match goal with |- _ ?x = _ => assert (x = s <| features := f2 |>) as -> by reflexivity end.
  change (regs (dev (s <| features := f2 |>))) with (regs (dev s)). fold r1. rewrite U3. cbn [Z.eqb negb]. unfold upd_cmdq.
  rewrite bind_modify, bind_gets. rsimpl.
  destruct (Z.eqb_spec (Z.min CMDQ_MAX_SZ_SHIFT (FIELD_GET IDR1_CMDQS r1)) 0); [unfold CMDQ_MAX_SZ_SHIFT in *; lia|].
  rewrite !bind_modify, bind_gets. rsimpl. destruct (Z.leb_spec (FIELD_GET IDR1_SIDSIZE r1) STRTAB_SPLIT); [unfold STRTAB_SPLIT in *; lia|].
  rewrite bind_ret, run_ret. done.
Qed.

(** ** Pages for the structures *)

(** The pool serves these requests one after the other. *)
Fixpoint served (af : nat) (reqs : list (Z * bool)) (p : page_pool) : bool :=
  match reqs with
  | [] => true
  | (n, aligned) :: reqs =>
      match mem_alloc_ppages n aligned af p with Done (pp, p1) => (base p <=? pp_base pp) && served af reqs p1 | Halt _ => false end
  end.

Lemma served_cons af n aligned reqs p : served af ((n, aligned) :: reqs) p = true →
  ∃ pp p1, mem_alloc_ppages n aligned af p = Done (pp, p1) ∧ base p ≤ pp_base pp ∧ served af reqs p1 = true.
Proof using.
  cbn. destruct (mem_alloc_ppages _ _ _ _) as [[pp p1]|]; [|done]. intros [H1%Z.leb_le H2]%andb_true_iff. by exists pp, p1.
Qed.

(** An array of the first level: [n] records and words. *)
Lemma l1_loop_run n i a s :
  0 ≤ i → 0 ≤ a → a + Z.of_nat n * 8 < 2 ^ 64 →
  ∃ m ds, l1_loop i a n s = Done (tt, s <| mem := m |> <| strtab_cfg ::= λ c, c <| l1_descs := ds |> |>) ∧
    (∀ x, x < a ∨ a + Z.of_nat n * 8 ≤ x → m x = mem s x) ∧ (∀ j, j < i ∨ i + Z.of_nat n ≤ j → ds j = l1_descs (strtab_cfg s) j) ∧
    ∀ j, 0 ≤ j < Z.of_nat n → m (a + j * 8) = 0 ∧ ds (i + j) = zero_desc.
Proof using.
  revert i a s. induction n as [|n IH]; intros i a s Hi Ha Hb.
  - exists (mem s), (l1_descs (strtab_cfg s)). split; [|split_and!; [done|done|lia]]. cbn. destruct s as [?????????[]]. done.
  - cbn [l1_loop]. unfold upd_cfg. rewrite bind_modify, bind_gets. unfold arm_smmu_write_strtab_l1_desc. rsimpl. rewrite upd_eq.
    change (Z.lor (FIELD_PREP STRTAB_L1_DESC_SPAN (span zero_desc)) (Z.land (l2ptr_dma zero_desc) STRTAB_L1_DESC_L2PTR_MASK)) with 0.
    rewrite store_run by (by split). set (s1 := stored a 0 _).
    destruct (IH (i + 1) (a + 8) s1) as (m & ds & H1 & H2 & H3 & H4); [lia|lia|lia|].
    change STRTAB_L1_DESC_SIZE with 8. rewrite (wrap_small 64 (a + 8)) by lia. exists m, ds. split; [rewrite H1; by destruct s|].
    change (mem s1) with (<[a := 0]> (mem s)) in H2. change (l1_descs (strtab_cfg s1)) with (<[i := zero_desc]> (l1_descs (strtab_cfg s))) in H3.
    split_and!.
    + intros x Hx. rewrite H2, upd_ne by lia. done.
    + intros j Hj. rewrite H3, upd_ne by lia. done.
    + intros j Hj. destruct (decide (j = 0)) as [->|].
      * rewrite Z.mul_0_l, !Z.add_0_r, H2, H3, !upd_eq by lia. done.
      * specialize (H4 (j - 1) ltac:(lia)). replace (a + 8 + (j - 1) * 8) with (a + j * 8) in H4 by lia. by replace (i + 1 + (j - 1)) with (i + j) in H4 by lia.
Qed.

(** Pages that are not claimed. *)
Lemma owned_unclaimed own a n r p : owned (claim a n r own) p → (∀ i, 0 ≤ i < n → own (a + i) = None) → owned own p.
Proof using.
  intros Ho Hn pg r' E. apply (Ho pg r'). unfold claim. destruct ((a <=? pg) && (pg <? a + n)) eqn:Hin; [|done].
  apply andb_true_iff in Hin as [H1%Z.leb_le H2%Z.ltb_lt]. specialize (Hn (pg - a) ltac:(lia)). replace (a + (pg - a)) with pg in Hn by lia. congruence.
Qed.

(** One of the queues. *)
Lemma one_queue_run af q po co dw ge n s pp p1 :
  mem_alloc_ppages 1 false af (pages s) = Done (pp, p1) → smmu_base s = base_address → max_n_shift q = n → 0 ≤ n ≤ 8 →
  0 < pp_base pp < 2 ^ 52 → pp_base pp mod PAGE_SIZE = 0 →
  arm_smmu_init_one_queue af q po co dw ge s =
    Done ((0, {| q_mem := pp_base pp; base_dma := pp_base pp; q_base := Z.lor (Z.lor Q_BASE_RWA (pp_base pp)) n; ent_dwords := dw; max_n_shift := n;
                 prod := 0; cons := 0; prod_reg := base_address +64 po; cons_reg := base_address +64 co; gerr_mask := ge |}), s <| pages := p1 |>).
Proof using.
  intros Ha Hb Hq Hn Hp Hm. unfold arm_smmu_init_one_queue. rewrite (mem_alloc_run _ _ _ _ _ pp p1) by done.
  destruct (Z.eqb_spec (pp_base pp) 0); [lia|]. rewrite bind_gets, run_ret. rsimpl. rewrite Hq, Hb. unfold paging_hvirt2phys.
  rewrite (wrap_small 64 (pp_base pp)) by lia. change Q_BASE_ADDR_MASK with (field 5 47).
  rewrite (land_field_id 5 47 (pp_base pp)) by (lia || (unfold PAGE_SIZE in *; dlia)).
  assert (FIELD_PREP Q_BASE_LOG2SIZE n = n) as ->; [|destruct q; cbn in Hq; subst; by rsimpl].
  assert (n = 0 ∨ n = 1 ∨ n = 2 ∨ n = 3 ∨ n = 4 ∨ n = 5 ∨ n = 6 ∨ n = 7 ∨ n = 8) as Hc by lia. destruct_or! Hc; rewrite Hc; by vm_compute.
Qed.

(** Two queues, of which the first is the ring of commands. *)
Definition with_queues (s : smmu3) (a1 a2 : Z) (p : page_pool) : smmu3 :=
  let q (q : arm_smmu_queue) a dw po co ge :=
    {| q_mem := a; base_dma := a; q_base := Z.lor (Z.lor Q_BASE_RWA a) (max_n_shift q); ent_dwords := dw; max_n_shift := max_n_shift q;
       prod := 0; cons := 0; prod_reg := base_address +64 po; cons_reg := base_address +64 co; gerr_mask := ge |} in
  s <| pages := p |> <| cmdq := q (cmdq s) a1 CMDQ_ENT_DWORDS ARM_SMMU_CMDQ_PROD ARM_SMMU_CMDQ_CONS GERROR_CMDQ_ERR |>
    <| evtq := q (evtq s) a2 EVTQ_ENT_DWORDS ARM_SMMU_EVTQ_PROD ARM_SMMU_EVTQ_CONS GERROR_EVTQ_ABT_ERR |>.

Lemma queues_run af s pp1 p1 pp2 p2 :
  smmu_base s = base_address → 1 ≤ max_n_shift (cmdq s) ≤ 8 → 0 ≤ max_n_shift (evtq s) ≤ 8 →
  mem_alloc_ppages 1 false af (pages s) = Done (pp1, p1) → 0 < pp_base pp1 < 2 ^ 52 → pp_base pp1 mod PAGE_SIZE = 0 →
  mem_alloc_ppages 1 false af p1 = Done (pp2, p2) → 0 < pp_base pp2 < 2 ^ 52 → pp_base pp2 mod PAGE_SIZE = 0 →
  arm_smmu_init_queues af s = Done (0, with_queues s (pp_base pp1) (pp_base pp2) p2).
Proof using.
  intros Hb Hn1 Hn2 H1 B1 M1 H2 B2 M2. unfold arm_smmu_init_queues. rewrite bind_gets.
  rewrite (prog_bind_done _ _ _ _ _ (one_queue_run af (cmdq s) _ _ _ _ _ s pp1 p1 H1 Hb eq_refl ltac:(lia) B1 M1)). rewrite bind_modify. cbn [fst snd Z.eqb negb].
  rewrite bind_gets. set (s1 := _ <| cmdq := _ |>).
  rewrite (prog_bind_done _ _ _ _ _ (one_queue_run af (evtq s1) _ _ _ _ (max_n_shift (evtq s)) s1 pp2 p2 H2 Hb eq_refl Hn2 B2 M2)).
  rewrite bind_modify, run_ret. done.
Qed.

(** The table of two levels: [2 ^ k] words in it. *)
Definition with_tables (s : smmu3) (k a3 a4 : Z) (m : Z → Z) (ds : Z → arm_smmu_strtab_l1_desc) (p : page_pool) : smmu3 :=
  s <| pages := p |> <| mem := m |> <| sid_bits := k + 8 |>
    <| strtab_cfg := {| strtab := a3; strtab_dma := a3; l1_desc := a4; l1_descs := ds; num_l1_ents := 2 ^ k; strtab_base := Z.lor a3 STRTAB_BASE_RA;
                        strtab_base_cfg := Z.lor (Z.lor 0x10000 (k + 8)) 0x200 |} |>.

Lemma sizes k : 1 ≤ k ≤ 17 →
  u32 (Z.shiftl 1 k) = 2 ^ k ∧ u32 (2 ^ k * STRTAB_L1_DESC_SIZE) = 2 ^ k * 8 ∧ u32 (u64 (l1_desc_size * 2 ^ k)) = 32 * 2 ^ k ∧ u32 (k + 8) = k + 8 ∧
  u32 (Z.lor (Z.lor (FIELD_PREP STRTAB_BASE_CFG_FMT STRTAB_BASE_CFG_FMT_2LVL) (FIELD_PREP STRTAB_BASE_CFG_LOG2SIZE (k + 8)))
         (FIELD_PREP STRTAB_BASE_CFG_SPLIT STRTAB_SPLIT)) = Z.lor (Z.lor 0x10000 (k + 8)) 0x200 ∧
  (2 ^ k * 8 | NUM_PAGES (2 ^ k * 8) * PAGE_SIZE) ∧ 1 ≤ NUM_PAGES (2 ^ k * 8) ∧ 1 ≤ NUM_PAGES (32 * 2 ^ k).
Proof using.
  intros Hk. assert (∀ x, 1 ≤ x ≤ 17 → ∃ i, (i < 17)%nat ∧ x = 1 + Z.of_nat i) as Hx by (intros x ?; exists (Z.to_nat (x - 1)); lia).
  destruct (Hx k Hk) as (i & Hi & ->). do 17 (destruct i as [|i]; [split_and!; try (by vm_compute); apply Z.mod_divide; by vm_compute|]). lia.
Qed.

(** The rounds of the commands do not matter to it. *)
Lemma strtab_fuel vm fuel fuel' af s : two_level s = true → arm_smmu_init_strtab base_address vm fuel af s = arm_smmu_init_strtab base_address vm fuel' af s.
Proof using. intros Htwo. unfold arm_smmu_init_strtab. by rewrite !bind_gets, Htwo. Qed.

Lemma two_levels_run vm fuel af s k pp3 p3 pp4 p4 :
  two_level s = true → 8 < sid_bits s < 64 → k = Z.min 17 (sid_bits s - 8) →
  mem_alloc_ppages (NUM_PAGES (2 ^ k * 8)) true af (pages s) = Done (pp3, p3) → 0 < pp_base pp3 → pp_base pp3 + 2 ^ k * 8 ≤ 2 ^ 52 →
  pp_base pp3 mod 64 = 0 →
  mem_alloc_ppages (NUM_PAGES (32 * 2 ^ k)) false af p3 = Done (pp4, p4) → 0 < pp_base pp4 →
  ∃ m ds, arm_smmu_init_strtab base_address vm fuel af s = Done (0, with_tables s k (pp_base pp3) (pp_base pp4) m ds p4) ∧
    (∀ x, x < pp_base pp3 ∨ pp_base pp3 + 2 ^ k * 8 ≤ x → m x = mem s x) ∧
    ∀ j, 0 ≤ j < 2 ^ k → m (pp_base pp3 + j * 8) = 0 ∧ ds j = zero_desc.
Proof using.
  intros Htwo Hb Hk A3 B3 T3 M3 A4 B4. assert (1 ≤ k ≤ 17) as Hk' by lia. destruct (sizes k Hk') as (S1 & S2 & S3 & S4 & S5 & _).
  assert (2 ≤ 2 ^ k) as Hpow by (replace 2 with (2 ^ 1) at 1 by done; apply Z.pow_le_mono_r; lia).
  unfold arm_smmu_init_strtab. rewrite bind_gets, Htwo. unfold arm_smmu_init_strtab_2lvl. rewrite bind_bind, bind_gets, bind_bind. cbv zeta. unfold upd_cfg.
  assert (Z.min (STRTAB_L1_SZ_SHIFT - 3) (u32 (sid_bits s - STRTAB_SPLIT)) = k) as -> by (unfold STRTAB_SPLIT; rewrite wrap_small by lia; done).
  change (u32 (k + STRTAB_SPLIT)) with (u32 (k + 8)). rewrite bind_modify, S1, S4, bind_bind.
  assert (∀ (B : Type) (g : unit → prog smmu3 B) t, sid_bits t = sid_bits s →
    ((if k + 8 <? sid_bits s then modify (λ s, s <| sid_bits := k + 8 |>) else mret tt) ≫= g) t = g tt (t <| sid_bits := k + 8 |>)) as Hif.
  { intros B g t Ht. destruct (Z.ltb_spec (k + 8) (sid_bits s)); [by rewrite bind_modify|]. rewrite bind_ret. f_equal.
    assert (k + 8 = sid_bits t) as -> by lia. by destruct t. }
  rewrite Hif by done. rewrite bind_bind, bind_gets, bind_bind. rsimpl. rewrite S2.
  set (s1 := s <| strtab_cfg ::= _ |> <| sid_bits := _ |>).
  rewrite (mem_alloc_run _ _ _ _ _ pp3 p3) by done. destruct (Z.eqb_spec (pp_base pp3) 0); [lia|]. rewrite bind_bind, bind_modify, bind_bind, bind_modify.
  unfold arm_smmu_init_l1_strtab. rewrite bind_bind, bind_gets, bind_bind. rsimpl.
  match goal with |- context [l1_desc_size *64 ?x] => change x with (2 ^ k) end. rewrite S3.
  rewrite (mem_alloc_run _ _ _ _ _ pp4 p4) by done. rewrite bind_bind. unfold upd_cfg. rewrite bind_modify.
  destruct (Z.eqb_spec (pp_base pp4) 0); [lia|]. rewrite bind_bind. rsimpl. set (s2 := _ <| strtab_cfg ::= _ |>).
  destruct (l1_loop_run (Z.to_nat (2 ^ k)) 0 (pp_base pp3) s2) as (m & ds & H1 & H2 & _ & H4); [lia|lia|lia|].
  rewrite (prog_bind_done _ _ _ _ _ H1), bind_ret. cbn [Z.eqb negb]. rewrite bind_modify, run_ret.
  exists m, ds. rewrite Z2Nat.id in H2, H4 by lia. split; [|split; [exact H2|exact H4]].
  assert (paging_hvirt2phys (pp_base pp3) = pp_base pp3) as E1 by (apply wrap_small; lia).
  assert (Z.land (pp_base pp3) STRTAB_BASE_ADDR_MASK = pp_base pp3) as E2 by (apply (land_field_id 6 46); (done || lia)).
  set (a3 := pp_base pp3) in *.
  enough (∀ d b c, d = a3 → b = Z.lor a3 STRTAB_BASE_RA → c = Z.lor (Z.lor 0x10000 (k + 8)) 0x200 →
    s <| pages := p4 |> <| mem := m |> <| sid_bits := k + 8 |>
      <| strtab_cfg := {| strtab := a3; strtab_dma := d; l1_desc := pp_base pp4; l1_descs := ds; num_l1_ents := 2 ^ k; strtab_base := b; strtab_base_cfg := c |} |>
    = with_tables s k a3 (pp_base pp4) m ds p4) as Hw.
  { rewrite <-(Hw (paging_hvirt2phys a3) (Z.lor (Z.land (paging_hvirt2phys a3) STRTAB_BASE_ADDR_MASK) STRTAB_BASE_RA) _ E1 ltac:(by rewrite E1, E2) S5). reflexivity. }
  by intros d b c -> -> ->.
Qed.

Lemma claim_owns own a n r o : a mod PAGE_SIZE = 0 → 0 ≤ o < n * PAGE_SIZE → owns (claim (a / PAGE_SIZE) n r own) r (a + o).
Proof using. intros Ha Ho. unfold owns, claim, PAGE_SIZE in *. zcase; [done|exfalso; dlia..]. Qed.

Lemma claim_kept own a n r r' x : own x = Some r → (∀ i, 0 ≤ i < n → own (a + i) = None) → claim a n r' own x = Some r.
Proof using.
  intros E Hn. unfold claim. destruct ((a <=? x) && (x <? a + n)) eqn:Hin; [|done].
  apply andb_true_iff in Hin as [H1%Z.leb_le H2%Z.ltb_lt]. specialize (Hn (x - a) ltac:(lia)). replace (a + (x - a)) with x in Hn by lia. congruence.
Qed.

(** What is asked of the pool, for [2 ^ k] words of the first level. *)
Definition structure_pages (k : Z) : list (Z * bool) :=
  [(1, false); (1, false); (NUM_PAGES (2 ^ k * 8), true); (NUM_PAGES (32 * 2 ^ k), false)].

(** Before the driver runs. *)
Record fresh_pool (p : page_pool) : Prop := {
  fp_inv : pool_inv p;
  fp_lock : lock_free (pool_lock p);
  fp_top : base p + nr_pages p * PAGE_SIZE ≤ 2 ^ 52
}.

Lemma alloc_step n aligned af p pp p' own :
  fresh_pool p → owned own p → 1 ≤ n → mem_alloc_ppages n aligned af p = Done (pp, p') → base p ≤ pp_base pp →
  let a := pp_base pp in
  0 < a ∧ a + n * PAGE_SIZE ≤ 2 ^ 52 ∧ a mod PAGE_SIZE = 0 ∧ (aligned = true → a mod (n * PAGE_SIZE) = 0) ∧
  (∀ i, 0 ≤ i < n → own (a / PAGE_SIZE + i) = None) ∧ fresh_pool p' ∧ ∀ r, owned (claim (a / PAGE_SIZE) n r own) p'.
Proof using.
  intros [F1 F2 F3] Ho Hn Ha Hb a. destruct (mem_alloc_fresh n aligned af p pp p' own F1 F2 Hn Ho Ha Hb) as (A1 & A2 & A3 & A4 & A5 & A6 & A7 & A8 & A9 & A10).
  fold a in A1, A2, A3, A4, A5, A10. split_and!; try done; [unfold PAGE_SIZE in *; lia|lia|]. constructor; [done|done|]. by rewrite A8, A9.
Qed.

Lemma structures_run vm af s k :
  smmu_base s = base_address → two_level s = true → 8 < sid_bits s < 64 → k = Z.min 17 (sid_bits s - 8) →
  1 ≤ max_n_shift (cmdq s) ≤ 8 → 0 ≤ max_n_shift (evtq s) ≤ 8 → lock_free (cmdq_lock s) →
  fresh_pool (pages s) → served af (structure_pages k) (pages s) = true →
  ∃ own s', (∀ fuel, arm_smmu_init_structures base_address vm fuel af s = Done (0, s')) ∧ structures_ok own s' ∧ dev s' = dev s.
Proof.
  intros Hb Htwo Hbits Hk Hn1 Hn2 Hl F0 Hs. unfold structure_pages in Hs.
  apply served_cons in Hs as (pp1 & p1 & A1 & G1 & Hs). apply served_cons in Hs as (pp2 & p2 & A2 & G2 & Hs).
  apply served_cons in Hs as (pp3 & p3 & A3 & G3 & Hs). apply served_cons in Hs as (pp4 & p' & A4 & G4 & _). subst k.
  set (k := Z.min 17 (sid_bits s - 8)) in *. assert (1 ≤ k ≤ 17) as Hk by lia. destruct (sizes k Hk) as (_ & _ & _ & _ & _ & Hdiv & N3 & N4).
  destruct (alloc_step 1 false af (pages s) pp1 p1 (λ _, None) F0 ltac:(done) ltac:(lia) A1 G1) as (P1 & T1 & M1 & _ & _ & F1 & O1).
  specialize (O1 RQueue). set (own1 := claim _ _ _ _) in *.
  destruct (alloc_step 1 false af p1 pp2 p2 own1 F1 O1 ltac:(lia) A2 G2) as (P2 & T2 & M2 & _ & W2 & F2 & O2).
  specialize (O2 RQueue). set (own2 := claim (pp_base pp2 / _) _ _ _) in *.
  destruct (alloc_step _ true af p2 pp3 p3 own2 F2 O2 N3 A3 G3) as (P3 & T3 & M3 & L3 & W3 & F3 & O3). specialize (L3 eq_refl).
  specialize (O3 RTable). set (own3 := claim (pp_base pp3 / _) _ _ _) in *.
  destruct (alloc_step _ false af p3 pp4 p' own3 F3 O3 N4 A4 G4) as (P4 & T4 & M4 & _ & W4 & F4 & O4).
  set (a3 := pp_base pp3) in *. assert (2 ^ k * 8 ≤ NUM_PAGES (2 ^ k * 8) * PAGE_SIZE) as Hle by (apply Z.divide_pos_le; [unfold PAGE_SIZE; lia|done]).
  assert (0 < 2 ^ k) as Hpow by lia.
  assert (a3 mod (2 ^ k * 8) = 0) as Hal.
  { apply Z.mod_divide; [lia|]. etransitivity; [exact Hdiv|]. apply Z.mod_divide; [unfold PAGE_SIZE; lia|done]. }
  assert (a3 mod 64 = 0) as H64 by (unfold PAGE_SIZE in *; dlia).
  set (s1 := with_queues s (pp_base pp1) (pp_base pp2) p2).
  destruct (two_levels_run vm 0 af s1 k pp3 p3 pp4 p') as (m & ds & H2 & Hout & Hin); try done; [by fold a3; lia|].
  fold a3 in H2, Hout, Hin. set (s2 := with_tables s1 k a3 (pp_base pp4) m ds p') in *.
  exists own3, s2. split; [|split; [|done]].
  { intros fuel. unfold arm_smmu_init_structures. rewrite (prog_bind_done _ _ _ _ _ (queues_run af s pp1 p1 pp2 p2 Hb Hn1 Hn2 A1 ltac:(unfold PAGE_SIZE in *; lia) M1 A2 ltac:(unfold PAGE_SIZE in *; lia) M2)).
    cbn [Z.eqb negb]. by rewrite (strtab_fuel vm fuel 0). }
  assert (own3 (pp_base pp1 / PAGE_SIZE) = Some RQueue) as Hq.
  { apply claim_kept; [apply claim_kept; [|done]|done]. unfold own1, claim. by zcase. }
  assert (sid_bits s2 - 8 = k) as Ek by (change (sid_bits s2) with (k + 8); lia).
  constructor; rewrite ?Ek; try done; try (apply F4).
  - change (q_mem (cmdq s2)) with (pp_base pp1). split_and!; [lia|unfold PAGE_SIZE in *; lia|done].
  - exact (owned_unclaimed own3 _ _ RTable p' (O4 RTable) W4).
  - change (sid_bits s2) with (k + 8). lia.
  - change (table_of s2) with a3. split_and!; [lia|done|lia|done].
  - intros i Hi. change (table_of s2) with a3. apply claim_owns; [done|lia].
  - intros i Hi. change (table_of s2) with a3. change (mem s2) with m. change (desc_at s2 i) with (ds i). destruct (Hin i Hi) as [-> ->]. done.
Qed.

Definition table_bits (s : smmu3) : Z := Z.min 17 (FIELD_GET IDR1_SIDSIZE (u32 (regs (dev s) ARM_SMMU_IDR1)) - 8).

Lemma init_run s vm af stack :
  supported s → Z.land (Z.lxor (u32 (regs (dev s) ARM_SMMU_GERROR)) (u32 (regs (dev s) ARM_SMMU_GERRORN))) GERROR_CMDQ_ERR = 0 →
  lock_free (cmdq_lock s) → fresh_pool (pages s) → served af (structure_pages (table_bits s)) (pages s) = true →
  ∃ own s1 s', structures_ok own s1 ∧ settles (λ f, arm_smmuv3_init base_address vm f af stack) s tt s' ∧ streams_inv base_address own s' ∧ kept s1 s'.
Proof.
  intros Hs HG Hl HF Hsrv. pose proof (FIELD_GET_field 0 6 (u32 (regs (dev s) ARM_SMMU_IDR1)) ltac:(lia) ltac:(lia) ltac:(lia)) as Hsid.
  pose proof (FIELD_GET_field 16 5 (u32 (regs (dev s) ARM_SMMU_IDR1)) ltac:(lia) ltac:(lia) ltac:(lia)) as Hev.
  change (field 0 6) with IDR1_SIDSIZE in Hsid. change (field 16 5) with IDR1_EVTQS in Hev.
  pose proof (su_sids s Hs) as U5. pose proof (su_ring s Hs) as U4.
  set (s0 := s <| smmu_base := base_address |>). destruct (features_run s0) as (fe & H1 & Hfe); [done|by destruct Hs|].
  set (s2 := with_features fe s0) in *.
  destruct (structures_run vm af s2 (table_bits s)) as (own & s3 & H3 & S & Ed); try done.
  - unfold two_level. change (features s2) with fe. by apply negb_true_iff, Z.eqb_neq.
  - change (sid_bits s2) with (FIELD_GET IDR1_SIDSIZE (u32 (regs (dev s) ARM_SMMU_IDR1))). split; [done|]. rewrite Hsid. apply Z.mod_pos_bound. done.
  - change (max_n_shift (cmdq s2)) with (Z.min CMDQ_MAX_SZ_SHIFT (FIELD_GET IDR1_CMDQS (u32 (regs (dev s) ARM_SMMU_IDR1)))). unfold CMDQ_MAX_SZ_SHIFT. lia.
  - change (max_n_shift (evtq s2)) with (Z.min EVTQ_MAX_SZ_SHIFT (FIELD_GET IDR1_EVTQS (u32 (regs (dev s) ARM_SMMU_IDR1)))). unfold EVTQ_MAX_SZ_SHIFT.
    rewrite Hev. pose proof (Z.mod_pos_bound (Z.shiftr (u32 (regs (dev s) ARM_SMMU_IDR1)) 16) (2 ^ 5) ltac:(lia)). lia.
  - destruct (reset_run own s3 stack S) as (s' & [n Hn] & I & K & _); [by rewrite Ed|].
    exists own, s3, s'. split; [done|]. split; [|by split]. exists n. intros f Hf. unfold arm_smmuv3_init. rewrite bind_modify. change (s <| smmu_base := base_address |>) with s0.
    rewrite (prog_bind_done _ _ _ _ _ H1), (prog_bind_done _ _ _ _ _ (H3 f)), (prog_bind_done _ _ _ _ _ (Hn f Hf)). done.
Qed.

(** C32: bringing the SMMU up.  From hardware that supports stage 2 and a table of two levels, with the four
    allocations served, [arm_smmuv3_init] comes back, however late the hardware acknowledges and
    fetches.  The invariant of the table holds then, with as many streams as the hardware has but at most
    [2 ^ 25], and no stream is translated or passed. *)
Theorem smmuv3_init_streams s vm af stack :
  supported s → Z.land (Z.lxor (u32 (regs (dev s) ARM_SMMU_GERROR)) (u32 (regs (dev s) ARM_SMMU_GERRORN))) GERROR_CMDQ_ERR = 0 →
  lock_free (cmdq_lock s) → fresh_pool (pages s) → served af (structure_pages (table_bits s)) (pages s) = true →
  ∃ own s', settles (λ f, arm_smmuv3_init base_address vm f af stack) s tt s' ∧ streams_inv base_address own s' ∧
    ∀ sid, 0 ≤ sid → stream_of s' sid = Aborted.
Proof.
  intros Hs HG Hl HF Hsrv. destruct (init_run s vm af stack Hs HG Hl HF Hsrv) as (own & s1 & s' & S & R & I & K).
  exists own, s'. split; [done|]. split; [done|]. intros sid Hsid. rewrite (stream_eq base_address own) by done.
  destruct (Z.ltb_spec sid (2 ^ sid_bits s')); [|done]. destruct (kept_fields _ _ K) as (_ & Eb & _). destruct (kept_entry _ _ sid K) as [_ ->].
  unfold has_leaf. pose proof (index_range base_address own s' sid I ltac:(lia)) as Hi. rewrite Eb in Hi. by rewrite (proj1 (so_l1 _ _ S _ Hi)).
Qed.

End init.

(** An SMMU with 512 streams and a ring of four commands, as it comes out of reset. *)
Definition sample_reset_regs (off : Z) : Z :=
  if off =? ARM_SMMU_IDR0 then 0x8000001 else if off =? ARM_SMMU_IDR1 then 0x400009 else 0.

Definition sample_reset : @smmu3 RingDevice :=
  sample_smmu3 <| dev := {| rf := sample_reset_regs; done_cmds := []; late := true |} : @smmu3_device RingDevice |>.

Lemma smmuv3_init_streams_witness :
  ∃ own s', settles (λ f, arm_smmuv3_init 0x9050000 None f 2 77) sample_reset tt s' ∧ streams_inv 0x9050000 own s' ∧ stream_of s' 300 = Aborted.
Proof.
  destruct (smmuv3_init_streams 0x9050000 sample_reset None 2 77) as (own & s' & H1 & H2 & H3).
  - constructor; by vm_compute.
  - by vm_compute.
  - by split.
  - constructor; [apply sample_pool_inv|by split|by vm_compute].
  - by vm_compute.
  - exists own, s'. split; [exact H1|]. split; [exact H2|]. by apply H3.
Defined.
